(** * DeepWiki-to-Markdown extension: the batch conversion orchestrator

    A shallow embedding of the service worker ([src/background.js] and its
    later revision [src/unnamed/part_000]) and of the readiness probe of the
    content script ([src/content.js]), with the properties of the delivery
    queue, the navigation coordinator, the page processor and the batch
    state machine.

    Conventions.
    - A JavaScript value that is either a string or [undefined]/[null] is an
      [option string]; [!x] is [Js.falsy x].
    - Strings are [String.string]; [length] counts its characters, so the
      model is exact on text whose UTF-16 code units are below 256.
    - The platform's [URL] constructor is not part of the repository: the
      functions that call it take it as a section variable.  [SimpleUrl.parse]
      is a reference instance for [scheme://authority/path?query#fragment]
      addresses, used to evaluate the model on concrete addresses.
    - Asynchronous code is modelled by what it does between two suspension
      points; what the browser answers at a suspension point is an input. *)

From Stdlib Require Import ZArith String Ascii List Bool Lia DecimalString DecimalNat.
From stdpp Require Import base option list gmap strings.

Import ListNotations.
Local Open Scope string_scope.
Local Open Scope list_scope.

(** * JavaScript primitives *)

Module Js.

(** [!x] for a value that is a string, [undefined] or [null]. *)
Definition falsy (x : option string) : bool :=
  match x with
  | None => true
  | Some s => if String.eqb s "" then true else false
  end.

(** [x || d] on such a value. *)
Definition or_else (x : option string) (d : string) : string :=
  if falsy x then d else default d x.

(** [s.startsWith(p)]. *)
Definition startsWith (s p : string) : bool := String.prefix p s.

(** [s.includes(p)]. *)
Fixpoint includes (s p : string) : bool :=
  if String.prefix p s then true
  else match s with
       | EmptyString => false
       | String _ s' => includes s' p
       end.

(** White space of [String.prototype.trim] and of the regular expression
    class [\s], among the characters below 256: TAB, LF, VT, FF, CR, SPACE
    and NBSP. *)
Definition isWhiteSpace (c : ascii) : bool :=
  let n := nat_of_ascii c in
  ((9 <=? n) && (n <=? 13))%nat || (n =? 32)%nat || (n =? 160)%nat.

Fixpoint trimStart (s : string) : string :=
  match s with
  | EmptyString => EmptyString
  | String c s' => if isWhiteSpace c then trimStart s' else s
  end.

(** The trailing white space goes when everything after a character is
    white space. *)
Fixpoint trimEnd (s : string) : string :=
  match s with
  | EmptyString => EmptyString
  | String c s' =>
      match trimEnd s' with
      | EmptyString => if isWhiteSpace c then EmptyString else String c EmptyString
      | t => String c t
      end
  end.

Definition trim (s : string) : string := trimEnd (trimStart s).

(** [s.replace(/\/$/, '')]: one trailing slash is dropped. *)
Fixpoint dropTrailingSlash (s : string) : string :=
  match s with
  | EmptyString => EmptyString
  | String c EmptyString => if Ascii.eqb c "/" then EmptyString else s
  | String c s' => String c (dropTrailingSlash s')
  end.

End Js.

(** * Addresses *)

(** The fields of a [URL] object that the extension reads. *)
Record Url := mkUrl {
  origin : string;
  hostname : string;
  pathname : string;
  hash : string
}.

(** A reference parser for addresses of the shape
    [scheme://authority/path?query#fragment].  It does none of the
    normalisation of the platform parser (case, default ports, dot segments,
    percent encoding), so it agrees with it on addresses that are already
    normal; anything without [://] or with an empty scheme or authority is
    refused, as the platform refuses a relative address without a base. *)
Module SimpleUrl.

(** Splits at the first character satisfying [stop]; the stop character
    stays at the head of the second part. *)
Fixpoint break (stop : ascii -> bool) (s : string) : string * string :=
  match s with
  | EmptyString => (EmptyString, EmptyString)
  | String c s' =>
      if stop c then (EmptyString, s)
      else let '(a, b) := break stop s' in (String c a, b)
  end.

(** Splits at the first occurrence of [://]. *)
Fixpoint splitScheme (s : string) : option (string * string) :=
  match s with
  | EmptyString => None
  | String c s' =>
      if String.prefix "://" s then Some (EmptyString, String.substring 3 (String.length s - 3) s)
      else match splitScheme s' with
           | Some (a, b) => Some (String c a, b)
           | None => None
           end
  end.

Definition isOneOf (cs : list ascii) (c : ascii) : bool :=
  existsb (Ascii.eqb c) cs.

Definition parse (s : string) : option Url :=
  match splitScheme s with
  | None => None
  | Some (scheme, rest) =>
      let '(authority, afterAuth) := break (isOneOf ["/"; "?"; "#"]%char) rest in
      let '(path, afterPath) := break (isOneOf ["?"; "#"]%char) afterAuth in
      let '(_, fragment) := break (isOneOf ["#"]%char) afterPath in
      if String.eqb scheme "" || String.eqb authority "" then None
      else Some {|
        origin := scheme +:+ "://" +:+ authority;
        hostname := fst (break (isOneOf [":"]%char) authority);
        pathname := if String.eqb path "" then "/" else path;
        hash := if String.eqb fragment "#" then "" else fragment
      |}
  end.

End SimpleUrl.

(** * Messages exchanged with the content script *)

(** A request: the [action] and the rest of the object, which the service
    worker never inspects once it is built. *)
Record Message := mkMessage {
  action : string;
  details : list (string * string)
}.

(** [getContentReadinessMetrics()] of the content script, as the service
    worker reads it back. *)
Record Metrics := mkMetrics {
  hasContainer : bool;
  textLength : Z;
  meaningfulCount : Z;
  hasMermaid : bool
}.

(** A page descriptor of [extractAllPages]; [devinIndex] is [Some i] when
    [Number.isInteger(page.devinIndex)]. *)
Record Page := mkPage {
  title : string;
  url : option string;
  devinIndex : option Z;
  numberPrefix : option string
}.

(** A response object: the properties the service worker reads.  A property
    that is absent reads as [undefined]: [None], or [false] for the flags,
    which are only tested for truthiness. *)
Record Response := mkResponse {
  success : bool;
  error : option string;
  markdown : option string;
  markdownTitle : option string;
  metrics : option Metrics;
  timedOut : bool;
  pages : option (list Page);
  headTitle : option string;
  currentTitle : option string;
  signature : option string
}.

Definition emptyResponse : Response :=
  mkResponse false None None None None false None None None None.

(** What a callback of the [chrome] API receives: a value, or
    [chrome.runtime.lastError] with its message. *)
Inductive Answer (A : Type) :=
  | Got (a : A)
  | LastError (msg : string).
Arguments Got {A} a.
Arguments LastError {A} msg.

(** * The delivery queue

    [markTabPending], [dispatchMessageToTab], [flushMessageQueue],
    [queueMessageForTab], [attemptDirectMessage], [shouldQueueForError] and
    [sendMessageToTab] have the same text in [src/background.js]
    (l. 102-198) and in [src/unnamed/part_000] (l. 168-270). *)

Definition MESSAGE_TIMEOUT : Z := 30000.
Definition CONTENT_READY_TIMEOUT : Z := 20000.
Definition CONTENT_READY_MIN_TEXT : Z := 160.

(** The two revisions of the service worker. *)
Inductive Revision := Rev_background | Rev_part_000.

(** A promise is pending, settled, or resolved with another promise, whose
    state it then takes. *)
Inductive PromiseState :=
  | Pending
  | Fulfilled (v : option Response)
  | RejectedWith (e : string)
  | Follows (p : nat).

(** A [queueItem]: its [resolve] and [reject] close over the item (for
    [clearTimeout(queueItem.timeoutId)]) and over the two functions of the
    promise [promise]. *)
Record QueueItem := mkItem {
  message : Message;
  promise : nat;
  timeoutId : nat
}.

(** [messageQueue[tabId]]; [lastUrl] exists in [part_000] only. *)
Record Entry := mkEntry {
  isReady : bool;
  queue : list QueueItem;
  lastUrl : option string
}.

(** A timer of [setTimeout]: the only timers of the queue are the ones of
    [queueMessageForTab], whose callback rejects the item. *)
Record Timer := mkTimer {
  callbackItem : QueueItem;
  due : Z;
  armed : bool
}.

(** Who receives the answer of a [chrome.tabs.sendMessage]: the callback of
    [dispatchMessageToTab], the one of [attemptDirectMessage] (with the
    [catch] handler of [sendMessageToTab] or without), or one of the
    callbacks that only log. *)
Inductive Continuation :=
  | ToItem (item : QueueItem)
  | ToDirect (p : nat) (withCatch : bool)
  | Ping.

Record Call := mkCall {
  target : Z;
  payload : Message;
  cont : Continuation;
  answered : bool
}.

(** The service worker's view of the world: its [messageQueue], the
    promises and timers it created, every message it handed to
    [chrome.tabs.sendMessage], in order, every settlement of a promise, in
    order, and the clock. *)
Record World := mkWorld {
  messageQueue : gmap Z Entry;
  promises : list PromiseState;
  timers : list Timer;
  calls : list Call;
  settlements : list (nat * PromiseState);
  now : Z
}.

Definition initialWorld : World := mkWorld ∅ [] [] [] [] 0.

Definition set_messageQueue (f : gmap Z Entry -> gmap Z Entry) (w : World) : World :=
  mkWorld (f (messageQueue w)) (promises w) (timers w) (calls w) (settlements w) (now w).
Definition set_promises (f : list PromiseState -> list PromiseState) (w : World) : World :=
  mkWorld (messageQueue w) (f (promises w)) (timers w) (calls w) (settlements w) (now w).
Definition set_timers (f : list Timer -> list Timer) (w : World) : World :=
  mkWorld (messageQueue w) (promises w) (f (timers w)) (calls w) (settlements w) (now w).
Definition set_calls (f : list Call -> list Call) (w : World) : World :=
  mkWorld (messageQueue w) (promises w) (timers w) (f (calls w)) (settlements w) (now w).

(** [new Promise(...)]: the next free index. *)
Definition newPromise (w : World) : nat * World :=
  (length (promises w), set_promises (fun ps => ps ++ [Pending]) w).

(** The [resolve] and [reject] functions of promise [p]: the first call
    settles it, later calls do nothing. *)
Definition settle (p : nat) (st : PromiseState) (w : World) : World :=
  match promises w !! p with
  | Some Pending =>
      mkWorld (messageQueue w) (<[p := st]> (promises w)) (timers w) (calls w)
              (settlements w ++ [(p, st)]) (now w)
  | _ => w
  end.

Definition clearTimeout (t : nat) (w : World) : World :=
  set_timers (alter (fun tm => mkTimer (callbackItem tm) (due tm) false) t) w.

(** [queueItem.resolve] and [queueItem.reject]. *)
Definition item_resolve (item : QueueItem) (v : option Response) (w : World) : World :=
  settle (promise item) (Fulfilled v) (clearTimeout (timeoutId item) w).
Definition item_reject (item : QueueItem) (e : string) (w : World) : World :=
  settle (promise item) (RejectedWith e) (clearTimeout (timeoutId item) w).

Definition markTabPending (tabId : Z) (w : World) : World :=
  match messageQueue w !! tabId with
  | None => set_messageQueue (insert tabId (mkEntry false [] None)) w
  | Some e => set_messageQueue (insert tabId (mkEntry false (queue e) (lastUrl e))) w
  end.

(** [chrome.tabs.sendMessage(tabId, message, callback)]. *)
Definition tabs_sendMessage (tabId : Z) (m : Message) (k : Continuation) (w : World) : World :=
  set_calls (fun cs => cs ++ [mkCall tabId m k false]) w.

Definition dispatchMessageToTab (tabId : Z) (item : QueueItem) (w : World) : World :=
  tabs_sendMessage tabId (message item) (ToItem item) w.

(** The loop of [flushMessageQueue]: [shift] the head, dispatch it, until
    the queue is empty.  The callbacks of the dispatched messages run later,
    so the queue shrinks by one item per iteration. *)
Fixpoint flushLoop (tabId : Z) (q : list QueueItem) (w : World) : World :=
  match q with
  | [] => w
  | item :: rest => flushLoop tabId rest (dispatchMessageToTab tabId item w)
  end.

Definition flushMessageQueue (tabId : Z) (w : World) : World :=
  match messageQueue w !! tabId with
  | None => w
  | Some e =>
      flushLoop tabId (queue e)
        (set_messageQueue (insert tabId (mkEntry true [] (lastUrl e))) w)
  end.

Definition timeoutError (m : Message) : string :=
  "Timed out waiting for response for " +:+ action m.

(** [queueMessageForTab(tabId, message, resolve, reject)], where [resolve]
    and [reject] are the functions of promise [p]. *)
Definition queueMessageForTab (tabId : Z) (m : Message) (p : nat) (w : World) : World :=
  let w1 :=
    match messageQueue w !! tabId with
    | None => set_messageQueue (insert tabId (mkEntry false [] None)) w
    | Some _ => w
    end in
  let item := mkItem m p (length (timers w1)) in
  let w2 := set_timers (fun ts => ts ++ [mkTimer item (now w1 + MESSAGE_TIMEOUT) true]) w1 in
  set_messageQueue
    (alter (fun e => mkEntry (isReady e) (queue e ++ [item]) (lastUrl e)) tabId) w2.

Definition attemptDirectMessage (tabId : Z) (m : Message) (p : nat) (withCatch : bool)
    (w : World) : World :=
  tabs_sendMessage tabId m (ToDirect p withCatch) w.

Definition shouldQueueForError (msg : string) : bool :=
  if String.eqb msg "" then false
  else Js.includes msg "Receiving end does not exist"
       || Js.includes msg "Could not establish connection".

(** [sendMessageToTab(tabId, message)]: the promise it returns and the
    world after the synchronous part of the call. *)
Definition sendMessageToTab (tabId : Z) (m : Message) (w : World) : nat * World :=
  let '(p, w1) := newPromise w in
  match messageQueue w !! tabId with
  | Some e =>
      if negb (isReady e) then (p, queueMessageForTab tabId m p w1)
      else (p, attemptDirectMessage tabId m p false w1)
  | None => (p, attemptDirectMessage tabId m p true w1)
  end.

(** The callback of a [chrome.tabs.sendMessage] runs, once per call.  For
    [attemptDirectMessage] under the [catch] handler, an error that
    [shouldQueueForError] accepts resolves the returned promise with the
    promise of a queued item. *)
Definition answerCall (n : nat) (r : Answer (option Response)) (w : World) : World :=
  match calls w !! n with
  | None => w
  | Some c =>
      if answered c then w
      else
        let w1 := set_calls (insert n (mkCall (target c) (payload c) (cont c) true)) w in
        match cont c, r with
        | ToItem item, Got v => item_resolve item v w1
        | ToItem item, LastError e => item_reject item e w1
        | ToDirect p _, Got v => settle p (Fulfilled v) w1
        | ToDirect p false, LastError e => settle p (RejectedWith e) w1
        | ToDirect p true, LastError e =>
            if shouldQueueForError e then
              let '(p', w2) := newPromise w1 in
              queueMessageForTab (target c) (payload c) p' (settle p (Follows p') w2)
            else settle p (RejectedWith e) w1
        | Ping, _ => w1
        end
  end.

(** The timer [t] fires: the callback of [queueMessageForTab]. *)
Definition fireTimer (t : nat) (w : World) : World :=
  match timers w !! t with
  | Some tm =>
      if armed tm && (due tm <=? now w)%Z then
        item_reject (callbackItem tm) (timeoutError (message (callbackItem tm)))
                    (clearTimeout t w)
      else w
  | None => w
  end.

(** Time passes: the clock advances and every timer that is due fires, in
    the order the timers were set (they all have the same delay). *)
Definition elapse (dt : N) (w : World) : World :=
  let w1 := mkWorld (messageQueue w) (promises w) (timers w) (calls w) (settlements w)
                    (now w + Z.of_N dt) in
  fold_left (fun w t => fireTimer t w) (seq 0 (length (timers w1))) w1.

(** [isValidUrl(url)]. *)
Definition isValidUrl (u : option string) : bool :=
  match u with
  | None => false
  | Some s =>
      if String.eqb s "" then false
      else Js.includes s "deepwiki.com" || Js.includes s "devin.ai"
  end.

Definition pageLoaded : Message := mkMessage "pageLoaded" [].

(** The events the service worker reacts to, as far as the queue goes. *)
Inductive Event :=
  | Send (tabId : Z) (m : Message)
  | MarkPending (tabId : Z)
  | Reply (call : nat) (r : Answer (option Response))
  | Elapse (dt : N)
  | ContentScriptReady (tabId : Z) (senderUrl : option string)
  | TabUpdated (tabId : Z) (status changeUrl tabUrl : option string)
  | TabRemoved (tabId : Z).

Section Handlers.

(** [new URL(s)]: [None] when it throws. *)
Variable URL_new : string -> option Url.

(** The [contentScriptReady] branch of [chrome.runtime.onMessage], for a
    sender that has a tab. *)
Definition onContentScriptReady (rev : Revision) (tabId : Z) (senderUrl : option string)
    (w : World) : World :=
  let w1 :=
    match messageQueue w !! tabId, rev with
    | None, Rev_background => set_messageQueue (insert tabId (mkEntry true [] None)) w
    | None, Rev_part_000 => set_messageQueue (insert tabId (mkEntry true [] senderUrl)) w
    | Some e, Rev_background =>
        set_messageQueue (insert tabId (mkEntry true (queue e) (lastUrl e))) w
    | Some e, Rev_part_000 =>
        set_messageQueue
          (insert tabId (mkEntry true (queue e)
             (if Js.falsy senderUrl then lastUrl e else senderUrl))) w
    end in
  flushMessageQueue tabId w1.

(** [oldUrl.origin === newUrl.origin && oldUrl.pathname === newUrl.pathname]
    of [part_000]'s [onUpdated]; [None] when a [new URL] throws. *)
Definition sameBase (old new : string) : option bool :=
  match URL_new old, URL_new new with
  | Some o, Some n =>
      Some (String.eqb (origin o) (origin n) && String.eqb (pathname o) (pathname n))
  | _, _ => None
  end.

(** The marking part of [part_000]'s [onUpdated], for a candidate new
    address: pending unless the entry has a [lastUrl] with the same origin
    and path. *)
Definition markUnlessSameBase (tabId : Z) (newUrl : string) (w : World) : World :=
  match messageQueue w !! tabId with
  | Some e =>
      if Js.falsy (lastUrl e) then markTabPending tabId w
      else match sameBase (default "" (lastUrl e)) newUrl with
           | Some true => w
           | _ => markTabPending tabId w
           end
  | None => markTabPending tabId w
  end.

Definition isStatus (status : option string) (s : string) : bool :=
  match status with
  | Some x => String.eqb x s
  | None => false
  end.

(** [chrome.tabs.onUpdated]. *)
Definition onUpdated (rev : Revision) (tabId : Z) (status changeUrl tabUrl : option string)
    (w : World) : World :=
  if negb (isValidUrl tabUrl) then w
  else
    let w1 :=
      match rev with
      | Rev_background =>
          if isStatus status "loading" || negb (Js.falsy changeUrl)
          then markTabPending tabId w else w
      | Rev_part_000 =>
          if isStatus status "loading" then
            match messageQueue w !! tabId with
            | Some e =>
                markUnlessSameBase tabId
                  (Js.or_else tabUrl (Js.or_else changeUrl (default "" (lastUrl e)))) w
            | None => markTabPending tabId w
            end
          else if negb (Js.falsy changeUrl) then
            let w' := markUnlessSameBase tabId (default "" changeUrl) w in
            match messageQueue w' !! tabId with
            | None => set_messageQueue (insert tabId (mkEntry true [] changeUrl)) w'
            | Some e =>
                set_messageQueue (insert tabId (mkEntry (isReady e) (queue e) changeUrl)) w'
            end
          else w
      end in
    if isStatus status "complete" then tabs_sendMessage tabId pageLoaded Ping w1 else w1.

(** The queue part of [chrome.tabs.onRemoved]. *)
Definition onRemoved (tabId : Z) (w : World) : World :=
  match messageQueue w !! tabId with
  | Some e =>
      set_messageQueue (delete tabId)
        (fold_left (fun w item => item_reject item "Tab closed." w) (queue e) w)
  | None => w
  end.

Definition handle (rev : Revision) (ev : Event) (w : World) : World :=
  match ev with
  | Send tabId m => snd (sendMessageToTab tabId m w)
  | MarkPending tabId => markTabPending tabId w
  | Reply n r => answerCall n r w
  | Elapse dt => elapse dt w
  | ContentScriptReady tabId u => onContentScriptReady rev tabId u w
  | TabUpdated tabId status changeUrl tabUrl => onUpdated rev tabId status changeUrl tabUrl w
  | TabRemoved tabId => onRemoved tabId w
  end.

Definition run (rev : Revision) (evs : list Event) (w : World) : World :=
  fold_left (fun w ev => handle rev ev w) evs w.

(** The sends of a caller that issues them one after the other without
    waiting: the promises, in order, and the world. *)
Fixpoint sendAll (tabId : Z) (ms : list Message) (w : World) : list nat * World :=
  match ms with
  | [] => ([], w)
  | m :: ms' =>
      let '(p, w1) := sendMessageToTab tabId m w in
      let '(ps, w2) := sendAll tabId ms' w1 in
      (p :: ps, w2)
  end.

End Handlers.

(** The state of a promise as its holder sees it: a promise resolved with
    another one has that one's state. *)
Definition stateOf (w : World) (p : nat) : option PromiseState :=
  match promises w !! p with
  | Some (Follows q) => promises w !! q
  | st => st
  end.

(** The queued items that were handed to [chrome.tabs.sendMessage]. *)
Definition dispatched (w : World) : list QueueItem :=
  omap (fun c => match cont c with ToItem item => Some item | _ => None end) (calls w).

(** * The navigation coordinator *)

(** [urlsRoughlyMatch] of [src/background.js] (l. 200-211). *)
Module Background.
Section WithURL.
Variable URL_new : string -> option Url.

Definition urlsRoughlyMatch (expectedUrl actualUrl : option string) : bool :=
  if Js.falsy expectedUrl || Js.falsy actualUrl then true
  else
    match URL_new (default "" expectedUrl) with
    | None => true
    | Some expected =>
        match URL_new (default "" actualUrl) with
        | None => true
        | Some actual =>
            if negb (String.eqb (origin expected) (origin actual)) then false
            else Js.startsWith (pathname actual) (pathname expected)
                 || Js.startsWith (pathname expected) (pathname actual)
        end
    end.

End WithURL.
End Background.

(** [urlsRoughlyMatch] and [isHashChange] of [src/unnamed/part_000]
    (l. 278-295 and 509-523). *)
Module Part000.
Section WithURL.
Variable URL_new : string -> option Url.

Definition urlsRoughlyMatch (expectedUrl actualUrl : option string) : bool :=
  if Js.falsy expectedUrl || Js.falsy actualUrl then true
  else
    match URL_new (default "" expectedUrl) with
    | None => true
    | Some expected =>
        match URL_new (default "" actualUrl) with
        | None => true
        | Some actual =>
            if negb (String.eqb (origin expected) (origin actual)) then false
            else if negb (String.eqb (hash expected) "")
                    && negb (String.eqb (hash expected) (hash actual)) then false
            else Js.startsWith (pathname actual) (pathname expected)
                 || Js.startsWith (pathname expected) (pathname actual)
        end
    end.

Definition isHashChange (currentUrl targetUrl : option string) : bool :=
  if Js.falsy currentUrl || Js.falsy targetUrl then false
  else
    match URL_new (default "" currentUrl) with
    | None => false
    | Some curr =>
        match URL_new (default "" targetUrl) with
        | None => false
        | Some tgt =>
            String.eqb (origin curr) (origin tgt)
            && String.eqb (Js.dropTrailingSlash (pathname curr))
                          (Js.dropTrailingSlash (pathname tgt))
            && negb (String.eqb (hash curr) (hash tgt))
        end
    end.

End WithURL.
End Part000.

(** The outcome of a promise without a value. *)
Inductive Settlement :=
  | Unsettled
  | Resolved
  | Failed (e : string).

Section Navigation.
Variable URL_new : string -> option Url.
Variable rev : Revision.

(** The comparison the revision at hand uses. *)
Definition urlsRoughlyMatch : option string -> option string -> bool :=
  match rev with
  | Rev_background => Background.urlsRoughlyMatch URL_new
  | Rev_part_000 => Part000.urlsRoughlyMatch URL_new
  end.

(** One run of [poll] in [waitForTabUrl]: the callback of
    [chrome.tabs.get] receives the tab (its [url]) or an error, and reads
    the clock.  [None]: another poll is scheduled. *)
Definition pollStep (expectedUrl : option string) (start timeoutMs : Z)
    (tab : Answer (option string)) (clock : Z) : option Settlement :=
  match tab with
  | LastError msg => Some (Failed msg)
  | Got tabUrl =>
      if urlsRoughlyMatch expectedUrl tabUrl then Some Resolved
      else if (clock - start >=? timeoutMs)%Z
           then Some (Failed "Tab URL did not reach expected value in time.")
           else None
  end.

Fixpoint pollLoop (expectedUrl : option string) (start timeoutMs : Z)
    (observations : list (Answer (option string) * Z)) : Settlement :=
  match observations with
  | [] => Unsettled
  | (tab, clock) :: rest =>
      match pollStep expectedUrl start timeoutMs tab clock with
      | Some s => s
      | None => pollLoop expectedUrl start timeoutMs rest
      end
  end.

(** [waitForTabUrl(tabId, expectedUrl, timeoutMs)] against the successive
    answers of [chrome.tabs.get]. *)
Definition waitForTabUrl (expectedUrl : option string) (start timeoutMs : Z)
    (observations : list (Answer (option string) * Z)) : Settlement :=
  if Js.falsy expectedUrl then Resolved
  else pollLoop expectedUrl start timeoutMs observations.

(** The promise of [waitForNavigation(tabId, expectedUrl)] with what its
    closures share: the [settled] flag, the timer, the two listeners, and
    whether [waitForTabUrl] is still polling. *)
Record NavWait := mkNavWait {
  nav_tabId : Z;
  nav_expected : option string;
  nav_start : Z;
  settled : bool;
  timerArmed : bool;
  listening : bool;
  polling : bool;
  nav_promise : Settlement
}.

Inductive NavEvent :=
  | NavTimeout
  | NavTabsGet (tab : Answer (option string)) (clock : Z)
  | NavCompleted (tabId frameId : Z) (url : option string)
  | NavErrorOccurred (tabId frameId : Z) (error : option string).

(** A promise keeps its first settlement. *)
Definition settleNav (s : Settlement) (w : NavWait) : NavWait :=
  match nav_promise w with
  | Unsettled =>
      mkNavWait (nav_tabId w) (nav_expected w) (nav_start w) (settled w) (timerArmed w)
                (listening w) (polling w) s
  | _ => w
  end.

(** [cleanup()]. *)
Definition cleanup (w : NavWait) : NavWait :=
  mkNavWait (nav_tabId w) (nav_expected w) (nav_start w) (settled w) false false
            (polling w) (nav_promise w).

(** [if (settled) return; settled = true; cleanup(); resolve-or-reject]. *)
Definition settleOnce (s : Settlement) (w : NavWait) : NavWait :=
  if settled w then w
  else settleNav s
         (cleanup (mkNavWait (nav_tabId w) (nav_expected w) (nav_start w) true
                             (timerArmed w) (listening w) (polling w) (nav_promise w))).

Definition stopPolling (w : NavWait) : NavWait :=
  mkNavWait (nav_tabId w) (nav_expected w) (nav_start w) (settled w) (timerArmed w)
            (listening w) false (nav_promise w).

(** The state once the executor and the reactions that were already due
    have run: for a falsy [expectedUrl], [waitForTabUrl] is resolved at
    once and its [then] handler settles the navigation. *)
Definition waitForNavigation (tabId : Z) (expectedUrl : option string) (start : Z) : NavWait :=
  let w := mkNavWait tabId expectedUrl start false true true true Unsettled in
  if Js.falsy expectedUrl then settleOnce Resolved (stopPolling w) else w.

Definition navStep (ev : NavEvent) (w : NavWait) : NavWait :=
  match ev with
  | NavTimeout =>
      if timerArmed w then settleNav (Failed "Navigation timeout.") (cleanup w) else w
  | NavTabsGet tab clock =>
      if polling w then
        match pollStep (nav_expected w) (nav_start w) MESSAGE_TIMEOUT tab clock with
        | Some Resolved => settleOnce Resolved (stopPolling w)
        | Some _ => stopPolling w
        | None => w
        end
      else w
  | NavCompleted tabId frameId u =>
      if listening w && (tabId =? nav_tabId w)%Z && (frameId =? 0)%Z
         && urlsRoughlyMatch (nav_expected w) u
      then settleOnce Resolved w else w
  | NavErrorOccurred tabId frameId e =>
      if listening w && (tabId =? nav_tabId w)%Z && (frameId =? 0)%Z
      then settleOnce (Failed (Js.or_else e "Navigation error")) w else w
  end.

End Navigation.

(** * The empty-output heuristic

    [isMarkdownSuspiciouslyEmpty] has the same text in both revisions
    ([src/background.js] l. 412-421, [part_000] l. 616-625). *)

Definition contentLooksSubstantial (m : Metrics) : bool :=
  (textLength m >=? CONTENT_READY_MIN_TEXT)%Z || (meaningfulCount m >=? 6)%Z || hasMermaid m.

Definition trimmedLength (markdown : option string) : nat :=
  String.length (Js.trim (default "" markdown)).

Definition isMarkdownSuspiciouslyEmpty (markdown : option string) (readiness : option Response)
    : bool :=
  let length := trimmedLength markdown in
  if (80 <=? length)%nat then false
  else
    match readiness ≫= metrics with
    | None => (length <? 20)%nat
    | Some m => contentLooksSubstantial m && (length <? 80)%nat
    end.

(** * File names *)

(** The class of the first [replace] of [sanitizeName]: backslash, slash,
    colon, star, question mark, double quote, angle brackets and bar, by
    character code. *)
Definition isForbiddenInName (c : ascii) : bool :=
  existsb (Nat.eqb (nat_of_ascii c)) [92; 47; 58; 42; 63; 34; 60; 62; 124]%nat.

Definition isDash (c : ascii) : bool := Ascii.eqb c "-".

(** The first [replace]: each such character becomes a dash. *)
Fixpoint replaceForbidden (s : string) : string :=
  match s with
  | EmptyString => EmptyString
  | String c s' => String (if isForbiddenInName c then "-"%char else c) (replaceForbidden s')
  end.

(** [s.replace(/X+/g, '-')] for a class [X] of characters: every maximal run
    becomes one dash. *)
Fixpoint collapseRuns (X : ascii -> bool) (s : string) : string :=
  match s with
  | EmptyString => EmptyString
  | String c s' =>
      if X c then
        match s' with
        | String c' _ => if X c' then collapseRuns X s' else String "-" (collapseRuns X s')
        | EmptyString => String "-" EmptyString
        end
      else String c (collapseRuns X s')
  end.

Fixpoint dropTrailingDash (s : string) : string :=
  match s with
  | EmptyString => EmptyString
  | String c EmptyString => if isDash c then EmptyString else s
  | String c s' => String c (dropTrailingDash s')
  end.

(** [s.replace(/^-|-$/g, '')]. *)
Definition stripDashEnds (s : string) : string :=
  match s with
  | String c s' => if isDash c then dropTrailingDash s' else dropTrailingDash s
  | EmptyString => EmptyString
  end.

Definition sanitizeName (value : option string) (fallback : string) : string :=
  if Js.falsy value then fallback
  else
    let r := stripDashEnds
               (collapseRuns isDash
                  (collapseRuns Js.isWhiteSpace (replaceForbidden (default "" value)))) in
    if String.eqb r "" then fallback else r.

Definition sanitizeFolderName (value : option string) : string := sanitizeName value "deepwiki".

Definition showNat (n : nat) : string := NilZero.string_of_uint (Nat.to_uint n).
Definition showZ (z : Z) : string := NilZero.string_of_int (Z.to_int z).

(** The [while] loop of [getUniqueFileName]: a set of [n] names holds one of
    any [n + 1] candidates at most [n] times, so [n + 1] rounds are enough
    and the loop is run with that many. *)
Fixpoint firstFree (rounds : nat) (names : gset string) (base : string) (counter : nat)
    (candidate : string) : string :=
  if bool_decide (candidate ∈ names) then
    match rounds with
    | O => candidate
    | S r => firstFree r names base (S counter) (base +:+ "-" +:+ showNat counter)
    end
  else candidate.

(** * The batch run *)

Record ConvertedPage := mkConverted {
  fileName : string;
  content : option string
}.

Record BatchState := mkBatchState {
  isRunning : bool;
  tabId : option Z;
  originalUrl : option string;
  batchPages : list Page;
  convertedPages : list ConvertedPage;
  folderName : string;
  processed : nat;
  failed : nat;
  cancelRequested : bool;
  total : nat;
  batchCurrentTitle : string;
  fileNames : gset string
}.

Definition createInitialBatchState : BatchState :=
  mkBatchState false None None [] [] "" 0 0 false 0 "" ∅.

(** The payload of [broadcastBatchUpdate], which is also [lastBatchReport]. *)
Record Report := mkReport {
  rtype : string;
  running : bool;
  rprocessed : nat;
  rfailed : nat;
  rtotal : nat;
  rcancelRequested : bool;
  rmessage : string;
  rlevel : string
}.

Definition initialReport : Report :=
  mkReport "idle" false 0 0 0 false "Batch converter ready." "info".

(** What an asynchronous function of the worker waits for. *)
Inductive Op :=
  | GetTab (tab : option Z)
  | NavigateToPage (tab : option Z) (address : option string)
  | SendMessage (tab : option Z) (m : Message)
  | ExecuteScript (tab : option Z) (newHash : string)
  | Sleep (ms : Z)
  | CreateZipArchive (folder : string) (files : list ConvertedPage).

(** The value a suspension resumes with: nothing, a tab (its [url]), or the
    response of the content script.  A value of another shape than the one
    the code expects reads as [undefined]. *)
Inductive Ans :=
  | AUnit
  | ATab (tabUrl : option string)
  | AResponse (r : option Response).

Definition asTab (a : Ans) : option string :=
  match a with ATab u => u | _ => None end.
Definition asResponse (a : Ans) : option Response :=
  match a with AResponse r => r | _ => None end.

(** The handlers that may run while a function of the run is suspended. *)
Inductive Interrupt :=
  | CancelBatch
  | TabClosed (tab : Z).

(** One suspension: the handlers that run meanwhile, then how the awaited
    promise settles. *)
Record Turn := mkTurn {
  during : list Interrupt;
  answer : Answer Ans
}.

(** The worker: the singleton [batchState], [lastBatchReport], and the log
    of what it broadcast and of what it waited for. *)
Record Worker := mkWorker {
  batchState : BatchState;
  lastBatchReport : Report;
  broadcasts : list Report;
  requests : list Op
}.

Definition initialWorker : Worker := mkWorker createInitialBatchState initialReport [] [].

Definition setBatch (f : BatchState -> BatchState) (w : Worker) : Worker :=
  mkWorker (f (batchState w)) (lastBatchReport w) (broadcasts w) (requests w).

(** [broadcastBatchUpdate(type, {message, level}, overrideRunning)]; no
    caller passes [processed], [failed] or [total]. *)
Definition broadcastBatchUpdate (type message : string) (level : option string)
    (overrideRunning : option bool) (w : Worker) : Worker :=
  let b := batchState w in
  let payload :=
    mkReport type (default (isRunning b) overrideRunning) (processed b) (failed b) (total b)
             (cancelRequested b) message (Js.or_else level "info") in
  mkWorker b payload (broadcasts w ++ [payload]) (requests w).

Definition resetBatchState (w : Worker) : Worker := setBatch (fun _ => createInitialBatchState) w.

Definition setCancelRequested (v : bool) (b : BatchState) : BatchState :=
  mkBatchState (isRunning b) (tabId b) (originalUrl b) (batchPages b) (convertedPages b)
    (folderName b) (processed b) (failed b) v (total b) (batchCurrentTitle b) (fileNames b).
Definition setIsRunning (v : bool) (b : BatchState) : BatchState :=
  mkBatchState v (tabId b) (originalUrl b) (batchPages b) (convertedPages b)
    (folderName b) (processed b) (failed b) (cancelRequested b) (total b)
    (batchCurrentTitle b) (fileNames b).
Definition setCurrentTitle (v : string) (b : BatchState) : BatchState :=
  mkBatchState (isRunning b) (tabId b) (originalUrl b) (batchPages b) (convertedPages b)
    (folderName b) (processed b) (failed b) (cancelRequested b) (total b) v (fileNames b).
Definition setOriginalUrl (v : option string) (b : BatchState) : BatchState :=
  mkBatchState (isRunning b) (tabId b) v (batchPages b) (convertedPages b)
    (folderName b) (processed b) (failed b) (cancelRequested b) (total b)
    (batchCurrentTitle b) (fileNames b).
Definition incrFailed (b : BatchState) : BatchState :=
  mkBatchState (isRunning b) (tabId b) (originalUrl b) (batchPages b) (convertedPages b)
    (folderName b) (processed b) (S (failed b)) (cancelRequested b) (total b)
    (batchCurrentTitle b) (fileNames b).
Definition incrProcessed (b : BatchState) : BatchState :=
  mkBatchState (isRunning b) (tabId b) (originalUrl b) (batchPages b) (convertedPages b)
    (folderName b) (S (processed b)) (failed b) (cancelRequested b) (total b)
    (batchCurrentTitle b) (fileNames b).
Definition addFileName (n : string) (b : BatchState) : BatchState :=
  mkBatchState (isRunning b) (tabId b) (originalUrl b) (batchPages b) (convertedPages b)
    (folderName b) (processed b) (failed b) (cancelRequested b) (total b)
    (batchCurrentTitle b) ({[n]} ∪ fileNames b).
Definition pushConverted (c : ConvertedPage) (b : BatchState) : BatchState :=
  mkBatchState (isRunning b) (tabId b) (originalUrl b) (batchPages b) (convertedPages b ++ [c])
    (folderName b) (processed b) (failed b) (cancelRequested b) (total b)
    (batchCurrentTitle b) (fileNames b).

(** [cancelBatchProcessing()]: its result and the worker afterwards. *)
Definition cancelBatchProcessing (w : Worker) : bool * Worker :=
  let b := batchState w in
  if negb (isRunning b) then (false, w)
  else
    let w1 := setBatch (setCancelRequested true) w in
    (true,
     broadcastBatchUpdate "cancelling"
       ("Cancelling... processed " +:+ showNat (processed b) +:+ "/" +:+ showNat (total b) +:+ ".")
       None None w1).

(** The batch part of [chrome.tabs.onRemoved]. *)
Definition onRemovedBatch (tab : Z) (w : Worker) : Worker :=
  let b := batchState w in
  if isRunning b && bool_decide (tabId b = Some tab) then
    resetBatchState
      (broadcastBatchUpdate "error" "Batch cancelled because the tab was closed."
         (Some "error") (Some false)
         (setBatch (fun b => setCancelRequested true (setIsRunning false b)) w))
  else w.

Definition interrupt (w : Worker) (i : Interrupt) : Worker :=
  match i with
  | CancelBatch => snd (cancelBatchProcessing w)
  | TabClosed tab => onRemovedBatch tab w
  end.

(** [getUniqueFileName(desired)]: the name and the worker with the name
    added to [batchState.fileNames]. *)
Definition getUniqueFileName (desired : option string) (w : Worker) : string * Worker :=
  let base := sanitizeName desired "page" in
  let names := fileNames (batchState w) in
  let candidate := firstFree (S (size names)) names base 1 base in
  (candidate, setBatch (addFileName candidate) w).

(** ** Asynchronous functions

    An [async] function is run against the turns of the event loop: at each
    [await] the request is logged, the handlers of the turn run, and the
    function resumes with the turn's answer.  Without a turn left it stays
    suspended. *)

Inductive Outcome (A : Type) :=
  | Returned (a : A)
  | Threw (e : string)
  | Suspended.
Arguments Returned {A} a.
Arguments Threw {A} e.
Arguments Suspended {A}.

Definition Async (A : Type) : Type := Worker -> list Turn -> Outcome A * Worker * list Turn.

Definition ret {A} (a : A) : Async A := fun w ts => (Returned a, w, ts).
Definition throw {A} (e : string) : Async A := fun w ts => (Threw e, w, ts).

Definition bind {A B} (m : Async A) (k : A -> Async B) : Async B :=
  fun w ts =>
    match m w ts with
    | (Returned a, w', ts') => k a w' ts'
    | (Threw e, w', ts') => (Threw e, w', ts')
    | (Suspended, w', ts') => (Suspended, w', ts')
    end.

(** [try { m } catch (error) { h error }]. *)
Definition try_catch {A} (m : Async A) (h : string -> Async A) : Async A :=
  fun w ts =>
    match m w ts with
    | (Threw e, w', ts') => h e w' ts'
    | r => r
    end.

(** [try { m } finally { f }], for a block [f] that does not throw. *)
Definition try_finally {A} (m : Async A) (f : Async unit) : Async A :=
  fun w ts =>
    match m w ts with
    | (Suspended, w', ts') => (Suspended, w', ts')
    | (r, w', ts') =>
        match f w' ts' with
        | (Returned _, w'', ts'') => (r, w'', ts'')
        | (Threw e, w'', ts'') => (Threw e, w'', ts'')
        | (Suspended, w'', ts'') => (Suspended, w'', ts'')
        end
    end.

Declare Scope async_scope.
Delimit Scope async_scope with async.
Notation "x <- m ;; k" := (bind m (fun x => k))
  (at level 100, m at next level, right associativity) : async_scope.
Notation "m ;;; k" := (bind m (fun _ => k))
  (at level 100, right associativity) : async_scope.
Local Open Scope async_scope.

(** The current worker, and a synchronous update of it. *)
Definition get : Async Worker := fun w ts => (Returned w, w, ts).
Definition update (f : Worker -> Worker) : Async unit := fun w ts => (Returned tt, f w, ts).

(** [await op], as the promise settles. *)
Definition await (op : Op) : Async (Answer Ans) :=
  fun w ts =>
    let w1 := mkWorker (batchState w) (lastBatchReport w) (broadcasts w) (requests w ++ [op]) in
    match ts with
    | [] => (Suspended, w1, [])
    | t :: ts' => (Returned (answer t), fold_left interrupt (during t) w1, ts')
    end.

(** [await op] where a rejection is thrown. *)
Definition awaitOk (op : Op) : Async Ans :=
  r <- await op ;;
  match r with
  | Got a => ret a
  | LastError e => throw e
  end.

Definition sleep (ms : Z) : Async unit := awaitOk (Sleep ms) ;;; ret tt.

Definition getTabById (tab : option Z) : Async (option string) :=
  a <- awaitOk (GetTab tab) ;; ret (asTab a).

Definition sendToTab (tab : option Z) (m : Message) : Async (option Response) :=
  a <- awaitOk (SendMessage tab m) ;; ret (asResponse a).

Definition navigateToPage (tab : option Z) (address : option string) : Async unit :=
  awaitOk (NavigateToPage tab address) ;;; ret tt.

Definition convertToMarkdown : Message := mkMessage "convertToMarkdown" [].

Definition waitForContentReadyMessage (expectedUrl : option string) : Message :=
  mkMessage "waitForContentReady"
    [("expectedUrl", default "" expectedUrl);
     ("timeoutMs", showZ CONTENT_READY_TIMEOUT);
     ("minTextLength", showZ CONTENT_READY_MIN_TEXT)].

Definition waitForTopicReadyMessage (expectedTitle : string) (previousSignature : option string)
    : Message :=
  mkMessage "waitForTopicReady"
    [("expectedTitle", expectedTitle);
     ("previousSignature", default "" previousSignature);
     ("timeoutMs", showZ CONTENT_READY_TIMEOUT);
     ("minTextLength", showZ CONTENT_READY_MIN_TEXT)].

(** [waitForPageContent(tabId, expectedUrl)]: a rejection is logged and
    gives [null]. *)
Definition waitForPageContent (tab : option Z) (expectedUrl : option string)
    : Async (option Response) :=
  try_catch (sendToTab tab (waitForContentReadyMessage expectedUrl)) (fun _ => ret None).

Definition responseOk (r : option Response) : bool :=
  match r with
  | Some x => success x
  | None => false
  end.

(** [a || b] on two readiness objects. *)
Definition orReadiness (a b : option Response) : option Response :=
  match a with
  | Some _ => a
  | None => b
  end.

(** The readiness probe of the retry: [waitForTopicReady] with the signature
    taken before the selection for a topic ([part_000] only), and
    [waitForPageContent] otherwise. *)
Definition retryProbe (page : Page) (topic : option (option string))
    : Async (option Response) :=
  w <- get ;;
  match topic with
  | Some previousSignature =>
      sendToTab (tabId (batchState w)) (waitForTopicReadyMessage (title page) previousSignature)
  | None => waitForPageContent (tabId (batchState w)) (url page)
  end.

(** The end of [processSinglePage], from the first [convertToMarkdown] on
    ([src/background.js] l. 438-471, [part_000] l. 757-805).  The two
    revisions differ in the probe of the retry ([topic], see [retryProbe])
    and in the number prefix of the title, which [src/background.js] does
    not have. *)
Definition convertAndRecord (page : Page) (readiness : option Response)
    (topic : option (option string)) (usePrefix : bool) : Async unit :=
  w <- get ;;
  first <- sendToTab (tabId (batchState w)) convertToMarkdown ;;
  (if negb (responseOk first)
   then throw (Js.or_else (first ≫= error) "Conversion failed")
   else ret tt) ;;;
  convertResponse <-
    (if isMarkdownSuspiciouslyEmpty (first ≫= markdown) readiness then
       sleep 900 ;;;
       retryReadiness <- retryProbe page topic ;;
       w <- get ;;
       retryResponse <- sendToTab (tabId (batchState w)) convertToMarkdown ;;
       if responseOk retryResponse then
         if isMarkdownSuspiciouslyEmpty (retryResponse ≫= markdown)
              (orReadiness retryReadiness readiness)
         then throw "Converted markdown appears empty after retry."
         else ret retryResponse
       else throw (Js.or_else (retryResponse ≫= error) "Conversion retry failed")
     else ret first) ;;
  let baseTitle := Js.or_else (convertResponse ≫= markdownTitle) (title page) in
  let baseTitle :=
    if usePrefix && negb (Js.falsy (numberPrefix page))
    then default "" (numberPrefix page) +:+ "-" +:+ baseTitle
    else baseTitle in
  update (fun w =>
    let '(name, w1) := getUniqueFileName (Some baseTitle) w in
    let w2 := setBatch (fun b => incrProcessed
                 (pushConverted (mkConverted name (convertResponse ≫= markdown)) b)) w1 in
    let b := batchState w2 in
    broadcastBatchUpdate "pageProcessed"
      ("Converted " +:+ showNat (processed b) +:+ "/" +:+ showNat (total b) +:+ ": "
         +:+ title page) None None w2) ;;;
  sleep 250.

(** The head of [processSinglePage] in both revisions. *)
Definition announceProcessing (page : Page) : Async unit :=
  update (fun w =>
    let b := batchState w in
    let currentStep := (processed b + failed b + 1)%nat in
    broadcastBatchUpdate "processing"
      ("Processing " +:+ showNat currentStep +:+ "/" +:+ showNat (total b) +:+ ": "
         +:+ title page) None None
      (setBatch (setCurrentTitle (title page)) w)).

Definition cancelled : Async bool := w <- get ;; ret (cancelRequested (batchState w)).

(** [processSinglePage] of [src/background.js] (l. 423-472). *)
Definition processSinglePage_background (page : Page) : Async unit :=
  c <- cancelled ;;
  if c then ret tt else
  announceProcessing page ;;;
  w <- get ;;
  navigateToPage (tabId (batchState w)) (url page) ;;;
  c <- cancelled ;;
  if c then ret tt else
  w <- get ;;
  readiness <- waitForPageContent (tabId (batchState w)) (url page) ;;
  convertAndRecord page readiness None false.

Section Orchestrator.
Variable URL_new : string -> option Url.
(** [new URL(s, base)]: [None] when it throws. *)
Variable URL_new_base : string -> string -> option Url.

Definition parseOpt (s : option string) : option Url :=
  match s with
  | Some x => URL_new x
  | None => None
  end.

Definition getContentSignatureMessage : Message := mkMessage "getContentSignature" [].
Definition selectDevinTopicMessage (index : Z) (t : string) : Message :=
  mkMessage "selectDevinTopic" [("index", showZ index); ("title", t)].

(** The topic branch of [part_000]'s [processSinglePage] (l. 679-716):
    the readiness it ends with and the signature taken before. *)
Definition selectTopic (page : Page) (index : Z) (samePage : bool)
    : Async (option Response * option string) :=
  (if samePage then ret tt
   else w <- get ;; navigateToPage (tabId (batchState w)) (url page)) ;;;
  w <- get ;;
  signatureResponse <- sendToTab (tabId (batchState w)) getContentSignatureMessage ;;
  let devinSignature :=
    match signatureResponse ≫= signature with
    | Some s => if String.eqb s "" then None else Some s
    | None => None
    end in
  w <- get ;;
  selection <- sendToTab (tabId (batchState w)) (selectDevinTopicMessage index (title page)) ;;
  (if negb (responseOk selection)
   then throw (Js.or_else (selection ≫= error) "Failed to select Devin topic.")
   else ret tt) ;;;
  sleep 350 ;;;
  w <- get ;;
  topicReady <- sendToTab (tabId (batchState w))
                  (waitForTopicReadyMessage (title page) devinSignature) ;;
  ret (topicReady, devinSignature).

(** The branch of an ordinary page (l. 718-752): [Some readiness] to go
    on, [None] when the cancellation check returns. *)
Definition reachPage (page : Page) (currentUrl targetUrl : Url) (samePage : bool)
    : Async (option (option Response)) :=
  (if samePage then
     if negb (String.eqb (hash targetUrl) "")
        && negb (String.eqb (hash targetUrl) (hash currentUrl))
     then
       try_catch
         (w <- get ;;
          awaitOk (ExecuteScript (tabId (batchState w)) (hash targetUrl)) ;;;
          sleep 500)
         (fun _ => ret tt)
     else sleep 100
   else w <- get ;; navigateToPage (tabId (batchState w)) (url page)) ;;;
  c <- cancelled ;;
  if c then ret None else
  if samePage then ret (Some None)
  else
    w <- get ;;
    readiness <- waitForPageContent (tabId (batchState w)) (url page) ;;
    ret (Some readiness).

(** [processSinglePage] of [part_000] (l. 639-806). *)
Definition processSinglePage_part_000 (page : Page) : Async unit :=
  c <- cancelled ;;
  if c then ret tt else
  announceProcessing page ;;;
  w <- get ;;
  tabUrl <- getTabById (tabId (batchState w)) ;;
  match parseOpt tabUrl, parseOpt (url page) with
  | Some currentUrl, Some targetUrl =>
      let samePage :=
        String.eqb (origin currentUrl) (origin targetUrl)
        && String.eqb (Js.dropTrailingSlash (pathname currentUrl))
                      (Js.dropTrailingSlash (pathname targetUrl)) in
      match devinIndex page with
      | Some index =>
          r <- selectTopic page index samePage ;;
          c <- cancelled ;;
          if c then ret tt else
          convertAndRecord page (fst r) (Some (snd r)) true
      | None =>
          r <- reachPage page currentUrl targetUrl samePage ;;
          match r with
          | None => ret tt
          | Some readiness =>
              c <- cancelled ;;
              if c then ret tt else
              convertAndRecord page readiness None true
          end
      end
  | _, _ =>
      w <- get ;;
      navigateToPage (tabId (batchState w)) (url page)
  end.

Definition processSinglePage (rev : Revision) : Page -> Async unit :=
  match rev with
  | Rev_background => processSinglePage_background
  | Rev_part_000 => processSinglePage_part_000
  end.

(** The body of the [for] loop of [runBatchProcessing], after the
    cancellation check. *)
Definition processOrFail (rev : Revision) (page : Page) : Async unit :=
  try_catch (processSinglePage rev page)
    (fun e =>
       update (fun w =>
         broadcastBatchUpdate "pageFailed"
           ("Failed " +:+ title page +:+ ": " +:+ (if String.eqb e "" then "Error" else e))
           (Some "error") None (setBatch incrFailed w))).

(** [for (const page of batchState.pages)]: the array is the one the state
    held when the loop began; the flag is read from the current state. *)
Fixpoint forEachPage (rev : Revision) (pages : list Page) : Async unit :=
  match pages with
  | [] => ret tt
  | page :: rest =>
      c <- cancelled ;;
      if c then ret tt
      else processOrFail rev page ;;; forEachPage rev rest
  end.

(** [restoreOriginalPage()], which [src/background.js] awaits in the
    [finally] block. *)
Definition restoreOriginalPage : Async unit :=
  w <- get ;;
  let b := batchState w in
  if bool_decide (tabId b = None) || bool_decide (tabId b = Some 0%Z) || Js.falsy (originalUrl b)
  then ret tt
  else
    try_finally
      (try_catch (navigateToPage (tabId b) (originalUrl b)) (fun _ => ret tt))
      (update (setBatch (setOriginalUrl None))).

Definition createZipArchive : Async unit :=
  w <- get ;;
  awaitOk (CreateZipArchive (folderName (batchState w)) (convertedPages (batchState w))) ;;;
  ret tt.

(** What follows the loop inside the [try] block. *)
Definition finishRun : Async unit :=
  w <- get ;;
  let b := batchState w in
  if cancelRequested b then
    update (fun w =>
      let w1 := setBatch (setIsRunning false) w in
      let b := batchState w1 in
      broadcastBatchUpdate "cancelled"
        ("Batch cancelled. Success " +:+ showNat (processed b) +:+ ", Failed "
           +:+ showNat (failed b) +:+ ".") None (Some false) w1)
  else if bool_decide (convertedPages b = []) then
    throw "No pages were converted successfully."
  else
    update (fun w =>
      broadcastBatchUpdate "zipping"
        ("Creating ZIP with " +:+ showNat (length (convertedPages (batchState w)))
           +:+ " files...") None None w) ;;;
    createZipArchive ;;;
    update (fun w =>
      let w1 := setBatch (setIsRunning false) w in
      let b := batchState w1 in
      broadcastBatchUpdate "completed"
        ("ZIP ready. Success " +:+ showNat (processed b) +:+ ", Failed "
           +:+ showNat (failed b) +:+ ".") (Some "success") (Some false) w1).

(** [runBatchProcessing()] ([src/background.js] l. 508-559, [part_000]
    l. 865-916). *)
Definition runBatchProcessing (rev : Revision) : Async unit :=
  try_finally
    (try_catch
       (w <- get ;; forEachPage rev (batchPages (batchState w)) ;;; finishRun)
       (fun e =>
          update (fun w =>
            broadcastBatchUpdate "error" (if String.eqb e "" then "Batch conversion failed." else e)
              (Some "error") (Some false) (setBatch (setIsRunning false) w))))
    (match rev with
     | Rev_background => restoreOriginalPage ;;; update resetBatchState
     | Rev_part_000 => update resetBatchState
     end).

(** [s.toLowerCase()] on the letters A-Z. *)
Definition lowerChar (c : ascii) : ascii :=
  let n := nat_of_ascii c in
  if ((65 <=? n) && (n <=? 90))%nat then ascii_of_nat (n + 32) else c.

Fixpoint toLowerCase (s : string) : string :=
  match s with
  | EmptyString => EmptyString
  | String c s' => String (lowerChar c) (toLowerCase s')
  end.

(** [s.split('/')]. *)
Fixpoint splitSlash (s : string) : list string :=
  match s with
  | EmptyString => [EmptyString]
  | String c s' =>
      if Ascii.eqb c "/" then EmptyString :: splitSlash s'
      else match splitSlash s' with
           | seg :: segs => String c seg :: segs
           | [] => [String c EmptyString]
           end
  end.

(** [segs.join('/')]. *)
Fixpoint joinSlash (segs : list string) : string :=
  match segs with
  | [] => ""
  | [seg] => seg
  | seg :: rest => seg +:+ "/" +:+ joinSlash rest
  end.

Definition pathSegments (u : Url) : list string :=
  filter (fun seg => seg ≠ "") (splitSlash (pathname u)).

Definition isMarker (seg : string) : bool :=
  existsb (String.eqb (toLowerCase seg)) ["deepwiki"; "wiki"; "docs"].

(** [segs.findIndex(isMarker)]. *)
Fixpoint findIndex (f : string -> bool) (segs : list string) : option nat :=
  match segs with
  | [] => None
  | seg :: rest => if f seg then Some 0%nat else S <$> findIndex f rest
  end.

Definition prefixOf (n : nat) (segs : list string) : string :=
  "/" +:+ joinSlash (take n segs).

Definition prefixWithoutMarker (segs : list string) : string :=
  if (2 <=? length segs)%nat then prefixOf 2 segs
  else match segs with
       | [seg] => "/" +:+ seg
       | _ => "/"
       end.

(** [getProjectPrefix] of [src/background.js] (l. 17-40). *)
Definition getProjectPrefix_background (urlString : option string) : option string :=
  match parseOpt urlString with
  | None => None
  | Some u =>
      let segments := pathSegments u in
      match findIndex isMarker segments with
      | Some markerIdx => Some (prefixOf (Nat.min (length segments) (markerIdx + 3)) segments)
      | None => Some (prefixWithoutMarker segments)
      end
  end.

(** [getProjectPrefix] of [part_000] (l. 33-79). *)
Definition getProjectPrefix_part_000 (urlString : option string) : option string :=
  match parseOpt urlString with
  | None => None
  | Some u =>
      let segments := pathSegments u in
      let isDevinAi := Js.includes (hostname u) "devin.ai" in
      match findIndex isMarker segments with
      | Some markerIdx =>
          let segmentsAfterMarker := (length segments - (markerIdx + 1))%nat in
          if isDevinAi then
            if (1 <=? segmentsAfterMarker)%nat then Some (prefixOf (markerIdx + 2) segments)
            else Some (prefixOf (markerIdx + 1) segments)
          else if (2 <=? segmentsAfterMarker)%nat then Some (prefixOf (markerIdx + 3) segments)
          else Some (prefixOf (markerIdx + 2) segments)
      | None => Some (prefixWithoutMarker segments)
      end
  end.

(** [new URL(page.url, base.origin)]; an [undefined] address is converted
    to the string [undefined]. *)
Definition pageUrlOn (base : Url) (page : Page) : option Url :=
  URL_new_base (default "undefined" (url page)) (origin base).

(** [filterPagesToProject] of [src/background.js] (l. 42-74); the array
    test is on a value that is an array or absent. *)
Definition filterPagesToProject_background (pages : list Page) (currentUrl : option string)
    : list Page :=
  match parseOpt currentUrl with
  | None => pages
  | Some base =>
      let prefix := getProjectPrefix_background currentUrl in
      List.filter (fun page =>
        match pageUrlOn base page with
        | None => false
        | Some pageUrl =>
            if negb (String.eqb (origin pageUrl) (origin base)) then false
            else if Js.falsy prefix then true
            else Js.startsWith (pathname pageUrl) (default "" prefix)
        end) pages
  end.

(** [filterPagesToProject] of [part_000] (l. 92-140). *)
Definition filterPagesToProject_part_000 (pages : list Page) (currentUrl : option string)
    : list Page :=
  match parseOpt currentUrl with
  | None => pages
  | Some base =>
      let isDevinAi := Js.includes (hostname base) "devin.ai" in
      let currentPathNormalized := Js.dropTrailingSlash (pathname base) in
      let prefix := getProjectPrefix_part_000 currentUrl in
      List.filter (fun page =>
        match pageUrlOn base page with
        | None => false
        | Some pageUrl =>
            if negb (String.eqb (origin pageUrl) (origin base)) then false
            else if isDevinAi then
              String.eqb (Js.dropTrailingSlash (pathname pageUrl)) currentPathNormalized
            else if Js.falsy prefix then true
            else Js.startsWith (pathname pageUrl) (default "" prefix)
        end) pages
  end.

Definition filterPagesToProject (rev : Revision) : list Page -> option string -> list Page :=
  match rev with
  | Rev_background => filterPagesToProject_background
  | Rev_part_000 => filterPagesToProject_part_000
  end.

Definition extractAllPages : Message := mkMessage "extractAllPages" [].

(** [startBatchProcessing(tabId)] up to the call of [runBatchProcessing()],
    with the object it returns ([src/background.js] l. 577-625, [part_000]
    l. 942-995). *)
Definition startBatchProcessing (rev : Revision) (tab : Z) : Async (nat * string) :=
  w <- get ;;
  if isRunning (batchState w) then throw "Batch conversion already running." else
  tabUrl <- getTabById (Some tab) ;;
  if negb (isValidUrl tabUrl)
  then throw "Please open a DeepWiki or Devin page before starting batch conversion." else
  extraction <- sendToTab (Some tab) extractAllPages ;;
  if negb (responseOk extraction)
  then throw (Js.or_else (extraction ≫= error) "Failed to extract sidebar links.") else
  let extractedPages := default [] (extraction ≫= pages) in
  let pages := filterPagesToProject rev extractedPages tabUrl in
  if bool_decide (pages = [])
  then throw "No child pages were detected for the current project." else
  let folder :=
    sanitizeFolderName
      (Some (Js.or_else (extraction ≫= headTitle)
               (Js.or_else (extraction ≫= currentTitle) "deepwiki"))) in
  update (fun w =>
    let w1 := setBatch (fun _ =>
      mkBatchState true (Some tab) tabUrl pages [] folder 0 0 false (length pages) "" ∅) w in
    broadcastBatchUpdate "started"
      ("Found " +:+ showNat (length pages) +:+ " pages. Starting batch conversion...")
      None None w1) ;;;
  ret (length pages, folder).

(** A whole run: [startBatchProcessing], whose last statement before
    [return] launches [runBatchProcessing()]. *)
Definition startBatch (rev : Revision) (tab : Z) : Async (nat * string) :=
  r <- startBatchProcessing rev tab ;;
  runBatchProcessing rev ;;;
  ret r.

End Orchestrator.

(** * The readiness probe of the content script ([src/content.js]) *)

Module Content.

(** A text node below the container, as the tree walker's filter sees it:
    its text, whether its parent is inside a navigation element
    ([isNavigational(node.parentElement)]) and the tag of its parent. *)
Record TextNode := mkTextNode {
  nodeText : string;
  inNavigation : bool;
  parentTag : string
}.

(** What [getContentReadinessMetrics] reads of the container that
    [selectContentContainer()] returned: for the elements matched by each
    of the two selectors, whether [isNavigational] holds of them, in
    document order. *)
Record Container := mkContainer {
  isBody : bool;
  textContent : string;
  hasInnerSidebar : bool;
  textNodes : list TextNode;
  meaningfulElements : list bool;
  mermaidElements : list bool
}.

(** [acceptNode]. *)
Definition acceptNode (n : TextNode) : bool :=
  if inNavigation n then false
  else if existsb (String.eqb (parentTag n)) ["SCRIPT"; "STYLE"; "NOSCRIPT"] then false
  else true.

(** The loop over [walker.nextNode()]. *)
Definition walkTextLength (nodes : list TextNode) : nat :=
  fold_left (fun acc n => (acc + String.length (Js.trim (nodeText n)))%nat)
            (List.filter acceptNode nodes) 0%nat.

Definition countWhere (f : bool -> bool) (l : list bool) : nat :=
  length (List.filter f l).

(** [getContentReadinessMetrics()] (l. 571-654) on the container found, if
    any. *)
Definition getContentReadinessMetrics (container : option Container) : Metrics :=
  match container with
  | None => mkMetrics false 0 0 false
  | Some c =>
      let textLength :=
        if isBody c then walkTextLength (textNodes c)
        else if hasInnerSidebar c then walkTextLength (textNodes c)
        else String.length (Js.trim (textContent c)) in
      mkMetrics true (Z.of_nat textLength)
        (Z.of_nat (countWhere negb (meaningfulElements c)))
        (existsb negb (mermaidElements c))
  end.

(** The options of a request: a number that is absent or not a number is
    [None]. *)
Record ReadyOptions := mkReadyOptions {
  opt_timeoutMs : option Z;
  opt_intervalMs : option Z;
  opt_minTextLength : option Z;
  opt_expectedUrl : option string
}.

(** [Number(x) > 0 ? Number(x) : d]. *)
Definition positiveOr (x : option Z) (d : Z) : Z :=
  match x with
  | Some v => if (0 <? v)%Z then v else d
  | None => d
  end.

(** What one [tick] observes: the address of the page, the container, and
    the clock if it is read. *)
Record Observation := mkObservation {
  href : string;
  container : option Container;
  clock : Z
}.

Record ReadyResult := mkReadyResult {
  ready : bool;
  res_timedOut : bool;
  urlOk : bool;
  res_metrics : Metrics;
  currentUrl : string;
  expectedUrl : string
}.

Section WithURL.
Variable URL_new : string -> option Url.

(** [urlsRoughlyMatch(expectedUrl)] of the content script (l. 558-569),
    against [window.location.href]. *)
Definition urlsRoughlyMatch (expectedUrl : string) (locationHref : string) : bool :=
  if String.eqb expectedUrl "" then true
  else
    match URL_new expectedUrl with
    | None => true
    | Some expected =>
        match URL_new locationHref with
        | None => true
        | Some current =>
            if negb (String.eqb (origin expected) (origin current)) then false
            else Js.startsWith (pathname current) (pathname expected)
        end
    end.

(** The test of one [tick]. *)
Definition isReady (expected : string) (minTextLength : Z) (o : Observation) : bool :=
  let m := getContentReadinessMetrics (container o) in
  urlsRoughlyMatch expected (href o)
  && hasContainer m
  && ((textLength m >=? minTextLength)%Z || (meaningfulCount m >=? 6)%Z || hasMermaid m).

(** The chain of [tick]s: the first one that is ready, or whose clock
    has reached the deadline, resolves the promise. *)
Fixpoint tickLoop (expected : string) (minTextLength deadline : Z)
    (observations : list Observation) : option ReadyResult :=
  match observations with
  | [] => None
  | o :: rest =>
      let urlOk := urlsRoughlyMatch expected (href o) in
      let m := getContentReadinessMetrics (container o) in
      let ready := isReady expected minTextLength o in
      if ready || (clock o >=? deadline)%Z
      then Some (mkReadyResult ready (negb ready) urlOk m (href o) expected)
      else tickLoop expected minTextLength deadline rest
  end.

(** [waitForContentReady(options)] (l. 679-725), called when the clock
    shows [start]. *)
Definition waitForContentReady (options : ReadyOptions) (start : Z)
    (observations : list Observation) : option ReadyResult :=
  let timeoutMs := positiveOr (opt_timeoutMs options) 20000 in
  let minTextLength := positiveOr (opt_minTextLength options) 160 in
  let expected := Js.or_else (opt_expectedUrl options) "" in
  tickLoop expected minTextLength (start + timeoutMs) observations.

End WithURL.
End Content.

(** * The readiness of a topic

    [getContentSignature] (l. 656-677) and [waitForTopicReady]
    (l. 727-780) of the content script. *)
Module Topic.

(** [s.replace(/\s+/g, ' ')]: every maximal run of white space becomes
    one space. *)
Fixpoint collapseWhiteSpace (s : string) : string :=
  match s with
  | EmptyString => EmptyString
  | String c s' =>
      if Js.isWhiteSpace c then
        match s' with
        | String c' _ =>
            if Js.isWhiteSpace c' then collapseWhiteSpace s'
            else String " " (collapseWhiteSpace s')
        | EmptyString => String " " EmptyString
        end
      else String c (collapseWhiteSpace s')
  end.

Record Signature := mkSignature {
  heading : string;
  snippet : string;
  sig_textLength : nat;
  sig_hash : string
}.

(** What one [tick] observes: the container, the text of the first
    heading in it ([None] when it has none), [window.location.hash],
    [window.location.href], and the clock if it is read. *)
Record Observation := mkObservation {
  container : option Content.Container;
  firstHeading : option string;
  locationHash : string;
  href : string;
  clock : Z
}.

(** [getContentSignature()]. *)
Definition getContentSignature (o : Observation) : Signature :=
  match container o with
  | None => mkSignature "" "" 0 (locationHash o)
  | Some c =>
      let heading := Js.trim (default "" (firstHeading o)) in
      let rawText := Js.trim (collapseWhiteSpace (Content.textContent c)) in
      mkSignature heading (String.substring 0 240 rawText) (String.length rawText)
                  (locationHash o)
  end.

(** The [previousSignature] of a request: a property that is absent, or
    no number, is [None]. *)
Record PreviousSignature := mkPreviousSignature {
  prev_snippet : option string;
  prev_textLength : option Z
}.

Record Options := mkOptions {
  opt_timeoutMs : option Z;
  opt_intervalMs : option Z;
  opt_minTextLength : option Z;
  opt_expectedTitle : option string;
  opt_previousSignature : option PreviousSignature
}.

Record Result := mkResult {
  ready : bool;
  timedOut : bool;
  res_metrics : Metrics;
  res_signature : Signature;
  expectedTitle : string;
  currentUrl : string
}.

(** [previousSignature?.snippet || ''] and
    [previousSignature?.textLength || 0]. *)
Definition previousSnippet (p : option PreviousSignature) : string :=
  Js.or_else (p ≫= prev_snippet) "".

Definition previousLength (p : option PreviousSignature) : Z :=
  default 0%Z (p ≫= prev_textLength).

Section WithLowerCase.
(** [String.prototype.toLowerCase]. *)
Variable toLowerCase : string -> string.

Definition titleMatched (normalizedExpected : string) (s : Signature) : bool :=
  let headingNormalized := toLowerCase (heading s) in
  negb (String.eqb normalizedExpected "")
  && (String.eqb headingNormalized normalizedExpected
      || Js.includes headingNormalized normalizedExpected).

Definition snippetChanged (p : option PreviousSignature) (s : Signature) : bool :=
  negb (String.eqb (snippet s) "") && negb (String.eqb (snippet s) (previousSnippet p)).

Definition lengthChanged (p : option PreviousSignature) (s : Signature) : bool :=
  (Z.abs (Z.of_nat (sig_textLength s) - previousLength p) >? 40)%Z.

(** The test of one [tick]. *)
Definition isReady (normalizedExpected : string) (p : option PreviousSignature)
    (minTextLength : Z) (o : Observation) : bool :=
  let m := Content.getContentReadinessMetrics (container o) in
  let s := getContentSignature o in
  let contentLooksSubstantial :=
    (textLength m >=? minTextLength)%Z || (meaningfulCount m >=? 6)%Z || hasMermaid m in
  hasContainer m
  && (titleMatched normalizedExpected s || snippetChanged p s || lengthChanged p s)
  && (contentLooksSubstantial || (meaningfulCount m >=? 3)%Z).

(** The chain of [tick]s. *)
Fixpoint tickLoop (expectedTitle : string) (p : option PreviousSignature)
    (minTextLength deadline : Z) (observations : list Observation) : option Result :=
  match observations with
  | [] => None
  | o :: rest =>
      let ready := isReady (toLowerCase expectedTitle) p minTextLength o in
      if ready || (clock o >=? deadline)%Z
      then Some (mkResult ready (negb ready)
                   (Content.getContentReadinessMetrics (container o))
                   (getContentSignature o) expectedTitle (href o))
      else tickLoop expectedTitle p minTextLength deadline rest
  end.

(** [waitForTopicReady(options)], called when the clock shows [start]. *)
Definition waitForTopicReady (options : Options) (start : Z)
    (observations : list Observation) : option Result :=
  let timeoutMs := Content.positiveOr (opt_timeoutMs options) 8000 in
  let minTextLength := Content.positiveOr (opt_minTextLength options) 160 in
  let expectedTitle := Js.trim (Js.or_else (opt_expectedTitle options) "") in
  tickLoop expectedTitle (opt_previousSignature options) minTextLength
           (start + timeoutMs) observations.

End WithLowerCase.
End Topic.

(** * The clean-up of the converted text

    The functions of [DeepWikiFixer] in the content script that work line
    by line: [stripPreamble] (l. 822-835) and [removeAskDevinLines]
    (l. 841-847). *)
Module Fixer.

Definition isNewline (c : ascii) : bool := Ascii.eqb c "010".

(** The string of one line feed. *)
Definition newline : string := String "010" EmptyString.

(** [s.split('\n')]. *)
Fixpoint splitLines (s : string) : list string :=
  match s with
  | EmptyString => [EmptyString]
  | String c s' =>
      if isNewline c then EmptyString :: splitLines s'
      else match splitLines s' with
           | line :: lines => String c line :: lines
           | [] => [String c EmptyString]
           end
  end.

(** [lines.join('\n')]. *)
Fixpoint joinLines (lines : list string) : string :=
  match lines with
  | [] => ""
  | [line] => line
  | line :: rest => line +:+ newline +:+ joinLines rest
  end.

(** [s.endsWith('\n')]. *)
Fixpoint endsWithNewline (s : string) : bool :=
  match s with
  | EmptyString => false
  | String c EmptyString => isNewline c
  | String _ s' => endsWithNewline s'
  end.

(** [if (text.endsWith('\n')) result += '\n'], the end of both
    functions. *)
Definition restoreNewline (text result : string) : string :=
  if endsWithNewline text then result +:+ newline else result.

(** [line.trimStart().startsWith('#')]. *)
Definition isHeader (line : string) : bool := Js.startsWith (Js.trimStart line) "#".

Definition stripPreamble (text : string) : string :=
  let lines := splitLines text in
  match findIndex isHeader lines with
  | None => text
  | Some O => text
  | Some firstHeaderIdx => restoreNewline text (joinLines (drop firstHeaderIdx lines))
  end.

(** [line.trim().startsWith("Ask Devin about")]. *)
Definition isAskDevin (line : string) : bool :=
  Js.startsWith (Js.trim line) "Ask Devin about".

Definition removeAskDevinLines (text : string) : string :=
  let lines := splitLines text in
  let filtered := List.filter (fun line => negb (isAskDevin line)) lines in
  restoreNewline text (joinLines filtered).

End Fixer.

(** * The files of the archive

    The part of [createZipArchive] ([src/background.js] l. 474-484,
    [part_000] l. 816-826) that fills the archive, on the outputs and the
    folder name that the request [CreateZipArchive] carries. *)
Module Zip.

(** One line of the index. *)
Definition indexLine (page : ConvertedPage) : string :=
  "- [" +:+ fileName page +:+ "](" +:+ fileName page +:+ ".md)" +:+ Fixer.newline.

(** [indexContent] once the loop is over. *)
Definition indexContent (folder : string) (files : list ConvertedPage) : string :=
  fold_left (fun index page => index +:+ indexLine page) files
    ("# " +:+ folder +:+ Fixer.newline +:+ Fixer.newline +:+ "## Content Index"
       +:+ Fixer.newline +:+ Fixer.newline).

(** The calls of [zip.file(name, data)], in their order: one for each
    output, then the one for the index. *)
Definition fileCalls (folder : string) (files : list ConvertedPage)
    : list (string * option string) :=
  map (fun page => (fileName page +:+ ".md", content page)) files
  ++ [("README.md", Some (indexContent folder files))].

(** The entries of the archive: [zip.file] adds the entry of that name,
    or replaces it. *)
Definition entries (calls : list (string * option string)) : gmap string (option string) :=
  fold_left (fun zip call => <[fst call := snd call]> zip) calls ∅.

Definition archive (folder : string) (files : list ConvertedPage)
    : gmap string (option string) :=
  entries (fileCalls folder files).

End Zip.

(** [startBatchProcessing(tabId)] to its [return] ([src/background.js]
    l. 577-625, [part_000] l. 942-995).  The call [runBatchProcessing()]
    that precedes the [return] is not awaited: the run goes on until it
    waits for the first time, its promise is dropped, and the object is
    made of the state as it is then. *)
Definition startBatchProcessing_returning (URL_new : string -> option Url)
    (URL_new_base : string -> string -> option Url) (rev : Revision) (tab : Z)
    : Async (nat * string) :=
  fun w ts =>
    match startBatchProcessing URL_new URL_new_base rev tab w ts with
    | (Returned _, w1, ts') =>
        let w2 := snd (fst (runBatchProcessing URL_new rev w1 [])) in
        (Returned (total (batchState w2), folderName (batchState w2)), w2, ts')
    | other => other
    end.

(** * The status of the batch

    [getBatchStatusPayload()] ([src/background.js] l. 270-286, [part_000]
    l. 378-394), the answer to [getBatchStatus].  While a run is marked as
    running, the counts and the flag are those of the state and the rest is
    taken from the last report.  Otherwise the object is
    [{ running: false, ...rest }] with [rest] the last report without its
    [action]: the property [running] of the report comes after the one
    written first and replaces it. *)
Definition getBatchStatusPayload (w : Worker) : Report :=
  let b := batchState w in
  let r := lastBatchReport w in
  if isRunning b then
    mkReport (rtype r) true (processed b) (failed b) (total b) (cancelRequested b)
             (rmessage r) (rlevel r)
  else
    mkReport (rtype r) (running r) (rprocessed r) (rfailed r) (rtotal r) (rcancelRequested r)
             (rmessage r) (rlevel r).

(** * Vocabulary of the statements *)

(** A request to convert the page. *)
Definition isConvert (op : Op) : bool :=
  match op with
  | SendMessage _ m => String.eqb (action m) "convertToMarkdown"
  | _ => false
  end.

Definition converts (ops : list Op) : nat := length (List.filter isConvert ops).

(** What a computation added to the two logs. *)
Definition newRequests (w w' : Worker) : list Op := drop (length (requests w)) (requests w').
Definition newReports (w w' : Worker) : list Report :=
  drop (length (broadcasts w)) (broadcasts w').

(** During the turn, the tab [tab] is not closed. *)
Definition staysOpen (tab : option Z) (t : Turn) : bool :=
  forallb (fun i => match i with
                    | TabClosed x => negb (bool_decide (Some x = tab))
                    | CancelBatch => true
                    end) (during t).

Definition hasType (type : string) (r : Report) : bool := String.eqb (rtype r) type.

Definition countType (type : string) (rs : list Report) : nat :=
  length (List.filter (hasType type) rs).

(** No page is announced after a cancellation was acknowledged. *)
Fixpoint noProcessingAfterCancelling (rs : list Report) : bool :=
  match rs with
  | [] => true
  | r :: rest =>
      (if hasType "cancelling" r then forallb (fun r' => negb (hasType "processing" r')) rest
       else true)
      && noProcessingAfterCancelling rest
  end.

(** The response a turn carries, as [sendMessageToTab] resolves with it. *)
Definition responseOf (t : Turn) : option Response :=
  match answer t with
  | Got a => asResponse a
  | LastError _ => None
  end.

Definition rejected (t : Turn) : bool :=
  match answer t with
  | Got _ => false
  | LastError _ => true
  end.

(** The same pages done: outputs, counts and used names. *)
Definition sameProgress (w w' : Worker) : Prop :=
  convertedPages (batchState w') = convertedPages (batchState w)
  /\ processed (batchState w') = processed (batchState w)
  /\ failed (batchState w') = failed (batchState w)
  /\ fileNames (batchState w') = fileNames (batchState w).

(** How many times a function of promise [p] took effect. *)
Definition settledTimes (p : nat) (w : World) : nat :=
  length (List.filter (fun x => Nat.eqb (fst x) p) (settlements w)).

Definition isPending (st : option PromiseState) : bool :=
  match st with
  | Some Pending => true
  | _ => false
  end.

(** The timer of the item is the one at [timeoutId]. *)
Definition knownTimer (w : World) (item : QueueItem) : Prop :=
  exists tm, timers w !! timeoutId item = Some tm /\ callbackItem tm = item.

(** An address that is missing, empty, or refused by the constructor. *)
Definition unusable (URL_new : string -> option Url) (x : option string) : Prop :=
  Js.falsy x = true \/ exists s, x = Some s /\ URL_new s = None.

Definition noReceiver : string :=
  "Could not establish connection. Receiving end does not exist.".

Definition mentions (type : string) (rs : list Report) : bool := existsb (hasType type) rs.

(** How many of the messages handed to the tab are the queued item of
    promise [p]. *)
Definition deliveries (p : nat) (w : World) : nat :=
  length (List.filter (fun item => Nat.eqb (promise item) p) (dispatched w)).

(** The call with which [dispatchMessageToTab] hands an item to the tab. *)
Definition itemCall (tab : Z) (item : QueueItem) : Call :=
  mkCall tab (message item) (ToItem item) false.

(** * Assertions on asynchronous functions *)

(** [logged op w]: the worker once the request is in the log. *)
Definition logged (op : Op) (w : Worker) : Worker :=
  mkWorker (batchState w) (lastBatchReport w) (broadcasts w) (requests w ++ [op]).

Section Assertions.
(** What is assumed of every turn of the event loop. *)
Variable T : Turn -> Prop.

(** From a worker satisfying [P] and turns satisfying [T], the function
    leaves a worker satisfying [Q] when it returns, [X] when it throws and
    [S] when it is left suspended. *)
Definition hoare {A} (P : Worker -> Prop) (m : Async A)
    (Q : A -> Worker -> Prop) (X S : Worker -> Prop) : Prop :=
  forall w ts, Forall T ts -> P w ->
    Forall T (snd (m w ts))
    /\ match fst (fst (m w ts)) with
       | Returned a => Q a (snd (fst (m w ts)))
       | Threw _ => X (snd (fst (m w ts)))
       | Suspended => S (snd (fst (m w ts)))
       end.

(** An assertion that no step of the function disturbs. *)
Definition preserves {A} (I : Worker -> Prop) (m : Async A) : Prop :=
  hoare I m (fun _ => I) I I.

(** An assertion that logging a request and the handlers of a turn keep. *)
Definition stable (I : Worker -> Prop) (op : Op) : Prop :=
  (forall w, I w -> I (logged op w))
  /\ (forall w t, T t -> I w -> I (fold_left interrupt (during t) w)).

End Assertions.

(** Nothing is assumed of a turn. *)
Definition anyTurn (t : Turn) : Prop := True.

(** The function adds at most [n] conversion requests to the log, however
    it ends. *)
Definition convertsAtMost {A} (n : nat) (m : Async A) : Prop :=
  forall c, hoare anyTurn (fun w => converts (requests w) <= c)%nat m
              (fun _ w => converts (requests w) <= c + n)%nat
              (fun w => converts (requests w) <= c + n)%nat
              (fun w => converts (requests w) <= c + n)%nat.

(** Handlers other than the closing of the driving tab leave the pages done
    and the tab alone. *)
Definition steady (w w' : Worker) : Prop :=
  sameProgress w w' /\ tabId (batchState w') = tabId (batchState w).

(** * A page, up to its first conversion request *)

(** What [convertAndRecord] is called with: the readiness, the topic
    signature of a Devin topic, and whether the title takes the number
    prefix. *)
Definition ConvertArgs : Type := option Response * option (option string) * bool.

Definition convertFrom (page : Page) (r : option ConvertArgs) : Async unit :=
  match r with
  | None => ret tt
  | Some (readiness, topic, usePrefix) => convertAndRecord page readiness topic usePrefix
  end.

(** [processSinglePage] of [src/background.js] up to the first
    [convertToMarkdown]: [None] where the function returns before it. *)
Definition beforeConvert_background (page : Page) : Async (option ConvertArgs) :=
  c <- cancelled ;;
  if c then ret None else
  announceProcessing page ;;;
  w <- get ;;
  navigateToPage (tabId (batchState w)) (url page) ;;;
  c <- cancelled ;;
  if c then ret None else
  w <- get ;;
  readiness <- waitForPageContent (tabId (batchState w)) (url page) ;;
  ret (Some (readiness, None, false)).

Section BeforeConvert.
Variable URL_new : string -> option Url.

(** The same of [part_000]. *)
Definition beforeConvert_part_000 (page : Page) : Async (option ConvertArgs) :=
  c <- cancelled ;;
  if c then ret None else
  announceProcessing page ;;;
  w <- get ;;
  tabUrl <- getTabById (tabId (batchState w)) ;;
  match parseOpt URL_new tabUrl, parseOpt URL_new (url page) with
  | Some currentUrl, Some targetUrl =>
      let samePage :=
        String.eqb (origin currentUrl) (origin targetUrl)
        && String.eqb (Js.dropTrailingSlash (pathname currentUrl))
                      (Js.dropTrailingSlash (pathname targetUrl)) in
      match devinIndex page with
      | Some index =>
          r <- selectTopic page index samePage ;;
          c <- cancelled ;;
          if c then ret None else ret (Some (fst r, Some (snd r), true))
      | None =>
          r <- reachPage page currentUrl targetUrl samePage ;;
          match r with
          | None => ret None
          | Some readiness =>
              c <- cancelled ;;
              if c then ret None else ret (Some (readiness, None, true))
          end
      end
  | _, _ =>
      w <- get ;;
      navigateToPage (tabId (batchState w)) (url page) ;;;
      ret None
  end.

Definition beforeConvert (rev : Revision) : Page -> Async (option ConvertArgs) :=
  match rev with
  | Rev_background => beforeConvert_background
  | Rev_part_000 => beforeConvert_part_000
  end.

End BeforeConvert.

(** * The invariants of a run *)

Section RunInvariants.
(** The worker the run starts in. *)
Variable w0 : Worker.

(** The driving tab is not closed. *)
Definition tabOpen (t : Turn) : Prop := staysOpen (tabId (batchState w0)) t = true.

(** The reports since the start are [new] and the tab is the same. *)
Definition since (new : list Report) (w : Worker) : Prop :=
  broadcasts w = broadcasts w0 ++ new /\ tabId (batchState w) = tabId (batchState w0).

(** During the loop: every acknowledged cancellation has raised the flag,
    no page was announced after one, the counts are the counts of the
    start plus the pages reported since, and the run did not reach its
    end. *)
Definition looping (w : Worker) : Prop :=
  exists new,
    since new w
    /\ (mentions "cancelling" new = true -> cancelRequested (batchState w) = true)
    /\ noProcessingAfterCancelling new = true
    /\ mentions "cancelled" new = false
    /\ mentions "zipping" new = false
    /\ processed (batchState w)
       = (processed (batchState w0) + countType "pageProcessed" new)%nat
    /\ failed (batchState w) = (failed (batchState w0) + countType "pageFailed" new)%nat.

(** Once the loop is left without a cancellation: no page is announced any
    more, and a cancellation can only be acknowledged while the archive is
    made. *)
Definition archiving (zipping : bool) (w : Worker) : Prop :=
  exists new,
    since new w
    /\ noProcessingAfterCancelling new = true
    /\ mentions "cancelled" new = false
    /\ (mentions "cancelling" new = true -> mentions "zipping" new = true)
    /\ (zipping = true -> mentions "zipping" new = true).

(** What holds of the reports of a run at any time. *)
Definition reportsSound (new : list Report) : Prop :=
  noProcessingAfterCancelling new = true
  /\ forall r, r ∈ new -> rtype r = "cancelled" ->
       last new = Some r /\ running r = false
       /\ rprocessed r = (processed (batchState w0) + countType "pageProcessed" new)%nat
       /\ rfailed r = (failed (batchState w0) + countType "pageFailed" new)%nat.

(** What holds of them when the run is over. *)
Definition reportsFinal (new : list Report) : Prop :=
  reportsSound new
  /\ (mentions "cancelling" new = true -> mentions "zipping" new = false ->
      exists r, last new = Some r /\ rtype r = "cancelled").

Definition finished (w : Worker) : Prop :=
  exists new, broadcasts w = broadcasts w0 ++ new
              /\ isRunning (batchState w) = false /\ reportsFinal new.

Definition sound (w : Worker) : Prop :=
  exists new, broadcasts w = broadcasts w0 ++ new /\ reportsSound new.

End RunInvariants.

(** * The invariants of the delivery queue *)

(** What the steps of the worker do to the timers that exist: the item and
    the due time stay, a timer may only be disarmed, and no timer goes. *)
Definition timersKept (w w' : World) : Prop :=
  forall t tm, timers w !! t = Some tm ->
    exists tm', timers w' !! t = Some tm'
                /\ callbackItem tm' = callbackItem tm /\ due tm' = due tm
                /\ (armed tm' = true -> armed tm = true).

(** The promises that exist stay, and a settled one keeps its state. *)
Definition promisesKept (w w' : World) : Prop :=
  length (promises w) <= length (promises w')
  /\ forall q s, promises w !! q = Some s -> s <> Pending -> promises w' !! q = Some s.

(** Every timer is the one of its item, whose promise exists; a pending
    promise of an item has its timer armed; two timers serve two promises;
    the items in the queues and the items handed to the tab have their
    timers, and no item is twice in the queues and the calls together; the
    log of settlements has one entry per settled promise; and an answered
    call of an item has settled its promise. *)
Record WF0 (w : World) : Prop := mkWF0 {
  wf_timer_self : forall t tm, timers w !! t = Some tm ->
    timeoutId (callbackItem tm) = t /\ promise (callbackItem tm) < length (promises w);
  wf_pending_armed : forall t tm, timers w !! t = Some tm ->
    promises w !! promise (callbackItem tm) = Some Pending -> armed tm = true;
  wf_timer_inj : forall t1 t2 tm1 tm2,
    timers w !! t1 = Some tm1 -> timers w !! t2 = Some tm2 ->
    promise (callbackItem tm1) = promise (callbackItem tm2) -> t1 = t2;
  wf_queue_known : forall tab e item,
    messageQueue w !! tab = Some e -> item ∈ queue e -> knownTimer w item;
  wf_call_known : forall item, item ∈ dispatched w -> knownTimer w item;
  wf_queue_nodup : forall tab e, messageQueue w !! tab = Some e -> NoDup (queue e);
  wf_queue_disjoint : forall tab1 tab2 e1 e2 item,
    tab1 <> tab2 -> messageQueue w !! tab1 = Some e1 -> messageQueue w !! tab2 = Some e2 ->
    item ∈ queue e1 -> item ∉ queue e2;
  wf_dispatched_nodup : NoDup (dispatched w);
  wf_queue_fresh : forall tab e item,
    messageQueue w !! tab = Some e -> item ∈ queue e -> item ∉ dispatched w;
  wf_log : forall p,
    settledTimes p w = if isPending (promises w !! p) then 0
                       else if bool_decide (p < length (promises w)) then 1 else 0;
  wf_answered : forall n c item,
    calls w !! n = Some c -> cont c = ToItem item -> answered c = true ->
    isPending (promises w !! promise item) = false
}.

(** No armed timer is overdue. *)
Definition punctual (w : World) : Prop :=
  forall t tm, timers w !! t = Some tm -> armed tm = true -> (now w < due tm)%Z.

Definition WF (w : World) : Prop := WF0 w /\ punctual w.

(** The queues of [mq'] are queues of the world, or empty. *)
Definition queuesWithin (w : World) (mq' : gmap Z Entry) : Prop :=
  forall tab e', mq' !! tab = Some e' ->
    queue e' = [] \/ exists e, messageQueue w !! tab = Some e /\ queue e' = queue e.

(** The clock moved on, before the timers fire. *)
Definition advance (dt : N) (w : World) : World :=
  mkWorld (messageQueue w) (promises w) (timers w) (calls w) (settlements w)
          (now w + Z.of_N dt).

(** After it had its turn, a timer is disarmed or not yet due. *)
Definition quiet (t : nat) (w : World) : Prop :=
  forall tm, timers w !! t = Some tm -> armed tm = true -> (now w < due tm)%Z.

(** Timers stay, settled promises stay, and the items handed to the tab are
    only ever added to. *)
Definition Kept (w w' : World) : Prop :=
  timersKept w w' /\ promisesKept w w' /\ exists l, dispatched w' = dispatched w ++ l.

(** * Examples *)

Definition emptyContainer : Content.Container := Content.mkContainer false "" false [] [] [].

Definition diagramContainer : Content.Container :=
  Content.mkContainer false "graph" false [] [false; false] [false].

Definition overviewPage : Page :=
  mkPage "Overview" (Some "https://deepwiki.com/o/r/overview") None None.

(** A run on tab 7 with one page to do. *)
Definition runningWorker : Worker :=
  mkWorker (mkBatchState true (Some 7%Z) None [overviewPage] [] "r" 0 0 false 1 "" ∅)
           initialReport [] [].

Definition answers (a : Ans) : Turn := mkTurn [] (Got a).

Definition emptyConversion : Ans :=
  AResponse (Some (mkResponse true None (Some "  ") None None false None None None None)).

Definition extractAllPagesMessage : Message := mkMessage "extractAllPages" [].

Definition cancelledDuring (a : Ans) : Turn := mkTurn [CancelBatch] (Got a).

(** A run of two pages that is cancelled while the first is converted. *)
Definition twoPages : Worker :=
  mkWorker (mkBatchState true (Some 7%Z) None
              [overviewPage; mkPage "Usage" (Some "https://deepwiki.com/o/r/usage") None None]
              [] "r" 0 0 false 2 "" ∅)
           initialReport [] [].

Definition fullConversion : Ans :=
  AResponse (Some (mkResponse true None
    (Some "# Overview: what the project is, how it is laid out, and where to start reading it")
    (Some "Overview") None false None None None None)).

Definition cancelledRun : list Turn :=
  [answers AUnit; answers (AResponse None); cancelledDuring fullConversion; answers AUnit].

(** The answer of [chrome.tabs.get] for the tab of the run. *)
Definition tabOfRun : Turn := answers (ATab (Some "https://deepwiki.com/o/r")).

(** A run of [part_000] on two pages in which, while the first page is
    converted, the user cancels and then closes the tab, and the browser
    goes on answering. *)
Definition cancelledThenClosedRun : list Turn :=
  [tabOfRun; answers AUnit; answers (AResponse None);
   mkTurn [CancelBatch; TabClosed 7] (Got fullConversion); answers AUnit;
   tabOfRun; answers AUnit; answers (AResponse None); answers fullConversion; answers AUnit;
   answers AUnit].

(** The same run in [src/background.js]. *)
Definition cancelledThenClosedRun_background : list Turn :=
  [answers AUnit; answers (AResponse None);
   mkTurn [CancelBatch; TabClosed 7] (Got fullConversion); answers AUnit;
   answers AUnit; answers (AResponse None); answers fullConversion; answers AUnit;
   answers AUnit].

(** A run of [part_000] on two pages in which the user cancels while the
    archive is made. *)
Definition cancelledWhileArchivingRun : list Turn :=
  [tabOfRun; answers AUnit; answers (AResponse None); answers fullConversion; answers AUnit;
   tabOfRun; answers AUnit; answers (AResponse None); answers fullConversion; answers AUnit;
   mkTurn [CancelBatch] (Got AUnit)].

(** The same run, where the tab is closed while the first page is
    converted, and the browser goes on answering. *)
Definition closedRun : list Turn :=
  [answers AUnit; answers (AResponse None); mkTurn [TabClosed 7] (Got fullConversion);
   answers AUnit;
   answers AUnit; answers (AResponse None); answers fullConversion; answers AUnit;
   answers AUnit].

(** * File names *)

(** Every character of the string satisfies [P]. *)
Fixpoint allChars (P : ascii -> bool) (s : string) : bool :=
  match s with
  | EmptyString => true
  | String c s' => P c && allChars P s'
  end.

(** No two dashes follow each other. *)
Fixpoint noDoubleDash (s : string) : bool :=
  match s with
  | String c ((String c' _) as s') => negb (isDash c && isDash c') && noDoubleDash s'
  | _ => true
  end.

Definition startsWithDash (s : string) : bool :=
  match s with
  | String c _ => isDash c
  | EmptyString => false
  end.

Fixpoint endsWithDash (s : string) : bool :=
  match s with
  | EmptyString => false
  | String c EmptyString => isDash c
  | String _ s' => endsWithDash s'
  end.

(** A name that is safe as a file name: not empty, free of the characters
    [sanitizeName] replaces and of white space, with single dashes only, and
    none at either end. *)
Definition isCleanName (s : string) : bool :=
  negb (String.eqb s "")
  && allChars (fun c => negb (isForbiddenInName c) && negb (Js.isWhiteSpace c)) s
  && noDoubleDash s
  && negb (startsWithDash s)
  && negb (endsWithDash s).

(** The candidates of [getUniqueFileName]: the base, then the base with the
    counter. *)
Definition candidateName (base : string) (k : nat) : string :=
  match k with
  | O => base
  | S _ => base +:+ "-" +:+ showNat k
  end.

Definition isDigit (c : ascii) : bool :=
  let n := nat_of_ascii c in ((48 <=? n) && (n <=? 57))%nat.

(** * What a run keeps *)

(** Every request but the one for the archive. *)
Definition notArchive (op : Op) : Prop :=
  match op with
  | CreateZipArchive _ _ => False
  | _ => True
  end.

(** The state a page leaves when it is recorded under the name that
    [getUniqueFileName] gives for [desired]. *)
Definition recorded (desired content : option string) (w : Worker) : Worker :=
  setBatch (fun b => incrProcessed
              (pushConverted (mkConverted (fst (getUniqueFileName desired w)) content) b))
           (snd (getUniqueFileName desired w)).

(** The request that [createZipArchive] waits for. *)
Definition archiveRequest (w : Worker) : Op :=
  CreateZipArchive (folderName (batchState w)) (convertedPages (batchState w)).

(** The outputs have pairwise different names, which are clean and in the
    set of used names, and [processed] counts them. *)
Definition outputsConsistent (b : BatchState) : Prop :=
  NoDup (map fileName (convertedPages b))
  /\ Forall (fun c => fileName c ∈ fileNames b /\ isCleanName (fileName c) = true)
            (convertedPages b)
  /\ processed b = length (convertedPages b).

(** A request for an archive has files, with clean names that differ. *)
Definition archiveSound (op : Op) : Prop :=
  match op with
  | CreateZipArchive _ files =>
      files <> [] /\ NoDup (map fileName files)
      /\ Forall (fun c => isCleanName (fileName c) = true) files
  | _ => True
  end.

Definition isArchive (op : Op) : bool :=
  match op with
  | CreateZipArchive _ _ => true
  | _ => false
  end.

Definition outputsKept (w0 w : Worker) : Prop :=
  outputsConsistent (batchState w)
  /\ exists l, requests w = requests w0 ++ l /\ Forall archiveSound l.

Definition isTerminalType (type : string) : bool :=
  String.eqb type "completed" || String.eqb type "cancelled" || String.eqb type "error".

(** The run is over: it is marked as not running and its last report, which
    is the report on record, is a final one. *)
Definition ended (w : Worker) : Prop :=
  isRunning (batchState w) = false
  /\ exists r, last (broadcasts w) = Some r /\ lastBatchReport w = r
            /\ running r = false /\ isTerminalType (rtype r) = true.

(** The run is over and the state is the initial one again. *)
Definition wound_up (w : Worker) : Prop :=
  ended w /\ batchState w = createInitialBatchState.

(** The run is marked as stopped, its flag is down, and [n] pages were
    announced since [w0]. *)
Definition announcedSince (w0 : Worker) (n : nat) (w : Worker) : Prop :=
  isRunning (batchState w) = false
  /\ cancelRequested (batchState w) = false
  /\ exists l, broadcasts w = broadcasts w0 ++ l /\ countType "processing" l = n.

(** Nothing of the worker has changed but the log of requests, and nothing
    is running. *)
Definition untouched (w0 w : Worker) : Prop :=
  batchState w = batchState w0 /\ lastBatchReport w = lastBatchReport w0
  /\ broadcasts w = broadcasts w0 /\ isRunning (batchState w) = false.

(** What [startBatchProcessing] has made of the worker [w0] when it calls
    [runBatchProcessing()]. *)
Definition startedFrom (tab : Z) (r : nat * string) (w0 w : Worker) : Prop :=
  exists pages tabUrl folder,
    pages <> [] /\ isValidUrl tabUrl = true /\ isCleanName folder = true
    /\ r = (length pages, folder)
    /\ batchState w
       = mkBatchState true (Some tab) tabUrl pages [] folder 0 0 false (length pages) "" ∅
    /\ exists s,
         broadcasts w = broadcasts w0 ++ [s] /\ rtype s = "started" /\ running s = true
         /\ rprocessed s = 0%nat /\ rfailed s = 0%nat /\ rtotal s = length pages.

(** The worker once [processSinglePage] has announced the page. *)
Definition announced (page : Page) (w : Worker) : Worker :=
  let b := batchState w in
  broadcastBatchUpdate "processing"
    ("Processing " +:+ showNat (processed b + failed b + 1) +:+ "/" +:+ showNat (total b)
       +:+ ": " +:+ title page) None None
    (setBatch (setCurrentTitle (title page)) w).

(** The first request of a page: [src/background.js] sends the tab to the
    page, [part_000] asks for the tab. *)
Definition firstRequest (rev : Revision) (tab : option Z) (page : Page) : Op :=
  match rev with
  | Rev_background => NavigateToPage tab (url page)
  | Rev_part_000 => GetTab tab
  end.

(** What a start that returns leaves behind, from the worker [w0]. *)
Definition launched (rev : Revision) (tab : Z) (r : nat * string) (w0 w : Worker) : Prop :=
  exists first rest tabUrl folder,
    isValidUrl tabUrl = true /\ isCleanName folder = true
    /\ r = (S (length rest), folder)
    /\ batchState w
       = mkBatchState true (Some tab) tabUrl (first :: rest) [] folder 0 0 false
           (S (length rest)) (title first) ∅
    /\ (exists s p,
          broadcasts w = broadcasts w0 ++ [s; p] /\ lastBatchReport w = p
          /\ rtype s = "started" /\ rtype p = "processing"
          /\ running s = true /\ running p = true
          /\ rprocessed s = 0%nat /\ rprocessed p = 0%nat
          /\ rfailed s = 0%nat /\ rfailed p = 0%nat
          /\ rtotal s = S (length rest) /\ rtotal p = S (length rest))
    /\ last (requests w) = Some (firstRequest rev (Some tab) first).

(** A turn in which no handler runs and the request is answered. *)
Definition calm (t : Turn) : Prop := during t = [] /\ exists a, answer t = Got a.

(** The flag is down, [total] is [n], [k] pages are counted as processed
    or failed, and the processed ones are the outputs. *)
Definition accounted (n k : nat) (w : Worker) : Prop :=
  cancelRequested (batchState w) = false
  /\ total (batchState w) = n
  /\ (processed (batchState w) + failed (batchState w))%nat = k
  /\ processed (batchState w) = length (convertedPages (batchState w)).

(** The last report closes a run of [n] pages of which [k] are counted:
    [completed] with at least one page processed, or [error] with none. *)
Definition closing (n k : nat) (w : Worker) : Prop :=
  exists r, last (broadcasts w) = Some r
    /\ (rprocessed r + rfailed r)%nat = k /\ rtotal r = n /\ running r = false
    /\ ((rtype r = "completed" /\ (0 < rprocessed r)%nat)
        \/ (rtype r = "error" /\ rprocessed r = 0%nat)).

(** * The delivery queue and the navigation *)

(** What the callback of a dispatched item makes of the answer. *)
Definition outcomeOf (r : Answer (option Response)) : PromiseState :=
  match r with
  | Got v => Fulfilled v
  | LastError e => RejectedWith e
  end.

(** The item is in the queue of the tab. *)
Definition queuedFor (tab : Z) (item : QueueItem) (w : World) : Prop :=
  exists e, messageQueue w !! tab = Some e /\ item ∈ queue e.

(** The queue of a tab, empty when the tab has no entry. *)
Definition queueOf (tab : Z) (w : World) : list QueueItem :=
  default [] (queue <$> messageQueue w !! tab).

Section NavigationVocabulary.
Variable URL_new : string -> option Url.
Variable rev : Revision.

(** The events of a navigation, one after the other. *)
Definition navRun (evs : list NavEvent) (w : NavWait) : NavWait :=
  fold_left (fun w ev => navStep URL_new rev ev w) evs w.

(** What the closures of [waitForNavigation] keep true. *)
Definition navSound (tab : Z) (expected : option string) (w : NavWait) : Prop :=
  nav_tabId w = tab /\ nav_expected w = expected
  /\ timerArmed w = listening w
  /\ (nav_promise w = Unsettled -> timerArmed w = true /\ settled w = false)
  /\ (nav_promise w <> Unsettled -> timerArmed w = false).

(** The events that the promise of a navigation can owe its state to. *)
Definition navCause (tab : Z) (expected : option string) (evs : list NavEvent)
    (s : Settlement) : Prop :=
  match s with
  | Unsettled => NavTimeout ∉ evs
  | Resolved =>
      Js.falsy expected = true
      \/ exists u, urlsRoughlyMatch URL_new rev expected u = true
           /\ ((exists clock, NavTabsGet (Got u) clock ∈ evs) \/ NavCompleted tab 0 u ∈ evs)
  | Failed e =>
      (e = "Navigation timeout." /\ NavTimeout ∈ evs)
      \/ exists err, NavErrorOccurred tab 0 err ∈ evs /\ e = Js.or_else err "Navigation error"
  end.

(** An answer of [chrome.tabs.get] after which [waitForTabUrl] polls
    again: a tab whose address does not match yet, before the time is
    up. *)
Definition pollsAgain (expected : option string) (start timeoutMs : Z)
    (o : Answer (option string) * Z) : Prop :=
  exists u, fst o = Got u /\ urlsRoughlyMatch URL_new rev expected u = false
            /\ (snd o - start < timeoutMs)%Z.

End NavigationVocabulary.

(** * The content script *)

(** The readiness object of [waitForContentReady] as the service worker
    reads it: it has [metrics] and [timedOut], and none of the other
    properties. *)
Definition readinessResponse (r : Content.ReadyResult) : Response :=
  mkResponse false None None None (Some (Content.res_metrics r)) (Content.res_timedOut r)
             None None None None.

(** The options that [waitForPageContent] sends. *)
Definition pageContentOptions (expectedUrl : option string) : Content.ReadyOptions :=
  Content.mkReadyOptions (Some CONTENT_READY_TIMEOUT) None (Some CONTENT_READY_MIN_TEXT)
                         expectedUrl.

(** No line feed in the string. *)
Fixpoint oneLine (s : string) : bool :=
  match s with
  | EmptyString => true
  | String c s' => negb (Fixer.isNewline c) && oneLine s'
  end.

(** * More examples *)

(** A run that converts both pages and asks for the archive. *)
Definition completeRun : list Turn :=
  [answers AUnit; answers (AResponse None); answers fullConversion; answers AUnit;
   answers AUnit; answers (AResponse None); answers fullConversion; answers AUnit;
   answers AUnit; answers AUnit].

(** The answer of the content script to [extractAllPages] on a project
    with one page. *)
Definition onePageExtraction : Ans :=
  AResponse (Some (mkResponse true None None None None false (Some [overviewPage])
                              (Some "o/r") None None)).

(** A page of text, and a tick that sees it under a heading. *)
Definition proseContainer : Content.Container :=
  Content.mkContainer false "Usage   Install the extension and open a page of the wiki." false
                      [] [false; false; false] [].

Definition proseTick (clock : Z) : Topic.Observation :=
  Topic.mkObservation (Some proseContainer) (Some " Usage ") "#usage"
                      "https://app.devin.ai/wiki/o/r#usage" clock.

(** A page with a relative address. *)
Definition relativePage : Page := mkPage "Usage" (Some "/o/r/usage") None None.

(** * Properties of the navigation coordinator *)

Lemma falsy_Some_false (s : string) : s <> "" -> Js.falsy (Some s) = false.
Proof.
  intros H. unfold Js.falsy. destruct (String.eqb_spec s ""); congruence.
Qed.

Lemma falsy_false_inv (x : option string) :
  Js.falsy x = false -> exists s, x = Some s /\ s <> "".
Proof.
  destruct x as [s|]; simpl; [|discriminate].
  destruct (String.eqb_spec s ""); [discriminate|]. eauto.
Qed.

Section NavigationFacts.
Variable URL_new : string -> option Url.

(** The constructor refuses the empty string, which is no absolute
    address. *)
Hypothesis URL_new_empty : URL_new "" = None.

Lemma parsed_nonempty (s : string) (u : Url) : URL_new s = Some u -> s <> "".
Proof. intros H ->. congruence. Qed.

(** C9, as amended.  On two addresses that parse, the comparison of
    [src/background.js] is exactly: same origin, and one path a prefix of
    the other.  The comparison of [part_000] asks in addition that a
    non-empty fragment of the expected address be the fragment of the
    actual one. *)
Theorem urlsRoughlyMatch_parseable (e a : string) (ue ua : Url) :
  URL_new e = Some ue -> URL_new a = Some ua ->
  Background.urlsRoughlyMatch URL_new (Some e) (Some a)
    = String.eqb (origin ue) (origin ua)
      && (Js.startsWith (pathname ua) (pathname ue)
          || Js.startsWith (pathname ue) (pathname ua))
  /\ Part000.urlsRoughlyMatch URL_new (Some e) (Some a)
    = String.eqb (origin ue) (origin ua)
      && (String.eqb (hash ue) "" || String.eqb (hash ue) (hash ua))
      && (Js.startsWith (pathname ua) (pathname ue)
          || Js.startsWith (pathname ue) (pathname ua)).
Proof.
  intros He Ha.
  pose proof (parsed_nonempty _ _ He) as Hne.
  pose proof (parsed_nonempty _ _ Ha) as Hna.
  unfold Background.urlsRoughlyMatch, Part000.urlsRoughlyMatch.
  rewrite !falsy_Some_false by assumption. simpl.
  rewrite He, Ha.
  destruct (String.eqb (origin ue) (origin ua)); simpl; [|done].
  split; [done|].
  destruct (String.eqb (hash ue) ""); simpl; [done|].
  destruct (String.eqb (hash ue) (hash ua)); done.
Qed.

Lemma urlsRoughlyMatch_unusable (rev : Revision) (e a : option string) :
  unusable URL_new e \/ unusable URL_new a -> urlsRoughlyMatch URL_new rev e a = true.
Proof.
  intros H.
  assert (Hb : Background.urlsRoughlyMatch URL_new e a = true
               /\ Part000.urlsRoughlyMatch URL_new e a = true).
  { unfold Background.urlsRoughlyMatch, Part000.urlsRoughlyMatch.
    destruct (Js.falsy e) eqn:Fe; simpl; [done|].
    destruct (Js.falsy a) eqn:Fa; simpl; [done|].
    destruct H as [[H|(s & -> & Hs)]|[H|(s & -> & Hs)]]; try congruence.
    - simpl. rewrite Hs. done.
    - simpl. rewrite Hs. destruct (URL_new (default "" e)); done. }
  destruct rev; simpl; tauto.
Qed.

(** C10.  The comparison holds as soon as one of its arguments is missing,
    empty or not parseable; so for such a destination the poll of
    [waitForTabUrl] resolves on the first tab it obtains, whatever its
    address, and the [onCompleted] listener of [waitForNavigation] resolves
    on the first event of the tab's top frame, whatever its address. *)
Theorem unusable_destination_always_confirmed (rev : Revision) (expected : option string) :
  unusable URL_new expected ->
  (forall actual, urlsRoughlyMatch URL_new rev expected actual = true
                  /\ urlsRoughlyMatch URL_new rev actual expected = true)
  /\ (forall start timeoutMs tabUrl clock rest,
        waitForTabUrl URL_new rev expected start timeoutMs ((Got tabUrl, clock) :: rest)
          = Resolved)
  /\ (forall tab start tabUrl clock,
        nav_promise (navStep URL_new rev (NavTabsGet (Got tabUrl) clock)
                       (waitForNavigation tab expected start)) = Resolved)
  /\ (forall tab start address,
        nav_promise (navStep URL_new rev (NavCompleted tab 0 address)
                       (waitForNavigation tab expected start)) = Resolved).
Proof.
  intros Hu.
  assert (Hm : forall actual, urlsRoughlyMatch URL_new rev expected actual = true).
  { intros. apply urlsRoughlyMatch_unusable. by left. }
  split; [|split; [|split]].
  - intros actual. split; [apply Hm|]. apply urlsRoughlyMatch_unusable. by right.
  - intros. unfold waitForTabUrl.
    destruct (Js.falsy expected); [done|]. simpl. by rewrite Hm.
  - intros. unfold waitForNavigation.
    destruct (Js.falsy expected) eqn:F; [done|].
    simpl. rewrite Hm. done.
  - intros. unfold waitForNavigation.
    destruct (Js.falsy expected) eqn:F; [done|].
    simpl. rewrite Z.eqb_refl, Hm. done.
Qed.

End NavigationFacts.

Lemma SimpleUrl_parse_empty : SimpleUrl.parse "" = None.
Proof. reflexivity. Qed.

Lemma urlsRoughlyMatch_parseable_witness :
  Background.urlsRoughlyMatch SimpleUrl.parse
    (Some "https://deepwiki.com/o/r") (Some "https://deepwiki.com/o/r/page#intro") = true
  /\ Part000.urlsRoughlyMatch SimpleUrl.parse
    (Some "https://deepwiki.com/o/r") (Some "https://deepwiki.com/o/r/page#intro") = true.
Proof.
  exact (urlsRoughlyMatch_parseable SimpleUrl.parse SimpleUrl_parse_empty
           "https://deepwiki.com/o/r" "https://deepwiki.com/o/r/page#intro"
           _ _ eq_refl eq_refl).
Defined.

(** C9, the claim as written fails on [part_000]: two addresses of the same
    origin and the same path, where the expected one has a fragment that the
    actual one lacks, do not match. *)
Lemma urlsRoughlyMatch_fragment_counterexample :
  let e := "https://deepwiki.com/o/r#intro" in
  let a := "https://deepwiki.com/o/r" in
  exists ue ua,
    SimpleUrl.parse e = Some ue /\ SimpleUrl.parse a = Some ua
    /\ String.eqb (origin ue) (origin ua)
       && (Js.startsWith (pathname ua) (pathname ue)
           || Js.startsWith (pathname ue) (pathname ua)) = true
    /\ Part000.urlsRoughlyMatch SimpleUrl.parse (Some e) (Some a) = false.
Proof. do 2 eexists. repeat split; reflexivity. Qed.

Lemma unusable_destination_witness :
  urlsRoughlyMatch SimpleUrl.parse Rev_part_000 (Some "not an address")
    (Some "https://deepwiki.com/o/r") = true
  /\ waitForTabUrl SimpleUrl.parse Rev_part_000 (Some "not an address") 0 30000
       [(Got (Some "https://example.org/"), 200%Z)] = Resolved.
Proof.
  pose proof (unusable_destination_always_confirmed SimpleUrl.parse Rev_part_000
                (Some "not an address")) as H.
  destruct H as (H1 & H2 & _).
  - right. exists "not an address". split; reflexivity.
  - split; [apply H1 | apply H2].
Defined.

(** * The empty-output heuristic *)

(** C6.  The output is suspiciously empty exactly when its trimmed length
    is below 80 and either there are no metrics and the length is below 20,
    or the metrics show a text length of 160 or more, six meaningful
    elements or more, or a diagram.  An output of trimmed length 80 or more
    is never suspiciously empty. *)
Theorem isMarkdownSuspiciouslyEmpty_spec (markdown : option string)
    (readiness : option Response) :
  (isMarkdownSuspiciouslyEmpty markdown readiness = true <->
   (trimmedLength markdown < 80)%nat
   /\ ((readiness ≫= metrics = None /\ (trimmedLength markdown < 20)%nat)
       \/ exists m, readiness ≫= metrics = Some m
            /\ ((160 <= textLength m)%Z \/ (6 <= meaningfulCount m)%Z
                \/ hasMermaid m = true)))
  /\ ((80 <= trimmedLength markdown)%nat ->
      isMarkdownSuspiciouslyEmpty markdown readiness = false).
Proof.
  unfold isMarkdownSuspiciouslyEmpty, contentLooksSubstantial, CONTENT_READY_MIN_TEXT.
  set (n := trimmedLength markdown).
  destruct (Nat.leb_spec 80 n) as [Hn|Hn].
  - split; [|done]. split; [done|]. intros [? _]. lia.
  - split; [|lia].
    destruct (readiness ≫= metrics) as [m|].
    + rewrite andb_true_iff, !orb_true_iff, Nat.ltb_lt, !Z.geb_le.
      split.
      * intros [H _]. split; [done|]. right. exists m. split; [done|tauto].
      * intros [_ [[? _]|(m' & [= <-] & H)]]; [done|]. tauto.
    + rewrite Nat.ltb_lt. split.
      * intros H. split; [done|]. by left.
      * intros [_ [[_ ?]|(m' & ? & _)]]; done.
Qed.

Lemma isMarkdownSuspiciouslyEmpty_witness :
  isMarkdownSuspiciouslyEmpty
    (Some "0123456789012345678901234567890123456789012345678901234567890123456789012345678901234567890123456789")
    (Some (mkResponse false None None None (Some (mkMetrics true 500 12 true)) false
             None None None None)) = false.
Proof.
  apply isMarkdownSuspiciouslyEmpty_spec. vm_compute. lia.
Defined.

(** * The delivery queue: a send to a ready tab *)

(** C1, what the code does.  When the entry of the tab is marked ready,
    [sendMessageToTab] hands the message to the tab without a [catch]
    handler: whatever the error of the delivery, also one that
    [shouldQueueForError] accepts, the promise is rejected with it and
    nothing is queued. *)
Theorem ready_send_rejects_on_delivery_error (w : World) (tab : Z) (e : Entry)
    (m : Message) (err : string) :
  messageQueue w !! tab = Some e -> isReady e = true ->
  let '(p, w1) := sendMessageToTab tab m w in
  let w2 := answerCall (length (calls w)) (LastError err) w1 in
  promises w2 !! p = Some (RejectedWith err)
  /\ messageQueue w2 = messageQueue w
  /\ timers w2 = timers w.
Proof.
  intros He Hr. unfold sendMessageToTab, newPromise. rewrite He, Hr. simpl.
  unfold answerCall, attemptDirectMessage, tabs_sendMessage. simpl.
  rewrite lookup_app_r, Nat.sub_diag by lia. simpl.
  unfold settle. simpl.
  rewrite lookup_app_r, Nat.sub_diag by lia. simpl.
  repeat split.
  rewrite insert_app_r_alt, Nat.sub_diag by lia. simpl.
  rewrite lookup_app_r, Nat.sub_diag by lia. done.
Qed.

Lemma ready_send_rejects_witness :
  let w := onContentScriptReady Rev_part_000 7 None initialWorld in
  shouldQueueForError noReceiver = true
  /\ promises (answerCall 0 (LastError noReceiver) (snd (sendMessageToTab 7 convertToMarkdown w)))
       !! 0%nat = Some (RejectedWith noReceiver).
Proof.
  split; [reflexivity|].
  pose proof (ready_send_rejects_on_delivery_error
                (onContentScriptReady Rev_part_000 7 None initialWorld) 7
                (mkEntry true [] None) convertToMarkdown noReceiver eq_refl eq_refl) as H.
  vm_compute in H. destruct H as [H _]. vm_compute. exact H.
Defined.

(** The other branch: a tab without an entry.  There the delivery has the
    [catch] handler, and an error that [shouldQueueForError] accepts makes
    an entry for the tab, pending, with the message as its only item, under
    a timer of [MESSAGE_TIMEOUT]; the promise of the caller takes the state
    of the promise of the item. *)
Theorem unknown_tab_send_falls_back (w : World) (tab : Z) (m : Message) (err : string) :
  messageQueue w !! tab = None -> shouldQueueForError err = true ->
  let '(p, w1) := sendMessageToTab tab m w in
  let w2 := answerCall (length (calls w)) (LastError err) w1 in
  exists item,
    message item = m
    /\ promises w2 !! p = Some (Follows (promise item))
    /\ promises w2 !! promise item = Some Pending
    /\ messageQueue w2 = <[tab := mkEntry false [item] None]> (messageQueue w)
    /\ timers w2 = timers w ++ [mkTimer item (now w + MESSAGE_TIMEOUT) true].
Proof.
  intros He Hq. unfold sendMessageToTab, newPromise. rewrite He. simpl.
  unfold answerCall, attemptDirectMessage, tabs_sendMessage. simpl.
  rewrite lookup_app_r, Nat.sub_diag by lia. simpl. rewrite Hq.
  unfold newPromise, settle. simpl.
  rewrite lookup_app_l by (rewrite length_app; simpl; lia).
  rewrite lookup_app_r, Nat.sub_diag by lia. simpl.
  unfold queueMessageForTab. simpl. rewrite He. simpl.
  exists (mkItem m (length (promises w ++ [Pending])) (length (timers w))).
  split; [reflexivity|]. simpl.
  rewrite length_app. simpl.
  split; [|split; [|split; [|done]]].
  - apply list_lookup_insert_eq. rewrite !length_app. simpl. lia.
  - rewrite list_lookup_insert_ne by lia.
    rewrite lookup_app_r by (rewrite length_app; simpl; lia).
    rewrite length_app. simpl.
    by replace (length (promises w) + 1 - (length (promises w) + 1))%nat with 0%nat by lia.
  - by rewrite alter_insert_eq.
Qed.

Lemma unknown_tab_send_falls_back_witness :
  exists item,
    message item = convertToMarkdown
    /\ promises (answerCall 0 (LastError noReceiver)
                   (snd (sendMessageToTab 7 convertToMarkdown initialWorld))) !! 0%nat
       = Some (Follows (promise item))
    /\ promises (answerCall 0 (LastError noReceiver)
                   (snd (sendMessageToTab 7 convertToMarkdown initialWorld))) !! promise item
       = Some Pending
    /\ messageQueue (answerCall 0 (LastError noReceiver)
                       (snd (sendMessageToTab 7 convertToMarkdown initialWorld)))
       = <[7%Z := mkEntry false [item] None]> ∅
    /\ timers (answerCall 0 (LastError noReceiver)
                 (snd (sendMessageToTab 7 convertToMarkdown initialWorld)))
       = [] ++ [mkTimer item (0 + MESSAGE_TIMEOUT) true].
Proof.
  exact (unknown_tab_send_falls_back initialWorld 7 convertToMarkdown noReceiver
           eq_refl eq_refl).
Defined.

(** * The readiness probe *)

Section ReadinessFacts.
Variable URL_new : string -> option Url.

Lemma positiveOr_pos (x : option Z) (d : Z) : (0 < d)%Z -> (0 < Content.positiveOr x d)%Z.
Proof.
  intros Hd. unfold Content.positiveOr. destruct x as [v|]; [|done].
  destruct (Z.ltb_spec 0 v); done.
Qed.

(** The metrics of a missing container satisfy none of the three
    thresholds, so [hasContainer] adds nothing to the test. *)
Lemma isReady_spec (expected : string) (minTextLength : Z) (o : Content.Observation) :
  (0 < minTextLength)%Z ->
  let m := Content.getContentReadinessMetrics (Content.container o) in
  Content.isReady URL_new expected minTextLength o
  = Content.urlsRoughlyMatch URL_new expected (Content.href o)
    && ((textLength m >=? minTextLength)%Z || (meaningfulCount m >=? 6)%Z || hasMermaid m).
Proof.
  intros Hmin. unfold Content.isReady. simpl.
  destruct (Content.container o) as [c|]; simpl.
  - by rewrite andb_true_r.
  - rewrite andb_false_r. simpl.
    destruct (Z.geb_spec 0 minTextLength); [lia|]. by rewrite andb_false_r.
Qed.

Lemma tickLoop_skips (expected : string) (minTextLength deadline : Z)
    (before rest : list Content.Observation) :
  Forall (fun o => Content.isReady URL_new expected minTextLength o = false
                   /\ (Content.clock o < deadline)%Z) before ->
  Content.tickLoop URL_new expected minTextLength deadline (before ++ rest)
  = Content.tickLoop URL_new expected minTextLength deadline rest.
Proof.
  induction 1 as [|o before [Hr Hc] _ IH]; [done|].
  simpl. rewrite Hr. simpl.
  destruct (Z.geb_spec (Content.clock o) deadline); [lia|]. exact IH.
Qed.

Lemma tickLoop_total (expected : string) (minTextLength deadline : Z)
    (observations : list Content.Observation) :
  Exists (fun o => (deadline <= Content.clock o)%Z) observations ->
  is_Some (Content.tickLoop URL_new expected minTextLength deadline observations).
Proof.
  induction 1 as [o rest Ho|o rest _ IH]; simpl.
  - destruct (Z.geb_spec (Content.clock o) deadline); [|lia].
    rewrite orb_true_r. eauto.
  - destruct (_ || _); eauto.
Qed.

(** C8.  With [minTextLength] the option or 160 and the deadline the
    start plus the option or 20000: a poll is ready exactly when the
    address matches and the text length reaches [minTextLength], or six
    elements are meaningful, or a diagram is there; the probe returns
    [ready] at the first poll that is ready; when no poll is ready up to
    the first one at or after the deadline, it returns [timedOut] with
    the metrics of that poll; and it returns once a poll reaches the
    deadline. *)
Theorem waitForContentReady_spec (options : Content.ReadyOptions) (start : Z) :
  let minTextLength := Content.positiveOr (Content.opt_minTextLength options) 160 in
  let deadline := (start + Content.positiveOr (Content.opt_timeoutMs options) 20000)%Z in
  let expected := Js.or_else (Content.opt_expectedUrl options) "" in
  let metricsOf o := Content.getContentReadinessMetrics (Content.container o) in
  let readyAt o :=
    Content.urlsRoughlyMatch URL_new expected (Content.href o)
    && ((textLength (metricsOf o) >=? minTextLength)%Z
        || (meaningfulCount (metricsOf o) >=? 6)%Z || hasMermaid (metricsOf o)) in
  let waiting o := readyAt o = false /\ (Content.clock o < deadline)%Z in
  (Content.opt_minTextLength options = None -> minTextLength = 160%Z)
  /\ (forall before o rest,
        Forall waiting before -> readyAt o = true ->
        exists r, Content.waitForContentReady URL_new options start (before ++ o :: rest) = Some r
                  /\ Content.ready r = true /\ Content.res_timedOut r = false
                  /\ Content.res_metrics r = metricsOf o)
  /\ (forall before o rest,
        Forall waiting before -> readyAt o = false -> (deadline <= Content.clock o)%Z ->
        exists r, Content.waitForContentReady URL_new options start (before ++ o :: rest) = Some r
                  /\ Content.ready r = false /\ Content.res_timedOut r = true
                  /\ Content.res_metrics r = metricsOf o)
  /\ (forall observations,
        Exists (fun o => (deadline <= Content.clock o)%Z) observations ->
        is_Some (Content.waitForContentReady URL_new options start observations)).
Proof.
  intros minTextLength deadline expected metricsOf readyAt waiting.
  assert (Hmin : (0 < minTextLength)%Z) by (apply positiveOr_pos; lia).
  assert (Hready : forall o, Content.isReady URL_new expected minTextLength o = readyAt o).
  { intros o. apply isReady_spec. exact Hmin. }
  assert (Hskip : forall before rest, Forall waiting before ->
            Content.waitForContentReady URL_new options start (before ++ rest)
            = Content.tickLoop URL_new expected minTextLength deadline rest).
  { intros before rest Hw. unfold Content.waitForContentReady.
    apply tickLoop_skips. eapply Forall_impl; [exact Hw|].
    intros o [? ?]. by rewrite Hready. }
  split; [|split; [|split]].
  - intros H. subst minTextLength. by rewrite H.
  - intros before o rest Hw Ho. rewrite Hskip by done. simpl.
    rewrite Hready, Ho. simpl. eexists. repeat split.
  - intros before o rest Hw Ho Hc. rewrite Hskip by done. simpl.
    rewrite Hready, Ho. simpl.
    destruct (Z.geb_spec (Content.clock o) deadline); [|lia].
    eexists. repeat split.
  - intros observations H. unfold Content.waitForContentReady.
    by apply tickLoop_total.
Qed.

End ReadinessFacts.

Lemma waitForContentReady_witness :
  let options := Content.mkReadyOptions (Some 1000%Z) None None (Some "https://deepwiki.com/o/r") in
  (exists r,
     Content.waitForContentReady SimpleUrl.parse options 0
       [Content.mkObservation "https://deepwiki.com/o/r/a" (Some emptyContainer) 0;
        Content.mkObservation "https://deepwiki.com/o/r/a" (Some diagramContainer) 250] = Some r
     /\ Content.ready r = true /\ Content.res_timedOut r = false
     /\ Content.res_metrics r = mkMetrics true 5 2 true)
  /\ (exists r,
     Content.waitForContentReady SimpleUrl.parse options 0
       [Content.mkObservation "https://deepwiki.com/o/r/a" (Some emptyContainer) 0;
        Content.mkObservation "https://deepwiki.com/o/r/a" None 1000] = Some r
     /\ Content.ready r = false /\ Content.res_timedOut r = true
     /\ Content.res_metrics r = mkMetrics false 0 0 false).
Proof.
  pose proof (waitForContentReady_spec SimpleUrl.parse
    (Content.mkReadyOptions (Some 1000%Z) None None (Some "https://deepwiki.com/o/r")) 0)
    as (_ & Hready & Htimeout & _).
  split.
  - apply (Hready [Content.mkObservation "https://deepwiki.com/o/r/a" (Some emptyContainer) 0]
                  (Content.mkObservation "https://deepwiki.com/o/r/a" (Some diagramContainer) 250)
                  []).
    + repeat constructor.
    + reflexivity.
  - apply (Htimeout [Content.mkObservation "https://deepwiki.com/o/r/a" (Some emptyContainer) 0]
                    (Content.mkObservation "https://deepwiki.com/o/r/a" None 1000) []).
    + repeat constructor.
    + reflexivity.
    + vm_compute. discriminate.
Defined.

(** * The single-flight guard *)

Section StartFacts.
Variable URL_new : string -> option Url.
Variable URL_new_base : string -> string -> option Url.

(** C4.  While a run is active, [startBatchProcessing] throws before it
    waits for anything, and the worker - the whole [batchState] with its
    pages, counts, outputs, original address and set of file names, the
    last report, and the logs - is the one it was called in. *)
Theorem startBatchProcessing_rejected_while_running (rev : Revision) (tab : Z)
    (w : Worker) (turns : list Turn) :
  isRunning (batchState w) = true ->
  startBatchProcessing URL_new URL_new_base rev tab w turns
    = (Threw "Batch conversion already running.", w, turns)
  /\ startBatch URL_new URL_new_base rev tab w turns
    = (Threw "Batch conversion already running.", w, turns).
Proof.
  intros H. unfold startBatch, startBatchProcessing, bind, get, throw. by rewrite H.
Qed.

End StartFacts.

(** * A program logic for asynchronous functions *)

Section Hoare.
Variable T : Turn -> Prop.

Local Abbreviation hoare := (hoare T).
Local Abbreviation preserves := (preserves T).
Local Abbreviation stable := (stable T).

Lemma hoare_conseq {A} (P P' : Worker -> Prop) (m : Async A)
    (Q Q' : A -> Worker -> Prop) (X X' S S' : Worker -> Prop) :
  hoare P' m Q' X' S' ->
  (forall w, P w -> P' w) -> (forall a w, Q' a w -> Q a w) ->
  (forall w, X' w -> X w) -> (forall w, S' w -> S w) ->
  hoare P m Q X S.
Proof.
  intros H HP HQ HX HS w ts Ht Hw. destruct (H w ts Ht (HP _ Hw)) as [H1 H2].
  split; [done|]. destruct (m w ts) as [[[a|e|] w'] ts']; simpl in *; auto.
Qed.

Lemma hoare_ret {A} (a : A) (Q : A -> Worker -> Prop) (X S : Worker -> Prop) :
  hoare (Q a) (ret a) Q X S.
Proof. intros w ts Ht Hw. done. Qed.

Lemma hoare_throw {A} (e : string) (Q : A -> Worker -> Prop) (X S : Worker -> Prop) :
  hoare X (throw e) Q X S.
Proof. intros w ts Ht Hw. done. Qed.

Lemma hoare_bind {A B} (P : Worker -> Prop) (m : Async A) (k : A -> Async B)
    (Q : A -> Worker -> Prop) (R : B -> Worker -> Prop) (X S : Worker -> Prop) :
  hoare P m Q X S -> (forall a, hoare (Q a) (k a) R X S) ->
  hoare P (bind m k) R X S.
Proof.
  intros Hm Hk w ts Ht Hw. unfold bind.
  destruct (Hm w ts Ht Hw) as [H1 H2].
  destruct (m w ts) as [[[a|e|] w'] ts']; simpl in *; [|done..].
  apply Hk; done.
Qed.

Lemma hoare_get (P : Worker -> Prop) (X S : Worker -> Prop) :
  hoare P get (fun a w => a = w /\ P w) X S.
Proof. intros w ts Ht Hw. done. Qed.

Lemma hoare_update (f : Worker -> Worker) (P : Worker -> Prop)
    (Q : unit -> Worker -> Prop) (X S : Worker -> Prop) :
  (forall w, P w -> Q tt (f w)) -> hoare P (update f) Q X S.
Proof. intros H w ts Ht Hw. split; [done|]. by apply H. Qed.

Lemma hoare_await (op : Op) (P : Worker -> Prop) (Q : Answer Ans -> Worker -> Prop)
    (X S : Worker -> Prop) :
  (forall w, P w -> S (logged op w)) ->
  (forall w t, T t -> P w -> Q (answer t) (fold_left interrupt (during t) (logged op w))) ->
  hoare P (await op) Q X S.
Proof.
  intros HS HQ w ts Ht Hw. unfold await. destruct ts as [|t ts']; simpl.
  - split; [done|]. by apply HS.
  - inversion Ht; subst. split; [done|]. by apply HQ.
Qed.

Lemma hoare_try_catch {A} (P : Worker -> Prop) (m : Async A) (h : string -> Async A)
    (Q : A -> Worker -> Prop) (X X' S : Worker -> Prop) :
  hoare P m Q X' S -> (forall e, hoare X' (h e) Q X S) ->
  hoare P (try_catch m h) Q X S.
Proof.
  intros Hm Hh w ts Ht Hw. unfold try_catch.
  destruct (Hm w ts Ht Hw) as [H1 H2].
  destruct (m w ts) as [[[a|e|] w'] ts']; simpl in *; [done| |done].
  apply Hh; done.
Qed.

Lemma hoare_try_finally {A} (P : Worker -> Prop) (m : Async A) (f : Async unit)
    (Q : A -> Worker -> Prop) (X S : Worker -> Prop)
    (Q' : A -> Worker -> Prop) (X' : Worker -> Prop) :
  hoare P m Q' X' S ->
  (forall a, hoare (Q' a) f (fun _ => Q a) X S) ->
  hoare X' f (fun _ => X) X S ->
  hoare P (try_finally m f) Q X S.
Proof.
  intros Hm Hq Hx w ts Ht Hw. unfold try_finally.
  destruct (Hm w ts Ht Hw) as [H1 H2].
  destruct (m w ts) as [[[a|e|] w'] ts']; simpl in *; [| |done].
  - destruct (Hq a w' ts' H1 H2) as [H3 H4].
    destruct (f w' ts') as [[[[]|e'|] w''] ts'']; simpl in *; done.
  - destruct (Hx w' ts' H1 H2) as [H3 H4].
    destruct (f w' ts') as [[[[]|e'|] w''] ts'']; simpl in *; done.
Qed.

Lemma preserves_ret {A} (I : Worker -> Prop) (a : A) : preserves I (ret a).
Proof. apply (hoare_ret a (fun _ => I)). Qed.

Lemma preserves_throw {A} (I : Worker -> Prop) (e : string) : preserves I (@throw A e).
Proof. apply hoare_throw. Qed.

Lemma preserves_bind {A B} (I : Worker -> Prop) (m : Async A) (k : A -> Async B) :
  preserves I m -> (forall a, preserves I (k a)) -> preserves I (bind m k).
Proof. intros. eapply hoare_bind; eauto. Qed.

Lemma preserves_get (I : Worker -> Prop) : preserves I get.
Proof. eapply hoare_conseq; [apply (hoare_get I I I)|..]; simpl; tauto. Qed.

Lemma preserves_get_bind {B} (I : Worker -> Prop) (k : Worker -> Async B) :
  (forall w, preserves I (k w)) -> preserves I (bind get k).
Proof. intros. apply preserves_bind; [apply preserves_get|done]. Qed.

Lemma preserves_update (I : Worker -> Prop) (f : Worker -> Worker) :
  (forall w, I w -> I (f w)) -> preserves I (update f).
Proof. intros. by apply hoare_update. Qed.

Lemma preserves_try_catch {A} (I : Worker -> Prop) (m : Async A) (h : string -> Async A) :
  preserves I m -> (forall e, preserves I (h e)) -> preserves I (try_catch m h).
Proof. intros. eapply hoare_try_catch; eauto. Qed.

Lemma preserves_try_finally {A} (I : Worker -> Prop) (m : Async A) (f : Async unit) :
  preserves I m -> preserves I f -> preserves I (try_finally m f).
Proof.
  intros Hm Hf.
  apply (hoare_try_finally I m f (fun _ => I) I I (fun _ => I) I); [exact Hm| |exact Hf].
  intros a. exact Hf.
Qed.

Lemma preserves_await (I : Worker -> Prop) (op : Op) :
  stable I op -> preserves I (await op).
Proof. intros [H1 H2]. apply hoare_await; intros; auto. Qed.

Lemma preserves_awaitOk (I : Worker -> Prop) (op : Op) :
  stable I op -> preserves I (awaitOk op).
Proof.
  intros H. apply preserves_bind; [by apply preserves_await|].
  intros [a|e]; [apply preserves_ret|apply preserves_throw].
Qed.

Lemma preserves_sleep (I : Worker -> Prop) (ms : Z) :
  stable I (Sleep ms) -> preserves I (sleep ms).
Proof.
  intros H. apply preserves_bind; [by apply preserves_awaitOk|]. intros; apply preserves_ret.
Qed.

Lemma preserves_getTabById (I : Worker -> Prop) (tab : option Z) :
  stable I (GetTab tab) -> preserves I (getTabById tab).
Proof.
  intros H. apply preserves_bind; [by apply preserves_awaitOk|]. intros; apply preserves_ret.
Qed.

Lemma preserves_sendToTab (I : Worker -> Prop) (tab : option Z) (m : Message) :
  stable I (SendMessage tab m) -> preserves I (sendToTab tab m).
Proof.
  intros H. apply preserves_bind; [by apply preserves_awaitOk|]. intros; apply preserves_ret.
Qed.

Lemma preserves_navigateToPage (I : Worker -> Prop) (tab : option Z) (u : option string) :
  stable I (NavigateToPage tab u) -> preserves I (navigateToPage tab u).
Proof.
  intros H. apply preserves_bind; [by apply preserves_awaitOk|]. intros; apply preserves_ret.
Qed.

Lemma preserves_waitForPageContent (I : Worker -> Prop) (tab : option Z) (u : option string) :
  stable I (SendMessage tab (waitForContentReadyMessage u)) ->
  preserves I (waitForPageContent tab u).
Proof.
  intros H. apply preserves_try_catch; [by apply preserves_sendToTab|].
  intros; apply preserves_ret.
Qed.

Lemma preserves_cancelled (I : Worker -> Prop) : preserves I cancelled.
Proof. apply preserves_get_bind. intros; apply preserves_ret. Qed.

Lemma preserves_if {A} (I : Worker -> Prop) (b : bool) (m1 m2 : Async A) :
  preserves I m1 -> preserves I m2 -> preserves I (if b then m1 else m2).
Proof. by destruct b. Qed.

(** The guard [if (batchState.cancelRequested) return;]: what follows it
    starts from a worker whose flag is down. *)
Lemma hoare_guard (I : Worker -> Prop) (k : Async unit)
    (Q : unit -> Worker -> Prop) (X S : Worker -> Prop) :
  (forall w, I w -> cancelRequested (batchState w) = true -> Q tt w) ->
  hoare (fun w => I w /\ cancelRequested (batchState w) = false) k Q X S ->
  hoare I (c <- cancelled ;; if c then ret tt else k) Q X S.
Proof.
  intros Hq Hk w ts Ht Hw. unfold bind, cancelled, get, ret. simpl.
  destruct (cancelRequested (batchState w)) eqn:Hc; simpl.
  - split; [done|]. by apply Hq.
  - apply Hk; done.
Qed.

End Hoare.

(** * The page processor: how often it converts *)

Lemma requests_interrupts (ints : list Interrupt) (w : Worker) :
  requests (fold_left interrupt ints w) = requests w.
Proof.
  revert w. induction ints as [|i ints IH]; intros w; simpl; [done|].
  rewrite IH. destruct i; simpl.
  - unfold cancelBatchProcessing. by destruct (negb _).
  - unfold onRemovedBatch. by destruct (_ && _).
Qed.

Lemma converts_app (l1 l2 : list Op) : converts (l1 ++ l2) = (converts l1 + converts l2)%nat.
Proof. unfold converts. by rewrite List.filter_app, length_app. Qed.

Lemma converts_snoc (l : list Op) (op : Op) :
  converts (l ++ [op]) = (converts l + if isConvert op then 1 else 0)%nat.
Proof. rewrite converts_app. unfold converts at 2. simpl. by destruct (isConvert op). Qed.

Lemma convertsAtMost_weaken {A} (n n' : nat) (m : Async A) :
  (n <= n')%nat -> convertsAtMost n m -> convertsAtMost n' m.
Proof.
  intros Hn H c. eapply hoare_conseq; [apply (H c)|..]; simpl; intros; lia.
Qed.

Lemma convertsAtMost_ret {A} (a : A) : convertsAtMost 0 (ret a).
Proof. intros c w ts Ht Hw. simpl. split; [done|lia]. Qed.

Lemma convertsAtMost_throw {A} (e : string) : convertsAtMost 0 (@throw A e).
Proof. intros c w ts Ht Hw. simpl. split; [done|lia]. Qed.

Lemma convertsAtMost_get : convertsAtMost 0 get.
Proof. intros c w ts Ht Hw. simpl. split; [done|lia]. Qed.

Lemma convertsAtMost_update (f : Worker -> Worker) :
  (forall w, requests (f w) = requests w) -> convertsAtMost 0 (update f).
Proof. intros Hf c w ts Ht Hw. simpl. rewrite Hf. split; [done|lia]. Qed.

Lemma convertsAtMost_bind {A B} (a b : nat) (m : Async A) (k : A -> Async B) :
  convertsAtMost a m -> (forall x, convertsAtMost b (k x)) ->
  convertsAtMost (a + b) (bind m k).
Proof.
  intros Hm Hk c.
  apply (hoare_bind anyTurn _ m k (fun _ w => converts (requests w) <= c + a)%nat).
  - eapply hoare_conseq; [apply (Hm c)|..]; simpl; intros; lia.
  - intros x. eapply hoare_conseq; [apply (Hk x (c + a)%nat)|..]; simpl; intros; lia.
Qed.

Lemma convertsAtMost_bind0 {A B} (m : Async A) (k : A -> Async B) :
  convertsAtMost 0 m -> (forall x, convertsAtMost 0 (k x)) -> convertsAtMost 0 (bind m k).
Proof. apply (convertsAtMost_bind 0 0). Qed.

Lemma convertsAtMost_try_catch {A} (a b : nat) (m : Async A) (h : string -> Async A) :
  convertsAtMost a m -> (forall e, convertsAtMost b (h e)) ->
  convertsAtMost (a + b) (try_catch m h).
Proof.
  intros Hm Hh c.
  apply (hoare_try_catch anyTurn _ m h _ _ (fun w => converts (requests w) <= c + a)%nat).
  - eapply hoare_conseq; [apply (Hm c)|..]; simpl; intros; lia.
  - intros e. eapply hoare_conseq; [apply (Hh e (c + a)%nat)|..]; simpl; intros; lia.
Qed.

Lemma convertsAtMost_await (op : Op) :
  convertsAtMost (if isConvert op then 1 else 0) (await op).
Proof.
  intros c. apply hoare_await.
  - intros w Hw. simpl. rewrite converts_snoc. lia.
  - intros w t _ Hw. rewrite requests_interrupts. simpl. rewrite converts_snoc. lia.
Qed.

Lemma convertsAtMost_awaitOk (op : Op) :
  convertsAtMost (if isConvert op then 1 else 0) (awaitOk op).
Proof.
  replace (if isConvert op then 1 else 0)%nat
    with ((if isConvert op then 1 else 0) + 0)%nat by lia.
  apply convertsAtMost_bind; [apply convertsAtMost_await|].
  intros [a|e]; [apply convertsAtMost_ret|apply convertsAtMost_throw].
Qed.

Lemma convertsAtMost_sendToTab (tab : option Z) (m : Message) :
  convertsAtMost (if String.eqb (action m) "convertToMarkdown" then 1 else 0) (sendToTab tab m).
Proof.
  replace (if String.eqb (action m) "convertToMarkdown" then 1 else 0)%nat
    with ((if isConvert (SendMessage tab m) then 1 else 0) + 0)%nat by (simpl; lia).
  apply convertsAtMost_bind; [apply convertsAtMost_awaitOk|]. intros; apply convertsAtMost_ret.
Qed.

Lemma convertsAtMost_other (op : Op) :
  isConvert op = false -> convertsAtMost 0 (awaitOk op).
Proof. intros H. pose proof (convertsAtMost_awaitOk op) as H'. by rewrite H in H'. Qed.

Lemma convertsAtMost_sleep (ms : Z) : convertsAtMost 0 (sleep ms).
Proof.
  apply convertsAtMost_bind0; [by apply convertsAtMost_other|]. intros; apply convertsAtMost_ret.
Qed.

Lemma convertsAtMost_getTabById (tab : option Z) : convertsAtMost 0 (getTabById tab).
Proof.
  apply convertsAtMost_bind0; [by apply convertsAtMost_other|]. intros; apply convertsAtMost_ret.
Qed.

Lemma convertsAtMost_navigateToPage (tab : option Z) (u : option string) :
  convertsAtMost 0 (navigateToPage tab u).
Proof.
  apply convertsAtMost_bind0; [by apply convertsAtMost_other|]. intros; apply convertsAtMost_ret.
Qed.

Lemma convertsAtMost_send_other (tab : option Z) (m : Message) :
  String.eqb (action m) "convertToMarkdown" = false -> convertsAtMost 0 (sendToTab tab m).
Proof. intros H. pose proof (convertsAtMost_sendToTab tab m) as H'. by rewrite H in H'. Qed.

Lemma convertsAtMost_waitForPageContent (tab : option Z) (u : option string) :
  convertsAtMost 0 (waitForPageContent tab u).
Proof.
  apply (convertsAtMost_try_catch 0 0); [by apply convertsAtMost_send_other|].
  intros; apply convertsAtMost_ret.
Qed.

Lemma convertsAtMost_cancelled : convertsAtMost 0 cancelled.
Proof. apply convertsAtMost_bind0; [apply convertsAtMost_get|]. intros; apply convertsAtMost_ret. Qed.

Lemma requests_broadcastBatchUpdate type msg level o w :
  requests (broadcastBatchUpdate type msg level o w) = requests w.
Proof. done. Qed.

Lemma requests_getUniqueFileName desired w :
  requests (snd (getUniqueFileName desired w)) = requests w.
Proof. done. Qed.

Lemma convertsAtMost_announceProcessing (page : Page) : convertsAtMost 0 (announceProcessing page).
Proof. by apply convertsAtMost_update. Qed.

Lemma convertsAtMost_retryProbe (page : Page) (topic : option (option string)) :
  convertsAtMost 0 (retryProbe page topic).
Proof.
  apply convertsAtMost_bind0; [apply convertsAtMost_get|]. intros w.
  destruct topic; [by apply convertsAtMost_send_other|apply convertsAtMost_waitForPageContent].
Qed.

Create HintDb converts_db.
#[local] Hint Resolve convertsAtMost_ret convertsAtMost_throw convertsAtMost_get
  convertsAtMost_sleep convertsAtMost_getTabById convertsAtMost_navigateToPage
  convertsAtMost_waitForPageContent convertsAtMost_cancelled
  convertsAtMost_announceProcessing convertsAtMost_retryProbe : converts_db.

(** Steps through a function that issues no conversion request. *)
Ltac converts_zero :=
  repeat first
    [ solve [auto with converts_db]
    | apply convertsAtMost_send_other; reflexivity
    | apply convertsAtMost_other; reflexivity
    | apply convertsAtMost_update; intros; reflexivity
    | apply convertsAtMost_bind0; [|intros]
    | apply (convertsAtMost_try_catch 0 0); [|intros]
    | match goal with
      | |- convertsAtMost _ (if ?b then _ else _) => destruct b
      | |- convertsAtMost _ (match ?x with _ => _ end) => destruct x
      end ].

Lemma convertsAtMost_convertAndRecord (page : Page) (readiness : option Response)
    (topic : option (option string)) (usePrefix : bool) :
  convertsAtMost 2 (convertAndRecord page readiness topic usePrefix).
Proof.
  unfold convertAndRecord.
  apply (convertsAtMost_bind 0 2); [apply convertsAtMost_get|]. intros w.
  apply (convertsAtMost_bind 1 1); [apply (convertsAtMost_sendToTab _ convertToMarkdown)|].
  intros first.
  apply (convertsAtMost_bind 0 1); [converts_zero|]. intros ?; cbv beta.
  apply (convertsAtMost_bind 1 0).
  - destruct (isMarkdownSuspiciouslyEmpty _ _); [|apply (convertsAtMost_weaken 0); [lia|converts_zero]].
    apply (convertsAtMost_bind 0 1); [converts_zero|]. intros ?; cbv beta.
    apply (convertsAtMost_bind 0 1); [converts_zero|]. intros retryReadiness.
    apply (convertsAtMost_bind 0 1); [converts_zero|]. intros w'.
    apply (convertsAtMost_bind 1 0); [apply (convertsAtMost_sendToTab _ convertToMarkdown)|].
    intros retry. converts_zero.
  - intros r. converts_zero.
Qed.

Lemma convertsAtMost_processSinglePage_background (page : Page) :
  convertsAtMost 2 (processSinglePage_background page).
Proof.
  unfold processSinglePage_background.
  apply (convertsAtMost_bind 0 2); [converts_zero|]. intros [|]; [apply (convertsAtMost_weaken 0); [lia|converts_zero]|].
  apply (convertsAtMost_bind 0 2); [converts_zero|]. intros ?; cbv beta.
  apply (convertsAtMost_bind 0 2); [converts_zero|]. intros w.
  apply (convertsAtMost_bind 0 2); [converts_zero|]. intros ?; cbv beta.
  apply (convertsAtMost_bind 0 2); [converts_zero|]. intros [|]; [apply (convertsAtMost_weaken 0); [lia|converts_zero]|].
  apply (convertsAtMost_bind 0 2); [converts_zero|]. intros w'.
  apply (convertsAtMost_bind 0 2); [converts_zero|]. intros readiness.
  apply convertsAtMost_convertAndRecord.
Qed.

Section PageFacts.
Variable URL_new : string -> option Url.
Variable URL_new_base : string -> string -> option Url.

Lemma convertsAtMost_selectTopic page index samePage :
  convertsAtMost 0 (selectTopic page index samePage).
Proof. unfold selectTopic. converts_zero. Qed.

Lemma convertsAtMost_reachPage page currentUrl targetUrl samePage :
  convertsAtMost 0 (reachPage page currentUrl targetUrl samePage).
Proof. unfold reachPage. converts_zero. Qed.

Lemma convertsAtMost_processSinglePage_part_000 (page : Page) :
  convertsAtMost 2 (processSinglePage_part_000 URL_new page).
Proof.
  unfold processSinglePage_part_000.
  apply (convertsAtMost_bind 0 2); [converts_zero|]. intros [|]; [apply (convertsAtMost_weaken 0); [lia|converts_zero]|].
  apply (convertsAtMost_bind 0 2); [converts_zero|]. intros ?; cbv beta.
  apply (convertsAtMost_bind 0 2); [converts_zero|]. intros w.
  apply (convertsAtMost_bind 0 2); [converts_zero|]. intros tabUrl.
  destruct (parseOpt URL_new tabUrl) as [currentUrl|];
    [|apply (convertsAtMost_weaken 0); [lia|converts_zero]].
  destruct (parseOpt URL_new (url page)) as [targetUrl|];
    [|apply (convertsAtMost_weaken 0); [lia|converts_zero]].
  destruct (devinIndex page) as [index|].
  - apply (convertsAtMost_bind 0 2); [apply convertsAtMost_selectTopic|]. intros r.
    apply (convertsAtMost_bind 0 2); [converts_zero|].
    intros [|]; [apply (convertsAtMost_weaken 0); [lia|converts_zero]|].
    apply convertsAtMost_convertAndRecord.
  - apply (convertsAtMost_bind 0 2); [apply convertsAtMost_reachPage|].
    intros [readiness|]; [|apply (convertsAtMost_weaken 0); [lia|converts_zero]].
    apply (convertsAtMost_bind 0 2); [converts_zero|].
    intros [|]; [apply (convertsAtMost_weaken 0); [lia|converts_zero]|].
    apply convertsAtMost_convertAndRecord.
Qed.

Lemma convertsAtMost_processOrFail (rev : Revision) (page : Page) :
  convertsAtMost 2 (processOrFail URL_new rev page).
Proof.
  unfold processOrFail.
  apply (convertsAtMost_try_catch 2 0).
  - destruct rev; [apply convertsAtMost_processSinglePage_background
                  |apply convertsAtMost_processSinglePage_part_000].
  - intros e. by apply convertsAtMost_update.
Qed.

End PageFacts.

(** ** The retry of an empty output *)

Lemma steady_refl w : steady w w.
Proof. by repeat split. Qed.

Lemma steady_trans w1 w2 w3 : steady w1 w2 -> steady w2 w3 -> steady w1 w3.
Proof.
  unfold steady, sameProgress. intros (([=] & [=] & [=] & [=]) & [=]) (([=] & [=] & [=] & [=]) & [=]).
  repeat split; congruence.
Qed.

Lemma steady_interrupt (tab : option Z) (i : Interrupt) (w : Worker) :
  tabId (batchState w) = tab ->
  match i with TabClosed x => negb (bool_decide (Some x = tab)) | CancelBatch => true end = true ->
  steady w (interrupt w i).
Proof.
  intros Htab Hi. destruct i as [|x]; simpl.
  - unfold cancelBatchProcessing. destruct (negb _); by repeat split.
  - unfold onRemovedBatch. rewrite Htab.
    apply negb_true_iff, bool_decide_eq_false in Hi.
    rewrite (bool_decide_eq_false_2 (tab = Some x)) by congruence.
    rewrite andb_false_r. apply steady_refl.
Qed.

Lemma steady_interrupts (ints : list Interrupt) (tab : option Z) (w : Worker) :
  tabId (batchState w) = tab ->
  forallb (fun i => match i with
                    | TabClosed x => negb (bool_decide (Some x = tab))
                    | CancelBatch => true
                    end) ints = true ->
  steady w (fold_left interrupt ints w).
Proof.
  revert w. induction ints as [|i ints IH]; intros w Htab H; simpl in *; [apply steady_refl|].
  apply andb_true_iff in H as [Hi H].
  pose proof (steady_interrupt tab i w Htab Hi) as Hs.
  eapply steady_trans; [exact Hs|]. apply IH; [|done].
  destruct Hs as [_ ->]. done.
Qed.

Lemma steady_turn (tab : option Z) (t : Turn) (op : Op) (w : Worker) :
  tabId (batchState w) = tab -> staysOpen tab t = true ->
  steady w (fold_left interrupt (during t) (logged op w)).
Proof.
  intros Htab Ht.
  apply (steady_trans _ (logged op w)); [by repeat split|].
  by apply (steady_interrupts _ tab).
Qed.

(** [convertAndRecord] on its first turn: the request is logged, the
    handlers run, and the answer decides. *)
Lemma convertAndRecord_first page readiness topic usePrefix w t ts :
  convertAndRecord page readiness topic usePrefix w (t :: ts)
  = let w1 := fold_left interrupt (during t)
                (logged (SendMessage (tabId (batchState w)) convertToMarkdown) w) in
    match answer t with
    | LastError e => (Threw e, w1, ts)
    | Got a =>
        let first := asResponse a in
        if negb (responseOk first)
        then (Threw (Js.or_else (first ≫= error) "Conversion failed"), w1, ts)
        else
          bind
            (if isMarkdownSuspiciouslyEmpty (first ≫= markdown) readiness then
               sleep 900 ;;;
               retryReadiness <- retryProbe page topic ;;
               w <- get ;;
               retryResponse <- sendToTab (tabId (batchState w)) convertToMarkdown ;;
               if responseOk retryResponse then
                 if isMarkdownSuspiciouslyEmpty (retryResponse ≫= markdown)
                      (orReadiness retryReadiness readiness)
                 then throw "Converted markdown appears empty after retry."
                 else ret retryResponse
               else throw (Js.or_else (retryResponse ≫= error) "Conversion retry failed")
             else ret first)
            (fun convertResponse =>
               let baseTitle := Js.or_else (convertResponse ≫= markdownTitle) (title page) in
               let baseTitle :=
                 if usePrefix && negb (Js.falsy (numberPrefix page))
                 then default "" (numberPrefix page) +:+ "-" +:+ baseTitle
                 else baseTitle in
               update (fun w =>
                 let '(name, w1) := getUniqueFileName (Some baseTitle) w in
                 let w2 := setBatch (fun b => incrProcessed
                              (pushConverted (mkConverted name (convertResponse ≫= markdown)) b)) w1 in
                 let b := batchState w2 in
                 broadcastBatchUpdate "pageProcessed"
                   ("Converted " +:+ showNat (processed b) +:+ "/" +:+ showNat (total b) +:+ ": "
                      +:+ title page) None None w2) ;;;
               sleep 250) w1 ts
    end.
Proof.
  unfold convertAndRecord. unfold bind at 1, get at 1. unfold bind at 1.
  unfold sendToTab at 1, awaitOk at 1, bind at 1, bind at 1, await at 1. simpl.
  destruct (answer t) as [a|e]; simpl; [|done].
  unfold bind at 1. destruct (negb (responseOk (asResponse a))); done.
Qed.

Lemma requests_logged op w : requests (logged op w) = requests w ++ [op].
Proof. done. Qed.

Lemma newRequests_app w w' l : requests w' = requests w ++ l -> newRequests w w' = l.
Proof. intros H. unfold newRequests. rewrite H. by rewrite drop_app_length. Qed.

(** The state after [sleep 250], in whatever way it ends. *)
Lemma sleep_requests ms w ts :
  requests (snd (fst (sleep ms w ts))) = requests w ++ [Sleep ms].
Proof.
  unfold sleep, bind, awaitOk, bind, await. destruct ts as [|t ts]; simpl; [done|].
  destruct (answer t); simpl; by rewrite requests_interrupts.
Qed.

Lemma not_retried page readiness topic usePrefix w t ts :
  rejected t = true
  \/ responseOk (responseOf t) = false
  \/ isMarkdownSuspiciouslyEmpty (responseOf t ≫= markdown) readiness = false ->
  converts (newRequests w (snd (fst (convertAndRecord page readiness topic usePrefix w (t :: ts)))))
  = 1%nat.
Proof.
  intros H. rewrite convertAndRecord_first. unfold rejected, responseOf in H. cbv zeta.
  set (w1 := fold_left interrupt _ _).
  assert (Hw1 : requests w1 = requests w ++ [SendMessage (tabId (batchState w)) convertToMarkdown]).
  { unfold w1. by rewrite requests_interrupts. }
  destruct (answer t) as [a|e]; simpl.
  - destruct (responseOk (asResponse a)) eqn:Hok; simpl.
    + destruct H as [H|[H|H]]; try discriminate. rewrite H.
      unfold bind at 1. unfold ret at 1. unfold bind at 1. unfold update at 1.
      match goal with |- context [sleep 250 ?w' ts] =>
        pose proof (sleep_requests 250 w' ts) as Hs;
        destruct (sleep 250 w' ts) as [[o w2] ts2] end.
      simpl in Hs.
      assert (Hw2 : requests w2 = requests w ++
                [SendMessage (tabId (batchState w)) convertToMarkdown; Sleep 250]).
      { rewrite Hs, Hw1. by rewrite <- app_assoc. }
      destruct o; simpl; by rewrite (newRequests_app _ _ _ Hw2).
    + by rewrite (newRequests_app _ _ _ Hw1).
  - by rewrite (newRequests_app _ _ _ Hw1).
Qed.

Lemma steady_turn' (w0 w : Worker) (t : Turn) (op : Op) :
  steady w0 w -> staysOpen (tabId (batchState w0)) t = true ->
  steady w0 (fold_left interrupt (during t) (logged op w)).
Proof.
  intros Hs Ht. eapply steady_trans; [exact Hs|].
  apply (steady_turn (tabId (batchState w0))); [|done]. by destruct Hs as [_ ->].
Qed.

Lemma retry_failure page readiness topic usePrefix w tConv tSleep tProbe tRetry rest :
  forallb (staysOpen (tabId (batchState w))) [tConv; tSleep; tProbe; tRetry] = true ->
  responseOk (responseOf tConv) = true ->
  isMarkdownSuspiciouslyEmpty (responseOf tConv ≫= markdown) readiness = true ->
  rejected tRetry = true
  \/ responseOk (responseOf tRetry) = false
  \/ isMarkdownSuspiciouslyEmpty (responseOf tRetry ≫= markdown)
       (orReadiness (responseOf tProbe) readiness) = true ->
  exists e w' ts',
    convertAndRecord page readiness topic usePrefix w (tConv :: tSleep :: tProbe :: tRetry :: rest)
    = (Threw e, w', ts')
    /\ sameProgress w w'.
Proof.
  intros Hopen Hok Hsus Hfail.
  simpl in Hopen. rewrite !andb_true_iff in Hopen. destruct Hopen as (O1 & O2 & O3 & O4 & _).
  rewrite convertAndRecord_first. cbv zeta.
  unfold responseOf in Hok, Hsus.
  destruct (answer tConv) as [a|e]; [|discriminate]. rewrite Hok, Hsus. simpl.
  set (w1 := fold_left interrupt (during tConv) _).
  assert (S1 : steady w w1) by (apply steady_turn'; [apply steady_refl|done]).
  unfold bind at 1. unfold bind at 1.
  unfold sleep at 1, bind at 1, awaitOk at 1, bind at 1, await at 1. cbv iota beta.
  set (w2 := fold_left interrupt (during tSleep) _).
  assert (S2 : steady w w2) by (by apply steady_turn').
  destruct (answer tSleep) as [a2|e2]; cbn [fst snd ret throw];
    [|eexists _, _, _; split; [reflexivity|apply S2]].
  unfold bind at 1. unfold retryProbe at 1, bind at 1, get at 1.
  unfold responseOf in Hfail.
  destruct topic as [sig|].
  - (* the probe of a topic *)
    unfold sendToTab at 1, bind at 1, awaitOk at 1, bind at 1, await at 1. cbv iota beta.
    set (w3 := fold_left interrupt (during tProbe) _).
    assert (S3 : steady w w3) by (by apply steady_turn').
    destruct (answer tProbe) as [a3|e3]; cbn [fst snd ret throw];
      [|eexists _, _, _; split; [reflexivity|apply S3]].
    unfold bind at 1, get at 1.
    unfold bind at 1. unfold sendToTab at 1, bind at 1, awaitOk at 1, bind at 1, await at 1.
    cbv iota beta.
    set (w4 := fold_left interrupt (during tRetry) _).
    assert (S4 : steady w w4) by (by apply steady_turn').
    unfold rejected in Hfail.
    destruct (answer tRetry) as [a4|e4]; cbn [fst snd ret throw];
      [|eexists _, _, _; split; [reflexivity|apply S4]].
    destruct (responseOk (asResponse a4)); [|eexists _, _, _; split; [reflexivity|apply S4]].
    destruct Hfail as [?|[?|Hfail]]; try discriminate. rewrite Hfail.
    eexists _, _, _; split; [reflexivity|apply S4].
  - (* the probe of a page *)
    unfold waitForPageContent at 1, try_catch at 1.
    unfold sendToTab at 1, bind at 1, awaitOk at 1, bind at 1, await at 1. cbv iota beta.
    set (w3 := fold_left interrupt (during tProbe) _).
    assert (S3 : steady w w3) by (by apply steady_turn').
    unfold rejected in Hfail.
    destruct (answer tProbe) as [a3|e3]; cbn [fst snd ret throw].
    + unfold bind at 1, get at 1.
      unfold bind at 1. unfold sendToTab at 1, bind at 1, awaitOk at 1, bind at 1, await at 1.
      cbv iota beta.
      set (w4 := fold_left interrupt (during tRetry) _).
      assert (S4 : steady w w4) by (by apply steady_turn').
      destruct (answer tRetry) as [a4|e4]; cbn [fst snd ret throw];
        [|eexists _, _, _; split; [reflexivity|apply S4]].
      destruct (responseOk (asResponse a4)); [|eexists _, _, _; split; [reflexivity|apply S4]].
      destruct Hfail as [?|[?|Hfail]]; try discriminate. rewrite Hfail.
      eexists _, _, _; split; [reflexivity|apply S4].
    + unfold bind at 1, get at 1.
      unfold bind at 1. unfold sendToTab at 1, bind at 1, awaitOk at 1, bind at 1, await at 1.
      cbv iota beta.
      set (w4 := fold_left interrupt (during tRetry) _).
      assert (S4 : steady w w4) by (by apply steady_turn').
      destruct (answer tRetry) as [a4|e4]; cbn [fst snd ret throw];
        [|eexists _, _, _; split; [reflexivity|apply S4]].
      destruct (responseOk (asResponse a4)); [|eexists _, _, _; split; [reflexivity|apply S4]].
      destruct Hfail as [?|[?|Hfail]]; try discriminate. rewrite Hfail.
      eexists _, _, _; split; [reflexivity|apply S4].
Qed.

(** ** A page, up to its first conversion request *)

Lemma bind_assoc {A B C} (m : Async A) (k : A -> Async B) (h : B -> Async C) w ts :
  bind (bind m k) h w ts = bind m (fun a => bind (k a) h) w ts.
Proof. unfold bind. by destruct (m w ts) as [[[a|e|] w'] ts']. Qed.

Lemma bind_ext {A B} (m : Async A) (k k' : A -> Async B) w ts :
  (forall a w ts, k a w ts = k' a w ts) -> bind m k w ts = bind m k' w ts.
Proof. intros H. unfold bind. by destruct (m w ts) as [[[a|e|] w'] ts']. Qed.

Lemma bind_ret {A B} (a : A) (k : A -> Async B) w ts : bind (ret a) k w ts = k a w ts.
Proof. done. Qed.

Lemma bind_unit (m : Async unit) w ts : bind m (fun _ => ret tt) w ts = m w ts.
Proof. unfold bind, ret. by destruct (m w ts) as [[[[]|e|] w'] ts']. Qed.

(** Pushes [convertFrom] to the ends of the function before it. *)
Ltac split_steps :=
  repeat first
    [ rewrite bind_assoc; apply bind_ext; intros
    | rewrite bind_ret
    | match goal with
      | |- context [if ?b then _ else _] => destruct b
      | |- context [match ?x with Some _ => _ | None => _ end] => destruct x
      end
    | reflexivity ].

Lemma processSinglePage_background_split page w ts :
  processSinglePage_background page w ts
  = (r <- beforeConvert_background page ;; convertFrom page r) w ts.
Proof.
  unfold processSinglePage_background, beforeConvert_background. split_steps.
Qed.

Section SplitFacts.
Variable URL_new : string -> option Url.

Lemma processSinglePage_part_000_split page w ts :
  processSinglePage_part_000 URL_new page w ts
  = (r <- beforeConvert_part_000 URL_new page ;; convertFrom page r) w ts.
Proof.
  unfold processSinglePage_part_000, beforeConvert_part_000. cbv zeta.
  rewrite bind_assoc; apply bind_ext; intros c w1 ts1.
  destruct c; [done|].
  rewrite bind_assoc; apply bind_ext; intros ? w2 ts2.
  rewrite bind_assoc; apply bind_ext; intros w3 w4 ts4.
  rewrite bind_assoc; apply bind_ext; intros tabUrl w5 ts5.
  destruct (parseOpt URL_new tabUrl) as [currentUrl|].
  2:{ rewrite bind_assoc; apply bind_ext; intros w6 w7 ts7.
      rewrite bind_assoc. simpl. by rewrite bind_unit. }
  destruct (parseOpt URL_new (url page)) as [targetUrl|].
  2:{ rewrite bind_assoc; apply bind_ext; intros w6 w7 ts7.
      rewrite bind_assoc. simpl. by rewrite bind_unit. }
  destruct (devinIndex page) as [index|].
  - rewrite bind_assoc; apply bind_ext; intros r w6 ts6.
    rewrite bind_assoc; apply bind_ext; intros c w7 ts7. by destruct c.
  - rewrite bind_assoc; apply bind_ext; intros r w6 ts6.
    destruct r as [readiness|]; [|done].
    rewrite bind_assoc; apply bind_ext; intros c w7 ts7. by destruct c.
Qed.

Lemma processSinglePage_split rev page w ts :
  processSinglePage URL_new rev page w ts
  = (r <- beforeConvert URL_new rev page ;; convertFrom page r) w ts.
Proof.
  destruct rev; [apply processSinglePage_background_split
                |apply processSinglePage_part_000_split].
Qed.

Lemma convertsAtMost_beforeConvert rev page :
  convertsAtMost 0 (beforeConvert URL_new rev page).
Proof.
  destruct rev; simpl.
  - unfold beforeConvert_background. converts_zero.
  - unfold beforeConvert_part_000. cbv zeta.
    apply convertsAtMost_bind0; [converts_zero|]. intros [|]; [converts_zero|].
    apply convertsAtMost_bind0; [converts_zero|]. intros ?; cbv beta.
    apply convertsAtMost_bind0; [converts_zero|]. intros w.
    apply convertsAtMost_bind0; [converts_zero|]. intros tabUrl.
    destruct (parseOpt URL_new tabUrl) as [currentUrl|]; [|converts_zero].
    destruct (parseOpt URL_new (url page)) as [targetUrl|]; [|converts_zero].
    destruct (devinIndex page) as [index|].
    + apply convertsAtMost_bind0; [apply convertsAtMost_selectTopic|]. intros r.
      converts_zero.
    + apply convertsAtMost_bind0; [apply convertsAtMost_reachPage|]. intros r.
      converts_zero.
Qed.

(** A page whose function throws counts as failed: nothing is added to
    the outputs, and the report says so. *)
Lemma processOrFail_threw rev page w ts e w1 ts1 :
  processSinglePage URL_new rev page w ts = (Threw e, w1, ts1) ->
  exists w2,
    processOrFail URL_new rev page w ts = (Returned tt, w2, ts1)
    /\ failed (batchState w2) = S (failed (batchState w1))
    /\ processed (batchState w2) = processed (batchState w1)
    /\ convertedPages (batchState w2) = convertedPages (batchState w1)
    /\ exists r, last (broadcasts w2) = Some r /\ rtype r = "pageFailed".
Proof.
  intros H. unfold processOrFail, try_catch. rewrite H. unfold update.
  eexists. split; [reflexivity|].
  unfold broadcastBatchUpdate. simpl. repeat split.
  eexists. rewrite last_snoc. split; [reflexivity|done].
Qed.
End SplitFacts.

(** C5.  Whatever its turns, a page adds at most two [convertToMarkdown]
    requests to the log, none of them before its first call of
    [convertAndRecord], where it ends; without an answer to the first
    request that is a success with a suspiciously empty output there is one
    request only; and where the first output is suspiciously empty and the
    retry is rejected, answers a failure or is suspiciously empty again, the
    page counts as failed and adds nothing to the outputs. *)
Theorem conversion_retry_bound (URL_new : string -> option Url) (rev : Revision) (page : Page) :
  (forall w ts,
     (converts (requests (snd (fst (processOrFail URL_new rev page w ts))))
      <= converts (requests w) + 2)%nat)
  /\ (forall w ts,
        processSinglePage URL_new rev page w ts
        = (r <- beforeConvert URL_new rev page ;; convertFrom page r) w ts
        /\ (converts (requests (snd (fst (beforeConvert URL_new rev page w ts))))
            <= converts (requests w))%nat)
  /\ (forall readiness topic usePrefix w t ts,
        rejected t = true
        \/ responseOk (responseOf t) = false
        \/ isMarkdownSuspiciouslyEmpty (responseOf t ≫= markdown) readiness = false ->
        converts (newRequests w
                    (snd (fst (convertAndRecord page readiness topic usePrefix w (t :: ts)))))
        = 1%nat)
  /\ (forall w ts readiness topic usePrefix w1 tConv tSleep tProbe tRetry rest,
        beforeConvert URL_new rev page w ts
        = (Returned (Some (readiness, topic, usePrefix)), w1,
           tConv :: tSleep :: tProbe :: tRetry :: rest) ->
        forallb (staysOpen (tabId (batchState w1))) [tConv; tSleep; tProbe; tRetry] = true ->
        responseOk (responseOf tConv) = true ->
        isMarkdownSuspiciouslyEmpty (responseOf tConv ≫= markdown) readiness = true ->
        rejected tRetry = true
        \/ responseOk (responseOf tRetry) = false
        \/ isMarkdownSuspiciouslyEmpty (responseOf tRetry ≫= markdown)
             (orReadiness (responseOf tProbe) readiness) = true ->
        exists w2 ts',
          processOrFail URL_new rev page w ts = (Returned tt, w2, ts')
          /\ failed (batchState w2) = S (failed (batchState w1))
          /\ processed (batchState w2) = processed (batchState w1)
          /\ convertedPages (batchState w2) = convertedPages (batchState w1)
          /\ exists r, last (broadcasts w2) = Some r /\ rtype r = "pageFailed").
Proof.
  assert (Hany : forall ts, Forall anyTurn ts).
  { intros ts. apply Forall_forall. by intros. }
  split; [|split; [|split]].
  - intros w ts.
    destruct (convertsAtMost_processOrFail URL_new rev page (converts (requests w)) w ts
                (Hany ts) (le_n _)) as [_ H].
    by destruct (fst (fst _)).
  - intros w ts. split; [apply processSinglePage_split|].
    destruct (convertsAtMost_beforeConvert URL_new rev page (converts (requests w)) w ts
                (Hany ts) (le_n _)) as [_ H].
    rewrite Nat.add_0_r in H. by destruct (fst (fst _)).
  - intros. by apply not_retried.
  - intros w ts readiness topic usePrefix w1 tConv tSleep tProbe tRetry rest
      Hbefore Hopen Hok Hsus Hfail.
    destruct (retry_failure page readiness topic usePrefix w1 tConv tSleep tProbe tRetry rest
                Hopen Hok Hsus Hfail) as (e & w' & ts' & Hc & Hc1 & Hc2 & Hc3 & _).
    assert (Hp : processSinglePage URL_new rev page w ts = (Threw e, w', ts')).
    { rewrite processSinglePage_split. unfold bind at 1. rewrite Hbefore. exact Hc. }
    destruct (processOrFail_threw URL_new rev page w ts e w' ts' Hp)
      as (w2 & H1 & H2 & H3 & H4 & H5).
    exists w2, ts'. split; [done|]. repeat split; [congruence..|done].
Qed.

Lemma conversion_retry_bound_witness :
  exists w2 ts',
    processOrFail SimpleUrl.parse Rev_background overviewPage runningWorker
      [answers AUnit; answers (AResponse None);
       answers emptyConversion; answers AUnit; answers (AResponse None);
       answers emptyConversion]
    = (Returned tt, w2, ts')
    /\ failed (batchState w2) = 1%nat
    /\ processed (batchState w2) = 0%nat
    /\ convertedPages (batchState w2) = []
    /\ exists r, last (broadcasts w2) = Some r /\ rtype r = "pageFailed".
Proof.
  destruct (conversion_retry_bound SimpleUrl.parse Rev_background overviewPage)
    as (_ & _ & _ & H).
  apply (H runningWorker
           [answers AUnit; answers (AResponse None);
            answers emptyConversion; answers AUnit; answers (AResponse None);
            answers emptyConversion]
           None None false
           (snd (fst (beforeConvert SimpleUrl.parse Rev_background overviewPage runningWorker
                        [answers AUnit; answers (AResponse None)])))
           (answers emptyConversion) (answers AUnit) (answers (AResponse None))
           (answers emptyConversion) []).
  - vm_compute. reflexivity.
  - vm_compute. reflexivity.
  - reflexivity.
  - vm_compute. reflexivity.
  - right. right. vm_compute. reflexivity.
Defined.

(** * The batch state machine: cancellation *)

Lemma mentions_snoc type rs r : mentions type (rs ++ [r]) = mentions type rs || hasType type r.
Proof. unfold mentions. rewrite existsb_app. simpl. by rewrite orb_false_r. Qed.

Lemma countType_snoc type rs r :
  countType type (rs ++ [r]) = (countType type rs + if hasType type r then 1 else 0)%nat.
Proof.
  unfold countType. rewrite List.filter_app, length_app. simpl. by destruct (hasType type r).
Qed.

Lemma noProcessingAfterCancelling_snoc rs r :
  noProcessingAfterCancelling (rs ++ [r])
  = noProcessingAfterCancelling rs
    && (negb (hasType "processing" r) || negb (mentions "cancelling" rs)).
Proof.
  induction rs as [|r' rs IH]; simpl.
  - destruct (hasType "cancelling" r), (hasType "processing" r); done.
  - rewrite IH. rewrite forallb_app. simpl. unfold mentions. simpl.
    set (f := forallb (fun r'0 => negb (hasType "processing" r'0)) rs).
    destruct (hasType "cancelling" r'); simpl;
      destruct f, (noProcessingAfterCancelling rs),
        (hasType "processing" r), (existsb (hasType "cancelling") rs); done.
Qed.

Section CancellationFacts.
Variable URL_new : string -> option Url.

(** The worker the run starts in. *)
Variable w0 : Worker.

Local Abbreviation tabOpen := (tabOpen w0).
Local Abbreviation since := (since w0).
Local Abbreviation looping := (looping w0).
Local Abbreviation archiving := (archiving w0).
Local Abbreviation reportsSound := (reportsSound w0).
Local Abbreviation reportsFinal := (reportsFinal w0).
Local Abbreviation finished := (finished w0).
Local Abbreviation sound := (sound w0).

Lemma mentions_false_elem type new r :
  mentions type new = false -> r ∈ new -> rtype r = type -> False.
Proof.
  intros Hm Hr Ht. unfold mentions in Hm.
  assert (existsb (hasType type) new = true); [|congruence].
  apply existsb_exists. exists r. split; [by apply list_elem_of_In|].
  unfold hasType. rewrite Ht. apply String.eqb_refl.
Qed.

Lemma looping_sound w : looping w -> sound w.
Proof.
  intros (new & [Hb _] & _ & Hn & Hc & _). exists new. split; [done|].
  split; [done|]. intros r Hr Ht. destruct (mentions_false_elem _ _ _ Hc Hr Ht).
Qed.

Lemma archiving_sound z w : archiving z w -> sound w.
Proof.
  intros (new & [Hb _] & Hn & Hc & _). exists new. split; [done|].
  split; [done|]. intros r Hr Ht. destruct (mentions_false_elem _ _ _ Hc Hr Ht).
Qed.

Lemma finished_sound w : finished w -> sound w.
Proof. intros (new & Hb & _ & [Hs _]). by exists new. Qed.

(** *** The handlers *)

Lemma looping_interrupt (i : Interrupt) (w : Worker) :
  match i with
  | TabClosed x => negb (bool_decide (Some x = tabId (batchState w0)))
  | CancelBatch => true
  end = true ->
  looping w -> looping (interrupt w i).
Proof.
  intros Hi (new & [Hb Htab] & Hflag & Hn & Hc & Hz & Hp & Hf). destruct i as [|x]; simpl.
  - unfold cancelBatchProcessing. destruct (isRunning (batchState w)); simpl.
    + eexists (new ++ [_]). split; [split|]; simpl.
      * rewrite Hb. by rewrite app_assoc.
      * done.
      * rewrite !mentions_snoc, !countType_snoc, noProcessingAfterCancelling_snoc.
        simpl. rewrite Hn, Hc, Hz. simpl. repeat split; try done; lia.
    + exists new. by repeat split.
  - unfold onRemovedBatch. rewrite Htab.
    apply negb_true_iff, bool_decide_eq_false in Hi.
    rewrite (bool_decide_eq_false_2 (tabId (batchState w0) = Some x)) by congruence.
    rewrite andb_false_r. exists new. by repeat split.
Qed.

Lemma archiving_interrupt (i : Interrupt) (w : Worker) :
  match i with
  | TabClosed x => negb (bool_decide (Some x = tabId (batchState w0)))
  | CancelBatch => true
  end = true ->
  archiving true w -> archiving true (interrupt w i).
Proof.
  intros Hi (new & [Hb Htab] & Hn & Hc & Hcz & Hz). destruct i as [|x]; simpl.
  - unfold cancelBatchProcessing. destruct (isRunning (batchState w)); simpl.
    + eexists (new ++ [_]). split; [split|]; simpl.
      * rewrite Hb. by rewrite app_assoc.
      * done.
      * rewrite !mentions_snoc, noProcessingAfterCancelling_snoc.
        simpl. rewrite Hn, Hc, (Hz eq_refl). by repeat split.
    + exists new. by repeat split.
  - unfold onRemovedBatch. rewrite Htab.
    apply negb_true_iff, bool_decide_eq_false in Hi.
    rewrite (bool_decide_eq_false_2 (tabId (batchState w0) = Some x)) by congruence.
    rewrite andb_false_r. exists new. by repeat split.
Qed.

Lemma finished_interrupt (i : Interrupt) (w : Worker) : finished w -> interrupt w i = w.
Proof.
  intros (new & _ & Hr & _). destruct i as [|x]; simpl.
  - unfold cancelBatchProcessing. by rewrite Hr.
  - unfold onRemovedBatch. by rewrite Hr.
Qed.

Lemma fold_interrupts (I : Worker -> Prop) (ints : list Interrupt) (w : Worker) :
  (forall i w, i ∈ ints -> I w -> I (interrupt w i)) ->
  I w -> I (fold_left interrupt ints w).
Proof.
  revert w. induction ints as [|i ints IH]; intros w Hi Hw; simpl; [done|].
  apply IH.
  - intros i' w' Hin. apply Hi. by right.
  - apply Hi; [by left|done].
Qed.

Lemma staysOpen_elem (t : Turn) (i : Interrupt) :
  tabOpen t -> i ∈ during t ->
  match i with
  | TabClosed x => negb (bool_decide (Some x = tabId (batchState w0)))
  | CancelBatch => true
  end = true.
Proof.
  unfold tabOpen, staysOpen. rewrite forallb_forall. intros H Hi.
  apply (H i). by apply list_elem_of_In.
Qed.

Lemma looping_stable (op : Op) : stable tabOpen looping op.
Proof.
  split.
  - intros w (new & [Hb Htab] & ? & ? & ? & ? & ? & ?). exists new. by repeat split.
  - intros w t Ht Hw. apply fold_interrupts; [|done].
    intros i w' Hi. apply looping_interrupt. by apply (staysOpen_elem t).
Qed.

Lemma archiving_stable (op : Op) : stable tabOpen (archiving true) op.
Proof.
  split.
  - intros w (new & [Hb Htab] & ? & ? & ? & ?). exists new. by repeat split.
  - intros w t Ht Hw. apply fold_interrupts; [|done].
    intros i w' Hi. apply archiving_interrupt. by apply (staysOpen_elem t).
Qed.

Lemma finished_stable (op : Op) : stable tabOpen finished op.
Proof.
  split.
  - intros w (new & Hb & ? & ?). exists new. split; [done|]. split; done.
  - intros w t Ht Hw. apply fold_interrupts; [|done].
    intros i w' _ Hw'. by rewrite finished_interrupt.
Qed.

(** *** The page processor keeps the loop's assertion *)

Lemma looping_announce (page : Page) :
  hoare tabOpen (fun w => looping w /\ cancelRequested (batchState w) = false)
    (announceProcessing page) (fun _ => looping) looping looping.
Proof.
  apply hoare_update.
  intros w [(new & [Hb Htab] & Hflag & Hn & Hc & Hz & Hp & Hf) Hoff].
  assert (Hm : mentions "cancelling" new = false).
  { destruct (mentions "cancelling" new); [|done]. rewrite Hflag in Hoff; done. }
  eexists (new ++ [_]). split; [split|]; simpl.
  - rewrite Hb. by rewrite app_assoc.
  - done.
  - rewrite !mentions_snoc, !countType_snoc, noProcessingAfterCancelling_snoc.
    simpl. rewrite Hn, Hc, Hz, Hm. simpl. repeat split; try done; lia.
Qed.

Lemma looping_recorded (page : Page) (baseTitle : string) (convertResponse : option Response) :
  preserves tabOpen looping
    (update (fun w =>
       let '(name, w1) := getUniqueFileName (Some baseTitle) w in
       let w2 := setBatch (fun b => incrProcessed
                    (pushConverted (mkConverted name (convertResponse ≫= markdown)) b)) w1 in
       let b := batchState w2 in
       broadcastBatchUpdate "pageProcessed"
         ("Converted " +:+ showNat (processed b) +:+ "/" +:+ showNat (total b) +:+ ": "
            +:+ title page) None None w2)).
Proof.
  apply preserves_update.
  intros w (new & [Hb Htab] & Hflag & Hn & Hc & Hz & Hp & Hf).
  unfold getUniqueFileName. cbv zeta. cbn [setBatch].
  eexists (new ++ [_]). split; [split|]; simpl.
  - rewrite Hb. by rewrite app_assoc.
  - done.
  - rewrite !mentions_snoc, !countType_snoc, noProcessingAfterCancelling_snoc.
    simpl. rewrite Hn, Hc, Hz. simpl. rewrite !orb_false_r.
    repeat split; try done; lia.
Qed.

Lemma looping_failed (page : Page) (e : string) :
  hoare tabOpen looping
    (update (fun w =>
       broadcastBatchUpdate "pageFailed"
         ("Failed " +:+ title page +:+ ": " +:+ (if String.eqb e "" then "Error" else e))
         (Some "error") None (setBatch incrFailed w)))
    (fun _ => looping) (fun _ => False) looping.
Proof.
  apply hoare_update.
  intros w (new & [Hb Htab] & Hflag & Hn & Hc & Hz & Hp & Hf).
  eexists (new ++ [_]). split; [split|]; simpl.
  - rewrite Hb. by rewrite app_assoc.
  - done.
  - rewrite !mentions_snoc, !countType_snoc, noProcessingAfterCancelling_snoc.
    simpl. rewrite Hn, Hc, Hz. simpl. rewrite !orb_false_r.
    repeat split; try done; lia.
Qed.

(** Steps through a function made of suspensions and tests. *)
Ltac looping_steps :=
  repeat first
    [ apply preserves_ret | apply preserves_throw | apply preserves_get
    | apply preserves_cancelled
    | apply preserves_sleep, looping_stable
    | apply preserves_getTabById, looping_stable
    | apply preserves_navigateToPage, looping_stable
    | apply preserves_waitForPageContent, looping_stable
    | apply preserves_sendToTab, looping_stable
    | apply preserves_awaitOk, looping_stable
    | apply looping_recorded
    | apply preserves_bind; [|intros]
    | apply preserves_try_catch; [|intros]
    | match goal with
      | |- preserves _ _ (if ?b then _ else _) => destruct b
      | |- preserves _ _ (match ?x with _ => _ end) => destruct x
      end ].

Lemma looping_retryProbe page topic : preserves tabOpen looping (retryProbe page topic).
Proof. unfold retryProbe. looping_steps. Qed.

Lemma looping_convertAndRecord page readiness topic usePrefix :
  preserves tabOpen looping (convertAndRecord page readiness topic usePrefix).
Proof.
  unfold convertAndRecord.
  apply preserves_bind; [looping_steps|]. intros w.
  apply preserves_bind; [looping_steps|]. intros first.
  apply preserves_bind; [looping_steps|]. intros ?; cbv beta.
  apply preserves_bind.
  - destruct (isMarkdownSuspiciouslyEmpty _ _); [|looping_steps].
    apply preserves_bind; [looping_steps|]. intros ?; cbv beta.
    apply preserves_bind; [apply looping_retryProbe|]. intros retryReadiness.
    looping_steps.
  - intros r. cbv zeta. apply preserves_bind; [apply looping_recorded|].
    intros. looping_steps.
Qed.

(** What follows the first guard and the announcement. *)
Lemma looping_processSinglePage_background (page : Page) :
  preserves tabOpen looping (processSinglePage_background page).
Proof.
  unfold processSinglePage_background.
  apply hoare_guard; [done|].
  eapply hoare_bind; [apply looping_announce|]. intros ?; cbv beta.
  apply preserves_bind; [looping_steps|]. intros w.
  apply preserves_bind; [looping_steps|]. intros ?; cbv beta.
  apply preserves_bind; [looping_steps|]. intros [|]; [looping_steps|].
  apply preserves_bind; [looping_steps|]. intros w'.
  apply preserves_bind; [looping_steps|]. intros readiness.
  apply looping_convertAndRecord.
Qed.

Lemma looping_selectTopic page index samePage :
  preserves tabOpen looping (selectTopic page index samePage).
Proof. unfold selectTopic. looping_steps. Qed.

Lemma looping_reachPage page currentUrl targetUrl samePage :
  preserves tabOpen looping (reachPage page currentUrl targetUrl samePage).
Proof. unfold reachPage. looping_steps. Qed.

Lemma looping_processSinglePage_part_000 (page : Page) :
  preserves tabOpen looping (processSinglePage_part_000 URL_new page).
Proof.
  unfold processSinglePage_part_000.
  apply hoare_guard; [done|].
  eapply hoare_bind; [apply looping_announce|]. intros ?; cbv beta.
  apply preserves_bind; [looping_steps|]. intros w.
  apply preserves_bind; [looping_steps|]. intros tabUrl.
  destruct (parseOpt URL_new tabUrl) as [currentUrl|]; [|looping_steps].
  destruct (parseOpt URL_new (url page)) as [targetUrl|]; [|looping_steps].
  destruct (devinIndex page) as [index|].
  - apply preserves_bind; [apply looping_selectTopic|]. intros r.
    apply preserves_bind; [looping_steps|]. intros [|]; [looping_steps|].
    apply looping_convertAndRecord.
  - apply preserves_bind; [apply looping_reachPage|].
    intros [readiness|]; [|looping_steps].
    apply preserves_bind; [looping_steps|]. intros [|]; [looping_steps|].
    apply looping_convertAndRecord.
Qed.

Lemma looping_processOrFail (rev : Revision) (page : Page) :
  hoare tabOpen looping (processOrFail URL_new rev page)
    (fun _ => looping) (fun _ => False) looping.
Proof.
  unfold processOrFail.
  apply (hoare_try_catch tabOpen _ _ _ _ _ looping).
  - destruct rev; [apply looping_processSinglePage_background
                  |apply looping_processSinglePage_part_000].
  - intros e. apply looping_failed.
Qed.

Lemma looping_forEachPage (rev : Revision) (pages : list Page) :
  hoare tabOpen looping (forEachPage URL_new rev pages)
    (fun _ => looping) (fun _ => False) looping.
Proof.
  induction pages as [|page rest IH]; simpl.
  - apply (hoare_ret tabOpen tt (fun _ => looping)).
  - apply hoare_guard; [done|].
    apply (hoare_bind tabOpen _ _ _ (fun _ => looping)).
    + eapply hoare_conseq; [apply looping_processOrFail|..]; simpl; tauto.
    + intros ?; cbv beta. exact IH.
Qed.

(** *** The end of the run *)

Lemma last_snoc' (new : list Report) (r : Report) : last (new ++ [r]) = Some r.
Proof. apply last_snoc. Qed.

Lemma elem_snoc_cases (new : list Report) (r x : Report) :
  x ∈ new ++ [r] -> x ∈ new \/ x = r.
Proof. rewrite elem_of_app, list_elem_of_singleton. tauto. Qed.

(** Leaving the loop of the run through a report [r] that ends it. *)
Lemma archiving_finished (z : bool) (w w' : Worker) (r : Report) :
  archiving z w ->
  broadcasts w' = broadcasts w ++ [r] -> isRunning (batchState w') = false ->
  hasType "processing" r = false -> hasType "cancelled" r = false ->
  hasType "cancelling" r = false ->
  finished w'.
Proof.
  intros (new & [Hb Htab] & Hn & Hc & Hcz & Hz) Hb' Hr Hp Hcd Hcg.
  exists (new ++ [r]). split; [by rewrite Hb', Hb, app_assoc|]. split; [done|].
  split; [split|].
  - rewrite noProcessingAfterCancelling_snoc, Hn, Hp. done.
  - intros x Hx Ht. exfalso.
    apply elem_snoc_cases in Hx as [Hx| ->].
    + by apply (mentions_false_elem _ _ _ Hc Hx).
    + unfold hasType in Hcd. rewrite Ht in Hcd. discriminate.
  - rewrite !mentions_snoc, Hcg, orb_false_r. intros H1 H2.
    apply Hcz in H1. rewrite H1 in H2. discriminate.
Qed.

Lemma finishRun_spec :
  hoare tabOpen looping finishRun (fun _ => finished)
    (fun w => exists z, archiving z w) (archiving true).
Proof.
  unfold finishRun.
  eapply hoare_bind; [apply hoare_get|]. intros w. cbv zeta.
  destruct (cancelRequested (batchState w)) eqn:Hflag.
  - (* cancelled *)
    apply hoare_update.
    intros w' [-> (new & [Hb Htab] & _ & Hn & Hc & Hz & Hp & Hf)].
    eexists (new ++ [_]). split; [|split]; simpl.
    + rewrite Hb. by rewrite app_assoc.
    + done.
    + split; [split|].
      * rewrite noProcessingAfterCancelling_snoc, Hn. done.
      * intros x Hx Ht.
        apply elem_snoc_cases in Hx as [Hx| ->];
          [destruct (mentions_false_elem _ _ _ Hc Hx Ht)|].
        rewrite last_snoc', !countType_snoc. simpl.
        repeat split; try done; lia.
      * intros _ _. eexists. rewrite last_snoc'. split; reflexivity.
  - assert (Harch : forall w', w = w' /\ looping w' -> archiving false w').
    { intros w' [-> (new & Hs & Hcg & Hn & Hc & Hz & _)]. exists new.
      split; [done|]. split; [done|]. split; [done|]. split; [|done].
      intros H. apply Hcg in H. congruence. }
    destruct (bool_decide (convertedPages (batchState w) = [])).
    + (* nothing converted *)
      eapply hoare_conseq;
        [apply (hoare_throw tabOpen _ (fun _ => finished) (fun w => exists z, archiving z w)
                  (archiving true))|..];
        simpl; eauto.
    + (* the archive *)
      apply (hoare_bind tabOpen _ _ _ (fun _ => archiving true)).
      { apply hoare_update. intros w' Hw'. apply Harch in Hw'.
        destruct Hw' as (new & [Hb Htab] & Hn & Hc & Hcz & _).
        eexists (new ++ [_]). split; [split|]; simpl.
        - rewrite Hb. by rewrite app_assoc.
        - done.
        - rewrite !mentions_snoc, noProcessingAfterCancelling_snoc, Hn, Hc. simpl.
          rewrite !orb_true_r. done. }
      intros ?; cbv beta.
      apply (hoare_bind tabOpen _ _ _ (fun _ => archiving true)).
      { eapply hoare_conseq with (P' := archiving true).
        - unfold createZipArchive.
          apply preserves_bind; [apply preserves_get|]. intros w'.
          apply preserves_bind; [apply preserves_awaitOk, archiving_stable|].
          intros; apply preserves_ret.
        - done.
        - done.
        - eauto.
        - done. }
      intros ?; cbv beta.
      apply hoare_update. intros w' Hw'.
      eapply archiving_finished; [exact Hw'|reflexivity|reflexivity..].
Qed.

Lemma runBatchProcessing_spec (rev : Revision) :
  hoare tabOpen looping (runBatchProcessing URL_new rev) (fun _ => finished) finished sound.
Proof.
  unfold runBatchProcessing.
  apply (hoare_try_finally tabOpen _ _ _ _ _ _ (fun _ => finished) (fun _ => False)).
  - apply (hoare_try_catch tabOpen _ _ _ _ _ (fun w => exists z, archiving z w)).
    + eapply hoare_bind; [apply hoare_get|]. intros w.
      apply (hoare_bind tabOpen _ _ _ (fun _ => looping)).
      * eapply hoare_conseq; [apply looping_forEachPage|..]; simpl;
          try tauto; auto using looping_sound.
      * intros ?; cbv beta.
        eapply hoare_conseq; [apply finishRun_spec|..]; simpl;
          try tauto; apply archiving_sound.
    + intros e. apply hoare_update. intros w [z Hw].
      eapply archiving_finished; [exact Hw|reflexivity|reflexivity..].
  - intros ?; cbv beta.
    assert (Hreset : preserves tabOpen finished (update resetBatchState)).
    { apply preserves_update. intros w (new & Hb & Hr & Hf). by exists new. }
    eapply hoare_conseq with (P' := finished) (Q' := fun _ => finished)
                             (X' := finished) (S' := finished);
      simpl; auto using finished_sound.
    destruct rev; [|exact Hreset].
    apply preserves_bind; [|intros; exact Hreset].
    unfold restoreOriginalPage.
    apply preserves_bind; [apply preserves_get|]. intros w. cbv zeta.
    destruct (_ || _); [apply preserves_ret|].
    apply preserves_try_finally.
    + apply preserves_try_catch; [apply preserves_navigateToPage, finished_stable|].
      intros; apply preserves_ret.
    + apply preserves_update. intros w' (new & Hb & Hr & Hf). by exists new.
  - intros w ts _ [].
Qed.

End CancellationFacts.

Lemma cancelBatchProcessing_result (w : Worker) :
  fst (cancelBatchProcessing w) = isRunning (batchState w)
  /\ (isRunning (batchState w) = false -> snd (cancelBatchProcessing w) = w)
  /\ (isRunning (batchState w) = true ->
      cancelRequested (batchState (snd (cancelBatchProcessing w))) = true).
Proof.
  unfold cancelBatchProcessing. destruct (isRunning (batchState w)); simpl; done.
Qed.


(** * The delivery queue: invariants *)

(** ** Promises *)

Lemma settle_fields p st w :
  messageQueue (settle p st w) = messageQueue w
  /\ timers (settle p st w) = timers w
  /\ calls (settle p st w) = calls w
  /\ now (settle p st w) = now w.
Proof. unfold settle. by destruct (promises w !! p) as [[]|]. Qed.

Lemma settle_length p st w : length (promises (settle p st w)) = length (promises w).
Proof.
  unfold settle. destruct (promises w !! p) as [[]|]; simpl; try done.
  by rewrite length_insert.
Qed.

Lemma settle_lookup p st w q :
  promises (settle p st w) !! q
  = if decide (p = q) then (if isPending (promises w !! p) then Some st else promises w !! p)
    else promises w !! q.
Proof.
  unfold settle. destruct (promises w !! p) as [[]|] eqn:Hp; simpl;
    try (case_decide; congruence).
  case_decide as Hq.
  - subst. apply list_lookup_insert_eq. by eapply lookup_lt_Some.
  - by apply list_lookup_insert_ne.
Qed.

(** A settled promise stays as it is. *)
Lemma settle_keeps p st w q s :
  promises w !! q = Some s -> s <> Pending -> promises (settle p st w) !! q = Some s.
Proof.
  intros Hq Hs. rewrite settle_lookup. case_decide; [subst|done].
  rewrite Hq. by destruct s.
Qed.

Lemma settle_settles p st w :
  st <> Pending -> p < length (promises w) ->
  exists s, promises (settle p st w) !! p = Some s /\ s <> Pending.
Proof.
  intros Hst Hp. rewrite settle_lookup. rewrite decide_True by done.
  destruct (lookup_lt_is_Some_2 _ _ Hp) as [s Hs]. rewrite Hs.
  destruct s; simpl; eauto; eexists; split; done.
Qed.

Lemma settledTimes_settle p st w q :
  settledTimes q (settle p st w)
  = (settledTimes q w + if isPending (promises w !! p) && bool_decide (p = q) then 1 else 0)%nat.
Proof.
  unfold settle, settledTimes.
  destruct (promises w !! p) as [[]|]; simpl; try lia.
  rewrite List.filter_app, length_app. simpl.
  case_bool_decide as Hq.
  - subst. rewrite Nat.eqb_refl. done.
  - destruct (Nat.eqb_spec p q); [done|]. simpl. lia.
Qed.

(** ** Timers *)

Lemma clearTimeout_fields t w :
  messageQueue (clearTimeout t w) = messageQueue w
  /\ promises (clearTimeout t w) = promises w
  /\ calls (clearTimeout t w) = calls w
  /\ settlements (clearTimeout t w) = settlements w
  /\ now (clearTimeout t w) = now w.
Proof. done. Qed.

Lemma clearTimeout_lookup t w t' :
  timers (clearTimeout t w) !! t'
  = (fun tm => mkTimer (callbackItem tm) (due tm) (if decide (t = t') then false else armed tm))
      <$> timers w !! t'.
Proof.
  unfold clearTimeout. simpl. case_decide as Ht.
  - subst. rewrite list_lookup_alter_eq. by destruct (timers w !! t').
  - rewrite list_lookup_alter_ne by done. by destruct (timers w !! t') as [[]|].
Qed.

Lemma clearTimeout_length t w : length (timers (clearTimeout t w)) = length (timers w).
Proof. unfold clearTimeout. simpl. apply length_alter. Qed.

Lemma timersKept_refl w : timersKept w w.
Proof. intros t tm H. by exists tm. Qed.

Lemma timersKept_trans w1 w2 w3 : timersKept w1 w2 -> timersKept w2 w3 -> timersKept w1 w3.
Proof.
  intros H12 H23 t tm H. destruct (H12 t tm H) as (tm2 & H2 & Hi & Hd & Ha).
  destruct (H23 t tm2 H2) as (tm3 & H3 & Hi' & Hd' & Ha').
  exists tm3. repeat split; [done|congruence|congruence|auto].
Qed.

Lemma timersKept_eq w w' : timers w' = timers w -> timersKept w w'.
Proof. intros E t tm H. exists tm. by rewrite E. Qed.

Lemma timersKept_clearTimeout t w : timersKept w (clearTimeout t w).
Proof.
  intros t' tm H. rewrite clearTimeout_lookup, H. simpl. eexists. split; [done|].
  simpl. repeat split; try done. by case_decide.
Qed.

Lemma timersKept_settle p st w : timersKept w (settle p st w).
Proof. apply timersKept_eq. apply settle_fields. Qed.

Lemma promisesKept_refl w : promisesKept w w.
Proof. split; [lia|done]. Qed.

Lemma promisesKept_trans w1 w2 w3 :
  promisesKept w1 w2 -> promisesKept w2 w3 -> promisesKept w1 w3.
Proof. intros [L1 H1] [L2 H2]. split; [lia|]. eauto. Qed.

Lemma promisesKept_eq w w' : promises w' = promises w -> promisesKept w w'.
Proof. intros E. unfold promisesKept. rewrite E. split; [lia|done]. Qed.

Lemma promisesKept_settle p st w : promisesKept w (settle p st w).
Proof. split; [by rewrite settle_length|]. intros. by apply settle_keeps. Qed.

Lemma promisesKept_newPromise w : promisesKept w (snd (newPromise w)).
Proof.
  split; simpl; [rewrite length_app; lia|].
  intros q s H _. by apply lookup_app_l_Some.
Qed.

(** ** The invariant *)

Lemma WF_initial : WF initialWorld.
Proof.
  split; [split|]; simpl.
  all: try (intros;
            match goal with
            | H : [] !! _ = Some _ |- _ => by rewrite lookup_nil in H
            | H : ∅ !! _ = Some _ |- _ => by rewrite lookup_empty in H
            | H : _ ∈ [] |- _ => by apply elem_of_nil in H
            end).
  - intros item H. by apply elem_of_nil in H.
  - apply NoDup_nil_2.
  - done.
  - intros t tm H. simpl in H. by rewrite lookup_nil in H.
Qed.

Lemma knownTimer_kept w w' item : timersKept w w' -> knownTimer w item -> knownTimer w' item.
Proof.
  intros Hk (tm & Ht & Hi). destruct (Hk _ _ Ht) as (tm' & Ht' & Hi' & _).
  exists tm'. split; [done|congruence].
Qed.

Lemma isPending_kept w w' q :
  promisesKept w w' -> q < length (promises w) ->
  isPending (promises w !! q) = false -> isPending (promises w' !! q) = false.
Proof.
  intros [_ Hk] Hq Hp. destruct (lookup_lt_is_Some_2 _ _ Hq) as [s Hs].
  rewrite Hs in Hp. rewrite (Hk q s Hs); [done|]. by destruct s.
Qed.

Lemma dispatched_snoc (cs : list Call) (c : Call) :
  omap (fun c => match cont c with ToItem item => Some item | _ => None end) (cs ++ [c])
  = omap (fun c => match cont c with ToItem item => Some item | _ => None end) cs
    ++ match cont c with ToItem item => [item] | _ => [] end.
Proof. rewrite omap_app. simpl. by destruct (cont c). Qed.

Lemma omap_insert_same {A B} (f : A -> option B) (l : list A) (n : nat) (x y : A) :
  l !! n = Some x -> f y = f x -> omap f (<[n := y]> l) = omap f l.
Proof.
  revert n. induction l as [|a l IH]; intros [|n] H E; try done.
  - simpl in H. injection H as <-.
    change (omap f ([y] ++ l) = omap f ([a] ++ l)). rewrite !omap_app. simpl. by rewrite E.
  - change (omap f ([a] ++ <[n:=y]> l) = omap f ([a] ++ l)). rewrite !omap_app.
    by rewrite (IH n H E).
Qed.

(** Marking a call answered does not change the items handed over. *)
Lemma dispatched_answer n c w :
  calls w !! n = Some c ->
  dispatched (set_calls (insert n (mkCall (target c) (payload c) (cont c) true)) w)
  = dispatched w.
Proof. intros Hc. unfold dispatched. simpl. by apply (omap_insert_same _ _ _ c). Qed.

(** *** Steps that keep the invariant *)

Lemma WF0_settle p st w : st <> Pending -> WF0 w -> WF0 (settle p st w).
Proof.
  intros Hst [H1 H2 H3 H4 H5 H6 H7 H8 H9 H10 H11].
  destruct (settle_fields p st w) as (Eq & Et & Ec & En).
  assert (Ed : dispatched (settle p st w) = dispatched w) by (unfold dispatched; by rewrite Ec).
  assert (Hk : forall item, knownTimer w item -> knownTimer (settle p st w) item).
  { intros item. apply knownTimer_kept, timersKept_settle. }
  split; rewrite ?Eq, ?Et, ?Ec, ?Ed; try done; eauto.
  - intros t tm Ht. rewrite settle_length. eauto.
  - intros t tm Ht. rewrite settle_lookup. case_decide as Hp; [|eauto].
    destruct (isPending (promises w !! p)) eqn:E; [congruence|]. rewrite Hp in *. eauto.
  - intros q. rewrite settledTimes_settle, settle_lookup, settle_length, H10.
    destruct (decide (p = q)) as [<-|Hq].
    + rewrite (bool_decide_true (p = p)) by done. rewrite andb_true_r.
      destruct (promises w !! p) as [[]|] eqn:E; simpl; try lia.
      rewrite bool_decide_true by (by eapply lookup_lt_Some).
      by destruct st.
    + rewrite (bool_decide_false (p = q)) by done. rewrite andb_false_r. lia.
  - intros n c item Hn Hc Ha. rewrite settle_lookup. case_decide as Hp; [|eauto].
    destruct (isPending (promises w !! p)) eqn:E; [by destruct st|].
    rewrite Hp in *. eauto.
Qed.

Lemma punctual_kept w w' : timersKept w w' -> length (timers w') = length (timers w) ->
  now w' = now w -> punctual w -> punctual w'.
Proof.
  intros Hk Hl Hn Hp t tm' Ht Ha.
  assert (t < length (timers w)) as Hlt by (rewrite <- Hl; by eapply lookup_lt_Some).
  destruct (lookup_lt_is_Some_2 _ _ Hlt) as [tm Htm].
  destruct (Hk _ _ Htm) as (tm2 & Ht2 & _ & Hd & Harm).
  rewrite Ht in Ht2. injection Ht2 as <-. rewrite Hn, Hd. apply (Hp t tm Htm). auto.
Qed.

Lemma knownTimer_lt w item : knownTimer w item -> timeoutId item < length (timers w).
Proof. intros (tm & H & _). by eapply lookup_lt_Some. Qed.

(** Settling the promise of an item through its [resolve] or [reject]. *)
Lemma WF0_item_settle item st w :
  st <> Pending -> knownTimer w item -> WF0 w ->
  WF0 (settle (promise item) st (clearTimeout (timeoutId item) w)).
Proof.
  intros Hst (tm0 & Ht0 & Hi0) HW.
  set (w1 := clearTimeout (timeoutId item) w).
  set (w2 := settle (promise item) st w1).
  assert (Hk : timersKept w w2).
  { eapply timersKept_trans; [apply timersKept_clearTimeout|apply timersKept_settle]. }
  assert (HT : forall t tm, timers w2 !! t = Some tm ->
            exists tm', timers w !! t = Some tm' /\ callbackItem tm = callbackItem tm'
                        /\ armed tm = if decide (timeoutId item = t) then false else armed tm').
  { intros t tm. unfold w2. destruct (settle_fields (promise item) st w1) as (_ & -> & _).
    unfold w1. rewrite clearTimeout_lookup.
    destruct (timers w !! t) as [tm'|]; simpl; [|done]. intros [= <-]. eauto. }
  assert (HP : forall q, promises w2 !! q
            = if decide (promise item = q)
              then (if isPending (promises w !! promise item) then Some st
                    else promises w !! promise item)
              else promises w !! q).
  { intros q. unfold w2. by rewrite settle_lookup. }
  assert (HL : length (promises w2) = length (promises w)).
  { unfold w2. by rewrite settle_length. }
  destruct (settle_fields (promise item) st w1) as (Eq & Et & Ec & En).
  fold w2 in Eq, Et, Ec, En. simpl in Eq, Ec.
  assert (Ed : dispatched w2 = dispatched w) by (unfold dispatched; by rewrite Ec).
  destruct HW as [H1 H2 H3 H4 H5 H6 H7 H8 H9 H10 H11].
  split; rewrite ?Eq, ?Ec, ?Ed; try done; eauto using knownTimer_kept.
  - intros t tm Ht. destruct (HT t tm Ht) as (tm' & Ht' & -> & _). rewrite HL. eauto.
  - intros t tm Ht. destruct (HT t tm Ht) as (tm' & Ht' & Hc & Ha).
    rewrite Hc, HP, Ha.
    destruct (decide (promise item = promise (callbackItem tm'))) as [Hp|Hp].
    + destruct (isPending (promises w !! promise item)) eqn:E; [intros [= Hs]; congruence|].
      intros Hq. rewrite Hq in E. discriminate.
    + intros Hq. destruct (decide (timeoutId item = t)) as [Htid|Htid]; [|eauto].
      subst t. rewrite Ht0 in Ht'. injection Ht' as <-. congruence.
  - intros t1 t2 tm1 tm2 Ht1 Ht2.
    destruct (HT _ _ Ht1) as (tm1' & Ht1' & -> & _).
    destruct (HT _ _ Ht2) as (tm2' & Ht2' & -> & _). eauto.
  - intros q. unfold w2. rewrite settledTimes_settle. fold w2. rewrite HP, HL.
    change (settledTimes q w1) with (settledTimes q w).
    change (promises w1) with (promises w). rewrite H10.
    destruct (decide (promise item = q)) as [<-|Hq].
    + rewrite (bool_decide_true (promise item = promise item)) by done. rewrite andb_true_r.
      destruct (promises w !! promise item) as [[]|] eqn:E; simpl; try lia.
      rewrite bool_decide_true by (by eapply lookup_lt_Some).
      by destruct st.
    + rewrite (bool_decide_false (promise item = q)) by done. rewrite andb_false_r. lia.
  - intros n c item' Hn Hc Ha. rewrite HP. case_decide as Hp; [|eauto].
    destruct (isPending (promises w !! promise item)) eqn:E; [by destruct st|].
    rewrite Hp in *. eauto.
Qed.

Lemma item_settle_pending item st w :
  st <> Pending ->
  isPending (promises (settle (promise item) st (clearTimeout (timeoutId item) w))
               !! promise item) = false.
Proof.
  intros Hst. rewrite settle_lookup. rewrite decide_True by done.
  change (promises (clearTimeout (timeoutId item) w)) with (promises w).
  destruct (promises w !! promise item) as [[]|]; simpl; try done. by destruct st.
Qed.

Lemma punctual_item_settle item st w :
  punctual w -> punctual (settle (promise item) st (clearTimeout (timeoutId item) w)).
Proof.
  apply punctual_kept.
  - eapply timersKept_trans; [apply timersKept_clearTimeout|apply timersKept_settle].
  - destruct (settle_fields (promise item) st (clearTimeout (timeoutId item) w)) as (_ & -> & _).
    apply clearTimeout_length.
  - by destruct (settle_fields (promise item) st (clearTimeout (timeoutId item) w))
      as (_ & _ & _ & ->).
Qed.

Lemma punctual_settle p st w : punctual w -> punctual (settle p st w).
Proof.
  destruct (settle_fields p st w) as (_ & Et & _ & En).
  apply punctual_kept; [apply timersKept_settle|by rewrite Et|done].
Qed.

(** A new promise. *)
Lemma WF0_newPromise w : WF0 w -> WF0 (snd (newPromise w)).
Proof.
  intros [H1 H2 H3 H4 H5 H6 H7 H8 H9 H10 H11]. simpl.
  assert (HP : forall q, q < length (promises w) ->
            (promises w ++ [Pending]) !! q = promises w !! q).
  { intros q Hq. by apply lookup_app_l. }
  split; simpl; try done.
  - intros t tm Ht. destruct (H1 t tm Ht). rewrite length_app. simpl. split; [done|lia].
  - intros t tm Ht. destruct (H1 t tm Ht). rewrite HP by done. eauto.
  - intros q. unfold settledTimes. simpl. fold (settledTimes q w). rewrite H10, length_app. simpl.
    destruct (decide (q < length (promises w))) as [Hq|Hq].
    + rewrite HP by done. rewrite !bool_decide_true by lia. done.
    + rewrite (lookup_ge_None_2 (promises w)) by lia. simpl.
      rewrite (bool_decide_false (q < length (promises w))) by done.
      destruct (decide (q = length (promises w))) as [->|Hne].
      * rewrite lookup_app_r, Nat.sub_diag by lia. done.
      * rewrite lookup_ge_None_2 by (rewrite length_app; simpl; lia). simpl.
        by rewrite bool_decide_false by lia.
  - intros n c item Hn Hc Ha. specialize (H11 n c item Hn Hc Ha).
    destruct (decide (promise item < length (promises w))) as [Hq|Hq].
    + by rewrite HP.
    + destruct (decide (promise item = length (promises w))) as [E|Hne].
      * exfalso. (* an answered item call has a timer, so its promise exists *)
        assert (item ∈ dispatched w) as Hin.
        { unfold dispatched. apply list_elem_of_omap. exists c. rewrite Hc.
          split; [|done]. by eapply list_elem_of_lookup_2. }
        destruct (H5 item Hin) as (tm & Htm & Hi). destruct (H1 _ _ Htm) as [_ Hlt].
        rewrite Hi in Hlt. lia.
      * by rewrite lookup_ge_None_2 by (rewrite length_app; simpl; lia).
Qed.

Lemma punctual_newPromise w : punctual w -> punctual (snd (newPromise w)).
Proof. done. Qed.

(** A message handed to the tab for a promise or as a ping. *)
Lemma WF0_sendMessage_direct tab m k w :
  (forall item, k <> ToItem item) -> WF0 w -> WF0 (tabs_sendMessage tab m k w).
Proof.
  intros Hk [H1 H2 H3 H4 H5 H6 H7 H8 H9 H10 H11].
  assert (Ed : dispatched (tabs_sendMessage tab m k w) = dispatched w).
  { unfold dispatched, tabs_sendMessage. simpl. rewrite dispatched_snoc. simpl.
    destruct k; try (by rewrite app_nil_r). by destruct (Hk item). }
  split; rewrite ?Ed; try done.
  intros n c item Hn Hc Ha. simpl in *.
  apply lookup_app_Some in Hn as [Hn|[_ Hn]]; [eauto|].
  apply list_lookup_singleton_Some in Hn as [_ <-]. done.
Qed.

Lemma WF0_requeue (f : gmap Z Entry -> gmap Z Entry) w :
  queuesWithin w (f (messageQueue w)) -> WF0 w -> WF0 (set_messageQueue f w).
Proof.
  intros Hq [H1 H2 H3 H4 H5 H6 H7 H8 H9 H10 H11].
  split; try done; simpl.
  - intros tab e' item He' Hin. destruct (Hq tab e' He') as [E|(e & He & E)]; rewrite E in Hin.
    + by apply elem_of_nil in Hin.
    + exact (H4 tab e item He Hin).
  - intros tab e' He'. destruct (Hq tab e' He') as [E|(e & He & E)]; rewrite E.
    + apply NoDup_nil_2.
    + eauto.
  - intros tab1 tab2 e1' e2' item Hne He1 He2 Hin1 Hin2.
    destruct (Hq tab1 e1' He1) as [E1|(e1 & He1' & E1)]; rewrite E1 in Hin1;
      [by apply elem_of_nil in Hin1|].
    destruct (Hq tab2 e2' He2) as [E2|(e2 & He2' & E2)]; rewrite E2 in Hin2;
      [by apply elem_of_nil in Hin2|].
    exact (H7 tab1 tab2 e1 e2 item Hne He1' He2' Hin1 Hin2).
  - intros tab e' item He' Hin. destruct (Hq tab e' He') as [E|(e & He & E)]; rewrite E in Hin.
    + by apply elem_of_nil in Hin.
    + exact (H9 tab e item He Hin).
Qed.

Lemma queuesWithin_insert_same w tab e e' :
  messageQueue w !! tab = Some e -> queue e' = queue e ->
  queuesWithin w (<[tab := e']> (messageQueue w)).
Proof.
  intros He E tab' e'' H. destruct (decide (tab = tab')) as [<-|Hne].
  - rewrite lookup_insert_eq in H. injection H as <-. right. eauto.
  - rewrite lookup_insert_ne in H by done. right. eauto.
Qed.

Lemma queuesWithin_insert_empty w tab e' :
  queue e' = [] -> queuesWithin w (<[tab := e']> (messageQueue w)).
Proof.
  intros E tab' e'' H. destruct (decide (tab = tab')) as [<-|Hne].
  - rewrite lookup_insert_eq in H. injection H as <-. by left.
  - rewrite lookup_insert_ne in H by done. right. eauto.
Qed.

Lemma queuesWithin_delete w tab : queuesWithin w (delete tab (messageQueue w)).
Proof.
  intros tab' e' H. destruct (decide (tab = tab')) as [<-|Hne].
  - by rewrite lookup_delete_eq in H.
  - rewrite lookup_delete_ne in H by done. right. eauto.
Qed.

Lemma WF0_markTabPending tab w : WF0 w -> WF0 (markTabPending tab w).
Proof.
  intros HW. unfold markTabPending. destruct (messageQueue w !! tab) as [e|] eqn:He.
  - apply WF0_requeue; [|done]. by apply (queuesWithin_insert_same w tab e).
  - apply WF0_requeue; [|done]. by apply queuesWithin_insert_empty.
Qed.

(** [queueMessageForTab] for a promise that exists and that no item has. *)
Lemma WF0_queueMessageForTab tab m p w :
  p < length (promises w) ->
  (forall t tm, timers w !! t = Some tm -> promise (callbackItem tm) <> p) ->
  WF0 w -> WF0 (queueMessageForTab tab m p w).
Proof.
  intros Hp Hfresh HW. unfold queueMessageForTab.
  set (w1 := match messageQueue w !! tab with
             | None => set_messageQueue (insert tab (mkEntry false [] None)) w
             | Some _ => w
             end).
  assert (HW1 : WF0 w1).
  { unfold w1. destruct (messageQueue w !! tab); [done|].
    apply WF0_requeue; [|done]. by apply queuesWithin_insert_empty. }
  assert (Hpr : promises w1 = promises w) by (unfold w1; by destruct (messageQueue w !! tab)).
  assert (Htm : timers w1 = timers w) by (unfold w1; by destruct (messageQueue w !! tab)).
  assert (He1 : exists e1, messageQueue w1 !! tab = Some e1).
  { unfold w1. destruct (messageQueue w !! tab) eqn:E; [eauto|]. simpl.
    rewrite lookup_insert_eq. eauto. }
  destruct He1 as [e1 He1].
  rewrite <- Hpr in Hp. rewrite <- Htm in Hfresh. clearbody w1. clear HW Hpr Htm.
  set (item := mkItem m p (length (timers w1))).
  set (tm0 := mkTimer item (now w1 + MESSAGE_TIMEOUT) true).
  destruct HW1 as [H1 H2 H3 H4 H5 H6 H7 H8 H9 H10 H11].
  assert (HT : forall t tm, (timers w1 ++ [tm0]) !! t = Some tm ->
            timers w1 !! t = Some tm \/ (t = length (timers w1) /\ tm = tm0)).
  { intros t tm H. apply lookup_app_Some in H as [H|[Hl H]]; [by left|right].
    apply list_lookup_singleton_Some in H as [Ht <-]. split; [lia|done]. }
  assert (HK : forall it, knownTimer w1 it ->
            exists tm, (timers w1 ++ [tm0]) !! timeoutId it = Some tm /\ callbackItem tm = it).
  { intros it (tm & Ht & Hi). exists tm. split; [by apply lookup_app_l_Some|done]. }
  assert (Hnew : forall it, knownTimer w1 it -> it <> item).
  { intros it Hk ->. apply knownTimer_lt in Hk. simpl in Hk. lia. }
  assert (HQ : forall tab' e', alter (fun e => mkEntry (isReady e) (queue e ++ [item]) (lastUrl e))
                                 tab (messageQueue w1) !! tab' = Some e' ->
            exists e, messageQueue w1 !! tab' = Some e
                      /\ queue e' = if decide (tab = tab') then queue e ++ [item] else queue e).
  { intros tab' e'. rewrite lookup_alter. case_decide as Ht.
    - subst tab'. rewrite He1. simpl. intros [= <-]. eauto.
    - eauto. }
  split; simpl.
  - intros t tm Ht. destruct (HT t tm Ht) as [Ht'|[-> ->]]; [eauto|]. done.
  - intros t tm Ht. destruct (HT t tm Ht) as [Ht'|[-> ->]]; [eauto|]. done.
  - intros t1 t2 tm1 tm2 Ht1 Ht2 E.
    destruct (HT _ _ Ht1) as [Ht1'|[-> ->]], (HT _ _ Ht2) as [Ht2'|[-> ->]]; eauto.
    + simpl in E. by destruct (Hfresh _ _ Ht1').
    + simpl in E. by destruct (Hfresh _ _ Ht2').
  - intros tab' e' it He' Hin. destruct (HQ _ _ He') as (e & He & E). rewrite E in Hin.
    destruct (decide (tab = tab')); [|by eapply HK, H4].
    apply elem_of_app in Hin as [Hin|Hin]; [by eapply HK, H4|].
    apply list_elem_of_singleton in Hin as ->. exists tm0. split; [|done].
    simpl. by rewrite lookup_app_r, Nat.sub_diag by lia.
  - intros it Hin. by apply HK, H5.
  - intros tab' e' He'. destruct (HQ _ _ He') as (e & He & E). rewrite E.
    destruct (decide (tab = tab')); [|eauto]. apply NoDup_app. split; [eauto|]. split; [|apply NoDup_singleton].
    intros it Hin Hit. apply list_elem_of_singleton in Hit. by apply (Hnew it (H4 _ _ _ He Hin)).
  - intros tab1 tab2 e1' e2' it Hne He1' He2' Hin1 Hin2.
    destruct (HQ _ _ He1') as (ea & Hea & Ea). destruct (HQ _ _ He2') as (eb & Heb & Eb).
    rewrite Ea in Hin1. rewrite Eb in Hin2.
    assert (Hin1' : it ∈ queue ea \/ (tab = tab1 /\ it = item)).
    { destruct (decide (tab = tab1)); [|by left].
      apply elem_of_app in Hin1 as [?|Hin1]; [by left|right].
      apply list_elem_of_singleton in Hin1. done. }
    assert (Hin2' : it ∈ queue eb \/ (tab = tab2 /\ it = item)).
    { destruct (decide (tab = tab2)); [|by left].
      apply elem_of_app in Hin2 as [?|Hin2]; [by left|right].
      apply list_elem_of_singleton in Hin2. done. }
    destruct Hin1' as [Ha|[Et1 Ei1]], Hin2' as [Hb|[Et2 Ei2]].
    + exact (H7 _ _ _ _ _ Hne Hea Heb Ha Hb).
    + by apply (Hnew it (H4 _ _ _ Hea Ha)).
    + by apply (Hnew it (H4 _ _ _ Heb Hb)).
    + congruence.
  - done.
  - intros tab' e' it He' Hin Hd. destruct (HQ _ _ He') as (e & He & E). rewrite E in Hin.
    assert (Hin' : it ∈ queue e \/ it = item).
    { destruct (decide (tab = tab')); [|by left].
      apply elem_of_app in Hin as [?|Hin]; [by left|right].
      by apply list_elem_of_singleton in Hin. }
    destruct Hin' as [Ha|Ei]; [exact (H9 _ _ _ He Ha Hd)|].
    by apply (Hnew it (H5 _ Hd)).
  - done.
  - done.
Qed.

Lemma punctual_queueMessageForTab tab m p w : punctual w -> punctual (queueMessageForTab tab m p w).
Proof.
  intros HP t tm. unfold queueMessageForTab. simpl.
  assert (E : forall w1 : World,
            (w1 = w \/ w1 = set_messageQueue (insert tab (mkEntry false [] None)) w) ->
            timers w1 = timers w /\ now w1 = now w).
  { intros w1 [->| ->]; done. }
  destruct (E (match messageQueue w !! tab with
               | None => set_messageQueue (insert tab (mkEntry false [] None)) w
               | Some _ => w
               end)) as [Et En].
  { destruct (messageQueue w !! tab); auto. }
  rewrite Et, En. intros H Ha.
  apply lookup_app_Some in H as [H|[_ H]]; [eauto|].
  apply list_lookup_singleton_Some in H as [_ <-]. simpl. unfold MESSAGE_TIMEOUT. lia.
Qed.

(** *** Flushing *)

Lemma flushLoop_spec tab q w :
  flushLoop tab q w
  = mkWorld (messageQueue w) (promises w) (timers w) (calls w ++ map (itemCall tab) q)
            (settlements w) (now w).
Proof.
  revert w. induction q as [|item q IH]; intros w; simpl.
  - rewrite app_nil_r. by destruct w.
  - rewrite IH. simpl. by rewrite <- app_assoc.
Qed.

Lemma dispatched_flushLoop tab q w : dispatched (flushLoop tab q w) = dispatched w ++ q.
Proof.
  rewrite flushLoop_spec. unfold dispatched. simpl. rewrite omap_app. f_equal.
  induction q as [|item q IH]; [done|].
  change (omap (fun c => match cont c with ToItem item => Some item | _ => None end)
            ([itemCall tab item] ++ map (itemCall tab) q) = [item] ++ q).
  rewrite omap_app. by rewrite IH.
Qed.

Lemma itemCalls_unanswered tab q n c :
  map (itemCall tab) q !! n = Some c -> answered c = false.
Proof.
  revert n. induction q as [|item q IH]; intros [|n] H; simpl in *; try done.
  - by injection H as <-.
  - eauto.
Qed.

(** Handing over items that have their timers and are nowhere yet. *)
Lemma WF0_flushLoop tab q w :
  (forall item, item ∈ q -> knownTimer w item) -> NoDup q ->
  (forall item, item ∈ q -> item ∉ dispatched w) ->
  (forall tab' e item, messageQueue w !! tab' = Some e -> item ∈ queue e -> item ∉ q) ->
  WF0 w -> WF0 (flushLoop tab q w).
Proof.
  intros Hk Hnd Hd Hq [H1 H2 H3 H4 H5 H6 H7 H8 H9 H10 H11].
  pose proof (dispatched_flushLoop tab q w) as Ed.
  rewrite flushLoop_spec in *.
  split; simpl; try done.
  - intros item. rewrite Ed. intros [Hin|Hin]%elem_of_app; [by apply H5|by apply Hk].
  - rewrite Ed. apply NoDup_app. split; [done|]. split; [|done].
    intros item Hin1 Hin2. by apply (Hd item).
  - intros tab' e item He Hin. rewrite Ed. intros [Hd'|Hq']%elem_of_app.
    + by apply (H9 _ _ _ He Hin).
    + by apply (Hq _ _ _ He Hin).
  - intros n c item Hn Hc Ha.
    apply lookup_app_Some in Hn as [Hn|[_ Hn]]; [eauto|].
    apply itemCalls_unanswered in Hn. congruence.
Qed.

Lemma WF0_flushMessageQueue tab w : WF0 w -> WF0 (flushMessageQueue tab w).
Proof.
  intros HW. unfold flushMessageQueue. destruct (messageQueue w !! tab) as [e|] eqn:He; [|done].
  pose proof HW as [H1 H2 H3 H4 H5 H6 H7 H8 H9 H10 H11].
  apply WF0_flushLoop.
  - intros item Hin. exact (H4 _ _ _ He Hin).
  - eauto.
  - intros item Hin. exact (H9 _ _ _ He Hin).
  - intros tab' e' item He' Hin. simpl in He'.
    destruct (decide (tab = tab')) as [<-|Hne].
    + rewrite lookup_insert_eq in He'. injection He' as <-. by apply elem_of_nil in Hin.
    + rewrite lookup_insert_ne in He' by done.
      exact (H7 tab' tab e' e item (not_eq_sym Hne) He' He Hin).
  - apply WF0_requeue; [|done]. by apply queuesWithin_insert_empty.
Qed.

Lemma punctual_same w w' : timers w' = timers w -> now w' = now w -> punctual w -> punctual w'.
Proof. intros Et En H t tm. rewrite Et, En. apply H. Qed.

Lemma punctual_flushMessageQueue tab w : punctual w -> punctual (flushMessageQueue tab w).
Proof.
  unfold flushMessageQueue. destruct (messageQueue w !! tab); [|done].
  rewrite flushLoop_spec. by apply punctual_same.
Qed.

(** *** Closing a tab *)

Lemma WF0_reject_all (q : list QueueItem) (e : string) w :
  (forall item, item ∈ q -> knownTimer w item) -> WF0 w ->
  WF0 (fold_left (fun w item => item_reject item e w) q w)
  /\ timersKept w (fold_left (fun w item => item_reject item e w) q w)
  /\ messageQueue (fold_left (fun w item => item_reject item e w) q w) = messageQueue w.
Proof.
  revert w. induction q as [|item q IH]; intros w Hk HW; simpl.
  - split; [done|]. split; [apply timersKept_refl|done].
  - assert (Hk1 : timersKept w (item_reject item e w)).
    { eapply timersKept_trans; [apply timersKept_clearTimeout|apply timersKept_settle]. }
    destruct (IH (item_reject item e w)) as (IH1 & IH2 & IH3).
    + intros it Hin. eapply knownTimer_kept; [exact Hk1|]. apply Hk. by right.
    + apply WF0_item_settle; [done| |done]. apply Hk. by left.
    + split; [done|]. split; [by eapply timersKept_trans|].
      rewrite IH3. unfold item_reject.
      by destruct (settle_fields (promise item) (RejectedWith e)
                     (clearTimeout (timeoutId item) w)) as (-> & _).
Qed.

Lemma punctual_reject_all (q : list QueueItem) (e : string) w :
  punctual w -> punctual (fold_left (fun w item => item_reject item e w) q w).
Proof.
  revert w. induction q as [|item q IH]; intros w HP; simpl; [done|].
  apply IH. by apply punctual_item_settle.
Qed.

Section HandlerFacts.
Variable URL_new : string -> option Url.

Lemma WF0_onRemoved tab w : WF0 w -> WF0 (onRemoved tab w).
Proof.
  intros HW. unfold onRemoved. destruct (messageQueue w !! tab) as [e|] eqn:He; [|done].
  destruct (WF0_reject_all (queue e) "Tab closed." w) as (H1 & _ & H3); [|done|].
  { intros item Hin. by eapply wf_queue_known. }
  apply WF0_requeue; [|done]. apply queuesWithin_delete.
Qed.

Lemma WF0_onContentScriptReady rev tab u w : WF0 w -> WF0 (onContentScriptReady rev tab u w).
Proof.
  intros HW. unfold onContentScriptReady. apply WF0_flushMessageQueue.
  destruct (messageQueue w !! tab) as [e|] eqn:He, rev;
    (apply WF0_requeue; [|done]);
    first [by apply (queuesWithin_insert_same w tab e)|by apply queuesWithin_insert_empty].
Qed.

Lemma WF0_markUnlessSameBase tab u w : WF0 w -> WF0 (markUnlessSameBase URL_new tab u w).
Proof.
  intros HW. unfold markUnlessSameBase.
  destruct (messageQueue w !! tab) as [e|]; [|by apply WF0_markTabPending].
  destruct (Js.falsy (lastUrl e)); [by apply WF0_markTabPending|].
  destruct (sameBase _ _ _) as [[|]|]; try done; by apply WF0_markTabPending.
Qed.

Lemma WF0_onUpdated rev tab status changeUrl tabUrl w :
  WF0 w -> WF0 (onUpdated URL_new rev tab status changeUrl tabUrl w).
Proof.
  intros HW. unfold onUpdated. destruct (negb (isValidUrl tabUrl)); [done|].
  match goal with |- WF0 (if _ then tabs_sendMessage _ _ _ ?w1 else _) =>
    assert (HW1 : WF0 w1) end.
  { destruct rev.
    - destruct (_ || _); [by apply WF0_markTabPending|done].
    - destruct (isStatus status "loading").
      + destruct (messageQueue w !! tab);
          [by apply WF0_markUnlessSameBase|by apply WF0_markTabPending].
      + destruct (negb (Js.falsy changeUrl)); [|done].
        pose proof (WF0_markUnlessSameBase tab (default "" changeUrl) w HW) as HW'.
        destruct (messageQueue (markUnlessSameBase URL_new tab (default "" changeUrl) w) !! tab)
          as [e|] eqn:He; (apply WF0_requeue; [|done]).
        * by apply (queuesWithin_insert_same _ tab e).
        * by apply queuesWithin_insert_empty. }
  destruct (isStatus status "complete"); [|done].
  by apply WF0_sendMessage_direct.
Qed.

End HandlerFacts.

(** *** Answers *)

Lemma settle_set_calls f p st w :
  settle p st (set_calls f w) = set_calls f (settle p st w).
Proof. unfold settle. simpl. by destruct (promises w !! p) as [[]|]. Qed.

Lemma clearTimeout_set_calls f t w :
  clearTimeout t (set_calls f w) = set_calls f (clearTimeout t w).
Proof. done. Qed.

Lemma queueMessageForTab_set_calls f tab m p w :
  queueMessageForTab tab m p (set_calls f w) = set_calls f (queueMessageForTab tab m p w).
Proof. unfold queueMessageForTab. simpl. by destruct (messageQueue w !! tab). Qed.

(** Marking a call answered, once the promise of its item is settled. *)
Lemma WF0_answered n c w :
  calls w !! n = Some c ->
  (forall item, cont c = ToItem item -> isPending (promises w !! promise item) = false) ->
  WF0 w -> WF0 (set_calls (insert n (mkCall (target c) (payload c) (cont c) true)) w).
Proof.
  intros Hn Hc [H1 H2 H3 H4 H5 H6 H7 H8 H9 H10 H11].
  pose proof (dispatched_answer n c w Hn) as Ed.
  split; rewrite ?Ed; try done.
  intros n' c' item Hn' Hc' Ha. simpl in *.
  destruct (decide (n = n')) as [<-|Hne].
  - rewrite list_lookup_insert_eq in Hn' by (by eapply lookup_lt_Some).
    injection Hn' as <-. simpl in *. eauto.
  - rewrite list_lookup_insert_ne in Hn' by done. eauto.
Qed.

Lemma punctual_set_calls f w : punctual w -> punctual (set_calls f w).
Proof. done. Qed.

Lemma WF0_answerCall n r w : WF0 w -> WF0 (answerCall n r w).
Proof.
  intros HW. unfold answerCall.
  destruct (calls w !! n) as [c|] eqn:Hn; [|done].
  destruct (answered c) eqn:Ha; [done|].
  set (mark := insert n (mkCall (target c) (payload c) (cont c) true)).
  destruct (cont c) as [item|p withCatch|] eqn:Hc.
  - (* the callback of a dispatched item *)
    assert (Hk : knownTimer w item).
    { apply (wf_call_known w HW). unfold dispatched. apply list_elem_of_omap.
      exists c. rewrite Hc. split; [by eapply list_elem_of_lookup_2|done]. }
    destruct r as [v|e]; unfold item_resolve, item_reject;
      rewrite clearTimeout_set_calls, settle_set_calls;
      (unfold mark; rewrite <- Hc; apply WF0_answered;
       [by destruct (settle_fields (promise item) (Fulfilled v)
                       (clearTimeout (timeoutId item) w)) as (_ & _ & -> & _)
        || by destruct (settle_fields (promise item) (RejectedWith e)
                          (clearTimeout (timeoutId item) w)) as (_ & _ & -> & _)
       | rewrite Hc; intros item' [= <-]; by apply item_settle_pending
       | by apply WF0_item_settle]).
  - (* the callback of a direct message *)
    assert (Hmark : forall w', calls w' = calls w -> WF0 w' -> WF0 (set_calls mark w')).
    { intros w' Ec HW'. unfold mark. rewrite <- Hc. apply WF0_answered; [by rewrite Ec| |done].
      rewrite Hc. done. }
    destruct r as [v|e].
    + destruct withCatch;
        (rewrite settle_set_calls; apply Hmark; [apply settle_fields|by apply WF0_settle]).
    + destruct withCatch.
      * destruct (shouldQueueForError e).
        -- change (newPromise (set_calls mark w))
             with (length (promises w), set_calls mark (snd (newPromise w))).
           cbv iota beta. rewrite settle_set_calls, queueMessageForTab_set_calls.
           set (w2 := snd (newPromise w)).
           set (w3 := settle p (Follows (length (promises w))) w2).
           assert (HW3 : WF0 w3) by (apply WF0_settle; [done|by apply WF0_newPromise]).
           assert (Hl3 : length (promises w3) = S (length (promises w))).
           { unfold w3. rewrite settle_length. simpl. rewrite length_app. simpl. lia. }
           assert (Ht3 : timers w3 = timers w).
           { unfold w3. by destruct (settle_fields p (Follows (length (promises w))) w2)
               as (_ & -> & _). }
           apply Hmark.
           ++ unfold queueMessageForTab. simpl.
              destruct (messageQueue w3 !! target c); simpl;
                unfold w3; by destruct (settle_fields p (Follows (length (promises w))) w2)
                  as (_ & _ & -> & _).
           ++ apply WF0_queueMessageForTab; [lia| |done].
              rewrite Ht3. intros t tm Ht. destruct (wf_timer_self w HW t tm Ht). lia.
        -- rewrite settle_set_calls. apply Hmark; [apply settle_fields|by apply WF0_settle].
      * rewrite settle_set_calls. apply Hmark; [apply settle_fields|by apply WF0_settle].
  - (* a ping *)
    unfold mark. rewrite <- Hc. apply WF0_answered; [done| |done]. rewrite Hc. done.
Qed.

Lemma punctual_answerCall n r w : punctual w -> punctual (answerCall n r w).
Proof.
  intros HP. unfold answerCall.
  destruct (calls w !! n) as [c|]; [|done]. destruct (answered c); [done|].
  destruct (cont c) as [item|p [|]|], r as [v|e];
    try (apply punctual_item_settle; by apply punctual_set_calls);
    try (apply punctual_settle; by apply punctual_set_calls);
    try done.
  destruct (shouldQueueForError e); [|apply punctual_settle; by apply punctual_set_calls].
  change (newPromise
            (set_calls (insert n (mkCall (target c) (payload c) (ToDirect p true) true)) w))
    with (length (promises w),
          snd (newPromise
                 (set_calls (insert n (mkCall (target c) (payload c) (ToDirect p true) true)) w))).
  cbv iota beta. apply punctual_queueMessageForTab, punctual_settle. done.
Qed.

(** *** Sends *)

Lemma WF0_sendMessageToTab tab m w : WF0 w -> WF0 (snd (sendMessageToTab tab m w)).
Proof.
  intros HW. unfold sendMessageToTab.
  change (newPromise w) with (length (promises w), snd (newPromise w)). cbv iota beta.
  pose proof (WF0_newPromise w HW) as HW1.
  destruct (messageQueue w !! tab) as [e|].
  - destruct (negb (isReady e)); simpl.
    + apply WF0_queueMessageForTab; [|intros t tm Ht|done]; simpl.
      * rewrite length_app. simpl. lia.
      * destruct (wf_timer_self w HW t tm Ht). lia.
    + by apply WF0_sendMessage_direct.
  - by apply WF0_sendMessage_direct.
Qed.

Lemma punctual_sendMessageToTab tab m w : punctual w -> punctual (snd (sendMessageToTab tab m w)).
Proof.
  intros HP. unfold sendMessageToTab.
  change (newPromise w) with (length (promises w), snd (newPromise w)). cbv iota beta.
  destruct (messageQueue w !! tab) as [e|]; [|done].
  destruct (negb (isReady e)); simpl; [|done].
  by apply punctual_queueMessageForTab.
Qed.

(** *** Time *)

Lemma clearTimeout_idem t w : clearTimeout t (clearTimeout t w) = clearTimeout t w.
Proof.
  unfold clearTimeout, set_timers. simpl. f_equal.
  apply list_eq. intros i. destruct (decide (t = i)) as [<-|Hne].
  - rewrite !list_lookup_alter_eq. by destruct (timers w !! t).
  - by rewrite !list_lookup_alter_ne.
Qed.

Lemma WF0_advance dt w : WF0 w -> WF0 (advance dt w).
Proof. intros [H1 H2 H3 H4 H5 H6 H7 H8 H9 H10 H11]. by split. Qed.

(** A timer that fires is the timer of its item. *)
Lemma fireTimer_eq t w tm :
  WF0 w -> timers w !! t = Some tm -> armed tm && (due tm <=? now w)%Z = true ->
  fireTimer t w
  = settle (promise (callbackItem tm)) (RejectedWith (timeoutError (message (callbackItem tm))))
      (clearTimeout (timeoutId (callbackItem tm)) w).
Proof.
  intros HW Ht Hf. unfold fireTimer. rewrite Ht, Hf. unfold item_reject.
  destruct (wf_timer_self w HW t tm Ht) as [-> _]. by rewrite clearTimeout_idem.
Qed.

Lemma WF0_fireTimer t w : WF0 w -> WF0 (fireTimer t w).
Proof.
  intros HW. destruct (timers w !! t) as [tm|] eqn:Ht; [|unfold fireTimer; by rewrite Ht].
  destruct (armed tm && (due tm <=? now w)%Z) eqn:Hf; [|unfold fireTimer; by rewrite Ht, Hf].
  rewrite (fireTimer_eq t w tm) by done.
  apply WF0_item_settle; [done| |done].
  exists tm. destruct (wf_timer_self w HW t tm Ht) as [-> _]. done.
Qed.

Lemma fireTimer_kept t w :
  WF0 w ->
  timersKept w (fireTimer t w) /\ promisesKept w (fireTimer t w)
  /\ now (fireTimer t w) = now w /\ length (timers (fireTimer t w)) = length (timers w)
  /\ messageQueue (fireTimer t w) = messageQueue w /\ calls (fireTimer t w) = calls w.
Proof.
  intros HW. destruct (timers w !! t) as [tm|] eqn:Ht.
  2:{ unfold fireTimer. rewrite Ht.
      split; [apply timersKept_refl|]. split; [apply promisesKept_refl|]. done. }
  destruct (armed tm && (due tm <=? now w)%Z) eqn:Hf.
  2:{ unfold fireTimer. rewrite Ht, Hf.
      split; [apply timersKept_refl|]. split; [apply promisesKept_refl|]. done. }
  rewrite (fireTimer_eq t w tm) by done.
  set (w1 := clearTimeout _ w).
  destruct (settle_fields (promise (callbackItem tm))
              (RejectedWith (timeoutError (message (callbackItem tm)))) w1) as (Eq & Et & Ec & En).
  split; [|split; [|split; [|split; [|split]]]].
  - eapply timersKept_trans; [apply timersKept_clearTimeout|apply timersKept_settle].
  - eapply promisesKept_trans; [|apply promisesKept_settle]. by apply promisesKept_eq.
  - by rewrite En.
  - rewrite Et. apply clearTimeout_length.
  - by rewrite Eq.
  - by rewrite Ec.
Qed.

Lemma fireTimer_quiet t w : WF0 w -> quiet t (fireTimer t w).
Proof.
  intros HW tm'. destruct (timers w !! t) as [tm|] eqn:Ht.
  2:{ unfold fireTimer. rewrite Ht. congruence. }
  destruct (armed tm && (due tm <=? now w)%Z) eqn:Hf.
  - rewrite (fireTimer_eq t w tm) by done.
    destruct (settle_fields (promise (callbackItem tm))
                (RejectedWith (timeoutError (message (callbackItem tm))))
                (clearTimeout (timeoutId (callbackItem tm)) w)) as (_ & -> & _).
    destruct (wf_timer_self w HW t tm Ht) as [-> _].
    rewrite clearTimeout_lookup, Ht. simpl.
    intros H Ha. injection H as E. rewrite <- E in Ha. simpl in Ha.
    rewrite decide_True in Ha by done. discriminate.
  - unfold fireTimer. rewrite Ht, Hf. intros H Ha.
    assert (tm' = tm) as -> by congruence.
    rewrite Ha in Hf. simpl in Hf. apply Z.leb_gt in Hf. done.
Qed.

Lemma quiet_kept t w w' :
  timersKept w w' -> length (timers w') = length (timers w) -> now w' = now w ->
  quiet t w -> quiet t w'.
Proof.
  intros Hk Hl Hn Hq tm' Ht Ha.
  assert (t < length (timers w)) as Hlt by (rewrite <- Hl; by eapply lookup_lt_Some).
  destruct (lookup_lt_is_Some_2 _ _ Hlt) as [tm Htm].
  destruct (Hk _ _ Htm) as (tm2 & Ht2 & _ & Hd & Harm).
  rewrite Ht in Ht2. injection Ht2 as <-. rewrite Hn, Hd. apply (Hq tm Htm). auto.
Qed.

Lemma fireAll_spec (l : list nat) w :
  WF0 w ->
  let w' := fold_left (fun w t => fireTimer t w) l w in
  WF0 w' /\ timersKept w w' /\ promisesKept w w' /\ now w' = now w
  /\ length (timers w') = length (timers w)
  /\ messageQueue w' = messageQueue w /\ calls w' = calls w
  /\ (forall t, t ∈ l -> quiet t w').
Proof.
  revert w. induction l as [|t l IH]; intros w HW; simpl.
  - split; [done|]. split; [apply timersKept_refl|]. split; [apply promisesKept_refl|].
    do 4 (split; [done|]). intros t' Ht. by apply elem_of_nil in Ht.
  - destruct (fireTimer_kept t w HW) as (K1 & K2 & K3 & K4 & K5 & K6).
    destruct (IH (fireTimer t w) (WF0_fireTimer t w HW)) as (I1 & I2 & I3 & I4 & I5 & I6 & I7 & I8).
    split; [done|]. split; [by eapply timersKept_trans|].
    split; [by eapply promisesKept_trans|]. split; [congruence|]. split; [congruence|].
    split; [congruence|]. split; [congruence|].
    intros t' [->|Hin]%elem_of_cons; [|by apply I8].
    eapply quiet_kept; [exact I2|done|done|]. by apply fireTimer_quiet.
Qed.

Lemma WF_elapse dt w : WF w -> WF (elapse dt w).
Proof.
  intros [HW _]. unfold elapse. fold (advance dt w).
  destruct (fireAll_spec (seq 0 (length (timers (advance dt w)))) (advance dt w)
              (WF0_advance dt w HW)) as (I1 & I2 & I3 & I4 & I5 & I6 & I7 & I8).
  split; [done|]. intros t tm Ht Ha. apply (I8 t); [|done|done].
  apply elem_of_seq. split; [lia|]. apply lookup_lt_Some in Ht. simpl in *. lia.
Qed.

(** ** Every reachable world satisfies the invariant *)

Section Reachable.
Variable URL_new : string -> option Url.
Variable rev : Revision.

Lemma punctual_markTabPending tab w : punctual w -> punctual (markTabPending tab w).
Proof. unfold markTabPending. by destruct (messageQueue w !! tab). Qed.

Lemma punctual_markUnlessSameBase tab u w :
  punctual w -> punctual (markUnlessSameBase URL_new tab u w).
Proof.
  intros HP. unfold markUnlessSameBase.
  destruct (messageQueue w !! tab) as [e|]; [|by apply punctual_markTabPending].
  destruct (Js.falsy (lastUrl e)); [by apply punctual_markTabPending|].
  destruct (sameBase _ _ _) as [[|]|]; try done; by apply punctual_markTabPending.
Qed.

Lemma punctual_handle ev w : (forall dt, ev <> Elapse dt) -> punctual w ->
  punctual (handle URL_new rev ev w).
Proof.
  intros Hev HP.
  destruct ev as [tab m|tab|n r|dt|tab senderUrl|tab status changeUrl tabUrl|tab]; simpl.
  - by apply punctual_sendMessageToTab.
  - by apply punctual_markTabPending.
  - by apply punctual_answerCall.
  - by destruct (Hev dt).
  - unfold onContentScriptReady. apply punctual_flushMessageQueue.
    by destruct (messageQueue w !! tab), rev.
  - unfold onUpdated. destruct (negb (isValidUrl tabUrl)); [done|].
    match goal with |- punctual (if _ then tabs_sendMessage _ _ _ ?w1 else _) =>
      assert (HP1 : punctual w1) end.
    { destruct rev.
      - destruct (_ || _); [by apply punctual_markTabPending|done].
      - destruct (isStatus status "loading").
        + destruct (messageQueue w !! tab);
            [by apply punctual_markUnlessSameBase|by apply punctual_markTabPending].
        + destruct (negb (Js.falsy changeUrl)); [|done].
          pose proof (punctual_markUnlessSameBase tab (default "" changeUrl) w HP) as HP'.
          by destruct (messageQueue (markUnlessSameBase URL_new tab (default "" changeUrl) w)
                         !! tab). }
    by destruct (isStatus status "complete").
  - unfold onRemoved. destruct (messageQueue w !! tab) as [e|]; [|done].
    apply (punctual_same (fold_left (fun w item => item_reject item "Tab closed." w) (queue e) w));
      [done|done|]. by apply punctual_reject_all.
Qed.

Lemma WF_handle ev w : WF w -> WF (handle URL_new rev ev w).
Proof.
  intros HW.
  destruct ev; try (by apply WF_elapse);
    (destruct HW as [HW HP]; split; [|by apply punctual_handle]); simpl.
  - by apply WF0_sendMessageToTab.
  - by apply WF0_markTabPending.
  - by apply WF0_answerCall.
  - by apply WF0_onContentScriptReady.
  - by apply WF0_onUpdated.
  - by apply WF0_onRemoved.
Qed.

Lemma WF_run evs w : WF w -> WF (run URL_new rev evs w).
Proof.
  revert w. induction evs as [|ev evs IH]; intros w HW; simpl; [done|].
  apply IH. by apply WF_handle.
Qed.

Lemma WF_reachable evs : WF (run URL_new rev evs initialWorld).
Proof. apply WF_run, WF_initial. Qed.

End Reachable.

(** ** What every step keeps *)

Lemma Kept_refl w : Kept w w.
Proof.
  split; [apply timersKept_refl|]. split; [apply promisesKept_refl|].
  exists []. by rewrite app_nil_r.
Qed.

Lemma Kept_trans w1 w2 w3 : Kept w1 w2 -> Kept w2 w3 -> Kept w1 w3.
Proof.
  intros (T1 & P1 & l1 & D1) (T2 & P2 & l2 & D2).
  split; [by eapply timersKept_trans|]. split; [by eapply promisesKept_trans|].
  exists (l1 ++ l2). by rewrite D2, D1, app_assoc.
Qed.

Lemma Kept_same w w' :
  timers w' = timers w -> promises w' = promises w -> calls w' = calls w -> Kept w w'.
Proof.
  intros Et Ep Ec. split; [by apply timersKept_eq|]. split; [by apply promisesKept_eq|].
  exists []. unfold dispatched. by rewrite Ec, app_nil_r.
Qed.

Lemma Kept_set_messageQueue f w : Kept w (set_messageQueue f w).
Proof. by apply Kept_same. Qed.

Lemma Kept_settle p st w : Kept w (settle p st w).
Proof.
  destruct (settle_fields p st w) as (_ & Et & Ec & _).
  split; [apply timersKept_settle|]. split; [apply promisesKept_settle|].
  exists []. unfold dispatched. by rewrite Ec, app_nil_r.
Qed.

Lemma Kept_clearTimeout t w : Kept w (clearTimeout t w).
Proof.
  split; [apply timersKept_clearTimeout|]. split; [by apply promisesKept_eq|].
  exists []. by rewrite app_nil_r.
Qed.

Lemma Kept_item_reject item e w : Kept w (item_reject item e w).
Proof. eapply Kept_trans; [apply Kept_clearTimeout|apply Kept_settle]. Qed.

Lemma Kept_item_resolve item v w : Kept w (item_resolve item v w).
Proof. eapply Kept_trans; [apply Kept_clearTimeout|apply Kept_settle]. Qed.

Lemma Kept_newPromise w : Kept w (snd (newPromise w)).
Proof.
  split; [by apply timersKept_eq|]. split; [apply promisesKept_newPromise|].
  exists []. by rewrite app_nil_r.
Qed.

Lemma Kept_tabs_sendMessage tab m k w : Kept w (tabs_sendMessage tab m k w).
Proof.
  split; [by apply timersKept_eq|]. split; [by apply promisesKept_eq|].
  unfold dispatched, tabs_sendMessage. simpl. rewrite dispatched_snoc. eauto.
Qed.

Lemma Kept_markTabPending tab w : Kept w (markTabPending tab w).
Proof. unfold markTabPending. destruct (messageQueue w !! tab); apply Kept_set_messageQueue. Qed.

Lemma Kept_queueMessageForTab tab m p w : Kept w (queueMessageForTab tab m p w).
Proof.
  unfold queueMessageForTab.
  set (w1 := match messageQueue w !! tab with
             | None => set_messageQueue (insert tab (mkEntry false [] None)) w
             | Some _ => w
             end).
  assert (K1 : Kept w w1).
  { unfold w1. destruct (messageQueue w !! tab); [apply Kept_refl|apply Kept_set_messageQueue]. }
  eapply Kept_trans; [exact K1|].
  split; [|split; [by apply promisesKept_eq|exists []; by rewrite app_nil_r]].
  intros t tm Ht. exists tm. simpl. split; [by apply lookup_app_l_Some|done].
Qed.

Lemma Kept_flushMessageQueue tab w : Kept w (flushMessageQueue tab w).
Proof.
  unfold flushMessageQueue. destruct (messageQueue w !! tab) as [e|]; [|apply Kept_refl].
  split; [|split].
  - apply timersKept_eq. by rewrite flushLoop_spec.
  - apply promisesKept_eq. by rewrite flushLoop_spec.
  - rewrite dispatched_flushLoop. eauto.
Qed.

Lemma Kept_reject_all (q : list QueueItem) e w :
  Kept w (fold_left (fun w item => item_reject item e w) q w).
Proof.
  revert w. induction q as [|item q IH]; intros w; simpl; [apply Kept_refl|].
  eapply Kept_trans; [apply Kept_item_reject|apply IH].
Qed.

Lemma Kept_sendMessageToTab tab m w : Kept w (snd (sendMessageToTab tab m w)).
Proof.
  unfold sendMessageToTab.
  change (newPromise w) with (length (promises w), snd (newPromise w)). cbv iota beta.
  eapply Kept_trans; [apply Kept_newPromise|].
  destruct (messageQueue w !! tab) as [e|]; [destruct (negb (isReady e))|]; simpl;
    first [apply Kept_queueMessageForTab|apply Kept_tabs_sendMessage].
Qed.

Lemma Kept_answerCall n r w : Kept w (answerCall n r w).
Proof.
  unfold answerCall. destruct (calls w !! n) as [c|] eqn:Hn; [|apply Kept_refl].
  destruct (answered c); [apply Kept_refl|].
  set (w1 := set_calls _ w).
  assert (K1 : Kept w w1).
  { split; [by apply timersKept_eq|]. split; [by apply promisesKept_eq|].
    exists []. unfold w1. rewrite dispatched_answer by done. by rewrite app_nil_r. }
  eapply Kept_trans; [exact K1|].
  destruct (cont c) as [item|p [|]|], r as [v|e];
    first [apply Kept_item_resolve|apply Kept_item_reject|apply Kept_settle|apply Kept_refl|idtac].
  destruct (shouldQueueForError e); [|apply Kept_settle].
  change (newPromise w1) with (length (promises w1), snd (newPromise w1)). cbv iota beta.
  eapply Kept_trans; [apply Kept_newPromise|].
  eapply Kept_trans; [apply Kept_settle|apply Kept_queueMessageForTab].
Qed.

Lemma Kept_fireTimer t w : Kept w (fireTimer t w).
Proof.
  unfold fireTimer. destruct (timers w !! t) as [tm|]; [|apply Kept_refl].
  destruct (_ && _); [|apply Kept_refl].
  eapply Kept_trans; [apply Kept_clearTimeout|apply Kept_item_reject].
Qed.

Lemma Kept_fireAll (l : list nat) w : Kept w (fold_left (fun w t => fireTimer t w) l w).
Proof.
  revert w. induction l as [|t l IH]; intros w; simpl; [apply Kept_refl|].
  eapply Kept_trans; [apply Kept_fireTimer|apply IH].
Qed.

Lemma Kept_elapse dt w : Kept w (elapse dt w).
Proof.
  unfold elapse. eapply Kept_trans; [|apply Kept_fireAll]. by apply Kept_same.
Qed.

Section KeptFacts.
Variable URL_new : string -> option Url.
Variable rev : Revision.

Lemma Kept_markUnlessSameBase tab u w : Kept w (markUnlessSameBase URL_new tab u w).
Proof.
  unfold markUnlessSameBase.
  destruct (messageQueue w !! tab) as [e|]; [|apply Kept_markTabPending].
  destruct (Js.falsy (lastUrl e)); [apply Kept_markTabPending|].
  destruct (sameBase _ _ _) as [[|]|];
    first [apply Kept_markTabPending|apply Kept_refl].
Qed.

Lemma Kept_handle ev w : Kept w (handle URL_new rev ev w).
Proof.
  destruct ev as [tab m|tab|n r|dt|tab senderUrl|tab status changeUrl tabUrl|tab]; simpl.
  - apply Kept_sendMessageToTab.
  - apply Kept_markTabPending.
  - apply Kept_answerCall.
  - apply Kept_elapse.
  - unfold onContentScriptReady.
    eapply Kept_trans; [|apply Kept_flushMessageQueue].
    destruct (messageQueue w !! tab), rev; apply Kept_set_messageQueue.
  - unfold onUpdated. destruct (negb (isValidUrl tabUrl)); [apply Kept_refl|].
    match goal with |- Kept w (if _ then tabs_sendMessage _ _ _ ?w1 else _) =>
      assert (K1 : Kept w w1) end.
    { destruct rev.
      - destruct (_ || _); [apply Kept_markTabPending|apply Kept_refl].
      - destruct (isStatus status "loading").
        + destruct (messageQueue w !! tab);
            [apply Kept_markUnlessSameBase|apply Kept_markTabPending].
        + destruct (negb (Js.falsy changeUrl)); [|apply Kept_refl].
          eapply Kept_trans; [apply Kept_markUnlessSameBase|].
          destruct (messageQueue _ !! tab); apply Kept_set_messageQueue. }
    destruct (isStatus status "complete"); [|done].
    eapply Kept_trans; [exact K1|apply Kept_tabs_sendMessage].
  - unfold onRemoved. destruct (messageQueue w !! tab) as [e|]; [|apply Kept_refl].
    eapply Kept_trans; [apply Kept_reject_all|apply Kept_set_messageQueue].
Qed.

Lemma Kept_run evs w : Kept w (run URL_new rev evs w).
Proof.
  revert w. induction evs as [|ev evs IH]; intros w; simpl; [apply Kept_refl|].
  eapply Kept_trans; [apply Kept_handle|apply IH].
Qed.

End KeptFacts.

(** * The delivery queue: sends to a pending tab *)

(** A send while the tab is pending: the message joins the queue with a
    timer of [MESSAGE_TIMEOUT], and nothing is handed to the tab. *)
Lemma sendMessageToTab_pending tab m w e :
  messageQueue w !! tab = Some e -> isReady e = false ->
  let item := mkItem m (length (promises w)) (length (timers w)) in
  sendMessageToTab tab m w
  = (length (promises w),
     mkWorld (<[tab := mkEntry false (queue e ++ [item]) (lastUrl e)]> (messageQueue w))
             (promises w ++ [Pending])
             (timers w ++ [mkTimer item (now w + MESSAGE_TIMEOUT) true])
             (calls w) (settlements w) (now w)).
Proof.
  intros He Hr. unfold sendMessageToTab. simpl. rewrite He, Hr. simpl.
  unfold queueMessageForTab. simpl. rewrite He. unfold set_messageQueue, set_timers. simpl.
  f_equal. f_equal. apply map_eq. intros tab'. rewrite lookup_alter.
  destruct (decide (tab = tab')) as [<-|Hne].
  - rewrite lookup_insert_eq, He. simpl. by rewrite <- Hr.
  - by rewrite lookup_insert_ne.
Qed.

Lemma sendAll_pending tab ms w e :
  messageQueue w !! tab = Some e -> isReady e = false ->
  exists items,
    messageQueue (snd (sendAll tab ms w)) !! tab
      = Some (mkEntry false (queue e ++ items) (lastUrl e))
    /\ map message items = ms
    /\ map promise items = fst (sendAll tab ms w)
    /\ calls (snd (sendAll tab ms w)) = calls w.
Proof.
  revert w e. induction ms as [|m ms IH]; intros w e He Hr; simpl.
  - exists []. rewrite app_nil_r. repeat split; try done. rewrite He. f_equal.
    destruct e; simpl in *. by subst.
  - rewrite (sendMessageToTab_pending tab m w e He Hr). cbv zeta.
    set (item := mkItem m (length (promises w)) (length (timers w))).
    set (w1 := mkWorld _ _ _ _ _ _).
    destruct (IH w1 (mkEntry false (queue e ++ [item]) (lastUrl e))) as (items & H1 & H2 & H3 & H4).
    { unfold w1. simpl. by rewrite lookup_insert_eq. }
    { done. }
    destruct (sendAll tab ms w1) as [ps w2]. simpl in *.
    exists (item :: items). rewrite H1. simpl.
    rewrite <- app_assoc. simpl. repeat split; try done; congruence.
Qed.

Section PendingSends.
Variable URL_new : string -> option Url.
Variable rev : Revision.

(** The announcement of the content script hands the whole queue to the
    tab, in order. *)
Lemma onContentScriptReady_calls tab u w e :
  messageQueue w !! tab = Some e ->
  calls (onContentScriptReady rev tab u w) = calls w ++ map (itemCall tab) (queue e)
  /\ exists e', messageQueue (onContentScriptReady rev tab u w) !! tab = Some e'
                /\ isReady e' = true /\ queue e' = [].
Proof.
  intros He. unfold onContentScriptReady. rewrite He.
  destruct rev; unfold flushMessageQueue; simpl; rewrite lookup_insert_eq; simpl;
    rewrite flushLoop_spec; simpl; (split; [done|]);
    eexists; rewrite lookup_insert_eq; (split; [|split]); try done.
Qed.

End PendingSends.

Lemma filter_none {A} (f : A -> bool) (l : list A) :
  (forall y, y ∈ l -> f y = false) -> length (List.filter f l) = 0%nat.
Proof.
  induction l as [|a l IH]; intros H; simpl; [done|].
  rewrite (H a) by (by left). apply IH. intros y Hy. apply H. by right.
Qed.

Lemma filter_unique {A} (f : A -> bool) (l : list A) (x : A) :
  NoDup l -> x ∈ l -> f x = true -> (forall y, y ∈ l -> f y = true -> y = x) ->
  length (List.filter f l) = 1%nat.
Proof.
  induction l as [|a l IH]; intros Hnd Hin Hx Hu; [by apply elem_of_nil in Hin|].
  apply NoDup_cons in Hnd as [Ha Hnd]. simpl.
  apply elem_of_cons in Hin as [->|Hin].
  - rewrite Hx. simpl. f_equal. apply filter_none. intros y Hy.
    destruct (f y) eqn:E; [|done]. rewrite (Hu y) in Hy; [done|by right|done].
  - destruct (f a) eqn:E.
    + rewrite (Hu a) in Ha; [done|by left|done].
    + apply IH; try done. intros y Hy. apply Hu. by right.
Qed.

(** In a world that satisfies the invariant, the item of a promise is
    handed to the tab at most once, and exactly once if it is among the
    items handed over. *)
Lemma deliveries_once w item :
  WF0 w -> item ∈ dispatched w -> deliveries (promise item) w = 1%nat.
Proof.
  intros HW Hin. unfold deliveries.
  apply (filter_unique _ _ item); [by apply wf_dispatched_nodup|done|apply Nat.eqb_refl|].
  intros y Hy Hp. apply Nat.eqb_eq in Hp.
  destruct (wf_call_known w HW y Hy) as (tmy & Hty & Hiy).
  destruct (wf_call_known w HW item Hin) as (tm & Ht & Hi).
  assert (timeoutId y = timeoutId item) as E.
  { apply (wf_timer_inj w HW _ _ tmy tm); [done|done|]. by rewrite Hiy, Hi. }
  rewrite E in Hty. congruence.
Qed.

Lemma deliveries_at_most_once w p : WF0 w -> (deliveries p w <= 1)%nat.
Proof.
  intros HW. unfold deliveries.
  destruct (List.filter (fun item => Nat.eqb (promise item) p) (dispatched w)) as [|item l] eqn:E;
    [simpl; lia|].
  assert (item ∈ dispatched w /\ promise item = p) as [Hin <-].
  { assert (In item (List.filter (fun item => Nat.eqb (promise item) p) (dispatched w))) as H
      by (rewrite E; by left).
    apply filter_In in H as [H1 H2]. split; [by apply list_elem_of_In|by apply Nat.eqb_eq]. }
  pose proof (deliveries_once w item HW Hin) as H1. unfold deliveries in H1.
  rewrite E in H1. lia.
Qed.

Lemma settledTimes_at_most_once w p : WF0 w -> (settledTimes p w <= 1)%nat.
Proof.
  intros HW. rewrite (wf_log w HW). destruct (isPending _); [lia|]. destruct (bool_decide _); lia.
Qed.

(** Once the call of an item is answered, its promise was settled once. *)
Lemma settledTimes_answered w n c item :
  WF0 w -> calls w !! n = Some c -> cont c = ToItem item -> answered c = true ->
  settledTimes (promise item) w = 1%nat.
Proof.
  intros HW Hn Hc Ha. rewrite (wf_log w HW), (wf_answered w HW n c item Hn Hc Ha).
  rewrite bool_decide_true; [done|].
  assert (item ∈ dispatched w) as Hin.
  { unfold dispatched. apply list_elem_of_omap. exists c. rewrite Hc.
    split; [by eapply list_elem_of_lookup_2|done]. }
  destruct (wf_call_known w HW item Hin) as (tm & Ht & Hi).
  destruct (wf_timer_self w HW _ _ Ht) as [_ Hlt]. by rewrite Hi in Hlt.
Qed.

Lemma calls_item_settle item st w :
  calls (settle (promise item) st (clearTimeout (timeoutId item) w)) = calls w.
Proof. by destruct (settle_fields (promise item) st (clearTimeout (timeoutId item) w)) as (_ & _ & -> & _). Qed.

Lemma calls_queueMessageForTab tab m p w : calls (queueMessageForTab tab m p w) = calls w.
Proof. unfold queueMessageForTab. simpl. by destruct (messageQueue w !! tab). Qed.

(** Handling the answer of a call leaves it answered. *)
Lemma answerCall_answered n r w c :
  calls w !! n = Some c ->
  exists c', calls (answerCall n r w) !! n = Some c' /\ cont c' = cont c /\ answered c' = true.
Proof.
  intros Hn. unfold answerCall. rewrite Hn.
  destruct (answered c) eqn:Ha; [by exists c|].
  set (w1 := set_calls _ w).
  assert (H1 : calls w1 !! n = Some (mkCall (target c) (payload c) (cont c) true)).
  { unfold w1. simpl. apply list_lookup_insert_eq. by eapply lookup_lt_Some. }
  exists (mkCall (target c) (payload c) (cont c) true). split; [|done].
  destruct (cont c) as [item|p [|]|] eqn:Hc, r as [v|e];
    unfold item_resolve, item_reject; rewrite ?calls_item_settle; try exact H1;
    try (by destruct (settle_fields p (Fulfilled v) w1) as (_ & _ & -> & _));
    try (by destruct (settle_fields p (RejectedWith e) w1) as (_ & _ & -> & _)).
  destruct (shouldQueueForError e).
  - change (newPromise w1) with (length (promises w1), snd (newPromise w1)). cbv iota beta.
    rewrite calls_queueMessageForTab.
    by destruct (settle_fields p (Follows (length (promises w1))) (snd (newPromise w1)))
      as (_ & _ & -> & _).
  - by destruct (settle_fields p (RejectedWith e) w1) as (_ & _ & -> & _).
Qed.

Lemma WF_sendAll (URL_new : string -> option Url) (rev : Revision) tab ms w :
  WF w -> WF (snd (sendAll tab ms w)).
Proof.
  revert w. induction ms as [|m ms IH]; intros w HW; [done|].
  simpl. pose proof (WF_handle URL_new rev (Send tab m) w HW) as H. simpl in H.
  destruct (sendMessageToTab tab m w) as [p wa]. simpl in H.
  specialize (IH wa H). destruct (sendAll tab ms wa). exact IH.
Qed.

(** C3.  From any reachable world in which the tab is pending: the sends
    put nothing on the wire; the announcement of the content script hands
    the queue to the tab in the order of submission, what was queued before
    followed by the messages of the sends; and whatever happens later, each
    of these messages is handed to the tab exactly once, its promise is
    settled at most once, and it is settled exactly once as soon as the
    answer of the tab has been handled. *)
Theorem pending_sends_flushed_in_order (URL_new : string -> option Url) (rev : Revision)
    (before : list Event) (tab : Z) (e : Entry) (ms : list Message)
    (senderUrl : option string) (later : list Event) :
  let w := run URL_new rev before initialWorld in
  messageQueue w !! tab = Some e -> isReady e = false ->
  let ps := fst (sendAll tab ms w) in
  let w1 := snd (sendAll tab ms w) in
  let w2 := handle URL_new rev (ContentScriptReady tab senderUrl) w1 in
  let w3 := run URL_new rev later w2 in
  exists items,
    map message items = ms /\ map promise items = ps
    /\ calls w1 = calls w
    /\ calls w2 = calls w ++ map (itemCall tab) (queue e ++ items)
    /\ forall item, item ∈ queue e ++ items ->
         deliveries (promise item) w3 = 1%nat
         /\ (settledTimes (promise item) w3 <= 1)%nat
         /\ forall n c r, calls w3 !! n = Some c -> cont c = ToItem item ->
              settledTimes (promise item) (handle URL_new rev (Reply n r) w3) = 1%nat.
Proof.
  intros w He Hr ps w1 w2 w3.
  destruct (sendAll_pending tab ms w e He Hr) as (items & Hq & Hm & Hp & Hc).
  fold w1 in Hq, Hc. fold ps in Hp.
  destruct (onContentScriptReady_calls rev tab senderUrl w1 _ Hq) as [Hc2 _].
  simpl in Hc2. fold (handle URL_new rev (ContentScriptReady tab senderUrl) w1) in Hc2.
  fold w2 in Hc2. rewrite Hc in Hc2.
  exists items. split; [done|]. split; [done|]. split; [done|]. split; [done|].
  intros item Hin.
  assert (HW : WF w) by apply WF_reachable.
  assert (HW1 : WF w1) by (by apply (WF_sendAll URL_new rev)).
  assert (HW2 : WF w2) by (by apply WF_handle).
  assert (HW3 : WF w3) by (by apply WF_run).
  assert (Hd2 : item ∈ dispatched w2).
  { unfold dispatched. rewrite Hc2, omap_app. apply elem_of_app. right.
    clear -Hin. induction (queue e ++ items) as [|a l IH]; [by apply elem_of_nil in Hin|].
    change (item ∈ omap (fun c => match cont c with ToItem i => Some i | _ => None end)
                     ([itemCall tab a] ++ map (itemCall tab) l)).
    rewrite omap_app. simpl. apply elem_of_cons in Hin as [->|Hin]; [by left|right; auto]. }
  assert (Hd3 : item ∈ dispatched w3).
  { destruct (Kept_run URL_new rev later w2) as (_ & _ & l & Hl). fold w3 in Hl.
    rewrite Hl. apply elem_of_app. by left. }
  split; [apply deliveries_once; [apply HW3|done]|].
  split; [apply settledTimes_at_most_once, HW3|].
  intros n c r Hn Hcont. simpl.
  destruct (answerCall_answered n r w3 c Hn) as (c' & Hn' & Hc' & Ha').
  pose proof (WF_handle URL_new rev (Reply n r) w3 HW3) as [HW4 _]. simpl in HW4.
  apply (settledTimes_answered _ n c'); [done|done|congruence|done].
Qed.

(** * The delivery queue: the deadline of a buffered send *)

Lemma timer_eta (tm : Timer) : mkTimer (callbackItem tm) (due tm) (armed tm) = tm.
Proof. by destruct tm. Qed.

(** Another timer that fires leaves the timer and the promise alone. *)
Lemma fireTimer_other t t0 tm0 w :
  WF0 w -> timers w !! t0 = Some tm0 -> t <> t0 ->
  timers (fireTimer t w) !! t0 = Some tm0
  /\ promises (fireTimer t w) !! promise (callbackItem tm0)
     = promises w !! promise (callbackItem tm0).
Proof.
  intros HW Ht0 Hne. destruct (timers w !! t) as [tm|] eqn:Ht.
  2:{ unfold fireTimer. by rewrite Ht. }
  destruct (armed tm && (due tm <=? now w)%Z) eqn:Hf.
  2:{ unfold fireTimer. by rewrite Ht, Hf. }
  rewrite (fireTimer_eq t w tm) by done.
  destruct (wf_timer_self w HW t tm Ht) as [Hid _].
  set (w1 := clearTimeout _ w).
  destruct (settle_fields (promise (callbackItem tm))
              (RejectedWith (timeoutError (message (callbackItem tm)))) w1) as (_ & -> & _).
  split.
  - unfold w1. rewrite clearTimeout_lookup, Ht0, Hid. simpl.
    rewrite decide_False by done. by rewrite timer_eta.
  - rewrite settle_lookup. rewrite decide_False; [done|].
    intros E. apply Hne. by apply (wf_timer_inj w HW t t0 tm tm0).
Qed.

Lemma fireAll_other (l : list nat) t0 tm0 w :
  WF0 w -> timers w !! t0 = Some tm0 -> t0 ∉ l ->
  let w' := fold_left (fun w t => fireTimer t w) l w in
  WF0 w' /\ timers w' !! t0 = Some tm0 /\ now w' = now w
  /\ promises w' !! promise (callbackItem tm0) = promises w !! promise (callbackItem tm0).
Proof.
  revert w. induction l as [|t l IH]; intros w HW Ht0 Hnin; simpl; [done|].
  apply not_elem_of_cons in Hnin as [Hne Hnin].
  destruct (fireTimer_other t t0 tm0 w HW Ht0) as [H1 H2]; [done|].
  destruct (IH (fireTimer t w) (WF0_fireTimer t w HW) H1 Hnin) as (I1 & I2 & I3 & I4).
  destruct (fireTimer_kept t w HW) as (_ & _ & K3 & _).
  split; [done|]. split; [done|]. split; [congruence|congruence].
Qed.

Lemma messageQueue_fireTimer t w :
  messageQueue (fireTimer t w) = messageQueue w /\ calls (fireTimer t w) = calls w.
Proof.
  unfold fireTimer. destruct (timers w !! t) as [tm|]; [|done].
  destruct (_ && _); [|done]. unfold item_reject.
  by destruct (settle_fields (promise (callbackItem tm))
                 (RejectedWith (timeoutError (message (callbackItem tm))))
                 (clearTimeout (timeoutId (callbackItem tm)) (clearTimeout t w)))
    as (-> & _ & -> & _).
Qed.

(** Time alone takes nothing out of a queue and hands nothing to a tab. *)
Lemma elapse_keeps_queues dt w :
  messageQueue (elapse dt w) = messageQueue w /\ calls (elapse dt w) = calls w.
Proof.
  unfold elapse. set (w1 := mkWorld _ _ _ _ _ _).
  change (messageQueue w) with (messageQueue w1). change (calls w) with (calls w1).
  generalize (seq 0 (length (timers w1))). intros l. clearbody w1. revert w1.
  induction l as [|t l IH]; intros w1; simpl; [done|].
  destruct (IH (fireTimer t w1)) as [-> ->]. apply messageQueue_fireTimer.
Qed.

(** A pending promise of an item whose deadline is reached is rejected with
    the timeout error. *)
Lemma elapse_rejects dt t0 tm0 w :
  WF w -> timers w !! t0 = Some tm0 ->
  promises w !! promise (callbackItem tm0) = Some Pending ->
  (due tm0 <= now w + Z.of_N dt)%Z ->
  promises (elapse dt w) !! promise (callbackItem tm0)
  = Some (RejectedWith (timeoutError (message (callbackItem tm0)))).
Proof.
  intros [HW _] Ht0 Hp Hdue. unfold elapse. fold (advance dt w).
  pose proof (WF0_advance dt w HW) as HWa.
  assert (Hlt : t0 < length (timers w)) by (by eapply lookup_lt_Some).
  change (length (timers (advance dt w))) with (length (timers w)).
  assert (Hseq : seq 0 (length (timers w))
                 = seq 0 t0 ++ t0 :: seq (S t0) (length (timers w) - S t0)).
  { replace (length (timers w)) with (t0 + S (length (timers w) - S t0))%nat at 1 by lia.
    by rewrite seq_app. }
  rewrite Hseq, fold_left_app. simpl.
  destruct (fireAll_other (seq 0 t0) t0 tm0 (advance dt w) HWa Ht0) as (I1 & I2 & I3 & I4).
  { rewrite elem_of_seq. lia. }
  set (wa := fold_left _ (seq 0 t0) _) in *.
  assert (Harm : armed tm0 = true) by (by apply (wf_pending_armed w HW t0 tm0)).
  assert (Hfire : armed tm0 && (due tm0 <=? now wa)%Z = true).
  { rewrite Harm, I3. simpl. apply Z.leb_le. done. }
  assert (Hrej : promises (fireTimer t0 wa) !! promise (callbackItem tm0)
                 = Some (RejectedWith (timeoutError (message (callbackItem tm0))))).
  { rewrite (fireTimer_eq t0 wa tm0) by done. rewrite settle_lookup.
    rewrite decide_True by done.
    change (promises (clearTimeout (timeoutId (callbackItem tm0)) wa)) with (promises wa).
    rewrite I4. simpl. by rewrite Hp. }
  destruct (Kept_fireAll (seq (S t0) (length (timers w) - S t0)) (fireTimer t0 wa))
    as (_ & [_ Hk] & _).
  by apply Hk.
Qed.

(** C2, as amended.  A send to a pending tab sets a timer [MESSAGE_TIMEOUT]
    (30000 ms) ahead for its item; whatever happens later, its promise is
    not pending once the clock has reached that deadline; a promise still
    pending when the deadline is reached is rejected with the timeout
    error; the passing of time removes no item from a queue and hands
    none to a tab; and the item, which the send put at the end of the queue
    of the tab, is handed to the tab by the flush of the next
    [contentScriptReady] if it is in the queue then, whatever became of its
    promise. *)
Theorem buffered_send_deadline (URL_new : string -> option Url) (rev : Revision)
    (before : list Event) (tab : Z) (e : Entry) (m : Message) (later : list Event) (dt : N) :
  let w := run URL_new rev before initialWorld in
  messageQueue w !! tab = Some e -> isReady e = false ->
  let p := fst (sendMessageToTab tab m w) in
  let w1 := snd (sendMessageToTab tab m w) in
  let w2 := run URL_new rev later w1 in
  let item := mkItem m p (length (timers w)) in
  MESSAGE_TIMEOUT = 30000%Z
  /\ timers w1 = timers w ++ [mkTimer item (now w + MESSAGE_TIMEOUT) true]
  /\ ((now w + MESSAGE_TIMEOUT <= now w2)%Z ->
      exists st, promises w2 !! p = Some st /\ st <> Pending)
  /\ (promises w2 !! p = Some Pending ->
      (now w + MESSAGE_TIMEOUT <= now w2 + Z.of_N dt)%Z ->
      promises (handle URL_new rev (Elapse dt) w2) !! p = Some (RejectedWith (timeoutError m)))
  /\ messageQueue (handle URL_new rev (Elapse dt) w2) = messageQueue w2
  /\ calls (handle URL_new rev (Elapse dt) w2) = calls w2
  /\ messageQueue w1 !! tab = Some (mkEntry false (queue e ++ [item]) (lastUrl e))
  /\ (forall e2 senderUrl,
        messageQueue w2 !! tab = Some e2 -> item ∈ queue e2 ->
        itemCall tab item
        ∈ calls (handle URL_new rev (ContentScriptReady tab senderUrl)
                   (handle URL_new rev (Elapse dt) w2))).
Proof.
  intros w He Hr p w1 w2 item.
  pose proof (sendMessageToTab_pending tab m w e He Hr) as Hs. cbv zeta in Hs.
  assert (Hp : p = length (promises w)) by (unfold p; by rewrite Hs).
  assert (Hw1 : timers w1 = timers w ++ [mkTimer item (now w + MESSAGE_TIMEOUT) true]
                /\ length (promises w1) = S (length (promises w))).
  { unfold w1, item. rewrite Hp, Hs. simpl. rewrite length_app. simpl. split; [done|lia]. }
  destruct Hw1 as [Ht1 Hl1].
  assert (HW : WF w) by apply WF_reachable.
  assert (HW1 : WF w1).
  { pose proof (WF_handle URL_new rev (Send tab m) w HW) as H. exact H. }
  assert (HW2 : WF w2) by (by apply WF_run).
  destruct (Kept_run URL_new rev later w1) as (Kt & [Kl Kp] & _). fold w2 in Kt, Kl, Kp.
  destruct (Kt (length (timers w)) (mkTimer item (now w + MESSAGE_TIMEOUT) true))
    as (tm2 & Htm2 & Hi2 & Hd2 & _).
  { rewrite Ht1. by rewrite lookup_app_r, Nat.sub_diag by lia. }
  simpl in Hi2, Hd2.
  assert (Hpi : promise (callbackItem tm2) = p) by (by rewrite Hi2).
  split; [done|]. split; [done|].
  split; [|split; [|split; [apply elapse_keeps_queues|split; [apply elapse_keeps_queues|split]]]].
  - intros Hnow.
    destruct (lookup_lt_is_Some_2 (promises w2) p) as [st Hst]; [lia|].
    exists st. split; [done|]. intros ->.
    destruct HW2 as [HW2 HP2]. rewrite <- Hpi in Hst.
    pose proof (wf_pending_armed w2 HW2 _ _ Htm2 Hst) as Harm.
    pose proof (HP2 _ _ Htm2 Harm) as Hlt. lia.
  - intros Hpend Hnow. simpl.
    pose proof (elapse_rejects dt (length (timers w)) tm2 w2 HW2 Htm2) as H.
    rewrite Hpi, Hi2 in H. apply H; [done|lia].
  - unfold w1, item. rewrite Hp, Hs. simpl. by rewrite lookup_insert_eq.
  - intros e2 senderUrl He2 Hin. simpl.
    destruct (elapse_keeps_queues dt w2) as [Hq Hc].
    rewrite <- Hq in He2.
    destruct (onContentScriptReady_calls rev tab senderUrl _ _ He2) as [-> _].
    apply elem_of_app. right. apply list_elem_of_fmap. by exists item.
Qed.

(** * The theorems on runs of the model *)

Lemma buffered_send_deadline_witness :
  let w := run SimpleUrl.parse Rev_part_000 [MarkPending 7] initialWorld in
  let p := fst (sendMessageToTab 7 convertToMarkdown w) in
  let w1 := snd (sendMessageToTab 7 convertToMarkdown w) in
  let w2 := run SimpleUrl.parse Rev_part_000 [Elapse 10000] w1 in
  let item := mkItem convertToMarkdown p (length (timers w)) in
  MESSAGE_TIMEOUT = 30000%Z
  /\ timers w1 = timers w ++ [mkTimer item (now w + MESSAGE_TIMEOUT) true]
  /\ ((now w + MESSAGE_TIMEOUT <= now w2)%Z ->
      exists st, promises w2 !! p = Some st /\ st <> Pending)
  /\ (promises w2 !! p = Some Pending ->
      (now w + MESSAGE_TIMEOUT <= now w2 + Z.of_N 20000)%Z ->
      promises (handle SimpleUrl.parse Rev_part_000 (Elapse 20000) w2) !! p
      = Some (RejectedWith (timeoutError convertToMarkdown)))
  /\ messageQueue (handle SimpleUrl.parse Rev_part_000 (Elapse 20000) w2) = messageQueue w2
  /\ calls (handle SimpleUrl.parse Rev_part_000 (Elapse 20000) w2) = calls w2
  /\ messageQueue w1 !! 7%Z = Some (mkEntry false ([] ++ [item]) None)
  /\ (forall e2 senderUrl,
        messageQueue w2 !! 7%Z = Some e2 -> item ∈ queue e2 ->
        itemCall 7 item
        ∈ calls (handle SimpleUrl.parse Rev_part_000 (ContentScriptReady 7 senderUrl)
                   (handle SimpleUrl.parse Rev_part_000 (Elapse 20000) w2))).
Proof.
  exact (buffered_send_deadline SimpleUrl.parse Rev_part_000 [MarkPending 7] 7
           (mkEntry false [] None) convertToMarkdown [Elapse 10000] 20000 eq_refl eq_refl).
Defined.

(** C2, the counterexample.  A send to a pending tab whose deadline passes
    is rejected with the timeout error, yet its item is still in the queue
    of the tab, and the flush of the next [contentScriptReady] hands its
    payload to the tab. *)
Lemma timed_out_item_still_dispatched :
  let w := run SimpleUrl.parse Rev_part_000
             [MarkPending 7; Send 7 convertToMarkdown; Elapse 30000] initialWorld in
  let w' := handle SimpleUrl.parse Rev_part_000 (ContentScriptReady 7 None) w in
  promises w !! 0%nat
    = Some (RejectedWith "Timed out waiting for response for convertToMarkdown")
  /\ queue <$> messageQueue w !! 7%Z = Some [mkItem convertToMarkdown 0 0]
  /\ calls w = []
  /\ calls w' = [mkCall 7 convertToMarkdown (ToItem (mkItem convertToMarkdown 0 0)) false].
Proof. vm_compute. repeat split; reflexivity. Qed.

Lemma pending_sends_flushed_in_order_witness :
  let w := run SimpleUrl.parse Rev_part_000 [MarkPending 7] initialWorld in
  let ms := [convertToMarkdown; extractAllPagesMessage] in
  let ps := fst (sendAll 7 ms w) in
  let w1 := snd (sendAll 7 ms w) in
  let w2 := handle SimpleUrl.parse Rev_part_000 (ContentScriptReady 7 None) w1 in
  let w3 := run SimpleUrl.parse Rev_part_000 [Reply 1 (Got None)] w2 in
  exists items,
    map message items = ms /\ map promise items = ps
    /\ calls w1 = calls w
    /\ calls w2 = calls w ++ map (itemCall 7) ([] ++ items)
    /\ forall item, item ∈ [] ++ items ->
         deliveries (promise item) w3 = 1%nat
         /\ (settledTimes (promise item) w3 <= 1)%nat
         /\ forall n c r, calls w3 !! n = Some c -> cont c = ToItem item ->
              settledTimes (promise item)
                (handle SimpleUrl.parse Rev_part_000 (Reply n r) w3) = 1%nat.
Proof.
  exact (pending_sends_flushed_in_order SimpleUrl.parse Rev_part_000 [MarkPending 7] 7
           (mkEntry false [] None) [convertToMarkdown; extractAllPagesMessage] None
           [Reply 1 (Got None)] eq_refl eq_refl).
Defined.

Lemma startBatchProcessing_rejected_witness :
  startBatchProcessing SimpleUrl.parse (fun _ _ => None) Rev_part_000 8 runningWorker
    [answers (ATab (Some "https://deepwiki.com/o/r"))]
  = (Threw "Batch conversion already running.", runningWorker,
     [answers (ATab (Some "https://deepwiki.com/o/r"))])
  /\ startBatch SimpleUrl.parse (fun _ _ => None) Rev_part_000 8 runningWorker
       [answers (ATab (Some "https://deepwiki.com/o/r"))]
     = (Threw "Batch conversion already running.", runningWorker,
        [answers (ATab (Some "https://deepwiki.com/o/r"))]).
Proof.
  exact (startBatchProcessing_rejected_while_running SimpleUrl.parse (fun _ _ => None)
           Rev_part_000 8 runningWorker [answers (ATab (Some "https://deepwiki.com/o/r"))]
           eq_refl).
Defined.



(** The closing of the driving tab does not stop the loop of
    [src/background.js]: the handler reports the error and resets
    [batchState], the flag [cancelRequested] with it, so the page in flight
    is recorded in the new state, the next page is announced and converted,
    and the run ends with an archive and the report [completed]. *)
Example tab_closed_run_goes_on :
  let result := runBatchProcessing SimpleUrl.parse Rev_background twoPages closedRun in
  fst (fst result) = Returned tt
  /\ map rtype (newReports twoPages (snd (fst result)))
     = ["processing"; "error"; "pageProcessed"; "processing"; "pageProcessed";
        "zipping"; "completed"]
  /\ map (fun r => (rprocessed r, rtotal r)) (newReports twoPages (snd (fst result)))
     = [(0, 2); (0, 2); (1, 0); (1, 0); (2, 0); (2, 0); (2, 0)]%nat
  /\ existsb (fun op => match op with CreateZipArchive _ _ => true | _ => false end)
       (requests (snd (fst result))) = true.
Proof. vm_compute. repeat split; reflexivity. Qed.

(** * File names *)

(** ** [sanitizeName] *)

Lemma isDash_not_forbidden c : isDash c = true -> isForbiddenInName c = false.
Proof. unfold isDash. intros H. apply Ascii.eqb_eq in H. by subst. Qed.

Lemma isDash_not_space c : isDash c = true -> Js.isWhiteSpace c = false.
Proof. unfold isDash. intros H. apply Ascii.eqb_eq in H. by subst. Qed.

Lemma allChars_replaceForbidden s :
  allChars (fun c => negb (isForbiddenInName c)) (replaceForbidden s) = true.
Proof.
  induction s as [|c s IH]; [done|]. cbn [replaceForbidden allChars]. rewrite IH, andb_true_r.
  destruct (isForbiddenInName c) eqn:E; [done|]. by rewrite E.
Qed.

Lemma collapseRuns_one (X : ascii -> bool) c :
  collapseRuns X (String c "") = if X c then "-" else String c "".
Proof. done. Qed.

Lemma collapseRuns_two (X : ascii -> bool) c c' s :
  collapseRuns X (String c (String c' s))
  = if X c then if X c' then collapseRuns X (String c' s)
                else String "-" (collapseRuns X (String c' s))
    else String c (collapseRuns X (String c' s)).
Proof. done. Qed.

Lemma collapseRuns_out (X : ascii -> bool) c s :
  X c = false -> collapseRuns X (String c s) = String c (collapseRuns X s).
Proof. intros H. destruct s; simpl; by rewrite H. Qed.

Lemma allChars_collapseRuns (X P : ascii -> bool) s :
  P "-"%char = true -> allChars P s = true -> allChars P (collapseRuns X s) = true.
Proof.
  intros Hd. induction s as [|c s IH]; [done|]. cbn [allChars].
  intros [Hc Hs]%andb_true_iff. specialize (IH Hs).
  destruct (X c) eqn:Hx.
  - destruct s as [|c' s'].
    + simpl. rewrite Hx. simpl. by rewrite Hd.
    + rewrite collapseRuns_two, Hx. destruct (X c'); [done|]. cbn [allChars]. by rewrite Hd, IH.
  - rewrite collapseRuns_out by done. cbn [allChars]. by rewrite Hc, IH.
Qed.

Lemma allChars_collapseRuns_out (X : ascii -> bool) s :
  X "-"%char = false -> allChars (fun c => negb (X c)) (collapseRuns X s) = true.
Proof.
  intros Hd. induction s as [|c s IH]; [done|].
  destruct (X c) eqn:Hx.
  - destruct s as [|c' s'].
    + simpl. rewrite Hx. simpl. by rewrite Hd.
    + rewrite collapseRuns_two, Hx. destruct (X c'); [done|]. cbn [allChars]. by rewrite Hd, IH.
  - rewrite collapseRuns_out by done. cbn [allChars]. by rewrite Hx, IH.
Qed.

Lemma allChars_and (P Q : ascii -> bool) s :
  allChars P s = true -> allChars Q s = true -> allChars (fun c => P c && Q c) s = true.
Proof.
  induction s as [|c s IH]; simpl; [done|].
  intros [-> ?]%andb_true_iff [-> ?]%andb_true_iff. simpl. auto.
Qed.

Lemma collapseRuns_head (X : ascii -> bool) c s :
  X c = true ->
  exists t, collapseRuns X (String c s) = String "-" t
            /\ match t with String c' _ => X c' = false | EmptyString => True end.
Proof.
  revert c. induction s as [|c' s IH]; intros c Hc.
  - exists "". rewrite collapseRuns_one, Hc. done.
  - rewrite collapseRuns_two, Hc. destruct (X c') eqn:Hc'.
    + apply (IH c' Hc').
    + exists (collapseRuns X (String c' s)). split; [done|].
      rewrite collapseRuns_out by done. done.
Qed.

Lemma noDoubleDash_two c c' s :
  noDoubleDash (String c (String c' s))
  = negb (isDash c && isDash c') && noDoubleDash (String c' s).
Proof. done. Qed.

Lemma noDoubleDash_tail c s : noDoubleDash (String c s) = true -> noDoubleDash s = true.
Proof. destruct s as [|c' s']; simpl; [done|]. by intros [_ ?]%andb_true_iff. Qed.

Lemma noDoubleDash_collapseRuns s : noDoubleDash (collapseRuns isDash s) = true.
Proof.
  induction s as [|c s IH]; [done|].
  destruct (isDash c) eqn:Hc.
  - destruct (collapseRuns_head isDash c s Hc) as (t & Ht & Hnext).
    assert (Hs : noDoubleDash t = true).
    { destruct s as [|c' s'].
      - rewrite collapseRuns_one, Hc in Ht. by injection Ht as <-.
      - rewrite collapseRuns_two, Hc in Ht. destruct (isDash c') eqn:Hc'.
        + rewrite Ht in IH. by apply noDoubleDash_tail in IH.
        + by injection Ht as <-. }
    rewrite Ht. destruct t as [|c' t']; [done|].
    rewrite noDoubleDash_two, Hnext, andb_false_r. simpl. exact Hs.
  - rewrite collapseRuns_out by done.
    destruct (collapseRuns isDash s) as [|c' t'] eqn:E; [done|].
    rewrite noDoubleDash_two, Hc. simpl. exact IH.
Qed.

Lemma allChars_dropTrailingDash P s :
  allChars P s = true -> allChars P (dropTrailingDash s) = true.
Proof.
  induction s as [|c s IH]; simpl; [done|].
  intros [Hc Hs]%andb_true_iff.
  destruct s as [|c' s']; [by destruct (isDash c); simpl; rewrite ?Hc|].
  cbn [allChars]. rewrite Hc. simpl. by apply IH.
Qed.

Lemma dropTrailingDash_cons c c' s :
  dropTrailingDash (String c (String c' s)) = String c (dropTrailingDash (String c' s)).
Proof. done. Qed.

Lemma noDoubleDash_dropTrailingDash s :
  noDoubleDash s = true -> noDoubleDash (dropTrailingDash s) = true.
Proof.
  induction s as [|c s IH]; [done|]. intros H.
  destruct s as [|c' s']; [by simpl; destruct (isDash c)|].
  rewrite dropTrailingDash_cons.
  specialize (IH (noDoubleDash_tail _ _ H)).
  destruct (dropTrailingDash (String c' s')) as [|d t] eqn:E; [done|].
  assert (d = c') as ->.
  { destruct s' as [|c'' s'']; simpl in E.
    - destruct (isDash c'); [done|]. by injection E.
    - by injection E. }
  rewrite noDoubleDash_two in H |- *. apply andb_true_iff in H as [H _]. by rewrite H.
Qed.

Lemma startsWithDash_dropTrailingDash s :
  startsWithDash s = false -> startsWithDash (dropTrailingDash s) = false.
Proof.
  destruct s as [|c s]; [done|]. simpl. intros Hc.
  destruct s; [by rewrite Hc|]. done.
Qed.

(** With single dashes only, one dash less at the end leaves none there. *)
Lemma endsWithDash_dropTrailingDash s :
  noDoubleDash s = true -> endsWithDash (dropTrailingDash s) = false.
Proof.
  induction s as [|c s IH]; [done|]. intros H.
  destruct s as [|c' s']; [by simpl; destruct (isDash c) eqn:E; simpl; rewrite ?E|].
  rewrite dropTrailingDash_cons.
  specialize (IH (noDoubleDash_tail _ _ H)).
  destruct (dropTrailingDash (String c' s')) as [|d t] eqn:E.
  - (* the rest was one dash *)
    destruct s' as [|c'' s'']; simpl in E; [|done].
    destruct (isDash c') eqn:Hc'; [|done].
    rewrite noDoubleDash_two, Hc' in H. simpl in H. rewrite !andb_true_r in H.
    apply negb_true_iff in H. simpl. exact H.
  - exact IH.
Qed.

Lemma sanitized_clean (s : string) :
  let r := stripDashEnds
             (collapseRuns isDash (collapseRuns Js.isWhiteSpace (replaceForbidden s))) in
  r = "" \/ isCleanName r = true.
Proof.
  intros r.
  set (s3 := collapseRuns isDash (collapseRuns Js.isWhiteSpace (replaceForbidden s))) in *.
  assert (Hchars : allChars (fun c => negb (isForbiddenInName c) && negb (Js.isWhiteSpace c)) s3
                   = true).
  { apply allChars_and.
    - apply allChars_collapseRuns; [done|]. apply allChars_collapseRuns; [done|].
      apply allChars_replaceForbidden.
    - apply (allChars_collapseRuns isDash (fun c => negb (Js.isWhiteSpace c))); [done|].
      by apply allChars_collapseRuns_out. }
  assert (Hdd : noDoubleDash s3 = true) by apply noDoubleDash_collapseRuns.
  destruct (String.eqb_spec r ""); [by left|right].
  assert (Hr : allChars (fun c => negb (isForbiddenInName c) && negb (Js.isWhiteSpace c)) r = true
               /\ noDoubleDash r = true /\ startsWithDash r = false /\ endsWithDash r = false).
  { unfold r, stripDashEnds. destruct s3 as [|c t]; [done|].
    destruct (isDash c) eqn:Hc.
    - (* a leading dash goes; the next character is no dash *)
      cbn [allChars] in Hchars. apply andb_true_iff in Hchars as [_ Ht].
      pose proof (noDoubleDash_tail _ _ Hdd) as Hdt.
      split; [by apply allChars_dropTrailingDash|].
      split; [by apply noDoubleDash_dropTrailingDash|].
      split; [|by apply endsWithDash_dropTrailingDash].
      apply startsWithDash_dropTrailingDash.
      destruct t as [|c' t']; [done|]. rewrite noDoubleDash_two, Hc in Hdd.
      simpl in Hdd. apply andb_true_iff in Hdd as [H _].
      by apply negb_true_iff in H.
    - split; [by apply allChars_dropTrailingDash|].
      split; [by apply noDoubleDash_dropTrailingDash|].
      split; [|by apply endsWithDash_dropTrailingDash].
      by apply startsWithDash_dropTrailingDash. }
  destruct Hr as (H1 & H2 & H3 & H4).
  unfold isCleanName. rewrite (proj2 (String.eqb_neq r "")) by done.
  by rewrite H1, H2, H3, H4.
Qed.

Lemma sanitizeName_keeps_clean (value : option string) (fallback : string) :
  isCleanName fallback = true -> isCleanName (sanitizeName value fallback) = true.
Proof.
  intros Hfb. unfold sanitizeName. destruct (Js.falsy value); [done|].
  destruct (sanitized_clean (default "" value)) as [E|E]; cbv zeta in E.
  - by rewrite E.
  - by destruct (String.eqb _ "").
Qed.

(** [sanitizeName] gives the fallback or a clean name: with a clean fallback,
    as [page] and [deepwiki] are, its result is always clean. *)
Theorem sanitizeName_clean (value : option string) (fallback : string) :
  (sanitizeName value fallback = fallback \/ isCleanName (sanitizeName value fallback) = true)
  /\ (isCleanName fallback = true -> isCleanName (sanitizeName value fallback) = true)
  /\ isCleanName (sanitizeName value "page") = true
  /\ isCleanName (sanitizeFolderName value) = true.
Proof.
  assert (H : sanitizeName value fallback = fallback
              \/ isCleanName (sanitizeName value fallback) = true).
  { unfold sanitizeName. destruct (Js.falsy value); [by left|].
    destruct (sanitized_clean (default "" value)) as [E|E]; cbv zeta in E.
    - rewrite E. by left.
    - destruct (String.eqb _ ""); [by left|by right]. }
  split; [done|]. split; [apply sanitizeName_keeps_clean|].
  split; by apply sanitizeName_keeps_clean.
Qed.

(** A clean name is its own sanitized form. *)
Lemma replaceForbidden_id s :
  allChars (fun c => negb (isForbiddenInName c)) s = true -> replaceForbidden s = s.
Proof.
  induction s as [|c s IH]; simpl; [done|].
  intros [Hc Hs]%andb_true_iff. apply negb_true_iff in Hc. rewrite Hc. by rewrite IH.
Qed.

Lemma collapseRuns_id_out (X : ascii -> bool) s :
  allChars (fun c => negb (X c)) s = true -> collapseRuns X s = s.
Proof.
  induction s as [|c s IH]; [done|]. cbn [allChars].
  intros [Hc Hs]%andb_true_iff. apply negb_true_iff in Hc.
  rewrite collapseRuns_out by done. by rewrite IH.
Qed.

Lemma collapseRuns_id_dash s : noDoubleDash s = true -> collapseRuns isDash s = s.
Proof.
  induction s as [|c s IH]; [done|]. intros H.
  pose proof (IH (noDoubleDash_tail _ _ H)) as IH'.
  destruct (isDash c) eqn:Hc.
  - destruct s as [|c' s']; [by rewrite collapseRuns_one, Hc; apply Ascii.eqb_eq in Hc; subst|].
    rewrite collapseRuns_two, Hc.
    rewrite noDoubleDash_two, Hc in H. simpl in H.
    apply andb_true_iff in H as [H _]. apply negb_true_iff in H. rewrite H, IH'.
    apply Ascii.eqb_eq in Hc. by subst.
  - rewrite collapseRuns_out by done. by rewrite IH'.
Qed.

Lemma dropTrailingDash_id s : endsWithDash s = false -> dropTrailingDash s = s.
Proof.
  induction s as [|c s IH]; [done|]. destruct s as [|c' s'].
  - simpl. by intros ->.
  - intros H. rewrite dropTrailingDash_cons. by rewrite IH.
Qed.

Lemma allChars_weaken (P Q : ascii -> bool) s :
  (forall c, P c = true -> Q c = true) -> allChars P s = true -> allChars Q s = true.
Proof.
  intros HPQ. induction s as [|c s IH]; simpl; [done|].
  intros [Hc Hs]%andb_true_iff. by rewrite (HPQ _ Hc), IH.
Qed.

(** [sanitizeName] changes nothing in a clean name, so sanitizing twice is
    sanitizing once. *)
Theorem sanitizeName_idempotent (value : option string) (s fallback : string) :
  (isCleanName s = true -> sanitizeName (Some s) fallback = s)
  /\ (isCleanName fallback = true ->
      sanitizeName (Some (sanitizeName value fallback)) fallback = sanitizeName value fallback).
Proof.
  assert (H : forall s fb, isCleanName s = true -> sanitizeName (Some s) fb = s).
  { clear. intros s fb Hs. unfold isCleanName in Hs.
    rewrite !andb_true_iff, !negb_true_iff in Hs.
    destruct Hs as ((((Hne & Hch) & Hdd) & Hsd) & Hed).
    unfold sanitizeName, Js.falsy. rewrite Hne. simpl.
    rewrite replaceForbidden_id
      by (eapply allChars_weaken; [|exact Hch]; by intros c [? _]%andb_true_iff).
    rewrite (collapseRuns_id_out Js.isWhiteSpace)
      by (eapply allChars_weaken; [|exact Hch]; by intros c [_ ?]%andb_true_iff).
    rewrite collapseRuns_id_dash by done.
    assert (E : stripDashEnds s = s).
    { unfold stripDashEnds. destruct s as [|c t]; [done|]. simpl in Hsd. rewrite Hsd.
      by apply dropTrailingDash_id. }
    rewrite E, Hne. done. }
  split; [apply H|]. intros Hfb. apply H.
  by apply sanitizeName_keeps_clean.
Qed.

(** ** [getUniqueFileName] *)

Lemma to_uint_nonnil (n : nat) : Nat.to_uint n <> Decimal.Nil.
Proof.
  pose proof (Unsigned.to_of (Nat.to_uint n)) as H. rewrite Unsigned.of_to in H.
  rewrite H. unfold Decimal.unorm. by destruct (Decimal.nzhead (Nat.to_uint n)).
Qed.

Lemma showNat_inj (a b : nat) : showNat a = showNat b -> a = b.
Proof.
  unfold showNat. intros H. apply Unsigned.to_uint_inj.
  assert (E : Some (Nat.to_uint a) = Some (Nat.to_uint b)); [|by injection E].
  rewrite <- !NilZero.usu by apply to_uint_nonnil. by rewrite H.
Qed.

Lemma length_append (s t : string) :
  String.length (s +:+ t) = (String.length s + String.length t)%nat.
Proof. induction s as [|c s IH]; simpl; [done|]. by rewrite IH. Qed.

Lemma candidateName_inj (base : string) (j k : nat) :
  candidateName base j = candidateName base k -> j = k.
Proof.
  destruct j as [|j], k as [|k]; simpl; [done| | |].
  - intros H. apply (f_equal String.length) in H. rewrite length_append in H. simpl in H. lia.
  - intros H. apply (f_equal String.length) in H. rewrite length_append in H. simpl in H. lia.
  - intros H. apply String.app_inj in H. injection H as H. by apply showNat_inj.
Qed.

(** A set of [n] names cannot hold the first [n + 1] candidates. *)
Lemma candidates_exhausted (names : gset string) (base : string) :
  (forall j, j < S (size names) -> candidateName base j ∈ names) -> False.
Proof.
  intros H.
  set (l := candidateName base <$> seq 0 (S (size names))).
  assert (Hnd : NoDup l).
  { apply NoDup_fmap_2_strong; [|apply NoDup_seq].
    intros j k _ _. apply candidateName_inj. }
  assert (Hsub : list_to_set l ⊆ names).
  { intros x Hx. apply elem_of_list_to_set in Hx.
    apply list_elem_of_fmap in Hx as (j & -> & Hj). apply H.
    apply elem_of_seq in Hj. lia. }
  apply subseteq_size in Hsub. rewrite size_list_to_set in Hsub by done.
  unfold l in Hsub. rewrite length_fmap, length_seq in Hsub. lia.
Qed.

(** The loop stops at the first candidate that is free, or when its rounds
    are used up. *)
Lemma firstFree_spec (names : gset string) (base : string) (rounds k : nat) :
  (forall j, j < k -> candidateName base j ∈ names) ->
  exists k',
    firstFree rounds names base (S k) (candidateName base k) = candidateName base k'
    /\ (forall j, j < k' -> candidateName base j ∈ names)
    /\ (candidateName base k' ∉ names \/ k' = (k + rounds)%nat).
Proof.
  revert k. induction rounds as [|r IH]; intros k Hk.
  - exists k. simpl. split; [by destruct (bool_decide _)|]. split; [done|]. right. lia.
  - cbn [firstFree]. destruct (bool_decide (candidateName base k ∈ names)) eqn:E.
    + apply bool_decide_eq_true in E.
      destruct (IH (S k)) as (k' & H1 & H2 & H3).
      { intros j Hj. destruct (decide (j = k)) as [->|]; [done|]. apply Hk. lia. }
      exists k'. split; [exact H1|]. split; [done|].
      destruct H3 as [?| ->]; [by left|right; lia].
    + apply bool_decide_eq_false in E. exists k. split; [done|]. split; [done|]. by left.
Qed.

Lemma showNat_digits (n : nat) :
  allChars isDigit (showNat n) = true /\ showNat n <> "".
Proof.
  unfold showNat. pose proof (to_uint_nonnil n) as H.
  destruct (Nat.to_uint n) as [|d|d|d|d|d|d|d|d|d|d]; [done|..];
    (split; [|done]); cbn [NilZero.string_of_uint NilEmpty.string_of_uint allChars];
    (rewrite andb_true_iff; split; [done|]); clear;
    induction d; simpl; try done.
Qed.

Lemma allChars_append P s t :
  allChars P (s +:+ t) = allChars P s && allChars P t.
Proof. induction s as [|c s IH]; simpl; [done|]. by rewrite IH, andb_assoc. Qed.

Lemma endsWithDash_append s t : t <> "" -> endsWithDash (s +:+ t) = endsWithDash t.
Proof.
  intros Ht. induction s as [|c s IH]; [done|].
  simpl. destruct (s +:+ t) eqn:E; [|done].
  destruct s; simpl in E; [done|discriminate].
Qed.

Lemma endsWithDash_digits t : allChars isDigit t = true -> endsWithDash t = false.
Proof.
  induction t as [|c t IH]; [done|]. cbn [allChars]. intros [Hc Ht]%andb_true_iff.
  destruct t as [|c' t']; [|by apply IH].
  simpl. unfold isDash. apply Ascii.eqb_neq. intros ->. done.
Qed.

Lemma noDoubleDash_digits t : allChars isDigit t = true -> noDoubleDash t = true.
Proof.
  induction t as [|c t IH]; [done|]. cbn [allChars]. intros [Hc Ht]%andb_true_iff.
  destruct t as [|c' t']; [done|]. rewrite noDoubleDash_two, IH by done.
  assert (isDash c = false) as -> by (unfold isDash; apply Ascii.eqb_neq; by intros ->).
  done.
Qed.

Lemma noDoubleDash_append s t :
  noDoubleDash s = true -> endsWithDash s = false -> noDoubleDash t = true ->
  noDoubleDash (s +:+ t) = true.
Proof.
  intros Hs He Ht. induction s as [|c s IH]; [done|].
  destruct s as [|c' s'].
  - simpl in He. destruct t as [|d t']; [done|].
    change (String c "" +:+ String d t') with (String c (String d t')).
    rewrite noDoubleDash_two, He, Ht. done.
  - change (String c (String c' s') +:+ t) with (String c (String c' (s' +:+ t))).
    rewrite noDoubleDash_two in Hs |- *. apply andb_true_iff in Hs as [H1 H2].
    rewrite H1. simpl. apply IH; done.
Qed.

(** A candidate with a counter is as clean as the base. *)
Lemma candidateName_clean (base : string) (k : nat) :
  isCleanName base = true -> isCleanName (candidateName base k) = true.
Proof.
  intros Hb. destruct k as [|k]; [done|]. cbn [candidateName].
  destruct (showNat_digits (S k)) as [Hd Hne].
  set (t := showNat (S k)) in *.
  unfold isCleanName in Hb. rewrite !andb_true_iff, !negb_true_iff in Hb.
  destruct Hb as ((((Hbn & Hch) & Hdd) & Hsd) & Hed).
  assert (Hdt : allChars (fun c => negb (isForbiddenInName c) && negb (Js.isWhiteSpace c)) t
                = true).
  { eapply allChars_weaken; [|exact Hd]. intros c Hc. unfold isDigit in Hc.
    apply andb_true_iff in Hc as [H1 H2]. apply Nat.leb_le in H1, H2.
    rewrite <- (ascii_nat_embedding c).
    assert (Hn : exists n, nat_of_ascii c = (48 + n)%nat /\ n <= 9).
    { exists (nat_of_ascii c - 48)%nat. lia. }
    destruct Hn as (n & -> & Hn).
    do 10 (destruct n as [|n]; [done|]). lia. }
  unfold isCleanName. rewrite !andb_true_iff, !negb_true_iff.
  split; [split; [split; [split|]|]|].
  - destruct base; [done|]. done.
  - rewrite !allChars_append, Hch, Hdt. done.
  - apply noDoubleDash_append; [done|done|].
    change ("-" +:+ t) with (String "-" t). destruct t as [|d t'] eqn:Et; [done|].
    rewrite noDoubleDash_two, (noDoubleDash_digits (String d t')) by done.
    cbn [allChars] in Hd. apply andb_true_iff in Hd as [Hd _].
    assert (isDash d = false) as -> by (unfold isDash; apply Ascii.eqb_neq; by intros ->).
    done.
  - by destruct base.
  - rewrite endsWithDash_append by done.
    change ("-" +:+ t) with (String "-" t). destruct t as [|d t'] eqn:Et; [done|].
    change (endsWithDash (String "-" (String d t'))) with (endsWithDash (String d t')).
    by apply endsWithDash_digits.
Qed.

Lemma getUniqueFileName_candidate (desired : option string) (w : Worker) :
  let base := sanitizeName desired "page" in
  let names := fileNames (batchState w) in
  exists k,
    fst (getUniqueFileName desired w) = candidateName base k
    /\ (forall j, j < k -> candidateName base j ∈ names)
    /\ candidateName base k ∉ names.
Proof.
  intros base names. unfold getUniqueFileName. cbv zeta. cbn [fst].
  fold base names.
  destruct (firstFree_spec names base (S (size names)) 0) as (k & H1 & H2 & H3); [lia|].
  exists k. change (candidateName base 0) with base in H1. split; [exact H1|].
  split; [done|]. destruct H3 as [?| ->]; [done|].
  destruct (candidates_exhausted names base). intros j Hj. apply H2. lia.
Qed.

(** [getUniqueFileName] hands out a clean name that was not in use, the
    first free one among the base, the base with 1, the base with 2, ...;
    it records the name and changes nothing else of the state. *)
Theorem getUniqueFileName_fresh (desired : option string) (w : Worker) :
  let base := sanitizeName desired "page" in
  let names := fileNames (batchState w) in
  let name := fst (getUniqueFileName desired w) in
  let w' := snd (getUniqueFileName desired w) in
  (name ∉ names)
  /\ isCleanName name = true
  /\ (exists k, name = candidateName base k /\ forall j, j < k -> candidateName base j ∈ names)
  /\ fileNames (batchState w') = {[name]} ∪ names
  /\ w' = setBatch (addFileName name) w.
Proof.
  intros base names name w'.
  destruct (getUniqueFileName_candidate desired w) as (k & H1 & H2 & H3).
  fold base names name in H1, H2, H3.
  split; [by rewrite H1|]. split.
  { rewrite H1. apply candidateName_clean. by apply sanitizeName_keeps_clean. }
  split; [by exists k|]. done.
Qed.

(** * What a run keeps *)

Section KeptByRun.
Variable URL_new : string -> option Url.
Variable T : Turn -> Prop.
Variable Inv : Worker -> Prop.

(** The assertion is kept by every change that a run makes to the worker. *)
Hypothesis Inv_logged : forall op w, notArchive op -> Inv w -> Inv (logged op w).
Hypothesis Inv_turn : forall t w, T t -> Inv w -> Inv (fold_left interrupt (during t) w).
Hypothesis Inv_broadcast : forall type message level over w,
  type <> "processing" -> Inv w -> Inv (broadcastBatchUpdate type message level over w).
Hypothesis Inv_announced : forall message v w,
  Inv w ->
  Inv (broadcastBatchUpdate "processing" message None None (setBatch (setCurrentTitle v) w)).
Hypothesis Inv_failed : forall w, Inv w -> Inv (setBatch incrFailed w).
Hypothesis Inv_recorded : forall desired content w, Inv w -> Inv (recorded desired content w).

Lemma kept_stable (op : Op) : notArchive op -> stable T Inv op.
Proof. intros Hop. split; [intros; by apply Inv_logged|intros w t; apply Inv_turn]. Qed.

Lemma kept_announce (page : Page) : preserves T Inv (announceProcessing page).
Proof.
  apply preserves_update. intros w Hw. cbv zeta. by apply Inv_announced.
Qed.

Lemma kept_recorded (page : Page) (baseTitle : string) (convertResponse : option Response) :
  preserves T Inv
    (update (fun w =>
       let '(name, w1) := getUniqueFileName (Some baseTitle) w in
       let w2 := setBatch (fun b => incrProcessed
                    (pushConverted (mkConverted name (convertResponse ≫= markdown)) b)) w1 in
       let b := batchState w2 in
       broadcastBatchUpdate "pageProcessed"
         ("Converted " +:+ showNat (processed b) +:+ "/" +:+ showNat (total b) +:+ ": "
            +:+ title page) None None w2)).
Proof.
  apply preserves_update. intros w Hw.
  pose proof (Inv_recorded (Some baseTitle) (convertResponse ≫= markdown) w Hw) as H.
  unfold recorded in H. destruct (getUniqueFileName (Some baseTitle) w) as [name w1].
  cbn [fst snd] in H. cbv zeta. by apply Inv_broadcast.
Qed.

(** Steps through a function made of suspensions and tests. *)
Ltac kept_steps :=
  repeat first
    [ apply preserves_ret | apply preserves_throw | apply preserves_get
    | apply preserves_cancelled
    | apply kept_announce
    | apply kept_recorded
    | apply preserves_sleep, kept_stable; exact Logic.I
    | apply preserves_getTabById, kept_stable; exact Logic.I
    | apply preserves_navigateToPage, kept_stable; exact Logic.I
    | apply preserves_waitForPageContent, kept_stable; exact Logic.I
    | apply preserves_sendToTab, kept_stable; exact Logic.I
    | apply preserves_awaitOk, kept_stable; exact Logic.I
    | apply preserves_bind; [|intros]
    | apply preserves_try_catch; [|intros]
    | match goal with
      | |- preserves _ _ (if ?b then _ else _) => destruct b
      | |- preserves _ _ (match ?x with _ => _ end) => destruct x
      end ].

Lemma kept_retryProbe page topic : preserves T Inv (retryProbe page topic).
Proof. unfold retryProbe. kept_steps. Qed.

Lemma kept_convertAndRecord page readiness topic usePrefix :
  preserves T Inv (convertAndRecord page readiness topic usePrefix).
Proof.
  unfold convertAndRecord.
  apply preserves_bind; [kept_steps|]. intros w.
  apply preserves_bind; [kept_steps|]. intros first.
  apply preserves_bind; [kept_steps|]. intros ?; cbv beta.
  apply preserves_bind.
  - destruct (isMarkdownSuspiciouslyEmpty _ _); [|kept_steps].
    apply preserves_bind; [kept_steps|]. intros ?; cbv beta.
    apply preserves_bind; [apply kept_retryProbe|]. intros retryReadiness.
    kept_steps.
  - intros r. cbv zeta. apply preserves_bind; [apply kept_recorded|].
    intros. kept_steps.
Qed.

(** The guard [if (batchState.cancelRequested) return;] from a worker
    whose flag is down. *)
Lemma hoare_guard_down (P : Worker -> Prop) (k : Async unit)
    (Q : unit -> Worker -> Prop) (X S : Worker -> Prop) :
  (forall w, P w -> cancelRequested (batchState w) = false) ->
  hoare T P k Q X S ->
  hoare T P (c <- cancelled ;; if c then ret tt else k) Q X S.
Proof.
  intros Hdown Hk w ts Ht Hw. unfold bind, cancelled, get, ret. simpl.
  rewrite (Hdown w Hw). by apply Hk.
Qed.

(** A page that is begun with the flag down, from a worker whose
    announcement establishes the assertion. *)
Lemma kept_page_begun (rev : Revision) (page : Page) (P : Worker -> Prop) :
  (forall w, P w -> cancelRequested (batchState w) = false) ->
  (forall w, P w ->
     Inv (broadcastBatchUpdate "processing"
            ("Processing " +:+ showNat (processed (batchState w) + failed (batchState w) + 1)
               +:+ "/" +:+ showNat (total (batchState w)) +:+ ": " +:+ title page)
            None None (setBatch (setCurrentTitle (title page)) w))) ->
  hoare T P (processSinglePage URL_new rev page) (fun _ => Inv) Inv Inv.
Proof.
  intros Hdown Hann.
  assert (Hannounce : hoare T P (announceProcessing page) (fun _ => Inv) Inv Inv).
  { apply hoare_update. intros w Hw. cbv zeta. by apply Hann. }
  destruct rev; simpl.
  - unfold processSinglePage_background.
    apply hoare_guard_down; [done|].
    apply (hoare_bind T _ _ _ (fun _ => Inv)); [exact Hannounce|]. intros ?; cbv beta.
    apply preserves_bind; [kept_steps|]. intros w.
    apply preserves_bind; [kept_steps|]. intros ?; cbv beta.
    apply preserves_bind; [kept_steps|]. intros [|]; [kept_steps|].
    apply preserves_bind; [kept_steps|]. intros w'.
    apply preserves_bind; [kept_steps|]. intros readiness.
    apply kept_convertAndRecord.
  - unfold processSinglePage_part_000.
    apply hoare_guard_down; [done|].
    apply (hoare_bind T _ _ _ (fun _ => Inv)); [exact Hannounce|]. intros ?; cbv beta.
    apply preserves_bind; [kept_steps|]. intros w.
    apply preserves_bind; [kept_steps|]. intros tabUrl.
    destruct (parseOpt URL_new tabUrl) as [currentUrl|]; [|kept_steps].
    destruct (parseOpt URL_new (url page)) as [targetUrl|]; [|kept_steps].
    destruct (devinIndex page) as [index|].
    + apply preserves_bind; [unfold selectTopic; kept_steps|]. intros r.
      apply preserves_bind; [kept_steps|]. intros [|]; [kept_steps|].
      apply kept_convertAndRecord.
    + apply preserves_bind; [unfold reachPage; kept_steps|].
      intros [readiness|]; [|kept_steps].
      apply preserves_bind; [kept_steps|]. intros [|]; [kept_steps|].
      apply kept_convertAndRecord.
Qed.

Lemma kept_processSinglePage (rev : Revision) (page : Page) :
  preserves T Inv (processSinglePage URL_new rev page).
Proof.
  intros w ts Ht Hw.
  destruct (cancelRequested (batchState w)) eqn:Hc.
  - assert (E : processSinglePage URL_new rev page w ts = (Returned tt, w, ts)).
    { destruct rev; simpl;
        [unfold processSinglePage_background|unfold processSinglePage_part_000];
        unfold bind at 1; unfold cancelled, bind, get, ret; by rewrite Hc. }
    rewrite E. done.
  - apply (kept_page_begun rev page (fun w' => w' = w)); [by intros ? ->| |done|done].
    intros ? ->. by apply Inv_announced.
Qed.

Lemma kept_failed (page : Page) (e : string) :
  hoare T Inv
    (update (fun w =>
       broadcastBatchUpdate "pageFailed"
         ("Failed " +:+ title page +:+ ": " +:+ (if String.eqb e "" then "Error" else e))
         (Some "error") None (setBatch incrFailed w)))
    (fun _ => Inv) (fun _ => False) Inv.
Proof. apply hoare_update. intros w Hw. apply Inv_broadcast; [done|]. by apply Inv_failed. Qed.

(** A page never throws past the loop. *)
Lemma kept_processOrFail (rev : Revision) (page : Page) :
  hoare T Inv (processOrFail URL_new rev page) (fun _ => Inv) (fun _ => False) Inv.
Proof.
  unfold processOrFail.
  apply (hoare_try_catch T Inv _ _ (fun _ => Inv) (fun _ => False) Inv Inv).
  - apply kept_processSinglePage.
  - intros e. apply kept_failed.
Qed.

Lemma kept_forEachPage (rev : Revision) (pages : list Page) :
  hoare T Inv (forEachPage URL_new rev pages) (fun _ => Inv) (fun _ => False) Inv.
Proof.
  induction pages as [|page rest IH]; simpl.
  - apply (hoare_ret T tt (fun _ => Inv)).
  - apply (hoare_bind T Inv _ _ (fun _ => Inv)).
    + apply (hoare_bind T Inv _ _ (fun _ w' => Inv w')).
      * apply (hoare_conseq T _ Inv _ _ (fun a w => a = w /\ Inv w) _ (fun _ => False) _ Inv);
          [apply hoare_get|..]; simpl; tauto.
      * intros w. apply (hoare_ret T _ (fun _ => Inv)).
    + intros [|]; [apply (hoare_ret T tt (fun _ => Inv))|].
      apply (hoare_bind T Inv _ _ (fun _ => Inv)); [apply kept_processOrFail|].
      intros ?. exact IH.
Qed.

(** The loop entered with the flag down, from a worker whose
    announcement of the first page establishes the assertion. *)
Lemma kept_loop_entered (rev : Revision) (page : Page) (rest : list Page)
    (P : Worker -> Prop) :
  (forall w, P w -> cancelRequested (batchState w) = false) ->
  (forall w, P w ->
     Inv (broadcastBatchUpdate "processing"
            ("Processing " +:+ showNat (processed (batchState w) + failed (batchState w) + 1)
               +:+ "/" +:+ showNat (total (batchState w)) +:+ ": " +:+ title page)
            None None (setBatch (setCurrentTitle (title page)) w))) ->
  hoare T P (forEachPage URL_new rev (page :: rest)) (fun _ => Inv) (fun _ => False) Inv.
Proof.
  intros Hdown Hann. cbn [forEachPage].
  apply hoare_guard_down; [done|].
  apply (hoare_bind T P _ _ (fun _ => Inv)); [|intros; apply kept_forEachPage].
  unfold processOrFail.
  apply (hoare_try_catch T P _ _ (fun _ => Inv) (fun _ => False) Inv Inv).
  - by apply kept_page_begun.
  - intros e. apply kept_failed.
Qed.

(** What the end of the run changes. *)
Hypothesis Inv_stopped : forall w, Inv w -> Inv (setBatch (setIsRunning false) w).
Hypothesis Inv_archive : forall w,
  Inv w -> convertedPages (batchState w) <> [] -> Inv (logged (archiveRequest w) w).
Hypothesis Inv_restored : forall w, Inv w -> Inv (setBatch (setOriginalUrl None) w).
Hypothesis Inv_reset : forall w, Inv w -> Inv (resetBatchState w).

Lemma kept_createZipArchive :
  hoare T (fun w => Inv w /\ convertedPages (batchState w) <> []) createZipArchive
    (fun _ => Inv) Inv Inv.
Proof.
  unfold createZipArchive.
  apply (hoare_bind T _ _ _
           (fun a w => a = w /\ Inv w /\ convertedPages (batchState w) <> [])).
  { apply hoare_get. }
  intros w0.
  apply (hoare_bind T _ _ _ (fun _ => Inv)); [|intros; apply (hoare_ret T tt (fun _ => Inv))].
  unfold awaitOk.
  apply (hoare_bind T _ _ _ (fun _ => Inv)).
  - apply hoare_await.
    + intros w (-> & Hw & Hne). by apply Inv_archive.
    + intros w t Ht (-> & Hw & Hne). apply Inv_turn; [done|]. by apply Inv_archive.
  - intros [a|e]; [apply (hoare_ret T a (fun _ => Inv))|apply hoare_throw].
Qed.

Lemma kept_finishRun : preserves T Inv finishRun.
Proof.
  unfold finishRun.
  apply (hoare_bind T _ _ _ (fun a w => a = w /\ Inv w)); [apply hoare_get|].
  intros w0. cbv zeta.
  destruct (cancelRequested (batchState w0)).
  - apply hoare_update. intros w [_ Hw]. apply Inv_broadcast; [done|]. by apply Inv_stopped.
  - destruct (bool_decide (convertedPages (batchState w0) = [])) eqn:E.
    + apply (hoare_conseq T _ Inv _ _ (fun _ => Inv) _ Inv _ Inv); [apply hoare_throw|..];
        simpl; tauto.
    + apply bool_decide_eq_false in E.
      apply (hoare_bind T _ _ _
               (fun _ w => Inv w /\ convertedPages (batchState w) <> [])).
      { apply hoare_update. intros w [-> Hw]. split; [by apply Inv_broadcast|done]. }
      intros ?.
      apply (hoare_bind T _ _ _ (fun _ => Inv)); [apply kept_createZipArchive|].
      intros ?. apply hoare_update. intros w Hw. apply Inv_broadcast; [done|]. by apply Inv_stopped.
Qed.

Lemma hoare_false {A} (m : Async A) (Q : A -> Worker -> Prop) (X S : Worker -> Prop) :
  hoare T (fun _ => False) m Q X S.
Proof. intros w ts _ []. Qed.

(** [restoreOriginalPage] catches what its navigation throws. *)
Lemma kept_restoreOriginalPage :
  hoare T Inv restoreOriginalPage (fun _ => Inv) (fun _ => False) Inv.
Proof.
  unfold restoreOriginalPage.
  apply (hoare_bind T _ _ _ (fun a w => a = w /\ Inv w)); [apply hoare_get|].
  intros w0. cbv zeta.
  destruct (_ || _).
  { apply (hoare_conseq T _ Inv _ _ (fun _ => Inv) _ (fun _ => False) _ Inv);
      [apply (hoare_ret T tt (fun _ => Inv))|..]; simpl; tauto. }
  apply (hoare_try_finally T _ _ _ (fun _ => Inv) (fun _ => False) Inv
           (fun _ => Inv) (fun _ => False)).
  - apply (hoare_try_catch T _ _ _ (fun _ => Inv) (fun _ => False) Inv Inv).
    + apply (hoare_conseq T _ Inv _ _ (fun _ => Inv) _ Inv _ Inv);
        [apply (preserves_navigateToPage T Inv), kept_stable; exact Logic.I|..];
        simpl; tauto.
    + intros e. apply (hoare_ret T tt (fun _ => Inv)).
  - intros ?. apply hoare_update. apply Inv_restored.
  - apply hoare_false.
Qed.

(** [runBatchProcessing] keeps the assertion and never throws. *)
Lemma kept_runBatchProcessing (rev : Revision) :
  hoare T Inv (runBatchProcessing URL_new rev) (fun _ => Inv) (fun _ => False) Inv.
Proof.
  unfold runBatchProcessing.
  assert (Hend : hoare T Inv
            (match rev with
             | Rev_background => restoreOriginalPage ;;; update resetBatchState
             | Rev_part_000 => update resetBatchState
             end) (fun _ => Inv) (fun _ => False) Inv).
  { destruct rev.
    - apply (hoare_bind T Inv _ _ (fun _ => Inv)); [apply kept_restoreOriginalPage|].
      intros ?. apply hoare_update. apply Inv_reset.
    - apply hoare_update. apply Inv_reset. }
  apply (hoare_try_finally T _ _ _ (fun _ => Inv) (fun _ => False) Inv
           (fun _ => Inv) (fun _ => False)).
  - apply (hoare_try_catch T _ _ _ (fun _ => Inv) (fun _ => False) Inv Inv).
    + apply (hoare_bind T _ _ _ (fun a w => a = w /\ Inv w)); [apply hoare_get|].
      intros w0.
      apply (hoare_bind T _ _ _ (fun _ => Inv)).
      * apply (hoare_conseq T _ Inv _ _ (fun _ => Inv) _ (fun _ => False) _ Inv);
          [apply kept_forEachPage|..]; simpl; tauto.
      * intros ?. apply kept_finishRun.
    + intros e. apply hoare_update. intros w Hw. apply Inv_broadcast; [done|]. by apply Inv_stopped.
  - intros ?. exact Hend.
  - apply hoare_false.
Qed.

End KeptByRun.

(** * The outputs of a run *)

Lemma outputsConsistent_initial : outputsConsistent createInitialBatchState.
Proof. split; [constructor|]. split; [constructor|done]. Qed.

Lemma outputsKept_interrupt w0 i w : outputsKept w0 w -> outputsKept w0 (interrupt w i).
Proof.
  intros [Hb Hl]. destruct i as [|tab]; simpl.
  - unfold cancelBatchProcessing. destruct (negb _); [done|]. done.
  - unfold onRemovedBatch. destruct (_ && _); [|done].
    split; [apply outputsConsistent_initial|done].
Qed.

Lemma outputsKept_recorded w0 desired content w :
  outputsKept w0 w -> outputsKept w0 (recorded desired content w).
Proof.
  intros [(Hnd & Hall & Hp) Hl]. split; [|done].
  destruct (getUniqueFileName_candidate desired w) as (k & Hk & _ & Hfresh).
  cbv zeta in Hk, Hfresh. rewrite <- Hk in Hfresh.
  assert (Hclean : isCleanName (fst (getUniqueFileName desired w)) = true).
  { rewrite Hk. apply candidateName_clean. by apply sanitizeName_keeps_clean. }
  set (name := fst (getUniqueFileName desired w)) in *.
  unfold recorded, outputsConsistent. fold name. simpl.
  rewrite map_app, length_app. simpl. split; [|split; [|lia]].
  - apply NoDup_app. split; [done|]. split; [|apply NoDup_singleton].
    intros x Hx Hx'. apply list_elem_of_singleton in Hx' as ->.
    apply list_elem_of_fmap in Hx as (c & Hc & Hin).
    rewrite List.Forall_forall in Hall. destruct (Hall c) as [H _].
    { by apply list_elem_of_In. }
    apply Hfresh. by rewrite Hc.
  - apply Forall_app. split.
    + eapply Forall_impl; [exact Hall|]. intros c [H1 H2].
      split; [apply elem_of_union; by right|done].
    + constructor; [|constructor]. simpl.
      split; [apply elem_of_union; left; by apply elem_of_singleton|done].
Qed.

Lemma outputsKept_run (URL_new : string -> option Url) (rev : Revision) (w0 : Worker) :
  hoare anyTurn (outputsKept w0) (runBatchProcessing URL_new rev)
    (fun _ => outputsKept w0) (fun _ => False) (outputsKept w0).
Proof.
  apply kept_runBatchProcessing.
  - intros op w Hop [Hb (l & Hl & Hs)]. split; [done|].
    exists (l ++ [op]). simpl. rewrite Hl, <- app_assoc. split; [done|].
    apply Forall_app. split; [done|]. constructor; [|done]. by destruct op.
  - intros t w _ Hw. apply fold_interrupts; [|done].
    intros i w' _. apply outputsKept_interrupt.
  - intros type message level over w _ Hw. exact Hw.
  - intros message v w Hw. exact Hw.
  - intros w [(H1 & H2 & H3) Hl]. split; [|done]. done.
  - intros. by apply outputsKept_recorded.
  - intros w Hw. exact Hw.
  - intros w [(H1 & H2 & H3) (l & Hl & Hs)] Hne. split; [done|].
    exists (l ++ [archiveRequest w]). simpl. rewrite Hl, <- app_assoc. split; [done|].
    apply Forall_app. split; [done|]. constructor; [|done]. simpl.
    split; [done|]. split; [done|]. eapply Forall_impl; [exact H2|]. by intros c [_ ?].
  - intros w Hw. exact Hw.
  - intros w [_ Hl]. split; [apply outputsConsistent_initial|done].
Qed.

(** Whatever happens during a run that starts with consistent outputs, as
    a started run does: every archive it asks for has at least one file,
    and its files have clean names that differ from each other. *)
Theorem archives_are_sound (URL_new : string -> option Url) (rev : Revision)
    (w : Worker) (turns : list Turn) :
  outputsConsistent (batchState w) ->
  Forall archiveSound (newRequests w (snd (fst (runBatchProcessing URL_new rev w turns)))).
Proof.
  intros Hw.
  assert (Hany : Forall anyTurn turns) by (apply Forall_forall; by intros).
  assert (H0 : outputsKept w w).
  { split; [done|]. exists []. by rewrite app_nil_r. }
  destruct (outputsKept_run URL_new rev w w turns Hany H0) as [_ H].
  assert (Hk : outputsKept w (snd (fst (runBatchProcessing URL_new rev w turns)))).
  { by destruct (fst (fst (runBatchProcessing URL_new rev w turns))). }
  destruct Hk as [_ (l & Hl & Hs)].
  unfold newRequests. rewrite Hl. by rewrite drop_app_length.
Qed.

Lemma archives_are_sound_witness :
  let w' := snd (fst (runBatchProcessing SimpleUrl.parse Rev_background twoPages completeRun)) in
  Forall archiveSound (newRequests twoPages w')
  /\ List.filter isArchive (newRequests twoPages w')
     = [CreateZipArchive "r"
          [mkConverted "Overview"
             (Some "# Overview: what the project is, how it is laid out, and where to start reading it");
           mkConverted "Overview-1"
             (Some "# Overview: what the project is, how it is laid out, and where to start reading it")]].
Proof.
  split; [|by vm_compute].
  apply (archives_are_sound SimpleUrl.parse Rev_background twoPages completeRun).
  split; [constructor|]. split; [constructor|done].
Defined.

(** * How a run ends *)

Lemma ended_final (type message : string) (level : option string) (w : Worker) :
  isTerminalType type = true ->
  ended (broadcastBatchUpdate type message level (Some false)
           (setBatch (setIsRunning false) w)).
Proof.
  intros Ht. split; [done|]. eexists. simpl. rewrite last_snoc. done.
Qed.

Lemma ended_interrupt (i : Interrupt) (w : Worker) : ended w -> interrupt w i = w.
Proof.
  intros [Hr _]. destruct i as [|tab]; simpl.
  - unfold cancelBatchProcessing. by rewrite Hr.
  - unfold onRemovedBatch. by rewrite Hr.
Qed.

Lemma hoare_any {A} (P : Worker -> Prop) (m : Async A) :
  hoare anyTurn P m (fun _ _ => True) (fun _ => True) (fun _ => True).
Proof.
  intros w ts _ _. split; [apply Forall_forall; by intros|].
  by destruct (fst (fst (m w ts))).
Qed.

Lemma ended_finishRun :
  hoare anyTurn (fun _ => True) finishRun (fun _ => ended) (fun _ => True) (fun _ => True).
Proof.
  unfold finishRun.
  apply (hoare_bind anyTurn _ _ _ (fun _ _ => True)); [apply hoare_any|].
  intros w0. cbv zeta.
  destruct (cancelRequested (batchState w0)).
  - apply hoare_update. intros w _. by apply ended_final.
  - destruct (bool_decide _); [apply hoare_throw|].
    apply (hoare_bind anyTurn _ _ _ (fun _ _ => True)); [apply hoare_any|]. intros ?.
    apply (hoare_bind anyTurn _ _ _ (fun _ _ => True)); [apply hoare_any|]. intros ?.
    apply hoare_update. intros w _. by apply ended_final.
Qed.

Lemma wound_up_run (URL_new : string -> option Url) (rev : Revision) :
  hoare anyTurn (fun _ => True) (runBatchProcessing URL_new rev)
    (fun _ => wound_up) (fun _ => False) (fun _ => True).
Proof.
  assert (Hend : hoare anyTurn ended
            (match rev with
             | Rev_background => restoreOriginalPage ;;; update resetBatchState
             | Rev_part_000 => update resetBatchState
             end) (fun _ => wound_up) (fun _ => False) (fun _ => True)).
  { assert (Hreset : forall a : unit,
              hoare anyTurn ended (update resetBatchState) (fun _ => wound_up)
                (fun _ => False) (fun _ => True)).
    { intros _. apply hoare_update. intros w1 [Hr He]. split; [|done]. split; [done|exact He]. }
    destruct rev; [|apply (Hreset tt)].
    apply (hoare_bind anyTurn _ _ _ (fun _ => ended)); [|exact Hreset].
    apply (hoare_conseq anyTurn _ ended _ _ (fun _ => ended) _ (fun _ => False) _ ended);
      [|tauto..].
    apply kept_restoreOriginalPage.
    - intros op w1 _ [Hr He]. split; [done|exact He].
    - intros t w1 _ Hw1. apply fold_interrupts; [|done].
      intros i w2 _ Hw2. by rewrite ended_interrupt.
    - intros w1 [Hr He]. split; [done|exact He]. }
  unfold runBatchProcessing.
  apply (hoare_try_finally anyTurn _ _ _ (fun _ => wound_up) (fun _ => False) (fun _ => True)
           (fun _ => ended) (fun _ => False)).
  - apply (hoare_try_catch anyTurn _ _ _ (fun _ => ended) (fun _ => False)
             (fun _ => True) (fun _ => True)).
    + apply (hoare_bind anyTurn _ _ _ (fun _ _ => True)); [apply hoare_any|]. intros w0.
      apply (hoare_bind anyTurn _ _ _ (fun _ _ => True)); [apply hoare_any|]. intros ?.
      apply ended_finishRun.
    + intros e. apply hoare_update. intros w1 _. by apply ended_final.
  - intros ?. exact Hend.
  - apply hoare_false.
Qed.

(** [runBatchProcessing] never throws.  When it returns, the state is the
    initial one again, and the last report, which is also the one on
    record, is [completed], [cancelled] or [error] and says that nothing
    is running. *)
Theorem run_ends_reset (URL_new : string -> option Url) (rev : Revision)
    (w : Worker) (turns : list Turn) :
  let result := runBatchProcessing URL_new rev w turns in
  let w' := snd (fst result) in
  (fst (fst result) = Returned tt \/ fst (fst result) = Suspended)
  /\ (fst (fst result) = Returned tt ->
      batchState w' = createInitialBatchState
      /\ exists r, last (broadcasts w') = Some r /\ lastBatchReport w' = r
                /\ running r = false /\ isTerminalType (rtype r) = true).
Proof.
  intros result w'.
  assert (Hany : Forall anyTurn turns) by (apply Forall_forall; by intros).
  destruct (wound_up_run URL_new rev w turns Hany Logic.I) as [_ Hres].
  fold result in Hres. fold w' in Hres.
  destruct (fst (fst result)) as [[]|e|]; [|done|].
  - split; [by left|]. intros _. destruct Hres as [[_ He] Hb]. done.
  - split; [by right|]. done.
Qed.

(** * After the driving tab was closed *)

Lemma announcedSince_interrupt w0 n i w : announcedSince w0 n w -> interrupt w i = w.
Proof.
  intros (Hr & _). destruct i as [|tab]; simpl.
  - unfold cancelBatchProcessing. by rewrite Hr.
  - unfold onRemovedBatch. by rewrite Hr.
Qed.

Lemma announcedSince_broadcast w0 n type message level over w :
  announcedSince w0 n w ->
  announcedSince w0 (if String.eqb type "processing" then S n else n)
    (broadcastBatchUpdate type message level over w).
Proof.
  intros (Hr & Hc & l & Hl & Hn). split; [done|]. split; [done|].
  eexists (l ++ [_]). simpl. rewrite Hl, <- app_assoc. split; [done|].
  rewrite countType_snoc, Hn. unfold hasType. simpl.
  destruct (String.eqb type "processing"); lia.
Qed.

Section ClosedTab.
Variable URL_new : string -> option Url.
Variable rev : Revision.
Variable w0 : Worker.

(** The loop from a worker that is stopped with the flag down: each page
    is announced. *)
Lemma announcedSince_forEachPage (pages : list Page) (n : nat) :
  hoare anyTurn (announcedSince w0 n) (forEachPage URL_new rev pages)
    (fun _ => announcedSince w0 (n + length pages)) (fun _ => False) (fun _ => True).
Proof.
  revert n. induction pages as [|page rest IH]; intros n.
  - simpl. rewrite Nat.add_0_r. apply (hoare_ret anyTurn tt (fun _ => announcedSince w0 n)).
  - cbn [forEachPage length].
    apply hoare_guard_down; [by intros w (_ & ? & _)|].
    apply (hoare_bind anyTurn _ _ _ (fun _ => announcedSince w0 (S n))).
    2:{ intros ?. replace (n + S (length rest))%nat with (S n + length rest)%nat by lia.
        apply IH. }
    apply (hoare_conseq anyTurn _ (announcedSince w0 n) _ _
             (fun _ => announcedSince w0 (S n)) _ (fun _ => False) _
             (announcedSince w0 (S n))); [|tauto..].
    unfold processOrFail.
    apply (hoare_try_catch anyTurn _ _ _ (fun _ => announcedSince w0 (S n)) (fun _ => False)
             (announcedSince w0 (S n)) (announcedSince w0 (S n))).
    + apply (kept_page_begun URL_new anyTurn (announcedSince w0 (S n))).
      * intros op w _ (Hr & Hc & Hl). by repeat split.
      * intros t w _ Hw. apply fold_interrupts; [|done].
        intros i w' _ Hw'. by rewrite (announcedSince_interrupt w0 (S n)).
      * intros type message level over w Hne Hw.
        pose proof (announcedSince_broadcast w0 (S n) type message level over w Hw) as H.
        by rewrite (proj2 (String.eqb_neq type "processing")) in H.
      * intros desired content w (Hr & Hc & Hl). by repeat split.
      * by intros w (_ & ? & _).
      * intros w Hw.
        apply (announcedSince_broadcast w0 n "processing" _ None None
                 (setBatch (setCurrentTitle (title page)) w)).
        destruct Hw as (Hr & Hc & Hl). by repeat split.
    + intros e. apply hoare_update. intros w Hw.
      apply (announcedSince_broadcast w0 (S n) "pageFailed" _ (Some "error") None
               (setBatch incrFailed w)).
      destruct Hw as (Hr & Hc & Hl). by repeat split.
Qed.
End ClosedTab.

(** The closing of the driving tab does not stop the loop.  The handler
    reports the error and resets the state, the flag [cancelRequested] with
    it; a later [cancelBatchProcessing] is refused, as nothing is marked as
    running; and the loop of [runBatchProcessing], over the pages that are
    left, announces every one of them unless it is left suspended. *)
Theorem closed_tab_loop_goes_on (URL_new : string -> option Url) (rev : Revision)
    (w : Worker) (tab : Z) (pages : list Page) (turns : list Turn) :
  isRunning (batchState w) = true -> tabId (batchState w) = Some tab ->
  let w1 := interrupt w (TabClosed tab) in
  let result := forEachPage URL_new rev pages w1 turns in
  batchState w1 = createInitialBatchState
  /\ (exists r, broadcasts w1 = broadcasts w ++ [r] /\ rtype r = "error"
                /\ running r = false /\ rcancelRequested r = true)
  /\ cancelBatchProcessing w1 = (false, w1)
  /\ (fst (fst result) = Returned tt \/ fst (fst result) = Suspended)
  /\ (fst (fst result) = Returned tt ->
      countType "processing" (newReports w1 (snd (fst result))) = length pages).
Proof.
  intros Hr Htab w1 result.
  assert (Hw1 : w1 = resetBatchState
            (broadcastBatchUpdate "error" "Batch cancelled because the tab was closed."
               (Some "error") (Some false)
               (setBatch (fun b => setCancelRequested true (setIsRunning false b)) w))).
  { unfold w1. simpl. unfold onRemovedBatch. rewrite Hr, Htab.
    by rewrite bool_decide_eq_true_2. }
  split; [by rewrite Hw1|]. split; [rewrite Hw1; eexists; by repeat split|].
  split; [by rewrite Hw1|].
  assert (Hany : Forall anyTurn turns) by (apply Forall_forall; by intros).
  assert (H0 : announcedSince w1 0 w1).
  { split; [by rewrite Hw1|]. split; [by rewrite Hw1|]. exists []. by rewrite app_nil_r. }
  destruct (announcedSince_forEachPage URL_new rev w1 pages 0 w1 turns Hany H0) as [_ H].
  fold result in H. destruct (fst (fst result)) as [[]|e|]; [|done|].
  - split; [by left|]. intros _. destruct H as (_ & _ & l & Hl & Hn).
    unfold newReports. rewrite Hl, drop_app_length. exact Hn.
  - split; [by right|]. done.
Qed.

Lemma closed_tab_loop_goes_on_witness :
  let w := twoPages in
  let w1 := interrupt w (TabClosed 7) in
  let result := forEachPage SimpleUrl.parse Rev_background (batchPages (batchState w)) w1
                  [answers AUnit; answers (AResponse None); answers fullConversion;
                   answers AUnit;
                   answers AUnit; answers (AResponse None); answers fullConversion;
                   answers AUnit] in
  batchState w1 = createInitialBatchState
  /\ (exists r, broadcasts w1 = broadcasts w ++ [r] /\ rtype r = "error"
                /\ running r = false /\ rcancelRequested r = true)
  /\ cancelBatchProcessing w1 = (false, w1)
  /\ (fst (fst result) = Returned tt \/ fst (fst result) = Suspended)
  /\ (fst (fst result) = Returned tt ->
      countType "processing" (newReports w1 (snd (fst result))) = length (batchPages (batchState w))).
Proof.
  exact (closed_tab_loop_goes_on SimpleUrl.parse Rev_background twoPages 7
           (batchPages (batchState twoPages)) _ eq_refl eq_refl).
Defined.

(** * The start of a run *)

Lemma untouched_stable (w0 : Worker) (op : Op) : stable anyTurn (untouched w0) op.
Proof.
  split.
  - intros w (H1 & H2 & H3 & H4). by repeat split.
  - intros w t _ Hw. apply fold_interrupts; [|done].
    intros i w' _ Hw'. destruct Hw' as (H1 & H2 & H3 & H4).
    assert (E : interrupt w' i = w').
    { destruct i as [|tab]; simpl.
      - unfold cancelBatchProcessing. by rewrite H4.
      - unfold onRemovedBatch. by rewrite H4. }
    rewrite E. by repeat split.
Qed.

Lemma get_bind {A} (k : Worker -> Async A) (w : Worker) (ts : list Turn) :
  (w' <- get ;; k w') w ts = k w w ts.
Proof. reflexivity. Qed.

Section StartFacts2.
Variable URL_new : string -> option Url.
Variable URL_new_base : string -> string -> option Url.
Variable rev : Revision.

Lemma untouched_start (tab : Z) (w0 : Worker) :
  hoare anyTurn (untouched w0) (startBatchProcessing URL_new URL_new_base rev tab)
    (fun _ _ => True) (untouched w0) (untouched w0).
Proof.
  unfold startBatchProcessing.
  apply (hoare_bind anyTurn _ _ _ (fun _ => untouched w0)); [apply preserves_get|].
  intros w. destruct (isRunning (batchState w)); [apply hoare_throw|].
  apply (hoare_bind anyTurn _ _ _ (fun _ => untouched w0));
    [apply preserves_getTabById, untouched_stable|].
  intros tabUrl. destruct (negb (isValidUrl tabUrl)); [apply hoare_throw|].
  apply (hoare_bind anyTurn _ _ _ (fun _ => untouched w0));
    [apply preserves_sendToTab, untouched_stable|].
  intros extraction. destruct (negb (responseOk extraction)); [apply hoare_throw|].
  cbv zeta. destruct (bool_decide _); [apply hoare_throw|].
  apply (hoare_bind anyTurn _ _ _ (fun _ _ => True)); [by apply hoare_update|].
  intros ?. by apply (hoare_ret anyTurn _ (fun _ _ => True)).
Qed.

(** A start that throws, for whatever reason, or that is left waiting
    for the tab or for the list of pages, has changed nothing of the
    state, of the report on record and of the reports sent: until its
    last step, a start leaves [isRunning] down. *)
Theorem failed_start_changes_nothing (tab : Z) (w : Worker) (turns : list Turn) :
  isRunning (batchState w) = false ->
  let result := startBatchProcessing URL_new URL_new_base rev tab w turns in
  let w' := snd (fst result) in
  (exists r, fst (fst result) = Returned r)
  \/ (batchState w' = batchState w /\ lastBatchReport w' = lastBatchReport w
      /\ broadcasts w' = broadcasts w /\ isRunning (batchState w') = false).
Proof.
  intros Hr result w'.
  assert (Hany : Forall anyTurn turns) by (apply Forall_forall; by intros).
  assert (H0 : untouched w w) by (by repeat split).
  destruct (untouched_start tab w w turns Hany H0) as [_ H]. fold result in H.
  destruct (fst (fst result)) as [r|e|]; [left; by exists r|by right..].
Qed.

(** What [startBatchProcessing] has made of the worker [w0] when it
    calls [runBatchProcessing()]: the state of a run on the tab, with at
    least one page, and the report [started] after the reports of
    [w0]. *)
Lemma startedFrom_start (tab : Z) (w0 : Worker) :
  hoare anyTurn (untouched w0) (startBatchProcessing URL_new URL_new_base rev tab)
    (fun r w => startedFrom tab r w0 w) (untouched w0) (untouched w0).
Proof.
  unfold startBatchProcessing.
  apply (hoare_bind anyTurn _ _ _ (fun _ => untouched w0)); [apply preserves_get|].
  intros w. destruct (isRunning (batchState w)); [apply hoare_throw|].
  apply (hoare_bind anyTurn _ _ _ (fun _ => untouched w0));
    [apply preserves_getTabById, untouched_stable|].
  intros tabUrl. destruct (isValidUrl tabUrl) eqn:Hvalid; [|apply hoare_throw].
  cbn [negb].
  apply (hoare_bind anyTurn _ _ _ (fun _ => untouched w0));
    [apply preserves_sendToTab, untouched_stable|].
  intros extraction. destruct (negb (responseOk extraction)); [apply hoare_throw|].
  cbv zeta.
  set (kept := filterPagesToProject URL_new URL_new_base rev
                 (default [] (extraction ≫= pages)) tabUrl).
  destruct (bool_decide (kept = [])) eqn:Hp; [apply hoare_throw|].
  apply bool_decide_eq_false in Hp.
  set (folder := sanitizeFolderName _).
  apply (hoare_bind anyTurn _ _ _
           (fun _ w' => startedFrom tab (length kept, folder) w0 w')).
  - apply hoare_update. intros w1 (_ & _ & Hb & _). exists kept, tabUrl, folder.
    split; [done|]. split; [done|]. split; [apply sanitizeName_keeps_clean; done|].
    split; [done|]. split; [done|].
    eexists. simpl. rewrite Hb. by repeat split.
  - intros ?. apply (hoare_ret anyTurn _ (fun r w => startedFrom tab r w0 w)).
Qed.

(** The part of [runBatchProcessing()] that runs before the function is
    left waiting for the first time: the first page is announced and the
    first request of the run is made. *)
Lemma run_first_suspension (w : Worker) (first : Page) (rest : list Page) :
  cancelRequested (batchState w) = false ->
  batchPages (batchState w) = first :: rest ->
  runBatchProcessing URL_new rev w []
  = (Suspended, logged (firstRequest rev (tabId (batchState w)) first) (announced first w), []).
Proof.
  intros Hflag Hpages.
  unfold runBatchProcessing, try_finally, try_catch.
  rewrite get_bind, Hpages. cbn [forEachPage].
  unfold bind at 1. unfold bind at 1. unfold cancelled at 1. rewrite get_bind.
  unfold ret at 1. cbn [fst snd]. rewrite Hflag.
  unfold bind at 1. unfold processOrFail, try_catch.
  destruct rev; cbn [processSinglePage];
    [unfold processSinglePage_background|unfold processSinglePage_part_000];
    unfold bind at 1; unfold cancelled at 1; rewrite get_bind;
    unfold ret at 1; cbn [fst snd]; rewrite Hflag; reflexivity.
Qed.

(** When [startBatchProcessing] returns, the run has begun.  The state
    is that of a run on the tab that has done nothing yet - at least one
    page, all counts at zero, no outputs, no names in use, the flag down,
    a clean folder name, [total] the number of pages, which with the
    folder name is what is returned - except that the title of the first
    page is the current one: the reports since the call are [started]
    and the [processing] of the first page, which is the one on record,
    and the last request, still unanswered, is the first of that page. *)
Theorem returned_start_is_fresh (tab : Z) (w : Worker) (turns : list Turn)
    (r : nat * string) :
  let result := startBatchProcessing_returning URL_new URL_new_base rev tab w turns in
  fst (fst result) = Returned r ->
  launched rev tab r w (snd (fst result))
  /\ outputsConsistent (batchState (snd (fst result))).
Proof.
  intros result Hr.
  assert (Hany : Forall anyTurn turns) by (apply Forall_forall; by intros).
  unfold result, startBatchProcessing_returning in *.
  destruct (isRunning (batchState w)) eqn:Hrun.
  { exfalso. revert Hr. unfold startBatchProcessing. rewrite get_bind, Hrun. done. }
  assert (H0 : untouched w w) by (by repeat split).
  destruct (startedFrom_start tab w w turns Hany H0) as [_ H].
  destruct (startBatchProcessing URL_new URL_new_base rev tab w turns)
    as [[[r1|e|] w1] ts'] eqn:E; [|done..].
  cbn [fst snd] in H.
  destruct H as (kept & tabUrl & folder & Hne & Hvalid & Hclean & Hr1 & Hb & s & Hs).
  destruct kept as [|first rest]; [done|].
  assert (Hsusp : runBatchProcessing URL_new rev w1 []
            = (Suspended,
               logged (firstRequest rev (tabId (batchState w1)) first) (announced first w1), [])).
  { apply (run_first_suspension w1 first rest); by rewrite Hb. }
  cbv zeta in Hr |- *. rewrite Hsusp in Hr |- *. cbn [fst snd] in Hr |- *.
  destruct Hs as (Hbs & Hts & Hrs & Hps & Hfs & Hns).
  split.
  - exists first, rest, tabUrl, folder.
    split; [done|]. split; [done|].
    split. { injection Hr as <-. simpl. by rewrite Hb. }
    split. { simpl. by rewrite Hb. }
    split.
    + exists s. eexists. simpl. rewrite Hbs, <- app_assoc. simpl.
      split; [reflexivity|]. rewrite Hb. simpl. by repeat split.
    + simpl. rewrite last_snoc. by rewrite Hb.
  - simpl. rewrite Hb. split; [constructor|]. split; [constructor|done].
Qed.
End StartFacts2.

Lemma failed_start_changes_nothing_witness :
  let result := startBatchProcessing SimpleUrl.parse (fun s _ => SimpleUrl.parse s) Rev_background
                  7 initialWorker [answers (ATab (Some "https://example.com/"))] in
  fst (fst result)
  = Threw "Please open a DeepWiki or Devin page before starting batch conversion."
  /\ ((exists r, fst (fst result) = Returned r)
      \/ (batchState (snd (fst result)) = batchState initialWorker
          /\ lastBatchReport (snd (fst result)) = lastBatchReport initialWorker
          /\ broadcasts (snd (fst result)) = broadcasts initialWorker
          /\ isRunning (batchState (snd (fst result))) = false)).
Proof.
  split; [reflexivity|].
  exact (failed_start_changes_nothing SimpleUrl.parse (fun s _ => SimpleUrl.parse s)
           Rev_background 7 initialWorker [answers (ATab (Some "https://example.com/"))]
           eq_refl).
Defined.

Lemma returned_start_is_fresh_witness :
  let result := startBatchProcessing_returning SimpleUrl.parse (fun s _ => SimpleUrl.parse s)
                  Rev_background 7 initialWorker
                  [answers (ATab (Some "https://deepwiki.com/o/r")); answers onePageExtraction] in
  launched Rev_background 7 (1%nat, "o-r") initialWorker (snd (fst result))
  /\ outputsConsistent (batchState (snd (fst result))).
Proof.
  exact (returned_start_is_fresh SimpleUrl.parse (fun s _ => SimpleUrl.parse s)
           Rev_background 7 initialWorker
           [answers (ATab (Some "https://deepwiki.com/o/r")); answers onePageExtraction]
           (1%nat, "o-r") eq_refl).
Defined.

(** * The delivery queue: more of its behaviour *)

(** ** The closing of a tab *)

Lemma reject_all_rejects (q : list QueueItem) (e : string) (w : World) (p : nat) :
  promises w !! p = Some Pending -> p ∈ map promise q ->
  promises (fold_left (fun w item => item_reject item e w) q w) !! p
  = Some (RejectedWith e).
Proof.
  revert w. induction q as [|item q IH]; intros w Hp Hin; simpl.
  - by apply elem_of_nil in Hin.
  - destruct (decide (promise item = p)) as [<-|Hne].
    + destruct (Kept_reject_all q e (item_reject item e w)) as (_ & [_ Hk] & _).
      apply Hk; [|done]. unfold item_reject. rewrite settle_lookup, decide_True by done.
      change (promises (clearTimeout (timeoutId item) w)) with (promises w). by rewrite Hp.
    + apply IH.
      * unfold item_reject. rewrite settle_lookup, decide_False by done. exact Hp.
      * simpl in Hin. apply elem_of_cons in Hin as [?|?]; [congruence|done].
Qed.

Lemma reject_all_disarms (q : list QueueItem) (e : string) (w : World) (item : QueueItem) :
  item ∈ q -> timeoutId item < length (timers w) ->
  exists tm, timers (fold_left (fun w item => item_reject item e w) q w) !! timeoutId item
             = Some tm /\ armed tm = false.
Proof.
  revert w. induction q as [|it q IH]; intros w Hin Hlt; simpl.
  - by apply elem_of_nil in Hin.
  - assert (Hlen : length (timers (item_reject it e w)) = length (timers w)).
    { unfold item_reject.
      destruct (settle_fields (promise it) (RejectedWith e) (clearTimeout (timeoutId it) w))
        as (_ & -> & _). apply clearTimeout_length. }
    apply elem_of_cons in Hin as [->|Hin]; [|apply IH; [done|by rewrite Hlen]].
    destruct (lookup_lt_is_Some_2 _ _ Hlt) as [tm Htm].
    assert (H1 : exists tm1, timers (item_reject it e w) !! timeoutId it = Some tm1
                             /\ armed tm1 = false).
    { unfold item_reject.
      destruct (settle_fields (promise it) (RejectedWith e) (clearTimeout (timeoutId it) w))
        as (_ & -> & _).
      rewrite clearTimeout_lookup, Htm. simpl. rewrite decide_True by done. eauto. }
    destruct H1 as (tm1 & Htm1 & Ha1).
    destruct (Kept_reject_all q e (item_reject it e w)) as (Hk & _).
    destruct (Hk _ _ Htm1) as (tm2 & Htm2 & _ & _ & Ha2).
    exists tm2. split; [done|]. destruct (armed tm2); [|done]. by rewrite Ha2 in Ha1.
Qed.

Lemma reject_all_fields (q : list QueueItem) (e : string) (w : World) :
  messageQueue (fold_left (fun w item => item_reject item e w) q w) = messageQueue w
  /\ calls (fold_left (fun w item => item_reject item e w) q w) = calls w.
Proof.
  revert w. induction q as [|it q IH]; intros w; simpl; [done|].
  destruct (IH (item_reject it e w)) as [-> ->]. unfold item_reject.
  by destruct (settle_fields (promise it) (RejectedWith e) (clearTimeout (timeoutId it) w))
    as (-> & _ & -> & _).
Qed.

(** When a tab is closed, in whatever world the service worker has
    reached: its entry is deleted, nothing is handed to a tab, and every
    send still in its queue is over - a pending one is rejected with
    [Tab closed.] - with its timer cleared. *)
Theorem closed_tab_rejects_queued (URL_new : string -> option Url) (rev : Revision)
    (before : list Event) (tab : Z) (e : Entry) :
  let w := run URL_new rev before initialWorld in
  messageQueue w !! tab = Some e ->
  let w' := handle URL_new rev (TabRemoved tab) w in
  messageQueue w' = delete tab (messageQueue w)
  /\ calls w' = calls w
  /\ Forall (fun item =>
       (promises w !! promise item = Some Pending ->
        promises w' !! promise item = Some (RejectedWith "Tab closed."))
       /\ isPending (promises w' !! promise item) = false
       /\ exists tm, timers w' !! timeoutId item = Some tm /\ armed tm = false) (queue e).
Proof.
  intros w He w'.
  assert (HW : WF w) by apply WF_reachable. destruct HW as [HW _].
  assert (Hw' : w' = set_messageQueue (delete tab)
                       (fold_left (fun w item => item_reject item "Tab closed." w) (queue e) w)).
  { unfold w'. simpl. unfold onRemoved. by rewrite He. }
  destruct (reject_all_fields (queue e) "Tab closed." w) as [Hq Hc].
  split; [by rewrite Hw'; simpl; rewrite Hq|]. split; [by rewrite Hw'|].
  apply Forall_forall. intros item Hin.
  assert (Hrej : promises w !! promise item = Some Pending ->
                 promises w' !! promise item = Some (RejectedWith "Tab closed.")).
  { intros Hp. rewrite Hw'. simpl. apply reject_all_rejects; [done|].
    apply list_elem_of_fmap. by exists item. }
  split; [done|]. split.
  - destruct (promises w !! promise item) as [st|] eqn:Hp.
    + assert (Hst : st = Pending \/ st <> Pending) by (destruct st; auto).
      destruct Hst as [->|Hst]; [by rewrite Hrej|].
      destruct (Kept_reject_all (queue e) "Tab closed." w) as (_ & [_ Hk] & _).
      rewrite Hw'. simpl. rewrite (Hk _ _ Hp Hst). by destruct st.
    + (* the promise of a queued item exists *)
      destruct (wf_queue_known w HW tab e item He Hin) as (tm & Htm & Hitem).
      destruct (wf_timer_self w HW _ _ Htm) as [_ Hlt]. rewrite Hitem in Hlt.
      apply lookup_ge_None in Hp. lia.
  - rewrite Hw'. simpl. apply reject_all_disarms; [done|].
    apply knownTimer_lt. by eapply wf_queue_known.
Qed.

Lemma closed_tab_rejects_queued_witness :
  let w := run SimpleUrl.parse Rev_part_000 [MarkPending 7; Send 7 convertToMarkdown]
             initialWorld in
  let w' := handle SimpleUrl.parse Rev_part_000 (TabRemoved 7) w in
  messageQueue w' = delete 7%Z (messageQueue w)
  /\ calls w' = calls w
  /\ Forall (fun item =>
       (promises w !! promise item = Some Pending ->
        promises w' !! promise item = Some (RejectedWith "Tab closed."))
       /\ isPending (promises w' !! promise item) = false
       /\ exists tm, timers w' !! timeoutId item = Some tm /\ armed tm = false)
       (queue (mkEntry false [mkItem convertToMarkdown 0 0] None)).
Proof.
  exact (closed_tab_rejects_queued SimpleUrl.parse Rev_part_000
           [MarkPending 7; Send 7 convertToMarkdown] 7
           (mkEntry false [mkItem convertToMarkdown 0 0] None) eq_refl).
Defined.

(** ** A buffered send, from the send to the answer of the tab *)

(** A send to a pending tab, the announcement of the content script, and
    the answer of the tab to the message: the promise of the send is
    fulfilled with the response, or rejected with the error of the
    delivery, and the timer of the item is cleared. *)
Theorem buffered_send_answered (URL_new : string -> option Url) (rev : Revision)
    (before : list Event) (tab : Z) (e : Entry) (m : Message)
    (senderUrl : option string) (r : Answer (option Response)) :
  let w := run URL_new rev before initialWorld in
  messageQueue w !! tab = Some e -> isReady e = false ->
  let p := fst (sendMessageToTab tab m w) in
  let w1 := snd (sendMessageToTab tab m w) in
  let w2 := handle URL_new rev (ContentScriptReady tab senderUrl) w1 in
  let n := (length (calls w) + length (queue e))%nat in
  let w3 := handle URL_new rev (Reply n r) w2 in
  let item := mkItem m p (length (timers w)) in
  calls w2 !! n = Some (itemCall tab item)
  /\ promises w2 !! p = Some Pending
  /\ promises w3 !! p = Some (outcomeOf r)
  /\ timers w3 !! timeoutId item = Some (mkTimer item (now w + MESSAGE_TIMEOUT) false).
Proof.
  intros w He Hr p w1 w2 n w3 item.
  pose proof (sendMessageToTab_pending tab m w e He Hr) as Hs. cbv zeta in Hs.
  assert (Hp : p = length (promises w)) by (unfold p; by rewrite Hs).
  assert (Hw1 : w1 = mkWorld (<[tab := mkEntry false (queue e ++ [item]) (lastUrl e)]>
                                (messageQueue w))
                       (promises w ++ [Pending])
                       (timers w ++ [mkTimer item (now w + MESSAGE_TIMEOUT) true])
                       (calls w) (settlements w) (now w)).
  { unfold w1, item. by rewrite Hp, Hs. }
  assert (Hq1 : messageQueue w1 !! tab = Some (mkEntry false (queue e ++ [item]) (lastUrl e))).
  { rewrite Hw1. simpl. by rewrite lookup_insert_eq. }
  assert (Hw2 : calls w2 = calls w ++ map (itemCall tab) (queue e ++ [item])
                /\ promises w2 = promises w1 /\ timers w2 = timers w1).
  { destruct (onContentScriptReady_calls rev tab senderUrl w1 _ Hq1) as [Hc _].
    split; [unfold w2; simpl; rewrite Hc; by rewrite Hw1|].
    unfold w2. simpl. unfold onContentScriptReady. rewrite Hq1.
    destruct rev; unfold flushMessageQueue; simpl; rewrite lookup_insert_eq; simpl;
      by rewrite flushLoop_spec. }
  destruct Hw2 as (Hc2 & Hp2 & Ht2).
  assert (Hn : calls w2 !! n = Some (itemCall tab item)).
  { rewrite Hc2. unfold n. rewrite lookup_app_r by lia.
    replace (length (calls w) + length (queue e) - length (calls w))%nat
      with (length (queue e) + 0)%nat by lia.
    rewrite map_app. rewrite lookup_app_r by (rewrite length_map; lia).
    rewrite length_map. by replace (length (queue e) + 0 - length (queue e))%nat with 0%nat by lia. }
  assert (Hpend : promises w2 !! p = Some Pending).
  { rewrite Hp2, Hw1, Hp. simpl. by rewrite lookup_app_r, Nat.sub_diag by lia. }
  split; [done|]. split; [done|].
  assert (Hw3 : w3 = settle p (outcomeOf r)
                       (clearTimeout (length (timers w))
                          (set_calls (insert n (mkCall tab m (ToItem item) true)) w2))).
  { unfold w3. simpl. unfold answerCall. rewrite Hn. simpl. by destruct r. }
  split.
  - rewrite Hw3, settle_lookup, decide_True by done. simpl. by rewrite Hpend.
  - rewrite Hw3.
    destruct (settle_fields p (outcomeOf r)
                (clearTimeout (length (timers w))
                   (set_calls (insert n (mkCall tab m (ToItem item) true)) w2))) as (_ & -> & _).
    rewrite clearTimeout_lookup. simpl. rewrite Ht2, Hw1. simpl.
    rewrite lookup_app_r, Nat.sub_diag by lia. simpl. by rewrite decide_True.
Qed.

Lemma buffered_send_answered_witness :
  let w := run SimpleUrl.parse Rev_background [MarkPending 7] initialWorld in
  let r := Got (Some (mkResponse true None (Some "# Page") None None false None None None None)) in
  let p := fst (sendMessageToTab 7 convertToMarkdown w) in
  let w1 := snd (sendMessageToTab 7 convertToMarkdown w) in
  let w2 := handle SimpleUrl.parse Rev_background (ContentScriptReady 7 None) w1 in
  let n := (length (calls w) + length (queue (mkEntry false [] None)))%nat in
  let w3 := handle SimpleUrl.parse Rev_background (Reply n r) w2 in
  let item := mkItem convertToMarkdown p (length (timers w)) in
  calls w2 !! n = Some (itemCall 7 item)
  /\ promises w2 !! p = Some Pending
  /\ promises w3 !! p = Some (outcomeOf r)
  /\ timers w3 !! timeoutId item = Some (mkTimer item (now w + MESSAGE_TIMEOUT) false).
Proof.
  exact (buffered_send_answered SimpleUrl.parse Rev_background [MarkPending 7] 7
           (mkEntry false [] None) convertToMarkdown None _ eq_refl eq_refl).
Defined.

(** ** A send that is handed to the tab at once *)

(** A send to a tab that is marked ready, or that has no entry, is handed
    to the tab at once and nothing is buffered.  A response fulfils the
    promise; an error of the delivery that [shouldQueueForError] does not
    accept rejects it with that error, and still nothing is buffered. *)
Theorem direct_send_outcomes (w : World) (tab : Z) (m : Message) :
  messageQueue w !! tab = None
  \/ (exists e, messageQueue w !! tab = Some e /\ isReady e = true) ->
  let p := fst (sendMessageToTab tab m w) in
  let w1 := snd (sendMessageToTab tab m w) in
  let n := length (calls w) in
  (exists k, calls w1 = calls w ++ [mkCall tab m k false])
  /\ messageQueue w1 = messageQueue w /\ timers w1 = timers w
  /\ promises w1 !! p = Some Pending
  /\ (forall v, promises (answerCall n (Got v) w1) !! p = Some (Fulfilled v))
  /\ (forall err, shouldQueueForError err = false ->
        promises (answerCall n (LastError err) w1) !! p = Some (RejectedWith err)
        /\ messageQueue (answerCall n (LastError err) w1) = messageQueue w
        /\ timers (answerCall n (LastError err) w1) = timers w).
Proof.
  intros Hentry p w1 n.
  assert (Hw1 : exists withCatch,
            p = length (promises w)
            /\ w1 = mkWorld (messageQueue w) (promises w ++ [Pending]) (timers w)
                      (calls w ++ [mkCall tab m (ToDirect (length (promises w)) withCatch) false])
                      (settlements w) (now w)).
  { unfold p, w1, sendMessageToTab, newPromise. simpl.
    destruct Hentry as [->|(e & -> & ->)]; simpl; eauto. }
  destruct Hw1 as (withCatch & Hp & Hw1). rewrite Hw1, Hp. simpl.
  split; [eauto|]. split; [done|]. split; [done|].
  split; [by rewrite lookup_app_r, Nat.sub_diag by lia|].
  assert (Hcall : (calls w ++ [mkCall tab m (ToDirect (length (promises w)) withCatch) false])
                    !! n = Some (mkCall tab m (ToDirect (length (promises w)) withCatch) false)).
  { unfold n. by rewrite lookup_app_r, Nat.sub_diag by lia. }
  split.
  - intros v. unfold answerCall. simpl. rewrite Hcall. simpl.
    destruct withCatch; rewrite settle_lookup, decide_True by done; simpl;
      by rewrite lookup_app_r, Nat.sub_diag by lia.
  - intros err Herr. unfold answerCall. simpl. rewrite Hcall. simpl. rewrite Herr.
    assert (E : forall w2,
              promises w2 = promises w ++ [Pending] ->
              promises (settle (length (promises w)) (RejectedWith err) w2)
                !! length (promises w) = Some (RejectedWith err)).
    { intros w2 E. rewrite settle_lookup, decide_True by done. rewrite E.
      by rewrite lookup_app_r, Nat.sub_diag by lia. }
    destruct withCatch.
    + split; [by apply E|]. by destruct (settle_fields (length (promises w)) (RejectedWith err)
        (set_calls (insert n (mkCall tab m (ToDirect (length (promises w)) true) true))
           (mkWorld (messageQueue w) (promises w ++ [Pending]) (timers w)
              (calls w ++ [mkCall tab m (ToDirect (length (promises w)) true) false])
              (settlements w) (now w)))) as (-> & -> & _).
    + split; [by apply E|]. by destruct (settle_fields (length (promises w)) (RejectedWith err)
        (set_calls (insert n (mkCall tab m (ToDirect (length (promises w)) false) true))
           (mkWorld (messageQueue w) (promises w ++ [Pending]) (timers w)
              (calls w ++ [mkCall tab m (ToDirect (length (promises w)) false) false])
              (settlements w) (now w)))) as (-> & -> & _).
Qed.

Lemma direct_send_outcomes_witness :
  let w := initialWorld in
  let p := fst (sendMessageToTab 7 convertToMarkdown w) in
  let w1 := snd (sendMessageToTab 7 convertToMarkdown w) in
  let n := length (calls w) in
  (exists k, calls w1 = calls w ++ [mkCall 7 convertToMarkdown k false])
  /\ messageQueue w1 = messageQueue w /\ timers w1 = timers w
  /\ promises w1 !! p = Some Pending
  /\ (forall v, promises (answerCall n (Got v) w1) !! p = Some (Fulfilled v))
  /\ (forall err, shouldQueueForError err = false ->
        promises (answerCall n (LastError err) w1) !! p = Some (RejectedWith err)
        /\ messageQueue (answerCall n (LastError err) w1) = messageQueue w
        /\ timers (answerCall n (LastError err) w1) = timers w).
Proof.
  apply (direct_send_outcomes initialWorld 7 convertToMarkdown). by left.
Defined.

(** ** No buffered message is dropped *)

Lemma queuedFor_same tab item w w' :
  messageQueue w' !! tab = messageQueue w !! tab -> queuedFor tab item w -> queuedFor tab item w'.
Proof. intros E (e & He & Hin). exists e. by rewrite E. Qed.

Lemma queuedFor_markTabPending tab tab' item w :
  queuedFor tab item w -> queuedFor tab item (markTabPending tab' w).
Proof.
  intros (e & He & Hin). unfold markTabPending.
  destruct (decide (tab' = tab)) as [->|Hne].
  - rewrite He. eexists. simpl. rewrite lookup_insert_eq. by split.
  - apply (queuedFor_same tab item w); [|by exists e].
    destruct (messageQueue w !! tab'); simpl; by rewrite lookup_insert_ne.
Qed.

Lemma queuedFor_queueMessageForTab tab tab' m p item w :
  queuedFor tab item w -> queuedFor tab item (queueMessageForTab tab' m p w).
Proof.
  intros (e & He & Hin). unfold queueMessageForTab.
  destruct (decide (tab' = tab)) as [->|Hne].
  - rewrite He. simpl. eexists. split.
    + unfold set_messageQueue, set_timers. simpl.
      rewrite (lookup_alter_eq _ (messageQueue w) tab), He. reflexivity.
    + simpl. apply elem_of_app. by left.
  - exists e. split; [|done].
    destruct (messageQueue w !! tab'); unfold set_messageQueue, set_timers; simpl;
      rewrite lookup_alter_ne by done; [done|]. by rewrite lookup_insert_ne.
Qed.

Lemma queuedFor_settle tab item p st w :
  queuedFor tab item w -> queuedFor tab item (settle p st w).
Proof.
  apply queuedFor_same. by destruct (settle_fields p st w) as (-> & _).
Qed.

Section Conservation.
Variable URL_new : string -> option Url.
Variable rev : Revision.

Lemma queuedFor_markUnlessSameBase tab tab' u item w :
  queuedFor tab item w -> queuedFor tab item (markUnlessSameBase URL_new tab' u w).
Proof.
  intros H. unfold markUnlessSameBase.
  destruct (messageQueue w !! tab') as [e'|]; [|by apply queuedFor_markTabPending].
  destruct (Js.falsy (lastUrl e')); [by apply queuedFor_markTabPending|].
  destruct (sameBase _ _ _) as [[|]|]; [done|by apply queuedFor_markTabPending..].
Qed.

Lemma queuedFor_relabel tab tab' item w (f : Entry -> bool) (u : Entry -> option string)
    (fresh : Entry) :
  queuedFor tab item w ->
  queuedFor tab item
    match messageQueue w !! tab' with
    | None => set_messageQueue (insert tab' fresh) w
    | Some e => set_messageQueue (insert tab' (mkEntry (f e) (queue e) (u e))) w
    end.
Proof.
  intros (e & He & Hin). destruct (decide (tab' = tab)) as [->|Hne].
  - rewrite He. eexists. simpl. rewrite lookup_insert_eq. by split.
  - exists e. split; [|done].
    destruct (messageQueue w !! tab'); simpl; by rewrite lookup_insert_ne.
Qed.

(** One event: an item in the queue of a tab stays there, or is handed
    to the tab, unless the tab is closed. *)
Lemma queued_step (ev : Event) (tab : Z) (item : QueueItem) (w : World) :
  ev <> TabRemoved tab -> queuedFor tab item w ->
  queuedFor tab item (handle URL_new rev ev w)
  \/ item ∈ dispatched (handle URL_new rev ev w).
Proof.
  intros Hev H.
  destruct ev as [tab' m|tab'|n r|dt|tab' senderUrl|tab' status changeUrl tabUrl|tab']; simpl.
  - (* a send *)
    left. unfold sendMessageToTab, newPromise. simpl.
    destruct (messageQueue w !! tab') as [e'|] eqn:He'; simpl.
    + destruct (negb (isReady e')); simpl.
      * apply queuedFor_queueMessageForTab. by apply (queuedFor_same tab item w).
      * by apply (queuedFor_same tab item w).
    + by apply (queuedFor_same tab item w).
  - left. by apply queuedFor_markTabPending.
  - (* an answer *)
    left. unfold answerCall. destruct (calls w !! n) as [c|]; [|done].
    destruct (answered c); [done|].
    assert (H1 : queuedFor tab item
              (set_calls (insert n (mkCall (target c) (payload c) (cont c) true)) w))
      by (by apply (queuedFor_same tab item w)).
    destruct (cont c) as [it|p withCatch|]; [| |done].
    + destruct r; unfold item_resolve, item_reject; apply queuedFor_settle;
        by apply (queuedFor_same tab item w).
    + destruct withCatch, r; try (by apply queuedFor_settle).
      destruct (shouldQueueForError msg); [|by apply queuedFor_settle].
      unfold newPromise. simpl. apply queuedFor_queueMessageForTab, queuedFor_settle.
      by apply (queuedFor_same tab item w).
  - left. apply (queuedFor_same tab item w); [|done].
    by destruct (elapse_keeps_queues dt w) as [-> _].
  - (* the announcement of a content script *)
    unfold onContentScriptReady.
    set (w1 := match messageQueue w !! tab', rev with
               | None, Rev_background => _ | None, Rev_part_000 => _
               | Some e0, Rev_background => _ | Some e0, Rev_part_000 => _ end).
    assert (H1 : queuedFor tab item w1).
    { unfold w1. destruct rev.
      - by apply (queuedFor_relabel tab tab' item w (fun _ => true) lastUrl).
      - by apply (queuedFor_relabel tab tab' item w (fun _ => true)
                    (fun e => if Js.falsy senderUrl then lastUrl e else senderUrl)). }
    destruct H1 as (e1 & He1 & Hin1). unfold flushMessageQueue.
    destruct (decide (tab' = tab)) as [->|Hne].
    + right. rewrite He1. rewrite dispatched_flushLoop. apply elem_of_app. by right.
    + left. destruct (messageQueue w1 !! tab') as [e'|]; [|by exists e1].
      rewrite flushLoop_spec. exists e1. simpl. by rewrite lookup_insert_ne.
  - (* an update of a tab *)
    left. unfold onUpdated. destruct (negb (isValidUrl tabUrl)); [done|].
    match goal with |- queuedFor _ _ (if _ then tabs_sendMessage _ _ _ ?w1 else _) =>
      assert (H1 : queuedFor tab item w1) end.
    { destruct rev.
      - destruct (_ || _); [by apply queuedFor_markTabPending|done].
      - destruct (isStatus status "loading").
        + destruct (messageQueue w !! tab');
            [by apply queuedFor_markUnlessSameBase|by apply queuedFor_markTabPending].
        + destruct (negb (Js.falsy changeUrl)); [|done].
          apply (queuedFor_relabel tab tab' item _ isReady (fun _ => changeUrl)).
          by apply queuedFor_markUnlessSameBase. }
    destruct (isStatus status "complete"); [|done].
    revert H1. by apply queuedFor_same.
  - (* another tab is closed *)
    left. assert (Hne : tab' <> tab) by congruence.
    unfold onRemoved. destruct (messageQueue w !! tab') as [e'|]; [|done].
    destruct H as (e & He & Hin). exists e. split; [|done]. simpl.
    rewrite lookup_delete_ne by done.
    by destruct (reject_all_fields (queue e') "Tab closed." w) as [-> _].
Qed.

(** Whatever happens, as long as the tab is not closed, an item in the
    queue of the tab is in that queue or was handed to the tab: nothing
    takes a message out of a queue but the flush that dispatches it. *)
Theorem queued_message_not_dropped (evs : list Event) (tab : Z) (item : QueueItem)
    (w : World) :
  queuedFor tab item w -> TabRemoved tab ∉ evs ->
  queuedFor tab item (run URL_new rev evs w)
  \/ item ∈ dispatched (run URL_new rev evs w).
Proof.
  revert w. induction evs as [|ev evs IH]; intros w Hq Hno; simpl; [by left|].
  apply not_elem_of_cons in Hno as [Hev Hno].
  destruct (queued_step ev tab item w) as [H|H]; [congruence|done| |].
  - by apply IH.
  - right. destruct (Kept_run URL_new rev evs (handle URL_new rev ev w)) as (_ & _ & l & ->).
    apply elem_of_app. by left.
Qed.
End Conservation.

Lemma queued_message_not_dropped_witness :
  let w := run SimpleUrl.parse Rev_part_000 [MarkPending 7; Send 7 convertToMarkdown]
             initialWorld in
  let evs := [TabUpdated 7 (Some "loading") None (Some "https://deepwiki.com/o/r");
              Elapse 30000; TabRemoved 8; ContentScriptReady 7 None] in
  queuedFor 7 (mkItem convertToMarkdown 0 0) (run SimpleUrl.parse Rev_part_000 evs w)
  \/ mkItem convertToMarkdown 0 0 ∈ dispatched (run SimpleUrl.parse Rev_part_000 evs w).
Proof.
  apply (queued_message_not_dropped SimpleUrl.parse Rev_part_000).
  - eexists. split; [reflexivity|]. apply list_elem_of_singleton. reflexivity.
  - intros H. repeat (apply elem_of_cons in H as [H|H]; [discriminate|]).
    by apply elem_of_nil in H.
Defined.

(** ** Updates of a tab *)

Lemma queueOf_same tab w w' :
  messageQueue w' = messageQueue w -> queueOf tab w' = queueOf tab w.
Proof. unfold queueOf. by intros ->. Qed.

Lemma queueOf_markTabPending tab tab' w :
  queueOf tab (markTabPending tab' w) = queueOf tab w.
Proof.
  unfold queueOf, markTabPending. destruct (decide (tab' = tab)) as [->|Hne].
  - destruct (messageQueue w !! tab) eqn:E; simpl; by rewrite lookup_insert_eq.
  - destruct (messageQueue w !! tab'); simpl; by rewrite lookup_insert_ne.
Qed.

Lemma fields_markTabPending tab w :
  promises (markTabPending tab w) = promises w /\ timers (markTabPending tab w) = timers w
  /\ calls (markTabPending tab w) = calls w.
Proof. unfold markTabPending. by destruct (messageQueue w !! tab). Qed.

Section Updates.
Variable URL_new : string -> option Url.

Lemma queueOf_markUnlessSameBase tab tab' u w :
  queueOf tab (markUnlessSameBase URL_new tab' u w) = queueOf tab w.
Proof.
  unfold markUnlessSameBase.
  destruct (messageQueue w !! tab') as [e'|]; [|by apply queueOf_markTabPending].
  destruct (Js.falsy (lastUrl e')); [by apply queueOf_markTabPending|].
  destruct (sameBase _ _ _) as [[|]|]; [done|by apply queueOf_markTabPending..].
Qed.

Lemma fields_markUnlessSameBase tab u w :
  promises (markUnlessSameBase URL_new tab u w) = promises w
  /\ timers (markUnlessSameBase URL_new tab u w) = timers w
  /\ calls (markUnlessSameBase URL_new tab u w) = calls w.
Proof.
  unfold markUnlessSameBase.
  destruct (messageQueue w !! tab) as [e'|]; [|by apply fields_markTabPending].
  destruct (Js.falsy (lastUrl e')); [by apply fields_markTabPending|].
  destruct (sameBase _ _ _) as [[|]|]; [done|by apply fields_markTabPending..].
Qed.

(** An update of a tab moves no message: in both revisions the queue of
    every tab, the promises and the timers are as before, and nothing
    is handed to a tab but the [pageLoaded] ping of a completed load.  An
    update of a tab whose address is not one of the wiki changes
    nothing at all. *)
Theorem tab_update_moves_no_message (rev : Revision) (tab : Z)
    (status changeUrl tabUrl : option string) (w : World) :
  let w' := onUpdated URL_new rev tab status changeUrl tabUrl w in
  (forall t, queueOf t w' = queueOf t w)
  /\ promises w' = promises w /\ timers w' = timers w
  /\ dispatched w' = dispatched w
  /\ calls w' = calls w
       ++ (if isValidUrl tabUrl && isStatus status "complete"
           then [mkCall tab pageLoaded Ping false] else [])
  /\ (isValidUrl tabUrl = false -> w' = w).
Proof.
  intros w'. unfold w', onUpdated.
  destruct (isValidUrl tabUrl); simpl;
    [|by rewrite app_nil_r].
  match goal with |- context [tabs_sendMessage _ _ _ ?x] => set (w1 := x) end.
  assert (H1 : (forall t, queueOf t w1 = queueOf t w) /\ promises w1 = promises w
               /\ timers w1 = timers w /\ calls w1 = calls w).
  { unfold w1. destruct rev.
    - destruct (_ || _); [|done]. split; [intros t; apply queueOf_markTabPending|].
      apply fields_markTabPending.
    - destruct (isStatus status "loading").
      + destruct (messageQueue w !! tab).
        * split; [intros t; apply queueOf_markUnlessSameBase|].
          apply fields_markUnlessSameBase.
        * split; [intros t; apply queueOf_markTabPending|]. apply fields_markTabPending.
      + destruct (negb (Js.falsy changeUrl)); [|done].
        set (w2 := markUnlessSameBase URL_new tab (default "" changeUrl) w).
        split.
        * intros t. rewrite <- (queueOf_markUnlessSameBase t tab (default "" changeUrl) w).
          fold w2. unfold queueOf.
          destruct (decide (tab = t)) as [->|Hne].
          -- destruct (messageQueue w2 !! t) eqn:E; simpl; by rewrite lookup_insert_eq.
          -- destruct (messageQueue w2 !! tab); simpl; by rewrite lookup_insert_ne.
        * destruct (fields_markUnlessSameBase tab (default "" changeUrl) w) as (E1 & E2 & E3).
          fold w2 in E1, E2, E3. by destruct (messageQueue w2 !! tab). }
  destruct H1 as (Hq & Hp & Ht & Hc).
  destruct (isStatus status "complete"); simpl.
  - split; [intros t; rewrite <- Hq; by apply queueOf_same|].
    split; [done|]. split; [done|].
    split; [|split; [by rewrite Hc|done]].
    unfold dispatched. simpl. rewrite Hc, omap_app. simpl. by rewrite app_nil_r.
  - split; [done|]. split; [done|]. split; [done|].
    split; [|split; [by rewrite Hc, app_nil_r|done]].
    unfold dispatched. by rewrite Hc.
Qed.

(** A load that starts in a tab whose new address has the origin and the
    path of the address the entry of the tab remembers: [part_000] leaves
    the entry as it is, so a tab that was ready stays ready, where
    [background.js] marks the tab pending whatever the address is. *)
Theorem same_page_load_keeps_ready (tab : Z) (changeUrl : option string)
    (old new : string) (o n : Url) (e : Entry) (w : World) :
  isValidUrl (Some new) = true ->
  messageQueue w !! tab = Some e ->
  lastUrl e = Some old -> old <> "" ->
  URL_new old = Some o -> URL_new new = Some n ->
  origin o = origin n -> pathname o = pathname n ->
  onUpdated URL_new Rev_part_000 tab (Some "loading") changeUrl (Some new) w = w
  /\ messageQueue (onUpdated URL_new Rev_background tab (Some "loading") changeUrl (Some new) w)
     !! tab = Some (mkEntry false (queue e) (lastUrl e)).
Proof.
  intros Hvalid He Hlast Hold Ho Hn Horigin Hpath. unfold onUpdated. rewrite Hvalid. simpl.
  split.
  - rewrite He. unfold markUnlessSameBase. rewrite He, Hlast. simpl.
    destruct (String.eqb old "") eqn:E; [by apply String.eqb_eq in E|].
    assert (Hnew : Js.or_else (Some new) (Js.or_else changeUrl old) = new).
    { unfold Js.or_else at 1. simpl. unfold isValidUrl in Hvalid.
      by destruct (String.eqb new ""). }
    rewrite Hnew. unfold sameBase. rewrite Ho, Hn, Horigin, Hpath.
    by rewrite !String.eqb_refl.
  - unfold markTabPending. rewrite He. simpl. by rewrite lookup_insert_eq.
Qed.
End Updates.

Lemma same_page_load_keeps_ready_witness :
  let e := mkEntry true [] (Some "https://deepwiki.com/o/r#intro") in
  let w := set_messageQueue (insert 7%Z e) initialWorld in
  onUpdated SimpleUrl.parse Rev_part_000 7 (Some "loading") None
    (Some "https://deepwiki.com/o/r#usage") w = w
  /\ messageQueue (onUpdated SimpleUrl.parse Rev_background 7 (Some "loading") None
                     (Some "https://deepwiki.com/o/r#usage") w)
     !! 7%Z = Some (mkEntry false [] (Some "https://deepwiki.com/o/r#intro")).
Proof.
  intros e w.
  apply (same_page_load_keeps_ready SimpleUrl.parse 7 None
           "https://deepwiki.com/o/r#intro" "https://deepwiki.com/o/r#usage"
           (mkUrl "https://deepwiki.com" "deepwiki.com" "/o/r" "#intro")
           (mkUrl "https://deepwiki.com" "deepwiki.com" "/o/r" "#usage") e w);
    try reflexivity.
  discriminate.
Defined.

(** ** Promises, deliveries and timers in the long run *)

(** Whatever happens, from any world the service worker has reached: a
    promise of [sendMessageToTab] is settled at most once and keeps the
    state it was settled with; an item of a queue is handed to the tab at
    most once; and a timer that was cleared stays cleared, so that it
    never fires. *)
Theorem settled_once_and_for_all (URL_new : string -> option Url) (rev : Revision)
    (before later : list Event) (p : nat) :
  let w := run URL_new rev before initialWorld in
  let w' := run URL_new rev later w in
  (settledTimes p w' <= 1)%nat
  /\ (deliveries p w' <= 1)%nat
  /\ (forall st, promises w !! p = Some st -> st <> Pending -> promises w' !! p = Some st)
  /\ (forall t tm, timers w !! t = Some tm -> armed tm = false ->
        exists tm', timers w' !! t = Some tm' /\ armed tm' = false
                    /\ fireTimer t w' = w').
Proof.
  intros w w'.
  assert (HW : WF w').
  { unfold w', w, run. rewrite <- fold_left_app. apply (WF_reachable URL_new rev). }
  destruct HW as [HW0 _].
  destruct (Kept_run URL_new rev later w) as (Ht & [_ Hp] & _). fold w' in Ht, Hp.
  split; [by apply settledTimes_at_most_once|]. split; [by apply deliveries_at_most_once|].
  split; [exact (Hp p)|].
  intros t tm Htm Harmed. destruct (Ht t tm Htm) as (tm' & Htm' & _ & _ & Ha).
  assert (Harmed' : armed tm' = false).
  { destruct (armed tm') eqn:E; [|done]. rewrite (Ha eq_refl) in Harmed. discriminate. }
  exists tm'. split; [done|]. split; [done|].
  unfold fireTimer. rewrite Htm'. by rewrite Harmed'.
Qed.

(** * Facts on the navigation coordinator *)

Section NavigationLifecycle.
Variable URL_new : string -> option Url.
Variable rev : Revision.

Local Abbreviation navRun := (navRun URL_new rev).
Local Abbreviation navCause := (navCause URL_new rev).

Lemma settlement_cases (s : Settlement) : s = Unsettled \/ s <> Unsettled.
Proof. destruct s; [by left|by right..]. Qed.

Lemma navSound_initial tab expected start :
  navSound tab expected (waitForNavigation tab expected start).
Proof.
  unfold waitForNavigation, navSound. destruct (Js.falsy expected); simpl; repeat split; try done.
Qed.

Lemma navSound_settleOnce tab expected s w :
  s <> Unsettled -> navSound tab expected w -> navSound tab expected (settleOnce s w).
Proof.
  intros Hs H. unfold settleOnce.
  destruct (settled w) eqn:E; [done|]. destruct H as (H1 & H2 & H3 & H4 & H5).
  unfold settleNav, cleanup. simpl.
  destruct (nav_promise w) eqn:P; simpl; repeat split; try done; try congruence.
Qed.

Lemma navSound_stopPolling tab expected w :
  navSound tab expected w -> navSound tab expected (stopPolling w).
Proof. by intros (H1 & H2 & H3 & H4 & H5). Qed.

Lemma navSound_step tab expected ev w :
  navSound tab expected w -> navSound tab expected (navStep URL_new rev ev w).
Proof.
  intros H. destruct ev as [|obs clock|t f u|t f e]; simpl.
  - destruct (timerArmed w) eqn:E; [|done].
    destruct H as (H1 & H2 & H3 & H4 & H5). unfold settleNav, cleanup. simpl.
    destruct (nav_promise w) eqn:P; simpl; repeat split; try done; try congruence.
  - destruct (polling w); [|done].
    destruct (pollStep _ _ _ _ _ _ _) as [[| |]|]; simpl; try done.
    by apply navSound_settleOnce, navSound_stopPolling.
  - destruct (_ && _); [|done]. by apply navSound_settleOnce.
  - destruct (_ && _); [|done]. by apply navSound_settleOnce.
Qed.

Lemma navSound_run tab expected evs w :
  navSound tab expected w -> navSound tab expected (navRun evs w).
Proof.
  revert w. induction evs as [|ev evs IH]; intros w H; simpl; [done|].
  by apply IH, navSound_step.
Qed.

Lemma settleOnce_promise s w :
  nav_promise (settleOnce s w) = nav_promise w
  \/ (nav_promise w = Unsettled /\ nav_promise (settleOnce s w) = s).
Proof.
  unfold settleOnce. destruct (settled w); [by left|]. unfold settleNav. simpl.
  destruct (nav_promise w) eqn:P; simpl; [by right|left; by rewrite ?P..].
Qed.

Lemma navStep_keeps ev w :
  nav_promise w <> Unsettled -> nav_promise (navStep URL_new rev ev w) = nav_promise w.
Proof.
  intros H. destruct ev as [|obs clock|t f u|t f e]; simpl.
  - destruct (timerArmed w); [|done]. unfold settleNav. simpl.
    by destruct (nav_promise w) eqn:P.
  - destruct (polling w); [|done].
    destruct (pollStep _ _ _ _ _ _ _) as [[| |]|]; try done.
    destruct (settleOnce_promise Resolved (stopPolling w)) as [E|[E _]]; [done|].
    by simpl in E.
  - destruct (_ && _); [|done].
    by destruct (settleOnce_promise Resolved w) as [E|[E _]].
  - destruct (_ && _); [|done].
    by destruct (settleOnce_promise (Failed (Js.or_else e "Navigation error")) w) as [E|[E _]].
Qed.

Lemma navRun_keeps evs w :
  nav_promise w <> Unsettled -> nav_promise (navRun evs w) = nav_promise w.
Proof.
  revert w. induction evs as [|ev evs IH]; intros w H; simpl; [done|].
  rewrite IH; rewrite navStep_keeps; done.
Qed.

Lemma navRun_snoc evs ev w :
  navRun (evs ++ [ev]) w = navStep URL_new rev ev (navRun evs w).
Proof. unfold navRun. by rewrite fold_left_app. Qed.

Lemma navCause_more tab expected evs ev s :
  s <> Unsettled -> navCause tab expected evs s -> navCause tab expected (evs ++ [ev]) s.
Proof.
  intros Hs H. destruct s as [| |e]; [done| |]; simpl in *.
  - destruct H as [H|(u & Hu & [(c & Hc)|Hc])]; [by left|right; exists u..].
    + split; [done|]. left. exists c. apply elem_of_app. by left.
    + split; [done|]. right. apply elem_of_app. by left.
  - destruct H as [[H1 H2]|(err & H1 & H2)]; [left|right].
    + split; [done|]. apply elem_of_app. by left.
    + exists err. split; [|done]. apply elem_of_app. by left.
Qed.

Lemma navCause_run tab expected start evs :
  navCause tab expected evs (nav_promise (navRun evs (waitForNavigation tab expected start))).
Proof.
  induction evs as [|ev evs IH] using rev_ind.
  - simpl. unfold waitForNavigation. destruct (Js.falsy expected) eqn:F; simpl.
    + by left.
    + apply not_elem_of_nil.
  - rewrite navRun_snoc.
    set (w := navRun evs (waitForNavigation tab expected start)) in *.
    assert (Hs : navSound tab expected w) by apply navSound_run, navSound_initial.
    destruct (settlement_cases (nav_promise w)) as [P|P];
      [|rewrite navStep_keeps by done; by apply navCause_more].
    destruct Hs as (Htab & Hexp & Hl & Harmed & _).
    destruct (Harmed P) as [Ht Hsettled]. simpl in IH. rewrite P in IH. simpl in IH.
    assert (Hlast : forall x, x ∈ evs ++ [ev] -> x ∈ evs \/ x = ev).
    { intros x Hx. apply elem_of_app in Hx as [Hx|Hx]; [by left|].
      apply list_elem_of_singleton in Hx. by right. }
    assert (Hin : ev ∈ evs ++ [ev]) by (apply elem_of_app; right; by apply list_elem_of_singleton).
    destruct ev as [|obs clock|t f u|t f e]; simpl.
    + rewrite Ht. unfold settleNav. simpl. rewrite P. simpl. by left.
    + assert (Hno : NavTimeout ∉ evs ++ [NavTabsGet obs clock]).
      { intros Hx. by destruct (Hlast _ Hx). }
      destruct (polling w); [|by rewrite P].
      destruct (pollStep _ _ _ _ _ _ _) as [[| |]|] eqn:Hpoll; simpl; rewrite ?P; try done.
      unfold settleOnce. simpl. rewrite Hsettled. unfold settleNav. simpl. rewrite P. simpl.
      right. unfold pollStep in Hpoll. destruct obs as [u|msg]; [|done].
      rewrite Hexp in Hpoll.
      destruct (urlsRoughlyMatch URL_new rev expected u) eqn:M;
        [|by destruct (_ >=? _)%Z].
      exists u. split; [done|]. left. by exists clock.
    + assert (Hno : NavTimeout ∉ evs ++ [NavCompleted t f u]).
      { intros Hx. by destruct (Hlast _ Hx). }
      destruct (listening w && (t =? nav_tabId w)%Z && (f =? 0)%Z
                && urlsRoughlyMatch URL_new rev (nav_expected w) u) eqn:C; [|by rewrite P].
      unfold settleOnce. rewrite Hsettled. unfold settleNav. simpl. rewrite P. simpl.
      apply andb_true_iff in C as [C M]. apply andb_true_iff in C as [C F0].
      apply andb_true_iff in C as [_ T0].
      apply Z.eqb_eq in T0, F0. subst t f. rewrite Hexp in M. rewrite Htab in Hin |- *.
      right. exists u. split; [done|]. by right.
    + assert (Hno : NavTimeout ∉ evs ++ [NavErrorOccurred t f e]).
      { intros Hx. by destruct (Hlast _ Hx). }
      destruct (listening w && (t =? nav_tabId w)%Z && (f =? 0)%Z) eqn:C; [|by rewrite P].
      unfold settleOnce. rewrite Hsettled. unfold settleNav. simpl. rewrite P. simpl.
      apply andb_true_iff in C as [C F0]. apply andb_true_iff in C as [_ T0].
      apply Z.eqb_eq in T0, F0. subst t f. rewrite Htab in Hin |- *.
      right. by exists e.
Qed.

(** The promise of [waitForNavigation], under any events in any order:
    it is pending exactly as long as its timer is armed and its two
    listeners are registered, so that the timer settles it at the
    latest; it keeps its first settlement; it is resolved only by an
    observation that matches the destination (or for a destination that
    is missing), and rejected only by the timer or by a navigation error
    of the top frame of its tab: a failed poll of the address of the tab
    never rejects it. *)
Theorem navigation_promise_lifecycle (tab : Z) (expected : option string) (start : Z)
    (evs : list NavEvent) :
  let w := navRun evs (waitForNavigation tab expected start) in
  (nav_promise w = Unsettled <-> timerArmed w = true)
  /\ listening w = timerArmed w
  /\ (settled w = true -> nav_promise w <> Unsettled)
  /\ (forall more, nav_promise w <> Unsettled -> nav_promise (navRun more w) = nav_promise w)
  /\ navCause tab expected evs (nav_promise w).
Proof.
  intros w.
  destruct (navSound_run tab expected evs _ (navSound_initial tab expected start))
    as (_ & _ & Hl & Hpending & Hdone).
  fold w in Hl, Hpending, Hdone.
  split; [|split; [done|split; [|split]]].
  - split; [by intros P; destruct (Hpending P)|].
    intros Ht. destruct (settlement_cases (nav_promise w)) as [P|P]; [done|].
    rewrite (Hdone P) in Ht. discriminate.
  - intros Hs P. destruct (Hpending P) as [_ E]. congruence.
  - intros more. apply navRun_keeps.
  - apply navCause_run.
Qed.
End NavigationLifecycle.

(** ** The poll of the address of a tab *)

Section PollFacts.
Variable URL_new : string -> option Url.
Variable rev : Revision.

Local Abbreviation pollsAgain := (pollsAgain URL_new rev).

Lemma geb_true (a b : Z) : (a >=? b)%Z = true <-> (b <= a)%Z.
Proof. rewrite Z.geb_leb. apply Z.leb_le. Qed.

Lemma geb_false (a b : Z) : (a >=? b)%Z = false <-> (a < b)%Z.
Proof. rewrite Z.geb_leb. apply Z.leb_gt. Qed.

Lemma pollStep_None expected start timeoutMs tab clock :
  pollStep URL_new rev expected start timeoutMs tab clock = None
  <-> pollsAgain expected start timeoutMs (tab, clock).
Proof.
  unfold pollStep, pollsAgain. simpl. split.
  - destruct tab as [u|msg]; [|done].
    destruct (urlsRoughlyMatch URL_new rev expected u) eqn:M; [done|].
    destruct (clock - start >=? timeoutMs)%Z eqn:C; [done|]. intros _. exists u.
    apply geb_false in C. done.
  - intros (u & -> & -> & C). apply geb_false in C. by rewrite C.
Qed.

(** [waitForTabUrl] for a destination that is given.  It is settled by
    the first answer that is an error, a matching address, or an
    address read when the time is up, and by no other: it resolves on a
    match even when the time is up, it rejects with the error of
    [chrome.tabs.get] as it is, and it is settled as soon as one answer
    is read at or after the deadline. *)
Theorem waitForTabUrl_settled_by_first (expected : option string) (start timeoutMs : Z)
    (observations : list (Answer (option string) * Z)) :
  Js.falsy expected = false ->
  match waitForTabUrl URL_new rev expected start timeoutMs observations with
  | Unsettled => Forall (pollsAgain expected start timeoutMs) observations
  | Resolved =>
      exists before u clock rest,
        observations = before ++ (Got u, clock) :: rest
        /\ Forall (pollsAgain expected start timeoutMs) before
        /\ urlsRoughlyMatch URL_new rev expected u = true
  | Failed e =>
      exists before o rest,
        observations = before ++ o :: rest
        /\ Forall (pollsAgain expected start timeoutMs) before
        /\ (fst o = LastError e
            \/ exists u, fst o = Got u /\ urlsRoughlyMatch URL_new rev expected u = false
                 /\ (timeoutMs <= snd o - start)%Z
                 /\ e = "Tab URL did not reach expected value in time.")
  end
  /\ (Exists (fun o => (timeoutMs <= snd o - start)%Z) observations ->
      waitForTabUrl URL_new rev expected start timeoutMs observations <> Unsettled).
Proof.
  intros F. unfold waitForTabUrl. rewrite F.
  induction observations as [|[tab clock] rest [IH1 IH2]]; simpl.
  - split; [constructor|]. intros H. by apply Exists_nil in H.
  - destruct (pollStep URL_new rev expected start timeoutMs tab clock) as [s|] eqn:Hpoll.
    + split.
      * unfold pollStep in Hpoll. destruct tab as [u|msg].
        -- destruct (urlsRoughlyMatch URL_new rev expected u) eqn:M.
           ++ injection Hpoll as <-. exists [], u, clock, rest. by repeat split.
           ++ destruct (clock - start >=? timeoutMs)%Z eqn:C; [|done].
              injection Hpoll as <-. exists [], (Got u, clock), rest.
              split; [done|]. split; [constructor|]. right. exists u. simpl.
              repeat split; try done. by apply geb_true in C.
        -- injection Hpoll as <-. exists [], (LastError msg, clock), rest.
           split; [done|]. split; [constructor|]. by left.
      * intros _. unfold pollStep in Hpoll. destruct tab as [u|msg]; [|by injection Hpoll as <-].
        destruct (urlsRoughlyMatch URL_new rev expected u); [by injection Hpoll as <-|].
        destruct (clock - start >=? timeoutMs)%Z; [by injection Hpoll as <-|done].
    + apply pollStep_None in Hpoll. split.
      * destruct (pollLoop URL_new rev expected start timeoutMs rest) as [| |e].
        -- by constructor.
        -- destruct IH1 as (before & u & c & rest' & -> & Hb & M).
           exists ((tab, clock) :: before), u, c, rest'. split; [done|]. split; [|done].
           by constructor.
        -- destruct IH1 as (before & o & rest' & -> & Hb & Ho).
           exists ((tab, clock) :: before), o, rest'. split; [done|]. split; [|done].
           by constructor.
      * intros H. apply Exists_cons in H as [H|H]; [|by apply IH2].
        destruct Hpoll as (u & _ & _ & C). simpl in *. lia.
Qed.
End PollFacts.

Lemma waitForTabUrl_settled_by_first_witness :
  let observations :=
    [(Got (Some "https://deepwiki.com/a/b"), 200%Z); (Got (Some "https://deepwiki.com/o/r"), 400%Z)] in
  (exists before u clock rest,
     observations = before ++ (Got u, clock) :: rest
     /\ Forall (pollsAgain SimpleUrl.parse Rev_background (Some "https://deepwiki.com/o/r/page")
                  0 30000) before
     /\ urlsRoughlyMatch SimpleUrl.parse Rev_background (Some "https://deepwiki.com/o/r/page") u
        = true)
  /\ (Exists (fun o => (30000 <= snd o - 0)%Z) observations ->
      waitForTabUrl SimpleUrl.parse Rev_background (Some "https://deepwiki.com/o/r/page") 0 30000
        observations <> Unsettled).
Proof.
  exact (waitForTabUrl_settled_by_first SimpleUrl.parse Rev_background
           (Some "https://deepwiki.com/o/r/page") 0 30000
           [(Got (Some "https://deepwiki.com/a/b"), 200%Z);
            (Got (Some "https://deepwiki.com/o/r"), 400%Z)] eq_refl).
Defined.

(** ** A change of the fragment only *)

Lemma dropTrailingSlash_prefix (x y : string) :
  Js.dropTrailingSlash x = Js.dropTrailingSlash y ->
  String.prefix x y || String.prefix y x = true.
Proof.
  revert y. induction x as [|c x IH]; intros y H; [by destruct y|].
  destruct y as [|d y]; [done|].
  destruct x as [|c' x]; destruct y as [|d' y].
  - simpl in H. simpl.
    destruct (Ascii.eqb c "/") eqn:Ec, (Ascii.eqb d "/") eqn:Ed; try done.
    + apply Ascii.eqb_eq in Ec, Ed. subst. by destruct (ascii_dec "/" "/").
    + injection H as ->. by destruct (ascii_dec d d).
  - simpl in H. destruct (Ascii.eqb c "/") eqn:Ec; [done|].
    injection H as -> _. simpl. by destruct (ascii_dec d d).
  - simpl in H. destruct (Ascii.eqb d "/") eqn:Ed; [done|].
    injection H as -> _. simpl. destruct (ascii_dec d d); [|done]. by rewrite orb_true_r.
  - change (Js.dropTrailingSlash (String c (String c' x)))
      with (String c (Js.dropTrailingSlash (String c' x))) in H.
    change (Js.dropTrailingSlash (String d (String d' y)))
      with (String d (Js.dropTrailingSlash (String d' y))) in H.
    injection H as -> H. specialize (IH (String d' y) H).
    change (String.prefix (String d (String c' x)) (String d (String d' y)))
      with (if ascii_dec d d then String.prefix (String c' x) (String d' y) else false).
    change (String.prefix (String d (String d' y)) (String d (String c' x)))
      with (if ascii_dec d d then String.prefix (String d' y) (String c' x) else false).
    by destruct (ascii_dec d d).
Qed.

Section HashChange.
Variable URL_new : string -> option Url.

(** [navigateToPage] of [part_000] takes its in-page branch when
    [isHashChange] holds for the address of the tab and the destination,
    and then waits with [waitForTabUrl] for the destination.  In that
    case the two addresses parse, and the address the tab still has
    matches the destination exactly when the destination has no
    fragment: the wait for a destination with a fragment cannot be
    satisfied by the page the tab is on, whereas the comparison of
    [background.js] accepts that page at once. *)
Theorem hash_change_needs_new_fragment (current target : option string) :
  Part000.isHashChange URL_new current target = true ->
  exists curr tgt,
    URL_new (default "" current) = Some curr /\ URL_new (default "" target) = Some tgt
    /\ hash curr <> hash tgt
    /\ Part000.urlsRoughlyMatch URL_new target current = String.eqb (hash tgt) ""
    /\ Background.urlsRoughlyMatch URL_new target current = true
    /\ Part000.isHashChange URL_new target current = true.
Proof.
  unfold Part000.isHashChange, Part000.urlsRoughlyMatch, Background.urlsRoughlyMatch.
  destruct (Js.falsy current) eqn:Fc; [done|].
  destruct (Js.falsy target) eqn:Ft; [done|]. simpl.
  destruct (URL_new (default "" current)) as [curr|]; [|done].
  destruct (URL_new (default "" target)) as [tgt|]; [|done].
  intros H. apply andb_true_iff in H as [H Hh]. apply andb_true_iff in H as [Ho Hp].
  apply String.eqb_eq in Ho, Hp. apply negb_true_iff, String.eqb_neq in Hh.
  exists curr, tgt. split; [done|]. split; [done|]. split; [done|].
  rewrite Ho, Hp, !String.eqb_refl. simpl.
  assert (Hpre : Js.startsWith (pathname curr) (pathname tgt)
                 || Js.startsWith (pathname tgt) (pathname curr) = true).
  { unfold Js.startsWith. by apply dropTrailingSlash_prefix. }
  rewrite Hpre. split; [|split; [done|]].
  - destruct (String.eqb (hash tgt) "") eqn:E; simpl; [done|].
    assert (E' : String.eqb (hash tgt) (hash curr) = false)
      by (apply String.eqb_neq; congruence).
    by rewrite E'.
  - apply negb_true_iff, String.eqb_neq. congruence.
Qed.
End HashChange.

Lemma hash_change_needs_new_fragment_witness :
  exists curr tgt,
    SimpleUrl.parse "https://deepwiki.com/o/r" = Some curr
    /\ SimpleUrl.parse "https://deepwiki.com/o/r/#usage" = Some tgt
    /\ hash curr <> hash tgt
    /\ Part000.urlsRoughlyMatch SimpleUrl.parse (Some "https://deepwiki.com/o/r/#usage")
         (Some "https://deepwiki.com/o/r") = String.eqb (hash tgt) ""
    /\ Background.urlsRoughlyMatch SimpleUrl.parse (Some "https://deepwiki.com/o/r/#usage")
         (Some "https://deepwiki.com/o/r") = true
    /\ Part000.isHashChange SimpleUrl.parse (Some "https://deepwiki.com/o/r/#usage")
         (Some "https://deepwiki.com/o/r") = true.
Proof.
  exact (hash_change_needs_new_fragment SimpleUrl.parse (Some "https://deepwiki.com/o/r")
           (Some "https://deepwiki.com/o/r/#usage") eq_refl).
Defined.

(** * The content script and the service worker *)

Section ContentAndWorker.
Variable URL_new : string -> option Url.

(** The comparison of the content script asks more than the one of the
    service worker: an address that the content script accepts for an
    expected one is accepted by [urlsRoughlyMatch] of [background.js],
    and by the one of [part_000] unless the fragments differ.  For two
    addresses that parse, the service worker also accepts a page above
    the expected one, which the content script never does. *)
Theorem content_match_is_stricter (expected current : string) :
  URL_new "" = None ->
  (Content.urlsRoughlyMatch URL_new expected current = true ->
     Background.urlsRoughlyMatch URL_new (Some expected) (Some current) = true
     /\ (Part000.urlsRoughlyMatch URL_new (Some expected) (Some current) = true
         \/ exists ue uc, URL_new expected = Some ue /\ URL_new current = Some uc
              /\ hash ue <> "" /\ hash ue <> hash uc))
  /\ (forall ue uc, URL_new expected = Some ue -> URL_new current = Some uc ->
        Background.urlsRoughlyMatch URL_new (Some expected) (Some current)
        = Content.urlsRoughlyMatch URL_new expected current
          || (String.eqb (origin ue) (origin uc)
              && Js.startsWith (pathname ue) (pathname uc))).
Proof.
  intros Hempty.
  unfold Content.urlsRoughlyMatch, Background.urlsRoughlyMatch, Part000.urlsRoughlyMatch.
  split.
  - simpl. destruct (String.eqb expected "") eqn:Ee; [by split; [|left]|].
    destruct (String.eqb current "") eqn:Ec; simpl; [by split; [|left]|].
    destruct (URL_new expected) as [ue|]; [|by split; [|left]].
    destruct (URL_new current) as [uc|]; [|by split; [|left]].
    destruct (String.eqb (origin ue) (origin uc)); simpl; [|done].
    intros ->. simpl. split; [done|].
    destruct (String.eqb (hash ue) "") eqn:H1; simpl; [by left|].
    destruct (String.eqb (hash ue) (hash uc)) eqn:H2; simpl; [by left|].
    right. exists ue, uc. apply String.eqb_neq in H1, H2. done.
  - intros ue uc He Hc. simpl.
    assert (Ee : String.eqb expected "" = false).
    { apply String.eqb_neq. by apply (parsed_nonempty URL_new Hempty expected ue). }
    assert (Ec : String.eqb current "" = false).
    { apply String.eqb_neq. by apply (parsed_nonempty URL_new Hempty current uc). }
    rewrite Ee, Ec, He, Hc. simpl.
    by destruct (String.eqb (origin ue) (origin uc)).
Qed.

Lemma tickLoop_result (expected : string) (minTextLength deadline : Z)
    (observations : list Content.Observation) (r : Content.ReadyResult) :
  Content.tickLoop URL_new expected minTextLength deadline observations = Some r ->
  exists o, o ∈ observations
    /\ Content.ready r = Content.isReady URL_new expected minTextLength o
    /\ Content.res_timedOut r = negb (Content.ready r)
    /\ Content.urlOk r = Content.urlsRoughlyMatch URL_new expected (Content.href o)
    /\ Content.res_metrics r = Content.getContentReadinessMetrics (Content.container o).
Proof.
  induction observations as [|o rest IH]; [done|]. simpl.
  destruct (_ || _).
  - intros [= <-]. exists o. simpl. split; [by left|done].
  - intros H. destruct (IH H) as (o' & Hin & Hr). exists o'. split; [by right|done].
Qed.

(** The readiness report of [waitForContentReady], asked for as
    [waitForPageContent] does, and [isMarkdownSuspiciouslyEmpty] on it:
    after a report that is ready, a conversion is suspicious exactly when
    it has less than 80 characters; after a report that timed out on a
    page at the right address, no conversion is suspicious, not even an
    empty one, so it is never retried. *)
Theorem readiness_decides_retry (expectedUrl : option string) (start : Z)
    (observations : list Content.Observation) (r : Content.ReadyResult) :
  Content.waitForContentReady URL_new (pageContentOptions expectedUrl) start observations
    = Some r ->
  forall markdown,
    isMarkdownSuspiciouslyEmpty markdown (Some (readinessResponse r))
    = if Content.ready r then (trimmedLength markdown <? 80)%nat
      else if Content.urlOk r then false
      else contentLooksSubstantial (Content.res_metrics r)
           && (trimmedLength markdown <? 80)%nat.
Proof.
  unfold Content.waitForContentReady, pageContentOptions.
  cbn [Content.opt_timeoutMs Content.opt_minTextLength Content.opt_expectedUrl].
  change (Content.positiveOr (Some CONTENT_READY_MIN_TEXT) 160) with CONTENT_READY_MIN_TEXT.
  intros H markdown. apply tickLoop_result in H as (o & _ & Hready & _ & Hurl & Hm).
  unfold isMarkdownSuspiciouslyEmpty. cbv zeta.
  change (Some (readinessResponse r) ≫= metrics) with (Some (Content.res_metrics r)).
  cbv iota.
  unfold Content.isReady in Hready. cbv zeta in Hready.
  rewrite <- Hurl, <- Hm in Hready.
  fold (contentLooksSubstantial (Content.res_metrics r)) in Hready.
  assert (Hc : hasContainer (Content.res_metrics r) = false ->
               contentLooksSubstantial (Content.res_metrics r) = false).
  { rewrite Hm. by destruct (Content.container o). }
  destruct (Nat.leb_spec 80 (trimmedLength markdown)) as [L|L].
  - assert (L' : (trimmedLength markdown <? 80)%nat = false) by (apply Nat.ltb_ge; lia).
    rewrite L', andb_false_r. by destruct (Content.ready r), (Content.urlOk r).
  - assert (L' : (trimmedLength markdown <? 80)%nat = true) by (by apply Nat.ltb_lt).
    rewrite L', andb_true_r. rewrite Hready.
    destruct (Content.urlOk r); simpl; [|done].
    destruct (hasContainer (Content.res_metrics r)) eqn:C; simpl; [|by rewrite Hc].
    by destruct (contentLooksSubstantial (Content.res_metrics r)).
Qed.
End ContentAndWorker.

Lemma content_match_is_stricter_witness :
  Background.urlsRoughlyMatch SimpleUrl.parse (Some "https://deepwiki.com/o/r/page")
    (Some "https://deepwiki.com/o/r") = true
  /\ Content.urlsRoughlyMatch SimpleUrl.parse "https://deepwiki.com/o/r/page"
       "https://deepwiki.com/o/r" = false.
Proof.
  destruct (content_match_is_stricter SimpleUrl.parse "https://deepwiki.com/o/r/page"
              "https://deepwiki.com/o/r" SimpleUrl_parse_empty) as [_ H].
  specialize (H _ _ eq_refl eq_refl). split; [by rewrite H|reflexivity].
Defined.

Lemma readiness_decides_retry_witness :
  exists r,
    Content.waitForContentReady SimpleUrl.parse (pageContentOptions (Some "https://deepwiki.com/o/r"))
      0 [Content.mkObservation "https://deepwiki.com/o/r" (Some emptyContainer) 0;
         Content.mkObservation "https://deepwiki.com/o/r" (Some emptyContainer) 20000] = Some r
    /\ Content.ready r = false
    /\ isMarkdownSuspiciouslyEmpty (Some "") (Some (readinessResponse r)) = false.
Proof.
  eexists. split; [reflexivity|]. split; [reflexivity|].
  exact (readiness_decides_retry SimpleUrl.parse (Some "https://deepwiki.com/o/r") 0
           [Content.mkObservation "https://deepwiki.com/o/r" (Some emptyContainer) 0;
            Content.mkObservation "https://deepwiki.com/o/r" (Some emptyContainer) 20000]
           _ eq_refl (Some "")).
Defined.

Section TopicFacts.
Variable toLowerCase : string -> string.

Lemma topic_tickLoop_skips expectedTitle p minTextLength deadline
    (before rest : list Topic.Observation) :
  Forall (fun o => Topic.isReady toLowerCase (toLowerCase expectedTitle) p minTextLength o = false
                   /\ (Topic.clock o < deadline)%Z) before ->
  Topic.tickLoop toLowerCase expectedTitle p minTextLength deadline (before ++ rest)
  = Topic.tickLoop toLowerCase expectedTitle p minTextLength deadline rest.
Proof.
  induction 1 as [|o before [Hr Hc] _ IH]; [done|].
  simpl. rewrite Hr. simpl.
  destruct (Z.geb_spec (Topic.clock o) deadline); [lia|]. exact IH.
Qed.

Lemma topic_tickLoop_total expectedTitle p minTextLength deadline
    (observations : list Topic.Observation) :
  Exists (fun o => (deadline <= Topic.clock o)%Z) observations ->
  is_Some (Topic.tickLoop toLowerCase expectedTitle p minTextLength deadline observations).
Proof.
  induction 1 as [o rest Ho|o rest _ IH]; simpl.
  - destruct (Z.geb_spec (Topic.clock o) deadline); [|lia].
    rewrite orb_true_r. eauto.
  - destruct (_ || _); eauto.
Qed.

(** [waitForTopicReady], with [minTextLength] the option or 160 and the
    deadline the start plus the option or 8000.  A tick is ready exactly
    when there is a container, the content changed (the heading has the
    expected title in it, or the snippet is not empty and is another one
    than before, or the length moved by more than 40) and the text
    reaches [minTextLength], or three elements are meaningful, or a
    diagram is there: the test on six elements adds nothing.  Without an
    earlier signature a tick with any text counts as changed whatever
    the title is, and an expected title that is empty matches no
    heading.  The probe returns at the first tick that is ready or that
    reads the clock at or after the deadline, with [timedOut] the
    negation of [ready], and it returns once a tick reaches the
    deadline. *)
Theorem waitForTopicReady_spec (options : Topic.Options) (start : Z) :
  let minTextLength := Content.positiveOr (Topic.opt_minTextLength options) 160 in
  let deadline := (start + Content.positiveOr (Topic.opt_timeoutMs options) 8000)%Z in
  let expected := toLowerCase (Js.trim (Js.or_else (Topic.opt_expectedTitle options) "")) in
  let previous := Topic.opt_previousSignature options in
  let metricsOf o := Content.getContentReadinessMetrics (Topic.container o) in
  let changed o :=
    Topic.titleMatched toLowerCase expected (Topic.getContentSignature o)
    || Topic.snippetChanged previous (Topic.getContentSignature o)
    || Topic.lengthChanged previous (Topic.getContentSignature o) in
  let readyAt o :=
    hasContainer (metricsOf o) && changed o
    && ((textLength (metricsOf o) >=? minTextLength)%Z
        || (meaningfulCount (metricsOf o) >=? 3)%Z || hasMermaid (metricsOf o)) in
  let waiting o := readyAt o = false /\ (Topic.clock o < deadline)%Z in
  (forall o, Topic.isReady toLowerCase expected previous minTextLength o = readyAt o)
  /\ (forall o, previous = None ->
        Topic.snippet (Topic.getContentSignature o) <> "" -> changed o = true)
  /\ (forall o, expected = "" ->
        Topic.titleMatched toLowerCase expected (Topic.getContentSignature o) = false)
  /\ (forall before o rest,
        Forall waiting before -> readyAt o = true \/ (deadline <= Topic.clock o)%Z ->
        exists r, Topic.waitForTopicReady toLowerCase options start (before ++ o :: rest)
                  = Some r
                  /\ Topic.ready r = readyAt o /\ Topic.timedOut r = negb (readyAt o)
                  /\ Topic.res_metrics r = metricsOf o
                  /\ Topic.res_signature r = Topic.getContentSignature o)
  /\ (forall observations,
        Exists (fun o => (deadline <= Topic.clock o)%Z) observations ->
        is_Some (Topic.waitForTopicReady toLowerCase options start observations)).
Proof.
  intros minTextLength deadline expected previous metricsOf changed readyAt waiting.
  assert (Hready : forall o,
            Topic.isReady toLowerCase expected previous minTextLength o = readyAt o).
  { intros o. unfold Topic.isReady, readyAt, changed, metricsOf. cbv zeta.
    f_equal.
    set (m := Content.getContentReadinessMetrics (Topic.container o)).
    destruct (Z.geb_spec (meaningfulCount m) 6) as [H6|H6],
             (Z.geb_spec (meaningfulCount m) 3) as [H3|H3]; try lia;
      by destruct (textLength m >=? minTextLength)%Z, (hasMermaid m). }
  split; [exact Hready|]. split; [|split; [|split]].
  - intros o Hprev Hsnip. unfold changed, Topic.snippetChanged, Topic.previousSnippet.
    rewrite Hprev.
    change (Js.or_else (None ≫= Topic.prev_snippet) "") with "".
    assert (E : String.eqb (Topic.snippet (Topic.getContentSignature o)) "" = false)
      by (by apply String.eqb_neq).
    rewrite !E. by destruct (Topic.titleMatched _ _ _).
  - intros o He. unfold Topic.titleMatched. by rewrite He.
  - intros before o rest Hw Ho. unfold Topic.waitForTopicReady.
    fold minTextLength deadline.
    rewrite topic_tickLoop_skips.
    + simpl. fold expected previous. rewrite Hready.
      destruct Ho as [Ho|Ho].
      * rewrite Ho. simpl. eexists. by repeat split.
      * destruct (Z.geb_spec (Topic.clock o) deadline); [|lia].
        rewrite orb_true_r. eexists. by repeat split.
    + eapply Forall_impl; [exact Hw|]. intros o' [H1 H2]. fold expected previous.
      by rewrite Hready.
  - intros observations H. unfold Topic.waitForTopicReady. by apply topic_tickLoop_total.
Qed.
End TopicFacts.

Lemma waitForTopicReady_witness :
  let options := Topic.mkOptions None None None (Some "Usage") None in
  exists r,
    Topic.waitForTopicReady toLowerCase options 0
      [Topic.mkObservation None None "" "https://app.devin.ai/wiki/o/r" 0; proseTick 200] = Some r
    /\ Topic.ready r = true /\ Topic.timedOut r = false
    /\ Topic.res_metrics r = mkMetrics true 58 3 false
    /\ Topic.heading (Topic.res_signature r) = "Usage".
Proof.
  intros options.
  pose proof (waitForTopicReady_spec toLowerCase options 0) as (_ & _ & _ & Hreturn & _).
  destruct (Hreturn [Topic.mkObservation None None "" "https://app.devin.ai/wiki/o/r" 0]
                    (proseTick 200) [])
    as (r & Hr & Hready & Htimed & Hm & Hs).
  - repeat constructor.
  - left. reflexivity.
  - exists r. split; [exact Hr|]. rewrite Hready, Htimed, Hm, Hs. by repeat split.
Defined.

(** * Facts on the clean-up *)

Lemma splitLines_cons (s : string) : exists line lines, Fixer.splitLines s = line :: lines.
Proof.
  destruct s as [|c s]; simpl; [eauto|].
  destruct (Fixer.isNewline c); [eauto|]. destruct (Fixer.splitLines s); eauto.
Qed.

Lemma splitLines_oneLine (s : string) : Forall (fun l => oneLine l = true) (Fixer.splitLines s).
Proof.
  induction s as [|c s IH]; simpl; [by repeat constructor|].
  destruct (Fixer.isNewline c) eqn:E; [by constructor|].
  destruct (Fixer.splitLines s) as [|line lines]; [constructor; [simpl; by rewrite E|done]|].
  apply Forall_cons in IH as [H1 H2]. constructor; [|done]. simpl. by rewrite E.
Qed.

Lemma joinLines_cons (line : string) (lines : list string) :
  lines <> [] -> Fixer.joinLines (line :: lines) = line +:+ Fixer.newline +:+ Fixer.joinLines lines.
Proof. by destruct lines. Qed.

Lemma append_String (c : ascii) (a b : string) : String c a +:+ b = String c (a +:+ b).
Proof. done. Qed.

Lemma append_nil_l (b : string) : "" +:+ b = b.
Proof. done. Qed.

Lemma append_nil_r (a : string) : a +:+ "" = a.
Proof. induction a as [|c a IH]; [done|]. by rewrite append_String, IH. Qed.

Lemma append_assoc (a b c : string) : (a +:+ b) +:+ c = a +:+ (b +:+ c).
Proof. induction a as [|x a IH]; [done|]. by rewrite !append_String, IH. Qed.

(** [join] undoes [split]. *)
Lemma joinLines_splitLines (s : string) : Fixer.joinLines (Fixer.splitLines s) = s.
Proof.
  induction s as [|c s IH]; [done|]. simpl.
  destruct (Fixer.isNewline c) eqn:E.
  - destruct (splitLines_cons s) as (line & lines & Hs). rewrite Hs in *.
    rewrite joinLines_cons by done. rewrite IH. unfold Fixer.isNewline in E.
    apply Ascii.eqb_eq in E. by subst c.
  - destruct (Fixer.splitLines s) as [|line lines]; [by subst s|].
    destruct lines as [|l2 lines]; [simpl in *; by subst s|].
    rewrite joinLines_cons by done. rewrite joinLines_cons in IH by done.
    rewrite append_String. by rewrite IH.
Qed.

Lemma splitLines_app (a b : string) :
  Fixer.splitLines (a +:+ Fixer.newline +:+ b) = Fixer.splitLines a ++ Fixer.splitLines b.
Proof.
  induction a as [|c a IH]; [done|]. rewrite append_String. simpl.
  destruct (Fixer.isNewline c); [by rewrite IH|]. rewrite IH.
  by destruct (splitLines_cons a) as (line & lines & ->).
Qed.

Lemma splitLines_one (s : string) : oneLine s = true -> Fixer.splitLines s = [s].
Proof.
  induction s as [|c s IH]; [done|]. simpl. intros H. apply andb_true_iff in H as [H1 H2].
  apply negb_true_iff in H1. rewrite H1, IH; done.
Qed.

(** [split] undoes [join] on lines. *)
Lemma splitLines_joinLines (lines : list string) :
  lines <> [] -> Forall (fun l => oneLine l = true) lines ->
  Fixer.splitLines (Fixer.joinLines lines) = lines.
Proof.
  induction lines as [|line lines IH]; [done|]. intros _ H.
  apply Forall_cons in H as [H1 H2].
  destruct lines as [|l2 lines]; [by apply splitLines_one|].
  rewrite joinLines_cons by done. rewrite splitLines_app, splitLines_one by done.
  by rewrite IH.
Qed.

Lemma splitLines_restore (text result : string) :
  Fixer.splitLines (Fixer.restoreNewline text result)
  = Fixer.splitLines result ++ (if Fixer.endsWithNewline text then [""] else []).
Proof.
  unfold Fixer.restoreNewline. destruct (Fixer.endsWithNewline text); [|by rewrite app_nil_r].
  rewrite <- (append_nil_r (result +:+ Fixer.newline)), append_assoc. apply splitLines_app.
Qed.

Lemma filter_all {A} (f : A -> bool) (l : list A) :
  Forall (fun x => f x = true) l -> List.filter f l = l.
Proof. induction 1 as [|x l H _ IH]; [done|]. simpl. by rewrite H, IH. Qed.

Lemma Forall_filter_keeps {A} (P : A -> Prop) (f : A -> bool) (l : list A) :
  Forall P l -> Forall P (List.filter f l).
Proof.
  induction 1 as [|x l H _ IH]; [constructor|]. simpl. destruct (f x); [by constructor|done].
Qed.

Lemma Forall_filter_true {A} (f : A -> bool) (l : list A) :
  Forall (fun x => f x = true) (List.filter f l).
Proof.
  induction l as [|x l IH]; [constructor|]. simpl. destruct (f x) eqn:E; [by constructor|done].
Qed.

(** [removeAskDevinLines]: no line of the result starts with the phrase,
    and the lines of the result are the other lines of the text in their
    order (one empty line when there is none), followed by one more empty
    line when the text ends with a line feed.  So a text that has no such
    line and ends with a line feed comes back with a second line feed at
    its end, and only a text that does not end with one comes back as it
    is. *)
Theorem removeAskDevinLines_spec (text : string) :
  let kept := List.filter (fun line => negb (Fixer.isAskDevin line)) (Fixer.splitLines text) in
  let extra := if Fixer.endsWithNewline text then [""] else [] in
  Forall (fun line => Fixer.isAskDevin line = false)
         (Fixer.splitLines (Fixer.removeAskDevinLines text))
  /\ Fixer.splitLines (Fixer.removeAskDevinLines text)
     = (if decide (kept = []) then [""] else kept) ++ extra
  /\ (Forall (fun line => Fixer.isAskDevin line = false) (Fixer.splitLines text) ->
      Fixer.removeAskDevinLines text
      = if Fixer.endsWithNewline text then text +:+ Fixer.newline else text).
Proof.
  intros kept extra.
  assert (Hlines : Fixer.splitLines (Fixer.removeAskDevinLines text)
                   = (if decide (kept = []) then [""] else kept) ++ extra).
  { unfold Fixer.removeAskDevinLines. rewrite splitLines_restore. fold kept extra. f_equal.
    destruct (decide (kept = [])) as [->|Hne]; [done|].
    apply splitLines_joinLines; [done|]. apply Forall_filter_keeps, splitLines_oneLine. }
  split; [|split; [exact Hlines|]].
  - rewrite Hlines. apply Forall_app. split.
    + destruct (decide (kept = [])); [by repeat constructor|].
      eapply Forall_impl; [apply Forall_filter_true|]. intros l H. by apply negb_true_iff.
    + unfold extra. destruct (Fixer.endsWithNewline text); by repeat constructor.
  - intros Hnone. unfold Fixer.removeAskDevinLines, Fixer.restoreNewline.
    rewrite filter_all, joinLines_splitLines; [done|].
    eapply Forall_impl; [exact Hnone|]. intros l H. by apply negb_true_iff.
Qed.

Lemma findIndex_Some (f : string -> bool) (lines : list string) (i : nat) :
  findIndex f lines = Some i ->
  exists line, lines !! i = Some line /\ f line = true
               /\ Forall (fun l => f l = false) (take i lines).
Proof.
  revert i. induction lines as [|l lines IH]; intros i; [done|]. simpl.
  destruct (f l) eqn:E.
  - intros [= <-]. exists l. by repeat split.
  - destruct (findIndex f lines) as [j|]; [|done]. simpl. intros [= <-].
    destruct (IH j eq_refl) as (line & H1 & H2 & H3). exists line. split; [done|].
    split; [done|]. simpl. by constructor.
Qed.

Lemma findIndex_head (f : string -> bool) (line : string) (lines : list string) :
  f line = true -> findIndex f (line :: lines) = Some 0%nat.
Proof. intros H. simpl. by rewrite H. Qed.

Lemma joinLines_app (before after : list string) :
  before <> [] -> after <> [] ->
  Fixer.joinLines (before ++ after)
  = Fixer.joinLines before +:+ Fixer.newline +:+ Fixer.joinLines after.
Proof.
  induction before as [|l before IH]; [done|]. intros _ Hafter.
  destruct before as [|l2 before].
  - simpl app. by rewrite joinLines_cons.
  - change ((l :: l2 :: before) ++ after) with (l :: ((l2 :: before) ++ after)).
    rewrite !joinLines_cons by done. rewrite IH by done. by rewrite !append_assoc.
Qed.

Lemma stripPreamble_cases (text : string) :
  (findIndex Fixer.isHeader (Fixer.splitLines text) = None /\ Fixer.stripPreamble text = text)
  \/ (findIndex Fixer.isHeader (Fixer.splitLines text) = Some 0%nat
      /\ Fixer.stripPreamble text = text)
  \/ (exists i, findIndex Fixer.isHeader (Fixer.splitLines text) = Some (S i)
        /\ Fixer.stripPreamble text
           = Fixer.restoreNewline text (Fixer.joinLines (drop (S i) (Fixer.splitLines text)))).
Proof.
  unfold Fixer.stripPreamble.
  destruct (findIndex Fixer.isHeader (Fixer.splitLines text)) as [[|i]|]; eauto.
Qed.

(** [stripPreamble]: a text whose first line is a header, or that has no
    header, comes back as it is.  Otherwise the text is a preamble without
    a header, a line feed, and a rest that starts with a header line, and
    the result is the rest, with one more line feed when the text ends with
    one.  The result always starts with a header line when the text has
    one, so that a second pass changes nothing. *)
Theorem stripPreamble_spec (text : string) :
  (Forall (fun l => Fixer.isHeader l = false) (Fixer.splitLines text)
   /\ Fixer.stripPreamble text = text)
  \/ (exists header lines, Fixer.splitLines (Fixer.stripPreamble text) = header :: lines
        /\ Fixer.isHeader header = true
        /\ Fixer.stripPreamble (Fixer.stripPreamble text) = Fixer.stripPreamble text
        /\ (Fixer.stripPreamble text = text
            \/ exists preamble rest,
                 text = preamble +:+ Fixer.newline +:+ rest
                 /\ Forall (fun l => Fixer.isHeader l = false) (Fixer.splitLines preamble)
                 /\ Fixer.stripPreamble text
                    = if Fixer.endsWithNewline text then rest +:+ Fixer.newline else rest)).
Proof.
  assert (Hfixed : forall t header lines,
            Fixer.splitLines t = header :: lines -> Fixer.isHeader header = true ->
            Fixer.stripPreamble t = t).
  { intros t header lines Ht Hh. unfold Fixer.stripPreamble. rewrite Ht.
    by rewrite findIndex_head. }
  destruct (stripPreamble_cases text) as [[Hi Hs]|[[Hi Hs]|(i & Hi & Hs)]].
  - left. split; [|done]. revert Hi.
    induction (Fixer.splitLines text) as [|l lines IH]; [constructor|].
    simpl. destruct (Fixer.isHeader l) eqn:E; [done|]. intros Hi.
    constructor; [done|]. apply IH. by destruct (findIndex Fixer.isHeader lines).
  - right. destruct (findIndex_Some _ _ _ Hi) as (header & Hheader & Hh & _).
    destruct (Fixer.splitLines text) as [|l lines] eqn:Hl; [done|].
    injection Hheader as ->. exists header, lines. rewrite !Hs.
    split; [done|]. split; [done|]. split; [done|]. by left.
  - right. destruct (findIndex_Some _ _ _ Hi) as (header & Hheader & Hh & Hbefore).
    set (lines := Fixer.splitLines text) in *.
    assert (Hdrop : drop (S i) lines = header :: drop (S (S i)) lines)
      by (by apply drop_S).
    assert (Hone : Forall (fun l => oneLine l = true) (drop (S i) lines)).
    { apply Forall_drop, splitLines_oneLine. }
    assert (Hsplit : Fixer.splitLines (Fixer.stripPreamble text)
                     = header :: drop (S (S i)) lines
                       ++ (if Fixer.endsWithNewline text then [""] else [])).
    { rewrite Hs, splitLines_restore, splitLines_joinLines; [|by rewrite Hdrop|done].
      by rewrite Hdrop. }
    exists header, (drop (S (S i)) lines ++ (if Fixer.endsWithNewline text then [""] else [])).
    split; [done|]. split; [done|]. split; [by apply (Hfixed _ _ _ Hsplit)|].
    right. exists (Fixer.joinLines (take (S i) lines)), (Fixer.joinLines (drop (S i) lines)).
    assert (Htake : take (S i) lines <> []).
    { apply lookup_lt_Some in Hheader. destruct lines; [simpl in Hheader; lia|done]. }
    split; [|split; [|done]].
    + rewrite <- joinLines_app; [|done|by rewrite Hdrop].
      rewrite take_drop. unfold lines. by rewrite joinLines_splitLines.
    + rewrite splitLines_joinLines; [done|done|]. apply Forall_take, splitLines_oneLine.
Qed.

(** * The pages of a project *)

Section ProjectFacts.
Variable URL_new : string -> option Url.
Variable URL_new_base : string -> string -> option Url.

Lemma prefixWithoutMarker_slash (segs : list string) :
  exists p, prefixWithoutMarker segs = "/" +:+ p.
Proof.
  unfold prefixWithoutMarker. destruct (2 <=? length segs)%nat; [by eexists|].
  destruct segs as [|seg [|? ?]]; by eexists.
Qed.

Lemma getProjectPrefix_slash (currentUrl : option string) (base : Url) :
  parseOpt URL_new currentUrl = Some base ->
  (exists p, getProjectPrefix_background URL_new currentUrl = Some ("/" +:+ p))
  /\ (exists p, getProjectPrefix_part_000 URL_new currentUrl = Some ("/" +:+ p)).
Proof.
  intros H. unfold getProjectPrefix_background, getProjectPrefix_part_000. rewrite H. split.
  - destruct (findIndex isMarker (pathSegments base)); [by eexists|].
    destruct (prefixWithoutMarker_slash (pathSegments base)) as [p ->]. by eexists.
  - destruct (findIndex isMarker (pathSegments base)).
    + destruct (Js.includes _ _); [destruct (1 <=? _)%nat|destruct (2 <=? _)%nat];
        by eexists.
    + destruct (prefixWithoutMarker_slash (pathSegments base)) as [p ->]. by eexists.
Qed.

(** [filterPagesToProject] of [background.js].  For a current address
    that does not parse, the pages come back as they are.  Otherwise
    [getProjectPrefix] gives a prefix that starts with a slash, so the
    test for a missing prefix never holds, and a page is kept exactly
    when its address, resolved on the origin of the current page, has
    that origin and a path that starts with the prefix: the pages that
    are kept are those pages, in their order. *)
Theorem project_filter_spec (pages : list Page) (currentUrl : option string) :
  match parseOpt URL_new currentUrl with
  | None =>
      getProjectPrefix_background URL_new currentUrl = None
      /\ filterPagesToProject_background URL_new URL_new_base pages currentUrl = pages
  | Some base =>
      exists p,
        getProjectPrefix_background URL_new currentUrl = Some ("/" +:+ p)
        /\ filterPagesToProject_background URL_new URL_new_base pages currentUrl
           = List.filter (fun page =>
               match pageUrlOn URL_new_base base page with
               | None => false
               | Some pageUrl =>
                   String.eqb (origin pageUrl) (origin base)
                   && Js.startsWith (pathname pageUrl) ("/" +:+ p)
               end) pages
  end.
Proof.
  destruct (parseOpt URL_new currentUrl) as [base|] eqn:Hbase.
  - destruct (getProjectPrefix_slash currentUrl base Hbase) as [[p Hp] _].
    exists p. split; [done|].
    unfold filterPagesToProject_background. rewrite Hbase, Hp.
    apply filter_ext. intros page. destruct (pageUrlOn URL_new_base base page); [|done].
    by destruct (String.eqb _ _).
  - unfold getProjectPrefix_background, filterPagesToProject_background. by rewrite Hbase.
Qed.

Lemma take_all {A} (n : nat) (l : list A) : (length l <= n)%nat -> take n l = l.
Proof. apply take_ge. Qed.

(** On a host whose name has no [devin.ai] in it, the two revisions
    compute the same project prefix and keep the same pages. *)
Theorem project_scope_revisions_agree (pages : list Page) (currentUrl : option string) :
  (forall base, parseOpt URL_new currentUrl = Some base ->
                Js.includes (hostname base) "devin.ai" = false) ->
  getProjectPrefix_part_000 URL_new currentUrl = getProjectPrefix_background URL_new currentUrl
  /\ filterPagesToProject_part_000 URL_new URL_new_base pages currentUrl
     = filterPagesToProject_background URL_new URL_new_base pages currentUrl.
Proof.
  intros Hhost.
  assert (Hp : getProjectPrefix_part_000 URL_new currentUrl
               = getProjectPrefix_background URL_new currentUrl).
  { unfold getProjectPrefix_part_000, getProjectPrefix_background.
    destruct (parseOpt URL_new currentUrl) as [base|] eqn:Hbase; [|done].
    rewrite (Hhost base eq_refl).
    destruct (findIndex isMarker (pathSegments base)) as [i|] eqn:Hi; [|done].
    destruct (findIndex_Some _ _ _ Hi) as (seg & Hseg & _).
    apply lookup_lt_Some in Hseg. f_equal. unfold prefixOf.
    destruct (Nat.leb_spec 2 (length (pathSegments base) - (i + 1))) as [H2|H2].
    - by rewrite Nat.min_r by lia.
    - rewrite Nat.min_l by lia. by rewrite !take_all by lia. }
  split; [exact Hp|].
  unfold filterPagesToProject_part_000, filterPagesToProject_background.
  destruct (parseOpt URL_new currentUrl) as [base|] eqn:Hbase; [|done].
  by rewrite (Hhost base eq_refl), Hp.
Qed.
End ProjectFacts.

Lemma project_scope_revisions_agree_witness :
  let pages := [mkPage "Overview" (Some "https://deepwiki.com/wiki/o") None None;
                mkPage "Other" (Some "https://deepwiki.com/other") None None] in
  getProjectPrefix_part_000 SimpleUrl.parse (Some "https://deepwiki.com/wiki/o")
  = getProjectPrefix_background SimpleUrl.parse (Some "https://deepwiki.com/wiki/o")
  /\ filterPagesToProject_part_000 SimpleUrl.parse (fun s _ => SimpleUrl.parse s) pages
       (Some "https://deepwiki.com/wiki/o")
     = filterPagesToProject_background SimpleUrl.parse (fun s _ => SimpleUrl.parse s) pages
         (Some "https://deepwiki.com/wiki/o").
Proof.
  intros pages.
  apply (project_scope_revisions_agree SimpleUrl.parse (fun s _ => SimpleUrl.parse s) pages
           (Some "https://deepwiki.com/wiki/o")).
  intros base [= <-]. reflexivity.
Defined.

(** * The account of a run *)

Lemma calm_turn (I : Worker -> Prop) (t : Turn) (w : Worker) :
  calm t -> I w -> I (fold_left interrupt (during t) w).
Proof. intros [-> _] H. exact H. Qed.

Lemma calm_awaitOk (I : Worker -> Prop) (op : Op) :
  (forall w, I w -> I (logged op w)) ->
  hoare calm I (awaitOk op) (fun _ => I) (fun _ => False) I.
Proof.
  intros Hl w ts Ht Hw. unfold awaitOk, bind, await. destruct ts as [|t ts]; simpl.
  - split; [done|]. by apply Hl.
  - apply Forall_cons in Ht as [[Hd (a & Ha)] Hts]. rewrite Ha, Hd. simpl.
    split; [done|]. by apply Hl.
Qed.

Lemma calm_sleep (I : Worker -> Prop) (ms : Z) :
  (forall w, I w -> I (logged (Sleep ms) w)) ->
  hoare calm I (sleep ms) (fun _ => I) (fun _ => False) I.
Proof.
  intros Hl. unfold sleep.
  apply (hoare_bind calm _ _ _ (fun _ => I)); [by apply calm_awaitOk|].
  intros ?. apply (hoare_ret calm tt (fun _ => I)).
Qed.

Lemma accounted_stable (n k : nat) (op : Op) : stable calm (accounted n k) op.
Proof. split; [done|]. intros w t. apply calm_turn. Qed.

Lemma accounted_broadcast n k type message level over w :
  accounted n k w -> accounted n k (broadcastBatchUpdate type message level over w).
Proof. done. Qed.

Lemma accounted_recorded n k desired content w :
  accounted n k w -> accounted n (S k) (recorded desired content w).
Proof.
  intros (Hc & Ht & Hk & Hp). unfold recorded, getUniqueFileName, accounted. simpl.
  rewrite length_app. simpl. repeat split; try done; lia.
Qed.

Lemma closing_stable (n k : nat) (op : Op) : stable calm (closing n k) op.
Proof. split; [done|]. intros w t. apply calm_turn. Qed.

(** An assertion that holds all along holds in particular when the
    function is left suspended. *)
Lemma preserves_loose {A} (I : Worker -> Prop) (m : Async A) :
  preserves calm I m -> hoare calm I m (fun _ => I) I (fun _ => True).
Proof.
  intros H. apply (hoare_conseq calm I I m _ (fun _ => I) _ I _ I); [exact H|tauto..].
Qed.

Section Account.
Variable URL_new : string -> option Url.
Variables n k : nat.

(** Steps through a function made of suspensions and tests. *)
Ltac account_steps :=
  repeat first
    [ apply preserves_ret | apply preserves_throw | apply preserves_get
    | apply preserves_cancelled
    | apply preserves_sleep, accounted_stable
    | apply preserves_getTabById, accounted_stable
    | apply preserves_navigateToPage, accounted_stable
    | apply preserves_waitForPageContent, accounted_stable
    | apply preserves_sendToTab, accounted_stable
    | apply preserves_awaitOk, accounted_stable
    | apply preserves_bind; [|intros]
    | apply preserves_try_catch; [|intros]
    | match goal with
      | |- preserves _ _ (if ?b then _ else _) => destruct b
      | |- preserves _ _ (match ?x with _ => _ end) => destruct x
      end ].

Lemma accounted_retryProbe page topic :
  preserves calm (accounted n k) (retryProbe page topic).
Proof. unfold retryProbe. account_steps. Qed.

Lemma accounted_announce page : preserves calm (accounted n k) (announceProcessing page).
Proof. apply preserves_update. by intros w Hw. Qed.

(** The end of a page: throwing leaves the counts as they are, returning
    leaves one more page processed. *)
Lemma accounted_convertAndRecord page readiness topic usePrefix :
  hoare calm (accounted n k) (convertAndRecord page readiness topic usePrefix)
    (fun _ => accounted n (S k)) (accounted n k) (fun _ => True).
Proof.
  unfold convertAndRecord.
  apply (hoare_bind calm _ _ _ (fun _ => accounted n k));
    [apply preserves_loose; account_steps|]. intros w0.
  apply (hoare_bind calm _ _ _ (fun _ => accounted n k));
    [apply preserves_loose; account_steps|]. intros first.
  apply (hoare_bind calm _ _ _ (fun _ => accounted n k));
    [apply preserves_loose; account_steps|]. intros ?; cbv beta.
  apply (hoare_bind calm _ _ _ (fun _ => accounted n k)).
  - apply preserves_loose.
    destruct (isMarkdownSuspiciouslyEmpty _ _); [|account_steps].
    apply preserves_bind; [account_steps|]. intros ?; cbv beta.
    apply preserves_bind; [apply accounted_retryProbe|]. intros retryReadiness.
    account_steps.
  - intros convertResponse. cbv zeta.
    apply (hoare_bind calm _ _ _ (fun _ => accounted n (S k))).
    + apply hoare_update. intros w Hw.
      match goal with |- context [getUniqueFileName ?d w] =>
        pose proof (accounted_recorded n k d (convertResponse ≫= markdown) w Hw) as H;
        unfold recorded in H; destruct (getUniqueFileName d w) as [name w1] end.
      cbn [fst snd] in H. by apply accounted_broadcast.
    + intros ?.
      apply (hoare_conseq calm _ (accounted n (S k)) _ _ (fun _ => accounted n (S k))
               _ (fun _ => False) _ (accounted n (S k)));
        [by apply calm_sleep|tauto..].
Qed.

(** A page of [background.js]. *)
Lemma accounted_processSinglePage page :
  hoare calm (accounted n k) (processSinglePage_background page)
    (fun _ => accounted n (S k)) (accounted n k) (fun _ => True).
Proof.
  unfold processSinglePage_background.
  apply hoare_guard_down; [by intros w (? & _)|].
  apply (hoare_bind calm _ _ _ (fun _ => accounted n k));
    [apply preserves_loose, accounted_announce|]. intros ?; cbv beta.
  apply (hoare_bind calm _ _ _ (fun _ => accounted n k));
    [apply preserves_loose; account_steps|]. intros w.
  apply (hoare_bind calm _ _ _ (fun _ => accounted n k));
    [apply preserves_loose; account_steps|]. intros ?; cbv beta.
  apply hoare_guard_down; [by intros w' (? & _)|].
  apply (hoare_bind calm _ _ _ (fun _ => accounted n k));
    [apply preserves_loose; account_steps|]. intros w'.
  apply (hoare_bind calm _ _ _ (fun _ => accounted n k));
    [apply preserves_loose; account_steps|]. intros readiness.
  apply accounted_convertAndRecord.
Qed.

(** A page in the loop: it is processed or it failed. *)
Lemma accounted_processOrFail page :
  hoare calm (accounted n k) (processOrFail URL_new Rev_background page)
    (fun _ => accounted n (S k)) (fun _ => False) (fun _ => True).
Proof.
  unfold processOrFail.
  apply (hoare_try_catch calm _ _ _ _ _ (accounted n k)).
  - apply accounted_processSinglePage.
  - intros e. apply hoare_update. intros w (Hc & Ht & Hk & Hp).
    split; [done|]. split; [done|]. split; [simpl; lia|done].
Qed.
End Account.

Section AccountOfRun.
Variable URL_new : string -> option Url.
Variable n : nat.

Lemma accounted_forEachPage (pages : list Page) (k : nat) :
  hoare calm (accounted n k) (forEachPage URL_new Rev_background pages)
    (fun _ => accounted n (k + length pages)) (fun _ => False) (fun _ => True).
Proof.
  revert k. induction pages as [|page rest IH]; intros k.
  - simpl. rewrite Nat.add_0_r. apply (hoare_ret calm tt (fun _ => accounted n k)).
  - cbn [forEachPage length].
    apply hoare_guard_down; [by intros w (? & _)|].
    apply (hoare_bind calm _ _ _ (fun _ => accounted n (S k)));
      [apply accounted_processOrFail|].
    intros ?. replace (k + S (length rest))%nat with (S k + length rest)%nat by lia.
    apply IH.
Qed.

(** The end of the [try] block: the archive and the report [completed],
    or no output and an exception. *)
Lemma accounted_finishRun (k : nat) :
  hoare calm (accounted n k) (finishRun)
    (fun _ => closing n k)
    (fun w => accounted n k w /\ processed (batchState w) = 0%nat)
    (fun _ => True).
Proof.
  unfold finishRun.
  apply (hoare_bind calm _ _ _ (fun a w => a = w /\ accounted n k w)); [apply hoare_get|].
  intros w0. cbv zeta.
  destruct (cancelRequested (batchState w0)) eqn:Hflag.
  { intros w ts _ [<- (Hc & _)]. congruence. }
  destruct (bool_decide (convertedPages (batchState w0) = [])) eqn:Hnone.
  - apply bool_decide_eq_true in Hnone. intros w ts Ht [<- Hw]. simpl.
    split; [done|]. split; [done|]. destruct Hw as (_ & _ & _ & Hp). by rewrite Hp, Hnone.
  - apply bool_decide_eq_false in Hnone.
    set (some := fun w : Worker => accounted n k w /\ (0 < processed (batchState w))%nat).
    apply (hoare_bind calm _ _ _ (fun _ => some)).
    { apply hoare_update. intros w [<- Hw]. split; [done|].
      destruct Hw as (_ & _ & _ & Hp). simpl. rewrite Hp.
      destruct (convertedPages (batchState w0)); [done|]. simpl. lia. }
    intros ?.
    apply (hoare_bind calm _ _ _ (fun _ => some)).
    { unfold createZipArchive.
      apply (hoare_bind calm _ _ _ (fun _ => some)).
      - apply (hoare_conseq calm _ some _ _ (fun a w => a = w /\ some w) _ (fun _ => False)
                 _ some); [apply hoare_get|..]; simpl; tauto.
      - intros w1.
        apply (hoare_bind calm _ _ _ (fun _ => some)).
        + apply (hoare_conseq calm _ some _ _ (fun _ => some) _ (fun _ => False) _ some);
            [by apply calm_awaitOk|tauto..].
        + intros ?. apply (hoare_ret calm tt (fun _ => some)). }
    intros ?. apply hoare_update. intros w [(Hc & Ht & Hk & Hp) Hpos].
    eexists. simpl. rewrite last_snoc. split; [done|]. simpl.
    split; [done|]. split; [done|]. split; [done|]. left. by split.
Qed.
End AccountOfRun.

Section AccountOfRun2.
Variable URL_new : string -> option Url.

Lemma closing_run (n k0 : nat) (pages : list Page) :
  hoare calm (fun w => accounted n k0 w /\ batchPages (batchState w) = pages)
    (runBatchProcessing URL_new Rev_background)
    (fun _ => closing n (k0 + length pages)) (fun _ => False) (fun _ => True).
Proof.
  unfold runBatchProcessing.
  apply (hoare_try_finally calm _ _ _ _ _ _ (fun _ => closing n (k0 + length pages))
           (fun _ => False)).
  - apply (hoare_try_catch calm _ _ _ _ _
             (fun w => accounted n (k0 + length pages) w /\ processed (batchState w) = 0%nat)).
    + intros w ts Ht [Hw Hpages]. rewrite get_bind, Hpages.
      clear Hpages. revert w ts Ht Hw.
      apply (hoare_bind calm (accounted n k0) (forEachPage URL_new Rev_background pages)
               (fun _ => finishRun) (fun _ => accounted n (k0 + length pages))
               (fun _ => closing n (k0 + length pages))
               (fun w => accounted n (k0 + length pages) w
                         /\ processed (batchState w) = 0%nat)
               (fun _ => True)).
      * apply (hoare_conseq calm _ (accounted n k0) _ _
                 (fun _ => accounted n (k0 + length pages)) _ (fun _ => False) _
                 (fun _ => True)); [apply accounted_forEachPage|tauto..].
      * intros ?. apply accounted_finishRun.
    + intros e. apply hoare_update. intros w [(Hc & Ht & Hk & Hp) Hzero].
      eexists. simpl. rewrite last_snoc. split; [done|]. simpl.
      split; [done|]. split; [done|]. split; [done|]. right. by split.
  - intros ?.
    apply (hoare_bind calm _ _ _ (fun _ => closing n (k0 + length pages))).
    + apply (hoare_conseq calm _ (closing n (k0 + length pages)) _ _
               (fun _ => closing n (k0 + length pages)) _ (fun _ => False) _
               (closing n (k0 + length pages))); [|tauto..].
      apply kept_restoreOriginalPage; [done| |done].
      intros t w. apply calm_turn.
    + intros ?. by apply hoare_update.
  - apply hoare_false.
Qed.

(** A run of [background.js] in which no handler interrupts and every
    request is answered accounts for every page: when it returns, its
    last report is [completed], with at least one page processed, or
    [error], with none, and in that report the pages processed and
    failed are the ones that were counted at the start plus one for each
    page of the list; for a run that was just started, [processed] and
    [failed] add up to [total]. *)
Theorem calm_run_accounts_for_every_page (w : Worker) (turns : list Turn) :
  Forall calm turns ->
  cancelRequested (batchState w) = false ->
  processed (batchState w) = length (convertedPages (batchState w)) ->
  let result := runBatchProcessing URL_new Rev_background w turns in
  fst (fst result) = Returned tt ->
  exists r, last (broadcasts (snd (fst result))) = Some r
    /\ (rprocessed r + rfailed r
        = processed (batchState w) + failed (batchState w)
          + length (batchPages (batchState w)))%nat
    /\ rtotal r = total (batchState w) /\ running r = false
    /\ ((rtype r = "completed" /\ (0 < rprocessed r)%nat)
        \/ (rtype r = "error" /\ rprocessed r = 0%nat)).
Proof.
  intros Hcalm Hflag Hp result Hr.
  destruct (closing_run (total (batchState w))
              (processed (batchState w) + failed (batchState w))
              (batchPages (batchState w)) w turns Hcalm) as [_ H].
  { by repeat split. }
  fold result in H. rewrite Hr in H. exact H.
Qed.

(** In [part_000], a page whose address [new URL] refuses - a relative
    one, for instance - is announced and the tab is sent to it, but the
    page is neither converted nor counted as failed: the loop goes on
    with [processed], [failed] and the outputs as they were. *)
Theorem unparsable_page_is_skipped (page : Page) (w : Worker) (t1 t2 : Turn)
    (rest : list Turn) :
  cancelRequested (batchState w) = false ->
  parseOpt URL_new (url page) = None ->
  calm t1 -> calm t2 ->
  exists w',
    processOrFail URL_new Rev_part_000 page w (t1 :: t2 :: rest) = (Returned tt, w', rest)
    /\ processed (batchState w') = processed (batchState w)
    /\ failed (batchState w') = failed (batchState w)
    /\ convertedPages (batchState w') = convertedPages (batchState w)
    /\ (exists r, broadcasts w' = broadcasts w ++ [r] /\ rtype r = "processing")
    /\ requests w'
       = requests w ++ [GetTab (tabId (batchState w));
                        NavigateToPage (tabId (batchState w)) (url page)].
Proof.
  intros Hflag Hurl [Hd1 (a1 & Ha1)] [Hd2 (a2 & Ha2)].
  unfold processOrFail, try_catch, processSinglePage, processSinglePage_part_000.
  unfold bind at 1. unfold cancelled, bind at 1, get, ret. cbn [fst snd]. rewrite Hflag.
  unfold bind at 1. unfold announceProcessing, update. cbn [fst snd].
  unfold bind at 1. unfold get. cbn [fst snd].
  unfold bind at 1. unfold getTabById, bind at 1, awaitOk, bind at 1, await. cbn [fst snd].
  rewrite Ha1, Hd1. cbn [fold_left]. unfold ret. cbn [fst snd].
  rewrite Hurl.
  destruct (parseOpt URL_new (asTab a1));
    unfold bind at 1, get; cbn [fst snd];
    unfold navigateToPage, bind at 1, awaitOk, bind at 1, await; cbn [fst snd];
    rewrite Ha2, Hd2; cbn [fold_left]; unfold ret; cbn [fst snd];
    (eexists; split; [reflexivity|]; simpl;
     split; [done|]; split; [done|]; split; [done|];
     split; [eexists; split; [reflexivity|done]|]; by rewrite <- app_assoc).
Qed.
End AccountOfRun2.

Lemma calm_run_accounts_for_every_page_witness :
  let result := runBatchProcessing SimpleUrl.parse Rev_background twoPages completeRun in
  fst (fst result) = Returned tt
  /\ exists r, last (broadcasts (snd (fst result))) = Some r
       /\ (rprocessed r + rfailed r = 2)%nat
       /\ rtotal r = 2%nat /\ running r = false
       /\ ((rtype r = "completed" /\ (0 < rprocessed r)%nat)
           \/ (rtype r = "error" /\ rprocessed r = 0%nat)).
Proof.
  split; [reflexivity|].
  apply (calm_run_accounts_for_every_page SimpleUrl.parse twoPages completeRun).
  - repeat constructor; by eexists.
  - reflexivity.
  - reflexivity.
  - reflexivity.
Defined.

Lemma unparsable_page_is_skipped_witness :
  exists w',
    processOrFail SimpleUrl.parse Rev_part_000 relativePage runningWorker
      [answers (ATab (Some "https://deepwiki.com/o/r")); answers AUnit]
    = (Returned tt, w', [])
    /\ processed (batchState w') = processed (batchState runningWorker)
    /\ failed (batchState w') = failed (batchState runningWorker)
    /\ convertedPages (batchState w') = convertedPages (batchState runningWorker)
    /\ (exists r, broadcasts w' = broadcasts runningWorker ++ [r] /\ rtype r = "processing")
    /\ requests w'
       = requests runningWorker
         ++ [GetTab (tabId (batchState runningWorker));
             NavigateToPage (tabId (batchState runningWorker)) (url relativePage)].
Proof.
  apply (unparsable_page_is_skipped SimpleUrl.parse relativePage runningWorker
           (answers (ATab (Some "https://deepwiki.com/o/r"))) (answers AUnit) []).
  - reflexivity.
  - reflexivity.
  - split; [done|by eexists].
  - split; [done|by eexists].
Defined.

Lemma append_cancel_r (a b s : string) : a +:+ s = b +:+ s -> a = b.
Proof.
  revert b. induction a as [|c a IH]; intros [|d b] H; [done| | |].
  - apply (f_equal String.length) in H. rewrite !length_append in H. simpl in H. lia.
  - apply (f_equal String.length) in H. rewrite !length_append in H. simpl in H. lia.
  - injection H as -> H. by rewrite (IH b H).
Qed.

Lemma entries_snoc (calls : list (string * option string)) (call : string * option string) :
  Zip.entries (calls ++ [call]) = <[fst call := snd call]> (Zip.entries calls).
Proof. unfold Zip.entries. by rewrite fold_left_app. Qed.

Lemma entries_pages (files : list ConvertedPage) (page : ConvertedPage) :
  NoDup (map fileName files) -> page ∈ files ->
  Zip.entries (map (fun page => (fileName page +:+ ".md", content page)) files)
    !! (fileName page +:+ ".md") = Some (content page).
Proof.
  induction files as [|last files IH] using rev_ind; intros Hnd Hin.
  - by apply elem_of_nil in Hin.
  - rewrite map_app in Hnd. apply NoDup_app in Hnd as (Hnd & Hfresh & _).
    rewrite map_app. simpl. rewrite entries_snoc. simpl.
    apply elem_of_app in Hin as [Hin|Hin].
    + rewrite lookup_insert_ne; [by apply IH|].
      intros E. apply append_cancel_r in E. apply (Hfresh (fileName page)).
      * apply list_elem_of_fmap. by exists page.
      * rewrite <- E. simpl. by left.
    + apply list_elem_of_singleton in Hin as ->. by rewrite lookup_insert_eq.
Qed.

Lemma entries_other (files : list ConvertedPage) (name : string) :
  (forall page, page ∈ files -> fileName page +:+ ".md" <> name) ->
  Zip.entries (map (fun page => (fileName page +:+ ".md", content page)) files) !! name = None.
Proof.
  induction files as [|last files IH] using rev_ind; intros H; [done|].
  rewrite map_app. simpl. rewrite entries_snoc. simpl.
  rewrite lookup_insert_ne.
  - apply IH. intros page Hp. apply H, elem_of_app. by left.
  - apply H, elem_of_app. right. by apply list_elem_of_singleton.
Qed.

(** The archive of outputs whose names differ, as a run makes them: it has
    the index under [README.md]; every output is in it under its name with
    [.md], with its content, except an output named [README], whose entry
    is the index; and it has no other entry. *)
Theorem archive_entries (folder : string) (files : list ConvertedPage) :
  NoDup (map fileName files) ->
  Zip.archive folder files !! "README.md" = Some (Some (Zip.indexContent folder files))
  /\ (forall page, page ∈ files ->
        Zip.archive folder files !! (fileName page +:+ ".md")
        = Some (if String.eqb (fileName page) "README"
                then Some (Zip.indexContent folder files) else content page))
  /\ (forall name, name <> "README.md" ->
        (forall page, page ∈ files -> fileName page +:+ ".md" <> name) ->
        Zip.archive folder files !! name = None).
Proof.
  intros Hnd. unfold Zip.archive, Zip.fileCalls. rewrite entries_snoc. simpl.
  split; [by rewrite lookup_insert_eq|]. split.
  - intros page Hin. destruct (String.eqb_spec (fileName page) "README") as [E|E].
    + rewrite E. simpl. by rewrite lookup_insert_eq.
    + rewrite lookup_insert_ne.
      * by apply entries_pages.
      * intros E'. apply E. by apply (append_cancel_r _ _ ".md").
  - intros name Hname Hother. rewrite lookup_insert_ne by done. by apply entries_other.
Qed.

Lemma archive_entries_witness :
  let files := [mkConverted "README" (Some "# The project"); mkConverted "Usage" None] in
  Zip.archive "r" files !! "README.md" = Some (Some (Zip.indexContent "r" files))
  /\ (forall page, page ∈ files ->
        Zip.archive "r" files !! (fileName page +:+ ".md")
        = Some (if String.eqb (fileName page) "README"
                then Some (Zip.indexContent "r" files) else content page))
  /\ (forall name, name <> "README.md" ->
        (forall page, page ∈ files -> fileName page +:+ ".md" <> name) ->
        Zip.archive "r" files !! name = None).
Proof.
  apply (archive_entries "r" [mkConverted "README" (Some "# The project");
                              mkConverted "Usage" None]).
  apply NoDup_cons. split.
  - intros H. apply list_elem_of_singleton in H. discriminate.
  - apply NoDup_singleton.
Defined.

(** The status that is asked for once a run has returned, whatever
    happened during the run, is the last report that the run broadcast:
    [completed], [cancelled] or [error], with [running] false and the
    counts of the end of the run, although the state, and its counts, were
    reset. *)
Theorem status_after_run (URL_new : string -> option Url) (rev : Revision)
    (w : Worker) (turns : list Turn) :
  let result := runBatchProcessing URL_new rev w turns in
  let w' := snd (fst result) in
  fst (fst result) = Returned tt ->
  last (broadcasts w') = Some (getBatchStatusPayload w')
  /\ running (getBatchStatusPayload w') = false
  /\ isTerminalType (rtype (getBatchStatusPayload w')) = true
  /\ processed (batchState w') = 0%nat /\ total (batchState w') = 0%nat.
Proof.
  intros result w' Hr.
  assert (Hany : Forall anyTurn turns) by (apply Forall_forall; by intros).
  destruct (wound_up_run URL_new rev w turns Hany Logic.I) as [_ Hres].
  fold result in Hres. rewrite Hr in Hres. fold w' in Hres.
  destruct Hres as [[Hrun (r & Hlast & Hrec & Hfalse & Htype)] Hb].
  assert (E : getBatchStatusPayload w' = r).
  { unfold getBatchStatusPayload. cbv zeta. rewrite Hrun, Hrec. by destruct r. }
  rewrite E, Hb. by repeat split.
Qed.

Lemma status_after_run_witness :
  let w' := snd (fst (runBatchProcessing SimpleUrl.parse Rev_background twoPages completeRun)) in
  last (broadcasts w') = Some (getBatchStatusPayload w')
  /\ running (getBatchStatusPayload w') = false
  /\ isTerminalType (rtype (getBatchStatusPayload w')) = true
  /\ processed (batchState w') = 0%nat /\ total (batchState w') = 0%nat.
Proof.
  exact (status_after_run SimpleUrl.parse Rev_background twoPages completeRun eq_refl).
Defined.
